(* ===== verification/_CoqProject ===== *)
-Q . S2P
Prelude.v
Wire.v
Connection.v
Operations.v
KeyAccess.v
GoStd.v
Sha256.v
Interfaces.v
Protocol.v
ExecutionStore.v
Runtime.v
SqlStore.v
Gateway.v
Ownership.v
Control.v
Custody.v
Transport.v
BridgeClient.v
Lambda.v
Development.v
Connector.v
ConnectorCommand.v
BrowserRoutes.v
Browser.v
ApiTypes.v
Api.v
ControlClient.v
ResourceClient.v
ResourceLinks.v
AccountApi.v
FunctionBindings.v
Directories.v
ApiAuthority.v
Lifecycle.v
