(* ===== verification/Prelude.v ===== *)
(** * Verification of lotor-go

    lotor-go is the Go SDK of Lotor. This library models its own logic, file by file, and
    proves what makes each part correct. Paths below are relative to [src/].

    ** The program

    - [lotor/] is a client of the LWP/1 protocol: a binary wire format ([wire.go]), one
      pipelined connection shared by goroutines and a reader ([client.go]), typed operations
      on it ([client.go], [key_access.go]), and the discovery of the runtime that owns an
      application by signed assertions ([ownership.go]).
    - [bridge/] lets an application run functions that Lotor's Control plane authorizes.
      [protocol.go] defines signed messages; [runtime.go] serves them, with a durable
      [ExecutionStore] that [sqlstore/postgres.go] implements; [lambda/] adapts events to that
      handler; [client/] calls a runtime, over [transport/] or another dispatcher.
      A handler may ask Control for proofs and payloads ([validation.go], [discovery.go],
      [workload.go], [resource.go]) and use resource keys under custody ([custody.go]).
      [development/] carries the same messages over an outbound tunnel.
    - [lotorhttp/] holds HTTP clients of the Lotor API: one for an application or, delegated,
      for one of its users ([control_client.go] and the files that add methods to it), one
      for a workload ([resource_client.go]). It also holds the verifier of gateway assertions
      ([gateway_assertion.go]), the cookie boundary for browsers ([browseradapter/]), and a
      gateway that runs invitation commands of a browser on the owning runtime
      ([handler.go], [runtime.go], [control.go]).

    ** The library

    - [Prelude]: outcomes of Go calls (value, error, panic, and divergence of the model),
      machine integers, bytes and strings, shared lemmas, the hint databases and tactics.
    - [Wire] ([lotor/wire.go]): values, varints and frames. [Connection] ([Client],
      [readLoop], [do], [Watch] of [lotor/client.go]): the shared client as a step relation.
      [Operations] and [KeyAccess] (the methods of [lotor/client.go] and
      [lotor/key_access.go]): requests and the decoding of answers.
    - [GoStd], [Sha256]: the parts of the Go standard library that the sources compute with,
      executable. [Interfaces]: the parts used through their contract, as type classes of
      operations ([Ed25519], [Json], [RawJson]) and of laws, with instances.
    - [Protocol] ([bridge/protocol.go]), [ExecutionStore] (the interface in
      [bridge/runtime.go] as a class with laws), [Runtime] ([bridge/runtime.go]): a request
      is a program over its effects, and requests interleave over one store.
      [SqlStore] ([bridge/sqlstore/postgres.go]) is an instance of the store's class, with
      the installation of its schema.
    - [Gateway] ([lotorhttp/gateway_assertion.go]), [Ownership] ([lotor/ownership.go]).
    - [Control] ([bridge/validation.go], [discovery.go], [workload.go], [resource.go]),
      [Custody] ([bridge/custody.go]): key cells as a heap, AES-GCM as a class.
    - [Transport] ([bridge/transport/https.go]), [BridgeClient] ([bridge/client/client.go]),
      [Lambda] ([bridge/lambda/handler.go]).
    - [Development] ([bridge/development/protocol.go], [proof.go]), [Connector]
      ([connector.go], [provider.go], [local.go]): the connector as a step relation over the
      reader, the handler goroutines and the ends of connections. [ConnectorCommand]
      ([cmd/lotor-development-connector/main.go]): the program around it.
    - [BrowserRoutes], [Browser] ([lotorhttp/browseradapter/resources.go], [adapter.go]).
    - [ApiTypes]: the structs of the API clients as records, and the JSON they are sent as.
      [Api]: a call of a client as a program over HTTP exchanges, pauses, looks at its context
      and random bytes, with the traces it can have in any environment and a logic for them;
      queries and paths of URLs.
    - [ControlClient] ([lotorhttp/control_client.go], [control_payload_read.go], the
      checks of URLs in [control.go]), [ResourceClient] ([resource_client.go]),
      [ResourceLinks] ([resource_links.go], [resource_policies.go]), [AccountApi]
      ([account_invitations.go], [account_resources.go], [billing_portal.go],
      [catalog_read.go], [catalog_discovery.go], [development_connections.go],
      [resource_events.go]), [FunctionBindings] ([function_bindings.go]), [Directories]
      ([scim.go], [organization_relay.go]). [ApiAuthority]: all calls of a control client as one
      type, with the authority each needs.
    - [Lifecycle] ([handler.go], [runtime.go], the verifier of [control.go]): the gateway over
      the interfaces of the source, and their implementations over [Ownership], [Operations]
      and [Api].

    Definitions keep the names of the source. A long function is split where its branches
    are, and composed the way the source composes them. A module of samples at the end of a
    file instantiates every parameter and carries the witnesses of its theorems.

    ** What the theorems show

    - Wire and connection: encoding and decoding are inverse, decoding terminates within the
      buffer, the reader handles any splitting of the stream, never panics on its channels
      or blocks, pairs answers with calls, and wakes every waiting caller when it exits, while a
      call made after that ends by its timeout; a frame that does not parse wedges it. A
      failed dial leaves no connection open. An operation panics exactly on an error
      response without arguments; access checks fail closed.
    - Functions: over all interleavings and restarts a handler runs at most once per
      identity and only for a verified, authorized and unexpired grant; a request for a
      completed identity runs nothing and is answered with the stored result; from an empty
      journal on, every signed answer verifies for its request; the PostgreSQL journal refines the store's
      contract under statement faults, and installing it keeps the rows and leaves either the
      old schema or the new one; manifests are canonical and a signature
      accepted for another purpose is a forgery. The client reports no effect only if it sent nothing, accepts the grants
      that the runtime accepts, and end to end gets the result that the runtime signed if
      their clocks agree to five seconds, and an unknown outcome otherwise.
      The Lambda entry point is the same handler.
    - Network: the dialer connects to the texts of addresses outside a table of reserved
      blocks, never to names; addresses with a zone are compared with part of the table only.
    - Control and custody: proofs and answers are bound to the grant; decryption accepts
      exactly what was sealed for its context; a key is unusable after its callback.
    - Gateway and ownership: accepted assertions are bound to their request and used once;
      the resolver returns verified, unexpired assertions and retries at most once.
    - Development connections: frames are typed, proofs verify exactly in their window, the
      connector bounds its handlers and answers each request at most once, its lease is
      renewed in time, and reconnecting backs off within its bounds. The program reads its
      configuration from a private file only and reports constant texts.
    - Browser: what is forwarded, on whose authority and on which routes; the allowlist
      equals a table; cookies of a sign-in pass the later checks; answers are confined.
    - API clients: whatever a call does, its credentials go to its own application at Control
      only, and it sends nothing without the authority that its code requires; links and executions are
      committed only as they were preflighted; payload objects are moved without
      credentials and accepted exactly by size and digest; what is sealed for a provider opens
      to itself; waiting is bounded and returns a finished operation; a function client is
      bound to the grant that was asked for; statuses carry no credentials.
    - Lifecycle gateway: the runtime is called once, for a request of the application's own
      pages with a verified session only, and end to end a reported success is the answer of a
      runtime found through verified assertions. Its scope was compared with the identity
      unless the assertion lapsed from the cache after the check.

    ** Bounds and fuel

    Machine integers are [Z] with the wrap-around written out where the source can reach it;
    [int] is 64 bits. [putUvarint] takes at most ten rounds, [decodeValue] has the length
    of its buffer plus one as fuel, and both are proved never to run out. The runes of
    a string take its length, a decimal number of [int64] twenty digits. A
    slice has at most 2^48/96 elements of the wire's value type, as [make] panics beyond.
    SHA-256, hex, base64 and UTF-8 are structural or have their input's length as fuel.

    ** Assumptions

    Signatures, JSON and AES-GCM are used through their documented laws (a signature verifies,
    a clean value survives encoding, sealing and opening are inverse); no theorem
    assumes that signatures cannot be forged, so what is accepted is stated as what verified.
    The parsing of URLs, addresses and media types, HTTP exchanges, dialing, name resolution,
    clocks, randomness and contexts are arguments. Locked regions, channel operations and SQL
    statements are atomic.

    ** Not modelled

    The tuning of HTTP clients and transports (idle connections, timeouts, TLS versions) and
    the deadlines of contexts beyond those that the code checks, which bound only how long an
    exchange may take; the clearing of buffers that are not read again in the connector's
    program; and [examples/basic], which connects to a server, calls the operations of
    [lotor/] in sequence and logs the answers. All other implementation files are modelled;
    lines outside the map there are imports, comments, and declarations of constants and
    interfaces that appear in the definitions that use them. *)
From stdpp Require Export base gmap strings list sorting.
From Stdlib Require Export ZArith Strings.Byte Lia.

#[export] Set Default Goal Selector "!".
#[global] Open Scope Z_scope.

(** * Outcomes of Go code

    A Go call returns a value, returns an error, panics, or (only in the
    model) exhausts the fuel of a recursion that is not structural. *)
Inductive outcome (E A : Type) : Type :=
| Ret (a : A)
| Throw (e : E)
| Panic
| Diverge.
Arguments Ret {E A} a.
Arguments Throw {E A} e.
Arguments Panic {E A}.
Arguments Diverge {E A}.

#[global] Instance outcome_ret {E} : MRet (outcome E) := fun A a => Ret a.
#[global] Instance outcome_bind {E} : MBind (outcome E) := fun A B f m =>
  match m with
  | Ret a => f a
  | Throw e => Throw e
  | Panic => Panic
  | Diverge => Diverge
  end.

(** [l[i]] on a Go slice: out of range panics. *)
Definition idx {E A} (l : list A) (i : nat) : outcome E A :=
  match l !! i with Some x => Ret x | None => Panic end.

Definition panics {E A} (m : outcome E A) : bool :=
  match m with Panic => true | _ => false end.

Definition returns {E A} (m : outcome E A) : bool :=
  match m with Ret _ => true | _ => false end.

Definition diverges {E A} (m : outcome E A) : bool :=
  match m with Diverge => true | _ => false end.

(** * Machine integers: values of [Z] with the wrap-around written out *)
Definition u16 (z : Z) : Z := z mod 2 ^ 16.
Definition u32 (z : Z) : Z := z mod 2 ^ 32.
Definition u64 (z : Z) : Z := z mod 2 ^ 64.
Definition i64 (z : Z) : Z := (z + 2 ^ 63) mod 2 ^ 64 - 2 ^ 63.
Definition is_u16 (z : Z) : Prop := 0 <= z < 2 ^ 16.
Definition is_u32 (z : Z) : Prop := 0 <= z < 2 ^ 32.
Definition is_u64 (z : Z) : Prop := 0 <= z < 2 ^ 64.
Definition is_i64 (z : Z) : Prop := - 2 ^ 63 <= z < 2 ^ 63.

(** * Bytes and strings

    A Go [byte] is [Byte.byte], a [[]byte] is [list byte], a Go [string] (an
    arbitrary byte sequence) is [String.string]. *)
Definition byteZ (b : byte) : Z := Z.of_N (Byte.to_N b).

(** The conversion [byte(z)], which keeps the low eight bits. *)
Definition to_byte (z : Z) : byte :=
  match Byte.of_N (Z.to_N (z mod 256)) with Some b => b | None => x00 end.

#[global] Instance byte_eq_dec : EqDecision byte := Byte.byte_eq_dec.

(** [[]byte(s)] and [string(b)]. *)
Definition bytes_of (s : string) : list byte := String.list_byte_of_string s.
Definition string_of (b : list byte) : string := String.string_of_list_byte b.

(** [len(x)] as a Go [int]. *)
Definition len {A} (l : list A) : Z := Z.of_nat (length l).
Definition slen (s : string) : Z := len (bytes_of s).

(** * Automation *)
Create HintDb lotor.
Create Rewrite HintDb lotor_rw.

(** Turns boolean tests of the code into propositions and back. *)
Ltac breflect :=
  repeat match goal with
  | H : _ && _ = true |- _ => apply andb_true_iff in H; destruct H
  | H : _ || _ = false |- _ => apply orb_false_iff in H; destruct H
  | H : negb _ = true |- _ => apply negb_true_iff in H
  | H : negb _ = false |- _ => apply negb_false_iff in H
  | H : (_ =? _) = true |- _ => apply Z.eqb_eq in H
  | H : (_ =? _) = false |- _ => apply Z.eqb_neq in H
  | H : (_ <? _) = true |- _ => apply Z.ltb_lt in H
  | H : (_ <? _) = false |- _ => apply Z.ltb_ge in H
  | H : (_ <=? _) = true |- _ => apply Z.leb_le in H
  | H : (_ <=? _) = false |- _ => apply Z.leb_gt in H
  | H : bool_decide _ = true |- _ => apply bool_decide_eq_true in H
  | H : bool_decide _ = false |- _ => apply bool_decide_eq_false in H
  end.

(** Runs the binds of the outcome monad and nothing else. *)
Ltac obind := cbn [mbind outcome_bind mret outcome_ret].

(** * Lemmas on outcomes *)
Lemma bind_Ret_inv {E A B} (m : outcome E A) (f : A → outcome E B) b :
  m ≫= f = Ret b ↔ ∃ a, m = Ret a ∧ f a = Ret b.
Proof. split; [destruct m; naive_solver | by intros (a & -> & ?)]. Qed.

Lemma bind_panics {E A B} (m : outcome E A) (f : A → outcome E B) :
  panics m = false → (∀ a, m = Ret a → panics (f a) = false) →
  panics (m ≫= f) = false.
Proof. destruct m; naive_solver. Qed.

Lemma bind_diverges {E A B} (m : outcome E A) (f : A → outcome E B) :
  diverges m = false → (∀ a, m = Ret a → diverges (f a) = false) →
  diverges (m ≫= f) = false.
Proof. destruct m; naive_solver. Qed.

Lemma idx_lt {E A} (l : list A) i :
  (i < length l)%nat → ∃ x, l !! i = Some x ∧ @idx E A l i = Ret x.
Proof.
  intros H. destruct (lookup_lt_is_Some_2 l i H) as [x Hx].
  exists x. unfold idx. by rewrite Hx.
Qed.

Lemma idx_panics {E A} (l : list A) i :
  (i < length l)%nat → panics (@idx E A l i) = false.
Proof. intros H. by destruct (@idx_lt E A l i H) as (x & _ & ->). Qed.

Lemma returns_Ret {E A} (m : outcome E A) : returns m = true ↔ ∃ a, m = Ret a.
Proof. destruct m; naive_solver. Qed.

(** * Lemmas on integers and bytes *)
Lemma byteZ_range b : 0 <= byteZ b < 256.
Proof. unfold byteZ. pose proof (Byte.to_N_bounded b). lia. Qed.

Lemma byteZ_to_byte z : byteZ (to_byte z) = z mod 256.
Proof.
  unfold byteZ, to_byte. pose proof (Z.mod_pos_bound z 256 ltac:(lia)).
  destruct (Byte.of_N (Z.to_N (z mod 256))) as [b|] eqn:Hb.
  - apply Byte.to_of_N in Hb. rewrite Hb. lia.
  - apply Byte.of_N_None_iff in Hb. lia.
Qed.

Lemma to_byte_byteZ b : to_byte (byteZ b) = b.
Proof.
  unfold to_byte, byteZ. rewrite Z.mod_small by apply byteZ_range.
  by rewrite N2Z.id, Byte.of_to_N.
Qed.

Lemma byteZ_inj b c : byteZ b = byteZ c → b = c.
Proof. intros H. by rewrite <- (to_byte_byteZ b), H, to_byte_byteZ. Qed.

(** A decidable property of bytes holds of all of them if it holds of 0, ..., 255. *)
Lemma byte_forall (p : byte → bool) :
  forallb (fun n => p (to_byte (Z.of_nat n))) (seq 0 256) = true → ∀ b, p b = true.
Proof.
  intros H b. rewrite forallb_forall in H. pose proof (byteZ_range b).
  specialize (H (Z.to_nat (byteZ b))). rewrite Z2Nat.id, to_byte_byteZ in H by lia.
  apply H, in_seq. lia.
Qed.

Lemma i64_id z : is_i64 z → i64 z = z.
Proof. unfold is_i64, i64. intros H. rewrite Z.mod_small; lia. Qed.

Lemma u64_id z : is_u64 z → u64 z = z.
Proof. apply Z.mod_small. Qed.

Lemma i64_range z : is_i64 (i64 z).
Proof.
  unfold is_i64, i64. pose proof (Z.mod_pos_bound (z + 2 ^ 63) (2 ^ 64) ltac:(lia)). lia.
Qed.

(** Disjoint bits: [|] is [+]. *)
Lemma lor_shiftl_add a b k :
  0 <= k → 0 <= a < 2 ^ k → Z.lor a (Z.shiftl b k) = a + b * 2 ^ k.
Proof.
  intros Hk Ha. rewrite <- Z.shiftl_mul_pow2 by done. symmetry. apply Z.add_nocarry_lor.
  apply Z.bits_inj'. intros n Hn. rewrite Z.land_spec, Z.bits_0, Z.shiftl_spec by done.
  destruct (Z.ltb_spec n k).
  - rewrite (Z.testbit_neg_r b) by lia. by rewrite andb_false_r.
  - rewrite <- (Z.mod_small a (2 ^ k)), Z.mod_pow2_bits_high by lia. done.
Qed.

Lemma bytes_of_string_of b : bytes_of (string_of b) = b.
Proof. apply String.list_byte_of_string_of_list_byte. Qed.

Lemma string_of_bytes_of s : string_of (bytes_of s) = s.
Proof. apply String.string_of_list_byte_of_string. Qed.

Lemma bytes_of_inj s t : bytes_of s = bytes_of t → s = t.
Proof. intros H. by rewrite <- (string_of_bytes_of s), H, string_of_bytes_of. Qed.

Lemma bytes_of_app s t : bytes_of (s +:+ t) = bytes_of s ++ bytes_of t.
Proof.
  unfold bytes_of, String.list_byte_of_string. rewrite <- map_app. f_equal.
  induction s as [|c s IH]; [done|]. cbn [String.list_ascii_of_string].
  change (String c s +:+ t) with (String c (s +:+ t)). simpl. by rewrite IH.
Qed.

Lemma slen_empty value : value = "" ↔ slen value = 0.
Proof.
  split; [by intros ->|]. unfold slen, len. intros H. apply bytes_of_inj.
  destruct (bytes_of value); [done|simpl in H; lia].
Qed.

#[export] Hint Rewrite byteZ_to_byte to_byte_byteZ bytes_of_string_of
  string_of_bytes_of : lotor_rw.

(** * Lemmas on lists *)
Lemma lookup_middle {A} (pre post : list A) x : (pre ++ x :: post) !! length pre = Some x.
Proof. by apply list_lookup_middle. Qed.

Lemma take_drop_middle_app {A} (pre mid post : list A) :
  take (length mid) (drop (length pre) (pre ++ mid ++ post)) = mid.
Proof. by rewrite drop_app_length, take_app_length. Qed.

(** * Lemmas on lists *)
Lemma forallb_ext {A} (p q : A → bool) l : (∀ x, p x = q x) → forallb p l = forallb q l.
Proof. intros H. induction l as [|x l IH]; simpl; [done|]. by rewrite H, IH. Qed.

Lemma negb_existsb {A} (p : A → bool) l : negb (existsb p l) = forallb (fun x => negb (p x)) l.
Proof. induction l as [|x l IH]; simpl; [done|]. by rewrite negb_orb, IH. Qed.
