(* ===== verification/Wire.v ===== *)
(** The LWP/1 wire format: [src/lotor/wire.go].

    Values, varints, zigzag integers, the value codec and the length-prefixed
    frames, with the panics of Go indexing and of [make] kept as outcomes. *)
From S2P Require Import Prelude.

(** * Constants *)
Definition protoVersion : Z := 1.

Definition frameREQ : Z := 1.
Definition frameRESP : Z := 2.
Definition frameEVENT : Z := 3.
Definition framePONG : Z := 5.

Definition statusOK : Z := 0.
Definition statusERR : Z := 1.

Definition tagNull : Z := 0.
Definition tagBool : Z := 1.
Definition tagU64 : Z := 2.
Definition tagI64 : Z := 3.
Definition tagStr : Z := 4.
Definition tagBytes : Z := 5.
Definition tagAddr : Z := 6.
Definition tagList : Z := 7.
Definition tagMap : Z := 8.

(** The errors of this file: [errShort] and the [fmt.Errorf] of an unknown tag. *)
Inductive wire_error : Type :=
| errShort
| errUnknownTag (tag : Z).

(** * Values: the struct [value] *)
Inductive value : Type := Value {
  Map : gmap string value;
  Str : string;
  Bytes : list byte;
  List : list value;
  U64 : Z;
  I64 : Z;
  Kind : Z;
  Bool : bool
}.

(** [value{}]: the zero value, also what indexing a Go map yields for an absent
    key. *)
Definition value_zero : value := Value ∅ "" [] [] 0 0 tagNull false.

Definition vU64 (n : Z) : value := Value ∅ "" [] [] n 0 tagU64 false.
Definition vI64 (n : Z) : value := Value ∅ "" [] [] 0 n tagI64 false.
Definition vStr (s : string) : value := Value ∅ s [] [] 0 0 tagStr false.
Definition vAddr (s : string) : value := Value ∅ s [] [] 0 0 tagAddr false.
Definition vBool (enabled : bool) : value := Value ∅ "" [] [] 0 0 tagBool enabled.
Definition vBytes (bytes : list byte) : value := Value ∅ "" bytes [] 0 0 tagBytes false.
Definition vList (values : list value) : value := Value ∅ "" [] values 0 0 tagList false.
Definition vNull : value := value_zero.
Definition vMap (values : gmap string value) : value := Value values "" [] [] 0 0 tagMap false.

Definition uint64ToInt64 (n : Z) : Z := if Z.shiftr (2 ^ 64 - 1) 1 <? n then 0 else n.

Definition nonNegativeInt64ToUint64 (n : Z) : Z := if n <? 0 then 0 else n.

Definition uint64ToInt (n : Z) : option Z :=
  if Z.shiftr (2 ^ 64 - 1) 1 <? n then None else Some n.

Definition intToUint32 (n : Z) : outcome wire_error Z :=
  if (n <? 0) || (2 ^ 32 - 1 <? n) then Panic else Ret n.

Definition asStr (v : value) : string :=
  if (v.(Kind) =? tagStr) || (v.(Kind) =? tagAddr) then v.(Str) else "".

Definition asNum (v : value) : Z :=
  if v.(Kind) =? tagU64 then uint64ToInt64 v.(U64)
  else if v.(Kind) =? tagI64 then v.(I64)
  else 0.

Definition asBool (v : value) : bool := (v.(Kind) =? tagBool) && v.(Bool).

(** * Varints *)

(** The loop of [putUvarint]; a [uint64] is exhausted after at most ten rounds
    ([putUvarint_eq] is the loop equation without the bound). *)
Fixpoint putUvarint_loop (fuel : nat) (v : Z) : list byte :=
  match fuel with
  | O => []
  | S fuel =>
      let c := Z.land v 127 in
      let v := Z.shiftr v 7 in
      let c := if v =? 0 then c else Z.lor c 128 in
      if v =? 0 then [to_byte c] else to_byte c :: putUvarint_loop fuel v
  end.

(** [putUvarint(b, v)] is [b ++ putUvarint v]. *)
Definition putUvarint (v : Z) : list byte := putUvarint_loop 10 v.

(** The loop of [readUvarint], over the bytes from position [p] on. *)
Fixpoint readUvarint_loop (rest : list byte) (p : nat) (result shift : Z)
    : outcome wire_error (Z * nat) :=
  match rest with
  | [] => Throw errShort
  | c :: rest =>
      let result := Z.lor result (u64 (Z.shiftl (Z.land (byteZ c) 127) shift)) in
      if Z.land (byteZ c) 128 =? 0 then Ret (result, S p)
      else readUvarint_loop rest (S p) result (shift + 7)
  end.

Definition readUvarint (b : list byte) (p : nat) : outcome wire_error (Z * nat) :=
  readUvarint_loop (drop p b) p 0 0.

Definition zigzag (v : Z) : Z :=
  if 0 <=? v then u64 (Z.shiftl v 1)
  else
    let magnitude := i64 (- i64 (v + 1)) in
    u64 (nonNegativeInt64ToUint64 magnitude * 2 + 1).

Definition unzigzag (v : Z) : Z :=
  let half := Z.shiftr v 1 in
  if Z.land v 1 =? 0 then uint64ToInt64 half
  else i64 (i64 (- uint64ToInt64 half) - 1).

(** * The value codec *)

(** [sort.Strings]: ascending bytewise order. *)
Definition sortStrings (keys : list string) : list string := merge_sort String.le keys.

(** The loop over the sorted keys; [enc] holds the encoding of each entry and
    [keys] the order in which [range] produced the keys. *)
Definition encodeEntries (enc : gmap string (list byte)) (keys : list string) : list byte :=
  concat ((fun key => putUvarint (slen key) ++ bytes_of key ++ default [] (enc !! key))
    <$> sortStrings keys).

(** [encodeValue(b, v)] is [b ++ encodeValue v]. *)
Fixpoint encodeValue (v : value) : list byte :=
  match v with
  | Value m s bs l u i kind bo =>
      if kind =? tagNull then [to_byte tagNull]
      else if kind =? tagBool then [to_byte tagBool; to_byte (if bo then 1 else 0)]
      else if kind =? tagU64 then to_byte tagU64 :: putUvarint u
      else if kind =? tagI64 then to_byte tagI64 :: putUvarint (zigzag i)
      else if (kind =? tagStr) || (kind =? tagAddr) then
        to_byte kind :: putUvarint (slen s) ++ bytes_of s
      else if kind =? tagBytes then to_byte tagBytes :: putUvarint (len bs) ++ bs
      else if kind =? tagList then
        to_byte tagList :: putUvarint (len l) ++ concat (map encodeValue l)
      else if kind =? tagMap then
        to_byte tagMap :: putUvarint (Z.of_nat (size m)) ++
          encodeEntries (encodeValue <$> m) (map_to_list m).*1
      else [to_byte tagNull]
  end.

Definition readBytes (b : list byte) (p : nat) : outcome wire_error (list byte * nat) :=
  '(n, p) ← readUvarint b p;
  match uint64ToInt n with
  | Some length =>
      if len b - Z.of_nat p <? length then Throw errShort
      else
        let length := Z.to_nat length in
        Ret (take length (drop p b), (p + length)%nat)
  | None => Throw errShort
  end.

(** The largest capacity [make([]value, 0, n)] accepts: [value] occupies 96
    bytes and the gc runtime refuses allocations above [2^48] bytes on 64-bit
    platforms; beyond that [make] panics. *)
Definition maxSliceCap : Z := 2 ^ 48 / 96.

(** [for range n], carrying the read position and the accumulated result; [k]
    bounds the number of rounds (each consumes input, see [decodeValue_total]). *)
Fixpoint for_range {T} (k : nat) (n : Z) (step : T → nat → outcome wire_error (T * nat))
    (acc : T) (p : nat) : outcome wire_error (T * nat) :=
  if n <=? 0 then Ret (acc, p)
  else match k with
       | O => Diverge
       | S k => '(acc, p) ← step acc p; for_range k (n - 1) step acc p
       end.

(** One round of the list loop (and of the argument loop of [decodeFrame]). *)
Definition decode_item (dec : nat → outcome wire_error (value * nat))
    (items : list value) (p : nat) : outcome wire_error (list value * nat) :=
  '(it, p) ← dec p; Ret (items ++ [it], p).

(** One round of the map loop. *)
Definition decode_entry (b : list byte) (dec : nat → outcome wire_error (value * nat))
    (m : gmap string value) (p : nat) : outcome wire_error (gmap string value * nat) :=
  '(key, p) ← readBytes b p;
  '(val, p) ← dec p;
  Ret (<[string_of key := val]> m, p).

(** The [switch tag] of [decodeValue]; [dec] is the recursive call. *)
Definition decodeTagged (dec : nat → outcome wire_error (value * nat)) (b : list byte)
    (tag : Z) (p : nat) : outcome wire_error (value * nat) :=
  if tag =? tagNull then Ret (vNull, p)
  else if tag =? tagBool then
    match b !! p with
    | None => Throw errShort
    | Some x => Ret (vBool (negb (byteZ x =? 0)), S p)
    end
  else if tag =? tagU64 then
    '(n, p) ← readUvarint b p; Ret (vU64 n, p)
  else if tag =? tagI64 then
    '(n, p) ← readUvarint b p; Ret (vI64 (unzigzag n), p)
  else if tag =? tagStr then
    '(s, p) ← readBytes b p; Ret (vStr (string_of s), p)
  else if tag =? tagAddr then
    '(s, p) ← readBytes b p; Ret (vAddr (string_of s), p)
  else if tag =? tagBytes then
    '(s, p) ← readBytes b p; Ret (vBytes s, p)
  else if tag =? tagList then
    '(n, p) ← readUvarint b p;
    if maxSliceCap <? n then Panic
    else
      '(items, p) ← for_range (S (length b)) n (decode_item dec) [] p;
      Ret (vList items, p)
  else if tag =? tagMap then
    '(n, p) ← readUvarint b p;
    '(m, p) ← for_range (S (length b)) n (decode_entry b dec) ∅ p;
    Ret (vMap m, p)
  else Throw (errUnknownTag tag).

Fixpoint decodeValue_fuel (fuel : nat) (b : list byte) (p : nat)
    : outcome wire_error (value * nat) :=
  match fuel with
  | O => Diverge
  | S fuel =>
      match b !! p with
      | None => Throw errShort
      | Some tag => decodeTagged (decodeValue_fuel fuel b) b (byteZ tag) (S p)
      end
  end.

(** [decodeValue(b, &p)]: every nested call starts at a later position, so one
    level of fuel per byte is enough ([decodeValue_total]). *)
Definition decodeValue (b : list byte) (p : nat) : outcome wire_error (value * nat) :=
  decodeValue_fuel (S (length b)) b p.

(** * Frames *)
Record frame : Type := Frame {
  args : list value;
  typ : Z;
  flags : Z;
  reqID : Z;
  opcode : Z
}.

(** [binary.BigEndian]. *)
Definition AppendUint16 (n : Z) : list byte := [to_byte (Z.shiftr n 8); to_byte n].
Definition AppendUint32 (n : Z) : list byte :=
  [to_byte (Z.shiftr n 24); to_byte (Z.shiftr n 16); to_byte (Z.shiftr n 8); to_byte n].

(** [binary.BigEndian.Uint16(buf[p:])] and [Uint32(buf[p:])]: the slice and the
    bounds check of the decoder panic on short input. *)
Definition Uint16 (buf : list byte) (p : nat) : outcome wire_error Z :=
  b1 ← idx buf (p + 1);
  b0 ← idx buf p;
  Ret (Z.lor (byteZ b1) (Z.shiftl (byteZ b0) 8)).
Definition Uint32 (buf : list byte) (p : nat) : outcome wire_error Z :=
  b3 ← idx buf (p + 3);
  b2 ← idx buf (p + 2);
  b1 ← idx buf (p + 1);
  b0 ← idx buf p;
  Ret (Z.lor (Z.lor (Z.lor (byteZ b3) (Z.shiftl (byteZ b2) 8))
    (Z.shiftl (byteZ b1) 16)) (Z.shiftl (byteZ b0) 24)).

(** The bytes of a frame after its length prefix. *)
Definition frameBody (f : frame) : list byte :=
  [to_byte protoVersion; to_byte f.(typ)] ++ AppendUint16 f.(flags) ++
  AppendUint32 f.(reqID) ++ AppendUint16 f.(opcode) ++
  putUvarint (len f.(args)) ++ concat (encodeValue <$> f.(args)).

Definition encodeFrame (f : frame) : outcome wire_error (list byte) :=
  let p := frameBody f in
  n ← intToUint32 (len p);
  Ret (AppendUint32 n ++ p).

(** [decodeFrame]: [None] is [ok == false]; a decoding error is not reported. *)
Definition decodeFrame (buf : list byte) : outcome wire_error (option (frame * nat)) :=
  if len buf <? 4 then Ret None
  else
    n ← Uint32 buf 0;
    let total := 4 + n in
    if len buf <? total then Ret None
    else
      ver ← idx buf 4;
      ty ← idx buf 5;
      fl ← Uint16 buf 6;
      rid ← Uint32 buf 8;
      op ← Uint16 buf 12;
      match readUvarint buf 14 with
      | Throw _ => Ret None
      | Panic => Panic
      | Diverge => Diverge
      | Ret (argc, p) =>
          if maxSliceCap <? argc then Panic
          else
            match for_range (S (length buf)) argc
                    (decode_item (decodeValue buf)) [] p with
            | Throw _ => Ret None
            | Panic => Panic
            | Diverge => Diverge
            | Ret (vs, _) => Ret (Some (Frame vs (byteZ ty) fl rid op, Z.to_nat total))
            end
      end.

(** * Varints: lemmas *)

Lemma putUvarint_loop_S fuel v :
  putUvarint_loop (S fuel) v =
    if Z.shiftr v 7 =? 0 then [to_byte (Z.land v 127)]
    else to_byte (Z.lor (Z.land v 127) 128) :: putUvarint_loop fuel (Z.shiftr v 7).
Proof. simpl. by destruct (Z.shiftr v 7 =? 0). Qed.

#[local] Arguments putUvarint_loop : simpl never.

Lemma putUvarint_loop_fuel f1 f2 v :
  0 <= v < 2 ^ (7 * Z.of_nat (S f1)) → (f1 <= f2)%nat →
  putUvarint_loop (S f1) v = putUvarint_loop (S f2) v.
Proof.
  revert f2 v. induction f1 as [|f1 IH]; intros f2 v Hv Hf;
    rewrite (putUvarint_loop_S _ v), (putUvarint_loop_S f2 v).
  - replace (Z.shiftr v 7) with 0; [done|].
    rewrite Z.shiftr_div_pow2 by lia. symmetry. apply Z.div_small. lia.
  - destruct (Z.eqb_spec (Z.shiftr v 7) 0); [done|]. f_equal.
    destruct f2 as [|f2]; [lia|]. apply IH; [|lia].
    rewrite Z.shiftr_div_pow2 by lia. split; [apply Z.div_pos; lia|].
    apply Z.div_lt_upper_bound; [lia|]. rewrite <- Z.pow_add_r by lia.
    replace (7 + 7 * Z.of_nat (S f1)) with (7 * Z.of_nat (S (S f1))) by lia. lia.
Qed.

(** The loop equation of [putUvarint]: ten rounds always finish. *)
Lemma putUvarint_eq v :
  is_u64 v →
  putUvarint v =
    if Z.shiftr v 7 =? 0 then [to_byte (Z.land v 127)]
    else to_byte (Z.lor (Z.land v 127) 128) :: putUvarint (Z.shiftr v 7).
Proof.
  intros Hv. unfold putUvarint, is_u64 in *. rewrite putUvarint_loop_S.
  destruct (Z.eqb_spec (Z.shiftr v 7) 0); [done|]. f_equal.
  apply putUvarint_loop_fuel; [|lia].
  rewrite Z.shiftr_div_pow2 by lia. split; [apply Z.div_pos; lia|].
  apply Z.div_lt_upper_bound; simpl; lia.
Qed.

Lemma putUvarint_loop_length fuel v : (length (putUvarint_loop fuel v) <= fuel)%nat.
Proof.
  revert v. induction fuel as [|fuel IH]; intros v; [done|].
  rewrite putUvarint_loop_S. case_match; simpl; [lia|]. specialize (IH (Z.shiftr v 7)). lia.
Qed.

Lemma putUvarint_length v : (1 <= length (putUvarint v) <= 10)%nat.
Proof.
  unfold putUvarint. pose proof (putUvarint_loop_length 10 v). split; [|done].
  rewrite putUvarint_loop_S. case_match; simpl; lia.
Qed.

Lemma u64_lor a b : u64 (Z.lor a b) = Z.lor (u64 a) (u64 b).
Proof. unfold u64. rewrite <- !Z.land_ones by lia. apply Z.land_lor_distr_l. Qed.

Lemma varint_split v s :
  0 <= v → 0 <= s →
  Z.shiftl v s = Z.lor (Z.shiftl (Z.land v 127) s) (Z.shiftl (Z.shiftr v 7) (s + 7)).
Proof.
  intros Hv Hs. apply Z.bits_inj'. intros n Hn.
  rewrite Z.lor_spec, !Z.shiftl_spec by lia.
  change 127 with (Z.ones 7). destruct (Z.ltb_spec (n - s) 0) as [Hlt|Hge].
  - rewrite !Z.testbit_neg_r by lia. done.
  - rewrite Z.land_spec, Z.testbit_ones_nonneg by lia.
    destruct (Z.ltb_spec (n - s) 7).
    + rewrite (Z.testbit_neg_r _ (n - (s + 7))) by lia. by destruct (Z.testbit v (n - s)).
    + rewrite Z.shiftr_spec by lia. replace (n - (s + 7) + 7) with (n - s) by lia.
      by destruct (Z.testbit v (n - s)).
Qed.

Lemma varint_byte_cont v :
  byteZ (to_byte (Z.lor (Z.land v 127) 128)) = Z.lor (Z.land v 127) 128.
Proof.
  rewrite byteZ_to_byte. change 256 with (2 ^ 8). rewrite <- Z.land_ones by lia.
  rewrite Z.land_lor_distr_l, <- Z.land_assoc. done.
Qed.

Lemma varint_byte_last v : byteZ (to_byte (Z.land v 127)) = Z.land v 127.
Proof.
  rewrite byteZ_to_byte. change 256 with (2 ^ 8). rewrite <- Z.land_ones by lia.
  rewrite <- Z.land_assoc. done.
Qed.

Lemma readUvarint_loop_put fuel v rest p result shift :
  0 <= v < 2 ^ (7 * Z.of_nat fuel) → (0 < fuel)%nat → 0 <= shift →
  readUvarint_loop (putUvarint_loop fuel v ++ rest) p result shift =
    Ret (Z.lor result (u64 (Z.shiftl v shift)), (p + length (putUvarint_loop fuel v))%nat).
Proof.
  revert v p result shift. induction fuel as [|fuel IH]; intros v p result shift Hv Hf Hs; [lia|].
  rewrite putUvarint_loop_S. destruct (Z.eqb_spec (Z.shiftr v 7) 0) as [Hz|Hnz].
  - simpl. rewrite varint_byte_last. rewrite <- !Z.land_assoc.
    change (Z.land 127 128) with 0. change (Z.land 127 127) with 127.
    rewrite Z.land_0_r. simpl. rewrite (varint_split v shift), Hz, Z.shiftl_0_l by lia.
    rewrite Z.lor_0_r. f_equal. f_equal. lia.
  - simpl. rewrite varint_byte_cont.
    replace (Z.land (Z.lor (Z.land v 127) 128) 128) with 128.
    2:{ rewrite Z.land_lor_distr_l, <- Z.land_assoc. change (Z.land 127 128) with 0.
        by rewrite Z.land_0_r. }
    replace (Z.land (Z.lor (Z.land v 127) 128) 127) with (Z.land v 127).
    2:{ rewrite Z.land_lor_distr_l, <- Z.land_assoc. change (Z.land 128 127) with 0.
        by rewrite Z.lor_0_r. }
    simpl. rewrite IH; [| |destruct fuel; [|lia]|lia].
    + rewrite (varint_split v shift), u64_lor, Z.lor_assoc by lia. f_equal. f_equal. lia.
    + rewrite Z.shiftr_div_pow2 by lia. split; [apply Z.div_pos; lia|].
      apply Z.div_lt_upper_bound; [lia|]. rewrite <- Z.pow_add_r by lia.
      replace (7 + 7 * Z.of_nat fuel) with (7 * Z.of_nat (S fuel)) by lia. lia.
    + exfalso. apply Hnz. rewrite Z.shiftr_div_pow2 by lia. apply Z.div_small. lia.
Qed.

Lemma readUvarint_put v pre post :
  is_u64 v →
  readUvarint (pre ++ putUvarint v ++ post) (length pre) =
    Ret (v, (length pre + length (putUvarint v))%nat).
Proof.
  unfold is_u64. intros Hv. unfold readUvarint, putUvarint. rewrite drop_app_length.
  rewrite readUvarint_loop_put by (simpl; lia).
  by rewrite Z.shiftl_0_r, Z.lor_0_l, u64_id.
Qed.

Lemma readUvarint_loop_progress rest p result shift n p' :
  readUvarint_loop rest p result shift = Ret (n, p') → (p < p' <= p + length rest)%nat.
Proof.
  revert p result shift. induction rest as [|c rest IH]; intros p result shift; simpl; [done|].
  case_match; [intros [= <- <-]; lia|]. intros Hrec%IH. lia.
Qed.

Lemma readUvarint_progress b p n p' :
  readUvarint b p = Ret (n, p') → (p < p' <= length b)%nat.
Proof.
  unfold readUvarint. intros H. pose proof H as H'.
  apply readUvarint_loop_progress in H. rewrite length_drop in H.
  destruct (decide (length b <= p)%nat) as [Hle|]; [|lia].
  rewrite drop_ge in H' by done. done.
Qed.

Lemma readUvarint_loop_range rest p result shift n p' :
  is_u64 result → readUvarint_loop rest p result shift = Ret (n, p') → is_u64 n.
Proof.
  revert p result shift. induction rest as [|c rest IH]; intros p result shift Hr; simpl; [done|].
  assert (is_u64 (Z.lor result (u64 (Z.shiftl (Z.land (byteZ c) 127) shift)))).
  { rewrite <- (u64_id result Hr), <- u64_lor. apply Z.mod_pos_bound. lia. }
  case_match; [by intros [= <- <-]|]. by apply IH.
Qed.

Lemma readUvarint_range b p n p' : readUvarint b p = Ret (n, p') → is_u64 n.
Proof. apply readUvarint_loop_range. unfold is_u64. lia. Qed.

Lemma readUvarint_loop_outcome rest p result shift :
  panics (readUvarint_loop rest p result shift) = false
  ∧ diverges (readUvarint_loop rest p result shift) = false.
Proof.
  revert p result shift. induction rest as [|c rest IH]; intros; simpl; [done|].
  by case_match.
Qed.

(** * Zigzag: lemmas *)
Lemma zigzag_eq v : is_i64 v → zigzag v = if 0 <=? v then 2 * v else - 2 * v - 1.
Proof.
  unfold is_i64, zigzag, nonNegativeInt64ToUint64, u64. intros Hv.
  destruct (Z.leb_spec 0 v).
  - rewrite Z.shiftl_mul_pow2, Z.mod_small by lia. lia.
  - rewrite (i64_id (v + 1)), i64_id by (unfold is_i64; lia).
    destruct (Z.ltb_spec (- (v + 1)) 0); [lia|]. rewrite Z.mod_small; lia.
Qed.

Lemma unzigzag_eq n :
  is_u64 n → unzigzag n = if Z.even n then n / 2 else - (n / 2) - 1.
Proof.
  unfold is_u64, unzigzag, uint64ToInt64. intros Hn.
  change (Z.shiftr (2 ^ 64 - 1) 1) with (2 ^ 63 - 1).
  rewrite Z.shiftr_div_pow2 by lia. change (2 ^ 1) with 2.
  assert (0 <= n / 2 < 2 ^ 63).
  { split; [apply Z.div_pos; lia | apply Z.div_lt_upper_bound; lia]. }
  destruct (Z.ltb_spec (2 ^ 63 - 1) (n / 2)); [lia|].
  change (Z.land n 1) with (Z.land n (Z.ones 1)). rewrite Z.land_ones by lia.
  change (2 ^ 1) with 2. rewrite Zmod_even. destruct (Z.even n); simpl; [done|].
  rewrite (i64_id (- (n / 2))), i64_id by (unfold is_i64; lia). done.
Qed.

Lemma zigzag_range v : is_i64 v → is_u64 (zigzag v).
Proof.
  intros Hv. rewrite zigzag_eq by done. unfold is_i64, is_u64 in *.
  destruct (Z.leb_spec 0 v); lia.
Qed.

Lemma unzigzag_range n : is_u64 n → is_i64 (unzigzag n).
Proof.
  intros Hn. rewrite unzigzag_eq by done. unfold is_u64, is_i64 in *.
  assert (0 <= n / 2 < 2 ^ 63).
  { split; [apply Z.div_pos; lia | apply Z.div_lt_upper_bound; lia]. }
  destruct (Z.even n); lia.
Qed.

Lemma unzigzag_zigzag_id v : is_i64 v → unzigzag (zigzag v) = v.
Proof.
  intros Hv. rewrite unzigzag_eq by (by apply zigzag_range).
  rewrite zigzag_eq by done. destruct (Z.leb_spec 0 v).
  - rewrite Z.even_mul. simpl. rewrite Z.mul_comm. apply Z.div_mul. lia.
  - replace (Z.even (-2 * v - 1)) with false.
    2:{ replace (-2 * v - 1) with (1 + 2 * (- v - 1)) by lia. by rewrite Z.even_add_mul_2. }
    replace (-2 * v - 1) with (1 + (- v - 1) * 2) by lia.
    rewrite Z.div_add by lia. change (1 / 2) with 0. lia.
Qed.

Lemma zigzag_unzigzag_id n : is_u64 n → zigzag (unzigzag n) = n.
Proof.
  intros Hn. rewrite zigzag_eq.
  - rewrite unzigzag_eq by done. unfold is_u64 in Hn. pose proof (Z_div_mod_eq_full n 2) as Hd.
    rewrite Zmod_even in Hd. destruct (Z.even n).
    + destruct (Z.leb_spec 0 (n / 2)); lia.
    + destruct (Z.leb_spec 0 (- (n / 2) - 1)); lia.
  - by apply unzigzag_range.
Qed.

(** * Values: the well-formedness invariant *)

(** The values the client builds and the decoder produces: only the field that
    belongs to the kind is set, numbers are in range, and lengths fit an [int]
    (and an allocatable slice, for lists). *)
Inductive wf_value : value → Prop :=
| wf_null : wf_value vNull
| wf_bool b : wf_value (vBool b)
| wf_u64 n : is_u64 n → wf_value (vU64 n)
| wf_i64 n : is_i64 n → wf_value (vI64 n)
| wf_str s : slen s < 2 ^ 63 → wf_value (vStr s)
| wf_addr s : slen s < 2 ^ 63 → wf_value (vAddr s)
| wf_bytes bs : len bs < 2 ^ 63 → wf_value (vBytes bs)
| wf_list l :
    len l <= maxSliceCap → (∀ x, x ∈ l → wf_value x) → wf_value (vList l)
| wf_map m :
    Z.of_nat (size m) < 2 ^ 64 →
    (∀ k x, m !! k = Some x → slen k < 2 ^ 63) →
    (∀ k x, m !! k = Some x → wf_value x) →
    wf_value (vMap m).

#[export] Hint Constructors wf_value : lotor.

(** Encodings of the entries of a map, in the order the loop writes them. *)
Definition entryBytes (enc : gmap string (list byte)) (key : string) : list byte :=
  putUvarint (slen key) ++ bytes_of key ++ default [] (enc !! key).

(** * The codec: lemmas *)
Lemma slen_nonneg s : 0 <= slen s.
Proof. unfold slen, len. lia. Qed.

Lemma encodeValue_list l :
  encodeValue (vList l) = to_byte tagList :: putUvarint (len l) ++ concat (encodeValue <$> l).
Proof. done. Qed.

Lemma encodeValue_map m :
  encodeValue (vMap m) = to_byte tagMap :: putUvarint (Z.of_nat (size m)) ++
    concat (entryBytes (encodeValue <$> m) <$> sortStrings (map_to_list m).*1).
Proof. done. Qed.

Lemma encodeValue_length v : (1 <= length (encodeValue v))%nat.
Proof. destruct v; simpl; repeat case_match; simpl; lia. Qed.

Lemma readBytes_put s pre post :
  len s < 2 ^ 63 →
  readBytes (pre ++ (putUvarint (len s) ++ s) ++ post) (length pre) =
    Ret (s, (length pre + length (putUvarint (len s) ++ s))%nat).
Proof.
  intros Hs. unfold readBytes.
  replace (pre ++ (putUvarint (len s) ++ s) ++ post)
    with (pre ++ putUvarint (len s) ++ (s ++ post)) by (by rewrite <- !app_assoc).
  assert (0 <= len s) by (unfold len; lia).
  rewrite readUvarint_put by (unfold is_u64; lia). simpl. unfold uint64ToInt.
  change (Z.shiftr (2 ^ 64 - 1) 1) with (2 ^ 63 - 1).
  destruct (Z.ltb_spec (2 ^ 63 - 1) (len s)); [lia|].
  rewrite (assoc_L (++) pre), <- length_app.
  destruct (Z.ltb_spec (len ((pre ++ putUvarint (len s)) ++ s ++ post) -
    Z.of_nat (length (pre ++ putUvarint (len s)))) (len s)) as [Hlt|Hge].
  { unfold len in Hlt. rewrite (length_app (pre ++ _)), (length_app s) in Hlt. lia. }
  unfold len at 1. rewrite Nat2Z.id, take_drop_middle_app.
  f_equal. f_equal. rewrite !length_app. unfold len. rewrite Nat2Z.id. lia.
Qed.

Lemma for_range_step {T} k n (step : T → nat → outcome wire_error (T * nat)) acc p acc' p' :
  0 < n → step acc p = Ret (acc', p') →
  for_range (S k) n step acc p = for_range k (n - 1) step acc' p'.
Proof. intros Hn Hs. simpl. destruct (Z.leb_spec n 0); [lia|]. by rewrite Hs. Qed.

Lemma for_range_done {T} k (step : T → nat → outcome wire_error (T * nat)) acc p :
  for_range k 0 step acc p = Ret (acc, p).
Proof. by destruct k. Qed.

#[local] Arguments for_range : simpl never.

Lemma len_cons {A} (x : A) l : len (x :: l) = len l + 1.
Proof. unfold len. simpl. lia. Qed.

(** [codec_ok dec x]: [dec] reads back the encoding of [x] anywhere in a buffer. *)
Definition codec_ok (fuel : nat) (x : value) : Prop :=
  ∀ pre post,
    decodeValue_fuel fuel (pre ++ encodeValue x ++ post) (length pre) =
      Ret (x, (length pre + length (encodeValue x))%nat).

(** The list loop decodes the concatenation of what its rounds encode. *)
Lemma for_range_items fuel k pre l post acc :
  (∀ x, x ∈ l → codec_ok fuel x) → (length l <= k)%nat →
  for_range k (len l)
    (decode_item (decodeValue_fuel fuel (pre ++ concat (encodeValue <$> l) ++ post)))
    acc (length pre) =
  Ret (acc ++ l, (length pre + length (concat (encodeValue <$> l)))%nat).
Proof.
  revert k pre acc. induction l as [|x l IH]; intros k pre acc Hdec Hk.
  - csimpl. change (len []) with 0. by rewrite for_range_done, app_nil_r, Nat.add_0_r.
  - destruct k as [|k]; [simpl in Hk; lia|]. csimpl in *.
    erewrite for_range_step; [|unfold len; simpl; lia|].
    2:{ unfold decode_item. rewrite <- (assoc_L (++) (encodeValue x)).
        rewrite (Hdec x) by (left; done). done. }
    rewrite len_cons, Z.add_simpl_r, <- (assoc_L (++) (encodeValue x)).
    rewrite (assoc_L (++) pre), <- (length_app pre).
    rewrite IH; [|intros; apply Hdec; by right|lia].
    by rewrite <- (assoc_L (++)), !length_app, Nat.add_assoc.
Qed.

(** The map loop does the same and inserts the entries it reads. *)
Lemma for_range_entries fuel k pre m keys post acc :
  (∀ key, key ∈ keys → slen key < 2 ^ 63 ∧ ∃ x, m !! key = Some x ∧ codec_ok fuel x) →
  (length keys <= k)%nat →
  let bs := concat (entryBytes (encodeValue <$> m) <$> keys) in
  ∃ acc',
    for_range k (len keys)
      (decode_entry (pre ++ bs ++ post) (decodeValue_fuel fuel (pre ++ bs ++ post)))
      acc (length pre) = Ret (acc', (length pre + length bs)%nat)
    ∧ ∀ key, acc' !! key = if decide (key ∈ keys) then m !! key else acc !! key.
Proof.
  revert k pre acc. induction keys as [|key keys IH]; intros k pre acc Hdec Hk bs; subst bs.
  - exists acc. csimpl. change (len []) with 0. by rewrite for_range_done, Nat.add_0_r.
  - destruct k as [|k]; [simpl in Hk; lia|]. csimpl in *.
    destruct (Hdec key) as (Hlen & x & Hx & Hcodec); [by left|].
    set (rest := concat _) in *.
    assert (Hentry : entryBytes (encodeValue <$> m) key =
      (putUvarint (slen key) ++ bytes_of key) ++ encodeValue x).
    { unfold entryBytes. by rewrite lookup_fmap, Hx, <- (assoc_L (++)). }
    set (kb := putUvarint (slen key) ++ bytes_of key) in *.
    destruct (IH k (pre ++ kb ++ encodeValue x) (<[key := x]> acc)) as (acc' & Hloop & Hacc).
    { intros; apply Hdec; by right. } { lia. }
    exists acc'. split.
    + rewrite Hentry, len_cons.
      replace (pre ++ ((kb ++ encodeValue x) ++ rest) ++ post)
        with (pre ++ kb ++ (encodeValue x ++ rest ++ post))
        by (by rewrite <- !(assoc_L (++))).
      erewrite for_range_step; [|unfold len; lia|].
      2:{ unfold decode_entry. unfold kb, slen. rewrite readBytes_put by done.
          fold (slen key). fold kb. csimpl.
          rewrite (assoc_L (++) pre kb), <- (length_app pre).
          rewrite Hcodec. csimpl. by rewrite string_of_bytes_of. }
      rewrite Z.add_simpl_r.
      replace (pre ++ kb ++ encodeValue x ++ rest ++ post)
        with ((pre ++ kb ++ encodeValue x) ++ rest ++ post) by (by rewrite <- !(assoc_L (++))).
      replace (length (pre ++ kb) + length (encodeValue x))%nat
        with (length (pre ++ kb ++ encodeValue x)) by (rewrite !length_app; lia).
      rewrite Hloop. f_equal. f_equal. rewrite !length_app. lia.
    + intros key'. rewrite Hacc. destruct (decide (key' ∈ keys)) as [Hin|Hnin].
      * by rewrite decide_True by (by right).
      * destruct (decide (key' = key)) as [->|Hne].
        -- by rewrite decide_True, lookup_insert_eq by (by left).
        -- rewrite decide_False by (by rewrite elem_of_cons; intros [|]).
           by rewrite lookup_insert_ne.
Qed.

Lemma sortStrings_perm keys : sortStrings keys ≡ₚ keys.
Proof. apply merge_sort_Permutation. Qed.

Lemma sortStrings_canonical keys1 keys2 :
  keys1 ≡ₚ keys2 → sortStrings keys1 = sortStrings keys2.
Proof.
  intros Hp. apply (Sorted_unique String.le).
  - by apply Sorted_merge_sort; apply _.
  - by apply Sorted_merge_sort; apply _.
  - by rewrite !sortStrings_perm.
Qed.

Lemma elem_of_sorted_keys (m : gmap string value) key :
  key ∈ sortStrings (map_to_list m).*1 ↔ is_Some (m !! key).
Proof.
  rewrite sortStrings_perm. rewrite list_elem_of_fmap. split.
  - intros ([k x] & -> & H%elem_of_map_to_list). by exists x.
  - intros [x Hx]. exists (key, x). split; [done|]. by apply elem_of_map_to_list.
Qed.

Lemma length_sorted_keys (m : gmap string value) :
  length (sortStrings (map_to_list m).*1) = size m.
Proof.
  rewrite (Permutation_length (sortStrings_perm _)), length_fmap. by apply length_map_to_list.
Qed.

Lemma length_concat_ge {A} (ls : list (list A)) l :
  l ∈ ls → (length l <= length (concat ls))%nat.
Proof.
  intros (l1 & l2 & ->)%list_elem_of_split.
  rewrite concat_app, length_app. simpl. rewrite length_app. lia.
Qed.

Lemma length_le_concat {A B} (f : A → list B) l :
  (∀ x, x ∈ l → (1 <= length (f x))%nat) → (length l <= length (concat (f <$> l)))%nat.
Proof.
  induction l as [|x l IH]; intros Hf; csimpl; [done|]. rewrite length_app.
  pose proof (Hf x ltac:(by left)). assert (length l <= length (concat (f <$> l)))%nat.
  { apply IH. intros. apply Hf. by right. } lia.
Qed.

(** One step of the decoder: the tag byte moves into the part already read. *)
Lemma decodeValue_fuel_tag fuel pre tag body post :
  0 <= tag < 256 →
  decodeValue_fuel (S fuel) (pre ++ (to_byte tag :: body) ++ post) (length pre) =
    let b := (pre ++ [to_byte tag]) ++ body ++ post in
    decodeTagged (decodeValue_fuel fuel b) b tag (length (pre ++ [to_byte tag])).
Proof.
  intros Ht. simpl. rewrite lookup_middle, byteZ_to_byte, Z.mod_small by done.
  replace (S (length pre)) with (length (pre ++ [to_byte tag])) by (rewrite length_app; simpl; lia).
  by rewrite <- (assoc_L (++)).
Qed.

#[local] Arguments decodeValue_fuel : simpl never.

Lemma decodeTagged_varint dec b p :
  (decodeTagged dec b tagU64 p = '(n, p) ← readUvarint b p; Ret (vU64 n, p)) ∧
  (decodeTagged dec b tagI64 p = '(n, p) ← readUvarint b p; Ret (vI64 (unzigzag n), p)).
Proof. done. Qed.

Lemma decodeTagged_bytes dec b p :
  (decodeTagged dec b tagStr p = '(s, p) ← readBytes b p; Ret (vStr (string_of s), p)) ∧
  (decodeTagged dec b tagAddr p = '(s, p) ← readBytes b p; Ret (vAddr (string_of s), p)) ∧
  (decodeTagged dec b tagBytes p = '(s, p) ← readBytes b p; Ret (vBytes s, p)).
Proof. done. Qed.

Lemma decodeTagged_list dec b p :
  decodeTagged dec b tagList p =
    '(n, p) ← readUvarint b p;
    if maxSliceCap <? n then Panic
    else
      '(items, p) ← for_range (S (length b)) n (decode_item dec) [] p;
      Ret (vList items, p).
Proof. done. Qed.

Lemma decodeTagged_map dec b p :
  decodeTagged dec b tagMap p =
    '(n, p) ← readUvarint b p;
    '(m, p) ← for_range (S (length b)) n (decode_entry b dec) ∅ p;
    Ret (vMap m, p).
Proof. done. Qed.

Lemma decode_encode_list fuel l :
  len l <= maxSliceCap → (∀ x, x ∈ l → codec_ok fuel x) → codec_ok (S fuel) (vList l).
Proof.
  intros Hlen Hok pre post. rewrite encodeValue_list.
  rewrite decodeValue_fuel_tag by done. cbv zeta. rewrite decodeTagged_list.
  rewrite <- (assoc_L (++) (putUvarint _)).
  assert (0 <= len l) by (unfold len; lia).
  rewrite readUvarint_put by (unfold is_u64; change maxSliceCap with 2932031007402 in *; lia).
  csimpl. destruct (Z.ltb_spec maxSliceCap (len l)); [lia|].
  rewrite (assoc_L (++) (pre ++ _)), <- length_app, for_range_items; [|done|].
  - csimpl. rewrite !length_app. simpl. rewrite ?length_app. do 2 f_equal. lia.
  - assert (length l <= length (concat (encodeValue <$> l)))%nat.
    { apply length_le_concat. intros. apply encodeValue_length. }
    rewrite ?length_app. lia.
Qed.

Lemma decode_encode_map fuel m :
  Z.of_nat (size m) < 2 ^ 64 → (∀ k x, m !! k = Some x → slen k < 2 ^ 63) →
  (∀ k x, m !! k = Some x → codec_ok fuel x) → codec_ok (S fuel) (vMap m).
Proof.
  intros Hsize Hkeys Hok pre post. rewrite encodeValue_map.
  rewrite decodeValue_fuel_tag by done. cbv zeta. rewrite decodeTagged_map.
  rewrite <- (assoc_L (++) (putUvarint _)).
  rewrite readUvarint_put by (unfold is_u64; lia). csimpl.
  rewrite (assoc_L (++) (pre ++ _)), <- length_app.
  set (keys := sortStrings (map_to_list m).*1).
  replace (Z.of_nat (size m)) with (len keys) by (unfold len, keys; by rewrite length_sorted_keys).
  edestruct (for_range_entries fuel) as (acc & Hloop & Hacc).
  3:{ rewrite Hloop. csimpl. replace acc with m.
      { rewrite !length_app. simpl. rewrite ?length_app. do 2 f_equal. lia. }
      apply map_eq. intros k. rewrite Hacc. case_decide as Hk; [done|].
      rewrite lookup_empty. apply eq_None_not_Some. contradict Hk. by apply elem_of_sorted_keys. }
  - intros k [x Hx]%elem_of_sorted_keys. split; [by eapply Hkeys|].
    exists x. split; [done | by eapply Hok].
  - assert (length keys <= length (concat (entryBytes (encodeValue <$> m) <$> keys)))%nat.
    { apply length_le_concat. intros k _. unfold entryBytes. rewrite length_app.
      pose proof (putUvarint_length (slen k)). lia. }
    rewrite ?length_app. lia.
Qed.

Lemma decode_encode fuel v :
  wf_value v → (length (encodeValue v) <= fuel)%nat → codec_ok fuel v.
Proof.
  intros Hwf. revert fuel.
  induction Hwf as [|b|n Hn|n Hn|s Hs|s Hs|bs Hs|l Hlen Hl IH|m Hsize Hkeys Hm IH];
    intros fuel Hfuel; (destruct fuel as [|fuel]; [simpl in Hfuel; lia|]).
  - intros pre post. etrans; [by apply (decodeValue_fuel_tag fuel pre tagNull [])|]. cbv zeta.
    unfold decodeTagged. simpl. by rewrite length_app.
  - intros pre post.
    etrans; [by apply (decodeValue_fuel_tag fuel pre tagBool [to_byte (if b then 1 else 0)])|].
    cbv zeta. unfold decodeTagged. simpl. rewrite lookup_middle, !length_app. simpl.
    rewrite byteZ_to_byte. destruct b; simpl; do 2 f_equal; lia.
  - intros pre post. etrans; [by apply (decodeValue_fuel_tag fuel pre tagU64 (putUvarint n))|].
    cbv zeta. rewrite (proj1 (decodeTagged_varint _ _ _)), readUvarint_put by done.
    csimpl. rewrite !length_app. simpl. do 2 f_equal. lia.
  - intros pre post.
    etrans; [by apply (decodeValue_fuel_tag fuel pre tagI64 (putUvarint (zigzag n)))|].
    cbv zeta. rewrite (proj2 (decodeTagged_varint _ _ _)), readUvarint_put by (by apply zigzag_range).
    csimpl. rewrite unzigzag_zigzag_id, !length_app by done. simpl. do 2 f_equal. lia.
  - intros pre post.
    etrans; [by apply (decodeValue_fuel_tag fuel pre tagStr (putUvarint (slen s) ++ bytes_of s))|].
    cbv zeta. unfold slen at 2. rewrite (proj1 (decodeTagged_bytes _ _ _)), readBytes_put by done.
    csimpl. rewrite string_of_bytes_of, !length_app. simpl. do 2 f_equal. unfold slen.
    rewrite ?length_app. lia.
  - intros pre post.
    etrans; [by apply (decodeValue_fuel_tag fuel pre tagAddr (putUvarint (slen s) ++ bytes_of s))|].
    cbv zeta. unfold slen at 2.
    rewrite (proj1 (proj2 (decodeTagged_bytes _ _ _))), readBytes_put by done.
    csimpl. rewrite string_of_bytes_of, !length_app. simpl. do 2 f_equal. unfold slen.
    rewrite ?length_app. lia.
  - intros pre post.
    etrans; [by apply (decodeValue_fuel_tag fuel pre tagBytes (putUvarint (len bs) ++ bs))|].
    cbv zeta. rewrite (proj2 (proj2 (decodeTagged_bytes _ _ _))), readBytes_put by done.
    csimpl. rewrite !length_app. simpl. do 2 f_equal. rewrite ?length_app. lia.
  - apply (decode_encode_list fuel l Hlen). intros x Hx. apply IH; [done|].
    rewrite encodeValue_list in Hfuel. simpl in Hfuel. rewrite length_app in Hfuel.
    assert (length (encodeValue x) <= length (concat (encodeValue <$> l)))%nat.
    { apply length_concat_ge. by apply list_elem_of_fmap_2. } lia.
  - apply (decode_encode_map fuel m Hsize Hkeys). intros k x Hx. apply (IH k); [done|].
    rewrite encodeValue_map in Hfuel. simpl in Hfuel. rewrite length_app in Hfuel.
    assert (length (encodeValue x) <= length (entryBytes (encodeValue <$> m) k))%nat.
    { unfold entryBytes. rewrite lookup_fmap, Hx, !length_app. simpl. lia. }
    assert (length (entryBytes (encodeValue <$> m) k) <=
      length (concat (entryBytes (encodeValue <$> m) <$> sortStrings (map_to_list m).*1)))%nat.
    { apply length_concat_ge, list_elem_of_fmap_2, elem_of_sorted_keys. by exists x. } lia.
Qed.

(** * Termination and progress of the decoder *)
Lemma for_range_S {T} k n (step : T → nat → outcome wire_error (T * nat)) acc p :
  0 < n →
  for_range (S k) n step acc p = '(acc, p) ← step acc p; for_range k (n - 1) step acc p.
Proof. intros Hn. unfold for_range. destruct (Z.leb_spec n 0); [lia|]. done. Qed.

(** A loop invariant indexed by the rounds left. *)
Lemma for_range_inv {T} (I : Z → T → nat → Prop)
    (step : T → nat → outcome wire_error (T * nat)) k n acc p acc' p' :
  (∀ n acc p acc' p', 0 < n → I n acc p → step acc p = Ret (acc', p') → I (n - 1) acc' p') →
  0 <= n → I n acc p → for_range k n step acc p = Ret (acc', p') → I 0 acc' p'.
Proof.
  intros Hstep. revert n acc p. induction k as [|k IH]; intros n acc p Hn HI.
  - unfold for_range. destruct (Z.leb_spec n 0); [|done].
    replace n with 0 in HI by lia. by intros [= <- <-].
  - destruct (decide (n = 0)) as [->|Hne].
    { rewrite for_range_done. by intros [= <- <-]. }
    rewrite for_range_S by lia. intros ([acc1 p1] & H1 & H2)%bind_Ret_inv.
    apply (IH (n - 1) acc1 p1); [lia| |done]. by apply (Hstep n acc p); [lia|..].
Qed.

Lemma for_range_total {T} (L k : nat) n
    (step : T → nat → outcome wire_error (T * nat)) acc p :
  (∀ acc q acc' q', step acc q = Ret (acc', q') → (q < q' <= L)%nat) →
  (∀ acc q, (p <= q)%nat → diverges (step acc q) = false) →
  (L - p < k)%nat → diverges (for_range k n step acc p) = false.
Proof.
  intros Hprog. revert n acc p. induction k as [|k IH]; intros n acc p Htot Hk; [lia|].
  destruct (Z.leb_spec n 0) as [Hle|Hlt].
  { unfold for_range. by rewrite (proj2 (Z.leb_le n 0) Hle). }
  rewrite for_range_S by done. apply bind_diverges; [by apply Htot|].
  intros [acc1 p1] H1%Hprog. apply IH; [|lia]. intros. apply Htot. lia.
Qed.

Lemma readBytes_progress b p s p' :
  readBytes b p = Ret (s, p') → (p < p' <= length b)%nat ∧ len s < 2 ^ 63.
Proof.
  unfold readBytes. intros ([n q] & Hn & H)%bind_Ret_inv.
  pose proof (readUvarint_range _ _ _ _ Hn) as Hr. apply readUvarint_progress in Hn.
  unfold uint64ToInt in H. change (Z.shiftr (2 ^ 64 - 1) 1) with (2 ^ 63 - 1) in H.
  destruct (Z.ltb_spec (2 ^ 63 - 1) n); [done|].
  destruct (Z.ltb_spec (len b - Z.of_nat q) n) as [|Hle]; [done|].
  injection H as <- <-. unfold is_u64, len in *. rewrite length_take, length_drop. lia.
Qed.

Lemma readUvarint_outcome b p :
  panics (readUvarint b p) = false ∧ diverges (readUvarint b p) = false.
Proof. apply readUvarint_loop_outcome. Qed.

Lemma readBytes_diverges b p : diverges (readBytes b p) = false.
Proof.
  apply bind_diverges; [apply readUvarint_outcome|]. intros [n q] _. by repeat case_match.
Qed.

#[export] Hint Resolve readBytes_diverges : lotor.

Lemma decode_item_progress dec items q items' q' (L : nat) :
  (∀ q v q', dec q = Ret (v, q') → (q < q' <= L)%nat) →
  decode_item dec items q = Ret (items', q') → (q < q' <= L)%nat.
Proof. intros Hd ([v q1] & H & [= <- <-])%bind_Ret_inv. by apply Hd in H. Qed.

Lemma decode_entry_progress b dec m q m' q' (L : nat) :
  (∀ q v q', dec q = Ret (v, q') → (q < q' <= L)%nat) →
  decode_entry b dec m q = Ret (m', q') → (q < q' <= L)%nat.
Proof.
  intros Hd ([key q1] & [Hk _]%readBytes_progress &
    ([v q2] & Hv%Hd & [= <- <-])%bind_Ret_inv)%bind_Ret_inv. lia.
Qed.

Lemma for_range_progress {T} (L : nat) (step : T → nat → outcome wire_error (T * nat))
    k n acc p acc' p' :
  (∀ acc q acc' q', step acc q = Ret (acc', q') → (q < q' <= L)%nat) →
  (p <= L)%nat → 0 <= n → for_range k n step acc p = Ret (acc', p') → (p <= p' <= L)%nat.
Proof.
  intros Hs Hp Hn.
  apply (for_range_inv (fun _ _ q => (p <= q <= L)%nat)); [|done|lia].
  intros ? ? ? ? ? _ HI H%Hs. lia.
Qed.

Lemma decodeTagged_progress dec b tag p v p' :
  (∀ q v q', dec q = Ret (v, q') → (q < q' <= length b)%nat) → (p <= length b)%nat →
  decodeTagged dec b tag p = Ret (v, p') → (p <= p' <= length b)%nat.
Proof.
  intros Hd Hp. unfold decodeTagged.
  repeat (destruct (tag =? _);
    [first
      [ by intros [= <- <-]
      | destruct (b !! p) eqn:Hb; [|done]; apply lookup_lt_Some in Hb; intros [= <- <-]; lia
      | intros ([n q] & H%readUvarint_progress & [= <- <-])%bind_Ret_inv; lia
      | intros ([s q] & [H _]%readBytes_progress & [= <- <-])%bind_Ret_inv; lia
      | intros ([n q] & Hn & H)%bind_Ret_inv;
        pose proof (readUvarint_range _ _ _ _ Hn) as [? _]; apply readUvarint_progress in Hn;
        try (destruct (maxSliceCap <? n); [done|]);
        apply bind_Ret_inv in H as ([r q2] & H & [= <- <-]);
        eapply for_range_progress in H;
          [|eauto using decode_item_progress, decode_entry_progress|..]; lia ]|]).
  done.
Qed.

Lemma decodeValue_fuel_progress fuel b p v p' :
  decodeValue_fuel fuel b p = Ret (v, p') → (p < p' <= length b)%nat.
Proof.
  revert p v p'. induction fuel as [|fuel IH]; intros p v p'; unfold decodeValue_fuel; [done|].
  fold decodeValue_fuel. destruct (b !! p) as [tag|] eqn:Hp; [|done].
  apply lookup_lt_Some in Hp. intros H. eapply decodeTagged_progress in H; [lia|done|lia].
Qed.

Lemma decode_item_diverges dec items q :
  diverges (dec q) = false → diverges (decode_item dec items q) = false.
Proof. intros H. apply bind_diverges; [done|by intros []]. Qed.

Lemma decode_entry_diverges b dec m q :
  (∀ q', (q <= q')%nat → diverges (dec q') = false) →
  diverges (decode_entry b dec m q) = false.
Proof.
  intros H. apply bind_diverges; [apply readBytes_diverges|].
  intros [key q1] [Hk _]%readBytes_progress.
  apply bind_diverges; [apply H; lia|by intros []].
Qed.

Lemma decodeTagged_diverges dec b tag p :
  (∀ q v q', dec q = Ret (v, q') → (q < q' <= length b)%nat) →
  (∀ q, (p <= q)%nat → diverges (dec q) = false) →
  diverges (decodeTagged dec b tag p) = false.
Proof.
  intros Hd Ht. unfold decodeTagged.
  repeat (destruct (tag =? _);
    [first
      [ done
      | by destruct (b !! p)
      | apply bind_diverges; [by apply readUvarint_outcome|by intros []]
      | apply bind_diverges; [apply readBytes_diverges|by intros []]
      | apply bind_diverges; [by apply readUvarint_outcome|];
        intros [n q] Hn%readUvarint_progress; try (destruct (maxSliceCap <? n); [done|]);
        apply bind_diverges; [|by intros []]; apply (for_range_total (length b));
        [ eauto using decode_item_progress, decode_entry_progress
        | intros; (apply decode_item_diverges || apply decode_entry_diverges);
          intros; apply Ht; lia
        | lia ] ]|]).
  done.
Qed.

Lemma decodeValue_fuel_diverges fuel b p :
  (length b - p < fuel)%nat → diverges (decodeValue_fuel fuel b p) = false.
Proof.
  revert p. induction fuel as [|fuel IH]; intros p Hp; [lia|].
  unfold decodeValue_fuel; fold decodeValue_fuel.
  destruct (b !! p) as [tag|] eqn:Hb; [|done]. apply lookup_lt_Some in Hb.
  apply decodeTagged_diverges; [apply decodeValue_fuel_progress|]. intros q Hq. apply IH. lia.
Qed.

(** Everything the decoder produces is well formed. *)
Lemma decode_entry_inv b dec m q m' q' :
  decode_entry b dec m q = Ret (m', q') →
  ∃ key v q1, slen key < 2 ^ 63 ∧ dec q1 = Ret (v, q') ∧ m' = <[key := v]> m.
Proof.
  intros ([kb q1] & [_ Hk]%readBytes_progress &
    ([v q2] & Hv & [= <- <-])%bind_Ret_inv)%bind_Ret_inv.
  exists (string_of kb), v, q1. unfold slen. by rewrite bytes_of_string_of.
Qed.

Lemma decode_items_wf dec k n p l p' :
  (∀ q v q', dec q = Ret (v, q') → wf_value v) →
  0 <= n <= maxSliceCap → for_range k n (decode_item dec) [] p = Ret (l, p') →
  wf_value (vList l).
Proof.
  intros Hd Hn H.
  apply (for_range_inv (fun r acc _ => len acc + r = n ∧ ∀ x, x ∈ acc → wf_value x))
    in H as [Hlen Hall].
  - constructor; [lia|done].
  - intros r acc q acc' q' _ [Hr Hacc] ([v q1] & Hv%Hd & [= <- <-])%bind_Ret_inv. split.
    + unfold len in *. rewrite length_app. simpl. lia.
    + intros x [?|Hx%list_elem_of_singleton]%elem_of_app; subst; auto.
  - lia.
  - split; [done|]. by intros x ?%elem_of_nil.
Qed.

Lemma decode_entries_wf b dec k n p m p' :
  (∀ q v q', dec q = Ret (v, q') → wf_value v) →
  is_u64 n → for_range k n (decode_entry b dec) ∅ p = Ret (m, p') → wf_value (vMap m).
Proof.
  intros Hd Hn H.
  apply (for_range_inv (fun r m _ => Z.of_nat (size m) + r <= n ∧
    (∀ k x, m !! k = Some x → slen k < 2 ^ 63 ∧ wf_value x))) in H as [Hsize Hall].
  - constructor; [unfold is_u64 in Hn; lia|..]; intros k' x [??]%Hall; done.
  - intros r acc q acc' q' _ [Hr Hacc] (key & v & q1 & Hk & Hv%Hd & ->)%decode_entry_inv. split.
    + rewrite map_size_insert. case_match; simpl; lia.
    + intros k' x. rewrite lookup_insert. case_decide; [by intros [= <-]; subst|apply Hacc].
  - apply Hn.
  - split; [rewrite map_size_empty; lia|]. by intros k' x ?%lookup_empty_Some.
Qed.

Lemma decodeTagged_wf dec b tag p v p' :
  (∀ q v q', dec q = Ret (v, q') → wf_value v) →
  decodeTagged dec b tag p = Ret (v, p') → wf_value v.
Proof.
  intros Hd. unfold decodeTagged.
  repeat (destruct (tag =? _);
    [first
      [ intros [= <- <-]; constructor
      | destruct (b !! p); [|done]; intros [= <- <-]; constructor
      | intros ([n q] & H%readUvarint_range & [= <- <-])%bind_Ret_inv; constructor; done
      | intros ([n q] & H%readUvarint_range & [= <- <-])%bind_Ret_inv; constructor;
        by apply unzigzag_range
      | intros ([s q] & [_ H]%readBytes_progress & [= <- <-])%bind_Ret_inv; constructor;
        unfold slen; by rewrite ?bytes_of_string_of
      | intros ([n q] & Hn%readUvarint_range & H)%bind_Ret_inv;
        destruct (Z.ltb_spec maxSliceCap n); [done|];
        apply bind_Ret_inv in H as ([l q2] & H & [= <- <-]); destruct Hn;
        by apply decode_items_wf in H
      | intros ([n q] & Hn%readUvarint_range & H)%bind_Ret_inv;
        apply bind_Ret_inv in H as ([l q2] & H & [= <- <-]);
        by apply decode_entries_wf in H ]|]).
  done.
Qed.

Lemma decodeValue_fuel_wf fuel b p v p' :
  decodeValue_fuel fuel b p = Ret (v, p') → wf_value v.
Proof.
  revert p v p'. induction fuel as [|fuel IH]; intros p v p'; unfold decodeValue_fuel; [done|].
  fold decodeValue_fuel. destruct (b !! p) as [tag|]; [|done]. by apply decodeTagged_wf.
Qed.

(** * Frames: lemmas *)
Record wf_frame (f : frame) : Prop := {
  wf_typ : 0 <= f.(typ) < 256;
  wf_flags : is_u16 f.(flags);
  wf_reqID : is_u32 f.(reqID);
  wf_opcode : is_u16 f.(opcode);
  wf_argc : len f.(args) <= maxSliceCap;
  wf_args : ∀ v, v ∈ f.(args) → wf_value v
}.

Lemma Uint16_Append n :
  is_u16 n →
  Z.lor (byteZ (to_byte n)) (Z.shiftl (byteZ (to_byte (Z.shiftr n 8))) 8) = n.
Proof.
  unfold is_u16. intros Hn. rewrite !byteZ_to_byte.
  rewrite lor_shiftl_add by (pose proof (Z.mod_pos_bound n 256); lia).
  rewrite Z.shiftr_div_pow2 by lia. change (2 ^ 8) with 256.
  rewrite (Z.mod_small (n / 256)).
  - pose proof (Z_div_mod_eq_full n 256). lia.
  - split; [apply Z.div_pos; lia | apply Z.div_lt_upper_bound; lia].
Qed.

Lemma Uint32_Append n :
  is_u32 n →
  Z.lor (Z.lor (Z.lor (byteZ (to_byte n)) (Z.shiftl (byteZ (to_byte (Z.shiftr n 8))) 8))
    (Z.shiftl (byteZ (to_byte (Z.shiftr n 16))) 16))
    (Z.shiftl (byteZ (to_byte (Z.shiftr n 24))) 24) = n.
Proof.
  unfold is_u32. intros Hn. rewrite !byteZ_to_byte, !Z.shiftr_div_pow2 by lia.
  pose proof (Z.mod_pos_bound n 256 ltac:(lia)).
  pose proof (Z.mod_pos_bound (n / 2 ^ 8) 256 ltac:(lia)).
  pose proof (Z.mod_pos_bound (n / 2 ^ 16) 256 ltac:(lia)).
  rewrite (lor_shiftl_add (n mod 256)) by lia.
  rewrite (lor_shiftl_add (n mod 256 + _)) by lia.
  rewrite lor_shiftl_add by lia.
  assert (0 <= n / 2 ^ 24 < 256).
  { split; [apply Z.div_pos; lia | apply Z.div_lt_upper_bound; lia]. }
  rewrite (Z.mod_small (n / 2 ^ 24)) by lia.
  pose proof (Z_div_mod_eq_full n 256). pose proof (Z_div_mod_eq_full (n / 2 ^ 8) 256) as H8.
  pose proof (Z_div_mod_eq_full (n / 2 ^ 16) 256) as H16.
  rewrite Z.div_div in H8, H16 by lia. change (2 ^ 8 * 256) with (2 ^ 16) in H8.
  change (2 ^ 16 * 256) with (2 ^ 24) in H16. change (2 ^ 8) with 256 in *. lia.
Qed.

Lemma encodeFrame_inv f bs :
  encodeFrame f = Ret bs →
  is_u32 (len (frameBody f)) ∧ bs = AppendUint32 (len (frameBody f)) ++ frameBody f.
Proof.
  unfold encodeFrame. intros (n & Hn & [= <-])%bind_Ret_inv.
  unfold intToUint32 in Hn. destruct (_ || _) eqn:Hb; [done|]. injection Hn as <-.
  breflect. unfold is_u32. split; [lia|done].
Qed.

Lemma len_app {A} (l1 l2 : list A) : len (l1 ++ l2) = len l1 + len l2.
Proof. unfold len. rewrite length_app. lia. Qed.

Lemma len_prefixed n b : len (AppendUint32 n ++ b) = 4 + len b.
Proof. rewrite len_app. change (len (AppendUint32 n)) with 4. done. Qed.

(** The fourteen bytes before the argument count. *)
Definition frameHeader (n : Z) (f : frame) : list byte :=
  AppendUint32 n ++ [to_byte protoVersion; to_byte f.(typ)] ++ AppendUint16 f.(flags) ++
  AppendUint32 f.(reqID) ++ AppendUint16 f.(opcode).

Lemma frame_layout n f rest :
  (AppendUint32 n ++ frameBody f) ++ rest =
    frameHeader n f ++ putUvarint (len f.(args)) ++ concat (encodeValue <$> f.(args)) ++ rest.
Proof. unfold frameHeader, frameBody. by rewrite <- !(assoc_L (++)). Qed.

Lemma frameHeader_fields n f body :
  is_u32 n → wf_frame f →
  Uint32 (frameHeader n f ++ body) 0 = Ret n ∧
  @idx wire_error _ (frameHeader n f ++ body) 4 = Ret (to_byte protoVersion) ∧
  @idx wire_error _ (frameHeader n f ++ body) 5 = Ret (to_byte f.(typ)) ∧
  Uint16 (frameHeader n f ++ body) 6 = Ret f.(flags) ∧
  Uint32 (frameHeader n f ++ body) 8 = Ret f.(reqID) ∧
  Uint16 (frameHeader n f ++ body) 12 = Ret f.(opcode).
Proof.
  intros Hn [Htyp Hfl Hid Hop _ _]. unfold Uint32, Uint16.
  repeat split; simpl; by rewrite ?Uint32_Append, ?Uint16_Append.
Qed.

Lemma decodeValue_items buf p l k :
  (∀ v, v ∈ l → wf_value v) → (length l <= k)%nat →
  (∃ pre post, buf = pre ++ concat (encodeValue <$> l) ++ post ∧ p = length pre) →
  ∃ p', for_range k (len l) (decode_item (decodeValue buf)) [] p = Ret (l, p').
Proof.
  intros Hwf Hk (pre & post & -> & ->). eexists. unfold decodeValue.
  rewrite for_range_items; [done| |done].
  intros x Hx. apply decode_encode; [by apply Hwf|].
  assert (length (encodeValue x) <= length (concat (encodeValue <$> l)))%nat.
  { apply length_concat_ge. by apply list_elem_of_fmap_2. }
  rewrite !length_app. lia.
Qed.

Lemma decodeFrame_encode f bs rest :
  wf_frame f → encodeFrame f = Ret bs →
  decodeFrame (bs ++ rest) = Ret (Some (f, length bs)).
Proof.
  intros Hwf (Hn & ->)%encodeFrame_inv. set (n := len (frameBody f)) in *.
  assert (Hlen : len (AppendUint32 n ++ frameBody f) = 4 + n) by apply len_prefixed.
  unfold decodeFrame. rewrite (len_app (AppendUint32 n ++ _)), Hlen.
  assert (0 <= len rest ∧ 0 <= len f.(args)) as [? ?] by (unfold len; lia).
  unfold is_u32 in Hn. rewrite frame_layout.
  destruct (frameHeader_fields n f (putUvarint (len f.(args)) ++
    concat (encodeValue <$> f.(args)) ++ rest) Hn Hwf) as (-> & -> & -> & -> & -> & ->).
  destruct Hwf as [Htyp _ _ _ Hargc Hargs].
  destruct (Z.ltb_spec (4 + n + len rest) 4); [lia|]. obind.
  destruct (Z.ltb_spec (4 + n + len rest) (4 + n)); [lia|].
  change 14%nat with (length (frameHeader n f)).
  rewrite readUvarint_put by (unfold is_u64; change maxSliceCap with 2932031007402 in *; lia).
  destruct (Z.ltb_spec maxSliceCap (len f.(args))); [lia|].
  rewrite (assoc_L (++) (frameHeader n f)), <- length_app.
  edestruct decodeValue_items as [p' ->]; [done| |by do 2 eexists|].
  { pose proof (length_le_concat encodeValue f.(args)
      (fun x _ => encodeValue_length x)). rewrite !length_app. lia. }
  rewrite byteZ_to_byte, Z.mod_small by lia. rewrite <- Hlen. unfold len.
  rewrite Nat2Z.id. by destruct f.
Qed.

(** A proper prefix of a frame is reported as incomplete, whatever it holds. *)
Lemma decodeFrame_incomplete f bs pre rest :
  encodeFrame f = Ret bs → bs = pre ++ rest → rest ≠ [] → decodeFrame pre = Ret None.
Proof.
  intros (Hn & ->)%encodeFrame_inv Hbs Hrest.
  assert (Hlen : len pre + len rest = 4 + len (frameBody f)).
  { rewrite <- len_app, <- Hbs. apply len_prefixed. }
  revert Hn Hbs Hlen. generalize (len (frameBody f)). intros n Hn Hbs Hlen.
  assert (0 < len rest) by (destruct rest; [done|rewrite len_cons; unfold len; lia]).
  unfold decodeFrame. destruct (Z.ltb_spec (len pre) 4) as [|Hge]; [done|].
  destruct pre as [|b0 [|b1 [|b2 [|b3 pre]]]];
    try (unfold len in Hge; simpl in Hge; lia).
  injection Hbs as <- <- <- <- _. unfold Uint32. simpl.
  rewrite Uint32_Append by done. simpl.
  destruct (Z.ltb_spec (len (to_byte (n ≫ 24) :: to_byte (n ≫ 16) :: to_byte (n ≫ 8) ::
    to_byte n :: pre)) (4 + n)); [done|lia].
Qed.

(** * Properties *)

(** C21: [readUvarint] reads back, at any offset of any buffer, exactly the
    [uint64] that [putUvarint] wrote there and stops right after it; an encoding
    takes between one and ten bytes. *)
Theorem uvarint_roundtrip v pre post :
  is_u64 v →
  readUvarint (pre ++ putUvarint v ++ post) (length pre) =
    Ret (v, (length pre + length (putUvarint v))%nat)
  ∧ (1 <= length (putUvarint v) <= 10)%nat.
Proof. intros Hv. split; [by apply readUvarint_put|apply putUvarint_length]. Qed.

Lemma uvarint_roundtrip_witness :
  readUvarint ([xff] ++ putUvarint (2 ^ 64 - 1) ++ [x00]) 1 = Ret (2 ^ 64 - 1, 11%nat)
  ∧ (1 <= length (putUvarint (2 ^ 64 - 1)) <= 10)%nat.
Proof.
  apply (uvarint_roundtrip (2 ^ 64 - 1) [xff] [x00]). unfold is_u64. lia.
Defined.

(** Zigzag coding is a bijection between [int64] and [uint64]; no overflow
    occurs in [zigzag] or [unzigzag] at either end of the range. *)
Theorem zigzag_bijection v n :
  is_i64 v → is_u64 n →
  unzigzag (zigzag v) = v ∧ zigzag (unzigzag n) = n
  ∧ is_u64 (zigzag v) ∧ is_i64 (unzigzag n).
Proof.
  auto using unzigzag_zigzag_id, zigzag_unzigzag_id, zigzag_range, unzigzag_range.
Qed.

Lemma zigzag_bijection_witness :
  unzigzag (zigzag (- 2 ^ 63)) = - 2 ^ 63 ∧ zigzag (unzigzag (2 ^ 64 - 1)) = 2 ^ 64 - 1
  ∧ is_u64 (zigzag (- 2 ^ 63)) ∧ is_i64 (unzigzag (2 ^ 64 - 1)).
Proof. apply zigzag_bijection; [unfold is_i64|unfold is_u64]; lia. Defined.

(** C32: decoding inverts encoding for every well-formed value (null, booleans,
    integers, strings, addresses, byte strings, and lists and maps of them nested
    to any depth), at any offset and whatever follows. *)
Theorem value_roundtrip v pre post :
  wf_value v →
  decodeValue (pre ++ encodeValue v ++ post) (length pre) =
    Ret (v, (length pre + length (encodeValue v))%nat).
Proof. intros Hv. apply decode_encode; [done|]. rewrite !length_app. lia. Qed.

Lemma value_roundtrip_witness :
  let v := vMap {["k" := vList [vI64 (-3); vBool true; vAddr "org:acme"]]} in
  decodeValue ([x07] ++ encodeValue v ++ [x09]) 1 =
    Ret (v, (1 + length (encodeValue v))%nat).
Proof.
  intros v. apply (value_roundtrip v [x07] [x09]). constructor.
  - rewrite map_size_singleton. lia.
  - by intros k x [<- <-]%lookup_singleton_Some.
  - intros k x [<- <-]%lookup_singleton_Some. constructor.
    + unfold len, maxSliceCap. vm_compute. congruence.
    + intros x [->|[->|[->|[]%not_elem_of_nil]%elem_of_cons]%elem_of_cons]%elem_of_cons;
        constructor; unfold is_i64; vm_compute; try split; congruence.
Defined.

(** The encoding is prefix free, hence injective: two streams that start with
    encodings of well-formed values agree only if the values and the rests do. *)
Theorem encodeValue_prefix_free v1 v2 r1 r2 :
  wf_value v1 → wf_value v2 → encodeValue v1 ++ r1 = encodeValue v2 ++ r2 →
  v1 = v2 ∧ r1 = r2.
Proof.
  intros H1 H2 He.
  pose proof (decode_encode (length (encodeValue v1 ++ r1)) v1 H1) as D1.
  pose proof (decode_encode (length (encodeValue v1 ++ r1)) v2 H2) as D2.
  specialize (D1 ltac:(rewrite length_app; lia) [] r1).
  specialize (D2 ltac:(rewrite He, length_app; lia) [] r2).
  simpl in D1, D2. revert D1 D2. generalize (length (encodeValue v1 ++ r1)). rewrite He.
  intros fuel D1 D2. rewrite D2 in D1. injection D1 as -> _.
  split; [done|]. by apply app_inv_head in He.
Qed.

Lemma encodeValue_prefix_free_witness :
  vU64 5 = vU64 5 ∧ [x01] = [x01].
Proof.
  apply (encodeValue_prefix_free (vU64 5) (vU64 5) [x01] [x01]);
    [constructor; unfold is_u64; lia..|reflexivity].
Defined.

(** The bytes of a map do not depend on the order in which [range] happens to
    visit its keys: any enumeration of them gives the encoding of the value. *)
Theorem map_encoding_deterministic m keys :
  keys ≡ₚ (map_to_list m).*1 →
  encodeValue (vMap m) =
    to_byte tagMap :: putUvarint (Z.of_nat (size m)) ++ encodeEntries (encodeValue <$> m) keys.
Proof.
  intros Hk. unfold encodeEntries. rewrite (sortStrings_canonical _ _ Hk). done.
Qed.

Lemma map_encoding_deterministic_witness :
  let m := <["b" := vU64 1]> (<["a" := vU64 2]> ∅) in
  ["b"; "a"] ≡ₚ (map_to_list m).*1 ∧
  encodeValue (vMap m) =
    to_byte tagMap :: putUvarint (Z.of_nat (size m)) ++
      encodeEntries (encodeValue <$> m) ["b"; "a"].
Proof.
  intros m. assert (Hp : ["b"; "a"] ≡ₚ (map_to_list m).*1).
  { vm_compute. reflexivity || apply Permutation_swap. }
  split; [exact Hp|]. exact (map_encoding_deterministic m ["b"; "a"] Hp).
Defined.

(** C39: [decodeValue] terminates on every buffer and position; what it returns is
    a well-formed value, and it consumed at least one byte without running past
    the end of the buffer. *)
Theorem decodeValue_total b p :
  diverges (decodeValue b p) = false
  ∧ ∀ v p', decodeValue b p = Ret (v, p') → wf_value v ∧ (p < p' <= length b)%nat.
Proof.
  split; [apply decodeValue_fuel_diverges; lia|].
  intros v p' H. split; [by eapply decodeValue_fuel_wf|by eapply decodeValue_fuel_progress].
Qed.

(** C39: [decodeFrame] recovers a well-formed frame from the front of any buffer that
    starts with its encoding and consumes exactly that encoding. *)
Theorem frame_roundtrip f bs rest :
  wf_frame f → encodeFrame f = Ret bs →
  decodeFrame (bs ++ rest) = Ret (Some (f, length bs)).
Proof. apply decodeFrame_encode. Qed.

Lemma frame_roundtrip_witness :
  let f := Frame [vU64 1; vU64 0; vStr "lotor-go"] frameREQ 0 1 1 in
  ∃ bs, encodeFrame f = Ret bs ∧ decodeFrame (bs ++ [x00]) = Ret (Some (f, length bs)).
Proof.
  intros f. eexists. split; [reflexivity|].
  apply (frame_roundtrip f); [|reflexivity].
  constructor; try (vm_compute; intuition congruence).
  intros v [->|[->|[->|[]%not_elem_of_nil]%elem_of_cons]%elem_of_cons]%elem_of_cons;
    constructor; vm_compute; intuition congruence.
Defined.
