(* ===== verification/Connection.v ===== *)
(** One pipelined LWP connection: [Client], [readLoop], [do], [Watch],
    [Unwatch] and [dispatchEvent] of [src/lotor/client.go].

    The client is shared by the goroutines that call [do] and by the reader
    goroutine. Every locked region, channel operation and socket operation is one
    atomic step of the relation [step]; a run of the program is a sequence of
    such steps in any interleaving. *)
From S2P Require Import Prelude Wire.

(** * Data *)

(** [LWPError] and the other errors [do] returns. *)
Inductive do_error : Type :=
| LWPError (Code : Z) (Message : string)
| ErrWrite
| ErrClosed
| ErrInvalidCode
| ErrTimeout.

Record Event : Type := mkEvent {
  Event_Type : string;
  Event_Target : string;
  Event_Detail : gmap string Z;
  Event_LogSeq : Z;
  Event_WatchID : string
}.

(** [chan frame] with capacity one. *)
Record chan : Type := Chan { chan_buf : option frame; chan_closed : bool }.

(** Where a [do] call is: between its locked region and the write, waiting in the
    [select], or back at its caller. *)
Inductive phase : Type :=
| Registered
| Sent
| Returned (resp : option frame) (result : outcome do_error (list value)).

(** A call of [do]: its request, the id it drew, its channel and its phase. *)
Record call : Type := Call {
  call_opcode : Z;
  call_args : list value;
  call_id : Z;
  call_chan : chan;
  call_phase : phase
}.

(** The struct [Client] together with what the goroutines hold: [pend] maps a
    request id to the call (by number) whose channel is stored under it, [subs] a
    watch id to a handler (by number), [rbuf] is the reader's buffer, [wrote] the
    bytes written to the socket, [fired] the handler invocations started. *)
Record Client : Type := mkClient {
  pend : gmap Z nat;
  subs : gmap string nat;
  closed : bool;
  nextID : Z;
  calls : list call;
  rbuf : list byte;
  wrote : list byte;
  fired : list (nat * Event)
}.

Definition newClient : Client := mkClient ∅ ∅ false 0 [] [] [] [].

(** * Operations *)
Definition IsLWPError (err : do_error) (code : Z) : bool :=
  match err with LWPError c _ => c =? code | _ => false end.

Definition set_calls (c : Client) (cs : list call) : Client :=
  mkClient c.(pend) c.(subs) c.(closed) c.(nextID) cs c.(rbuf) c.(wrote) c.(fired).
Definition set_pend (c : Client) (p : gmap Z nat) : Client :=
  mkClient p c.(subs) c.(closed) c.(nextID) c.(calls) c.(rbuf) c.(wrote) c.(fired).
Definition set_subs (c : Client) (s : gmap string nat) : Client :=
  mkClient c.(pend) s c.(closed) c.(nextID) c.(calls) c.(rbuf) c.(wrote) c.(fired).
Definition set_rbuf (c : Client) (b : list byte) : Client :=
  mkClient c.(pend) c.(subs) c.(closed) c.(nextID) c.(calls) b c.(wrote) c.(fired).

Definition with_phase (k : call) (ph : phase) : call :=
  Call k.(call_opcode) k.(call_args) k.(call_id) k.(call_chan) ph.
Definition with_chan (k : call) (ch : chan) : call :=
  Call k.(call_opcode) k.(call_args) k.(call_id) ch k.(call_phase).

(** [do], the first locked region: draw the id, make the channel, register it. *)
Definition do_register (c : Client) (op : Z) (vs : list value) : Client :=
  let id := u32 (c.(nextID) + 1) in
  mkClient (<[id := length c.(calls)]> c.(pend)) c.(subs) c.(closed) id
    (c.(calls) ++ [Call op vs id (Chan None false) Registered])
    c.(rbuf) c.(wrote) c.(fired).

(** The frame [do] writes. *)
Definition do_request (k : call) : frame :=
  Frame k.(call_args) frameREQ 0 k.(call_id) k.(call_opcode).

(** [do], after a successful receive: the response's arguments, or the error. *)
Definition do_response (f : frame) : outcome do_error (list value) :=
  if f.(opcode) =? statusERR then
    first ← idx f.(args) 0;
    let code := asNum first in
    msg ← (if 1 <? len f.(args) then v ← idx f.(args) 1; Ret (asStr v) else Ret "");
    if (code <? 0) || (2 ^ 16 - 1 <? code) then Throw ErrInvalidCode
    else Throw (LWPError (u16 code) msg)
  else Ret f.(args).

Definition nonNegativeUint64 (n : Z) : Z := if n <? 0 then 0 else n.

Definition numericMap (v : value) : gmap string Z :=
  if v.(Kind) =? tagMap then asNum <$> v.(Map) else ∅.

(** The [Event] that [dispatchEvent] builds, [None] when the frame is too short. *)
Definition eventOf (f : frame) : option Event :=
  match f.(args) with
  | a0 :: a1 :: a2 :: a3 :: a4 :: _ =>
      Some (mkEvent (asStr a0) (asStr a1) (numericMap a2) (nonNegativeUint64 (asNum a3)) (asStr a4))
  | _ => None
  end.

Definition dispatchEvent (c : Client) (f : frame) : Client :=
  match eventOf f with
  | None => c
  | Some ev =>
      match c.(subs) !! ev.(Event_WatchID) with
      | None => c
      | Some h =>
          mkClient c.(pend) c.(subs) c.(closed) c.(nextID) c.(calls) c.(rbuf) c.(wrote)
            (c.(fired) ++ [(h, ev)])
      end
  end.

(** [ch <- f]: panics on a closed channel, blocks (here: [Diverge]) when the
    buffer is full. *)
Definition chan_send (ch : chan) (f : frame) : outcome do_error chan :=
  if ch.(chan_closed) then Panic
  else match ch.(chan_buf) with
       | Some _ => Diverge
       | None => Ret (Chan (Some f) false)
       end.

(** The body of the inner loop of [readLoop] for one decoded frame. *)
Definition dispatchFrame (c : Client) (f : frame) : outcome do_error Client :=
  if f.(typ) =? frameRESP then
    let ch := c.(pend) !! f.(reqID) in
    let c := set_pend c (delete f.(reqID) c.(pend)) in
    match ch with
    | None => Ret c
    | Some n =>
        match c.(calls) !! n with
        | None => Panic
        | Some k =>
            ch ← chan_send k.(call_chan) f;
            Ret (set_calls c (<[n := with_chan k ch]> c.(calls)))
        end
    end
  else if f.(typ) =? frameEVENT then Ret (dispatchEvent c f)
  else Ret c.

(** [close(ch)] for the channel of call [n]: closing twice panics, which the
    reader never does (its [pend] entries are open, see [inv_open]). *)
Definition close_call (cs : list call) (n : nat) : list call :=
  alter (fun k => with_chan k (Chan k.(call_chan).(chan_buf) true)) n cs.

(** The end of [readLoop] after a read error: close [closed], close every pending
    channel and empty [pend]. *)
Definition readLoop_exit (c : Client) : Client :=
  mkClient ∅ c.(subs) true c.(nextID)
    (foldl close_call c.(calls) (map_to_list c.(pend)).*2) c.(rbuf) c.(wrote) c.(fired).

(** * The step relation *)
Inductive step : Client → Client → Prop :=
| step_register c op vs :
    step c (do_register c op vs)
| step_write_ok c n k bs :
    c.(calls) !! n = Some k → k.(call_phase) = Registered →
    encodeFrame (do_request k) = Ret bs →
    step c (mkClient c.(pend) c.(subs) c.(closed) c.(nextID)
      (<[n := with_phase k Sent]> c.(calls)) c.(rbuf) (c.(wrote) ++ bs) c.(fired))
| step_write_err c n k :
    c.(calls) !! n = Some k → k.(call_phase) = Registered →
    step c (set_calls (set_pend c (delete k.(call_id) c.(pend)))
      (<[n := with_phase k (Returned None (Throw ErrWrite))]> c.(calls)))
| step_receive c n k f :
    c.(calls) !! n = Some k → k.(call_phase) = Sent → k.(call_chan).(chan_buf) = Some f →
    step c (set_calls c
      (<[n := with_phase (with_chan k (Chan None k.(call_chan).(chan_closed)))
                (Returned (Some f) (do_response f))]> c.(calls)))
| step_receive_closed c n k :
    c.(calls) !! n = Some k → k.(call_phase) = Sent → k.(call_chan) = Chan None true →
    step c (set_calls c (<[n := with_phase k (Returned None (Throw ErrClosed))]> c.(calls)))
| step_timeout c n k :
    c.(calls) !! n = Some k → k.(call_phase) = Sent →
    step c (set_calls c (<[n := with_phase k (Returned None (Throw ErrTimeout))]> c.(calls)))
| step_read c chunk :
    c.(closed) = false →
    step c (set_rbuf c (c.(rbuf) ++ chunk))
| step_frame c f consumed c' :
    c.(closed) = false → decodeFrame c.(rbuf) = Ret (Some (f, consumed)) →
    dispatchFrame (set_rbuf c (drop consumed c.(rbuf))) f = Ret c' →
    step c c'
| step_exit c :
    c.(closed) = false → decodeFrame c.(rbuf) = Ret None →
    step c (readLoop_exit c)
| step_subscribe c id h :
    step c (set_subs c (<[id := h]> c.(subs)))
| step_unsubscribe c id :
    step c (set_subs c (delete id c.(subs))).

Definition reachable (c : Client) : Prop := rtc step newClient c.

(** * The reader's framing loop on its own

    [drain] is the inner [for] of [readLoop]: it returns the frames found in the
    buffer and what is left of it. A frame has at least four bytes, so the length
    of the buffer bounds the rounds. *)
Fixpoint drain_fuel (fuel : nat) (buf : list byte) : outcome wire_error (list frame * list byte) :=
  match fuel with
  | O => Diverge
  | S fuel =>
      r ← decodeFrame buf;
      match r with
      | None => Ret ([], buf)
      | Some (f, consumed) =>
          '(fs, rest) ← drain_fuel fuel (drop consumed buf);
          Ret (f :: fs, rest)
      end
  end.

Definition drain (buf : list byte) : outcome wire_error (list frame * list byte) :=
  drain_fuel (S (length buf)) buf.

(** [readLoop] over the chunks [Read] delivers: the frames dispatched, in order,
    and the buffer left over. *)
Fixpoint readChunks (buf : list byte) (chunks : list (list byte))
    : outcome wire_error (list frame * list byte) :=
  match chunks with
  | [] => Ret ([], buf)
  | [] :: chunks => readChunks buf chunks
  | tmp :: chunks =>
      '(fs, buf) ← drain (buf ++ tmp);
      '(fs', buf) ← readChunks buf chunks;
      Ret (fs ++ fs', buf)
  end.

(** * Framing: lemmas *)
Lemma drain_fuel_mono f1 f2 buf :
  (f1 <= f2)%nat → diverges (drain_fuel f1 buf) = false → drain_fuel f2 buf = drain_fuel f1 buf.
Proof.
  revert f2 buf. induction f1 as [|f1 IH]; intros f2 buf Hle Hd; [done|].
  destruct f2 as [|f2]; [lia|]. simpl in *.
  destruct (decodeFrame buf) as [[[f n]|]| | |]; try done. simpl in *.
  rewrite (IH f2) by (lia || by destruct (drain_fuel f1 (drop n buf))). done.
Qed.

Lemma drain_None buf : decodeFrame buf = Ret None → drain buf = Ret ([], buf).
Proof. intros H. unfold drain, drain_fuel. by rewrite H. Qed.

Lemma readChunks_cons buf x tmp chunks :
  readChunks buf ((x :: tmp) :: chunks) =
    '(fs, buf) ← drain (buf ++ x :: tmp);
    '(fs', buf) ← readChunks buf chunks;
    Ret (fs ++ fs', buf).
Proof. done. Qed.

(** [encodes fs bs]: [bs] is the concatenation of the encodings of [fs]. *)
Inductive encodes : list frame → list byte → Prop :=
| encodes_nil : encodes [] []
| encodes_cons f b fs bs :
    wf_frame f → encodeFrame f = Ret b → encodes fs bs → encodes (f :: fs) (b ++ bs).

Lemma encodeFrame_length f b : encodeFrame f = Ret b → (4 <= length b)%nat.
Proof. intros (_ & ->)%encodeFrame_inv. rewrite length_app. simpl. lia. Qed.

(** What the inner loop does with a buffer that is a prefix of a stream of frames:
    it takes the complete frames and keeps a proper prefix of the next one. *)
Lemma drain_prefix fs bs buf future :
  encodes fs bs → bs = buf ++ future →
  ∃ fs1 fs2 rest bs2,
    fs = fs1 ++ fs2 ∧ drain buf = Ret (fs1, rest) ∧ encodes fs2 bs2 ∧ bs2 = rest ++ future
    ∧ (future = [] → fs2 = [] ∧ rest = []).
Proof.
  intros He. revert buf. induction He as [|f b fs bs Hwf Hb He IH]; intros buf Heq.
  - symmetry in Heq. apply app_eq_nil in Heq as [-> ->].
    exists [], [], [], []. repeat split; constructor.
  - pose proof (encodeFrame_length _ _ Hb) as Hlen.
    destruct (decide (length b <= length buf)%nat) as [Hle|Hgt].
    + assert (Hbuf : buf = b ++ drop (length b) buf).
      { rewrite <- (take_drop (length b) buf) at 1. f_equal.
        apply (f_equal (take (length b))) in Heq.
        rewrite take_app_length, take_app_le in Heq by done. done. }
      destruct (IH (drop (length b) buf)) as (fs1 & fs2 & rest & bs2 & -> & Hd & He2 & Hbs2 & Hfin).
      { rewrite Hbuf, <- (assoc_L (++)) in Heq. by apply app_inv_head in Heq. }
      exists (f :: fs1), fs2, rest, bs2. repeat split; try done; try by apply Hfin.
      unfold drain in *. simpl. rewrite Hbuf at 1. rewrite (decodeFrame_encode f) by done. obind.
      rewrite (drain_fuel_mono (S (length (drop (length b) buf)))).
      * rewrite Hd. done.
      * rewrite length_drop. lia.
      * by rewrite Hd.
    + exists [], (f :: fs), buf, (b ++ bs). repeat split; try done.
      * unfold drain. simpl. rewrite (decodeFrame_incomplete f b buf (drop (length buf) b)); [done|done| |].
        -- rewrite <- (take_drop (length buf) b) at 1. f_equal.
           apply (f_equal (take (length buf))) in Heq.
           rewrite take_app_length, take_app_le in Heq by lia. done.
        -- intros Hnil%(f_equal length). rewrite length_drop in Hnil. simpl in Hnil. lia.
      * by constructor.
      * exfalso. subst future. apply (f_equal length) in Heq. rewrite !length_app in Heq.
        simpl in Heq. lia.
      * exfalso. subst future. apply (f_equal length) in Heq. rewrite !length_app in Heq.
        simpl in Heq. lia.
Qed.

Lemma readChunks_stream fs bs chunks buf :
  encodes fs bs → bs = buf ++ concat chunks →
  (concat chunks = [] → fs = [] ∧ buf = []) →
  readChunks buf chunks = Ret (fs, []).
Proof.
  revert fs bs buf. induction chunks as [|tmp chunks IH]; intros fs bs buf He Heq Hfin.
  - destruct Hfin as [-> ->]; [done|]. done.
  - destruct tmp as [|x tmp]; [by eapply IH|].
    destruct (drain_prefix fs bs (buf ++ x :: tmp) (concat chunks))
      as (fs1 & fs2 & rest & bs2 & -> & Hd & He2 & Hbs2 & Hend); [done| |].
    { by rewrite Heq, <- (assoc_L (++)). }
    simpl. rewrite Hd. obind. rewrite (IH fs2 bs2 rest) by done. done.
Qed.

(** * The invariant of a connection *)
Record inv (c : Client) : Prop := {
  inv_open id n :
    c.(pend) !! id = Some n →
    ∃ k, c.(calls) !! n = Some k ∧ k.(call_id) = id ∧ k.(call_chan) = Chan None false;
  inv_buf n k f :
    c.(calls) !! n = Some k → k.(call_chan).(chan_buf) = Some f →
    f.(typ) = frameRESP ∧ f.(reqID) = k.(call_id);
  inv_ret n k f r :
    c.(calls) !! n = Some k → k.(call_phase) = Returned (Some f) r →
    f.(typ) = frameRESP ∧ f.(reqID) = k.(call_id) ∧ r = do_response f
}.

Lemma lookup_snoc {A} (l : list A) x n y :
  (l ++ [x]) !! n = Some y → l !! n = Some y ∨ (n = length l ∧ y = x).
Proof.
  intros H. destruct (decide (n < length l)%nat) as [Hlt|Hge].
  - left. by rewrite lookup_app_l in H.
  - right. rewrite lookup_app_r in H by lia. pose proof (lookup_lt_Some _ _ _ H) as Hn. simpl in Hn.
    replace (n - length l)%nat with 0%nat in H by lia. injection H as <-. split; [lia|done].
Qed.

Lemma inv_register c op vs : inv c → inv (do_register c op vs).
Proof.
  intros [Ho Hb Hr]. split; simpl.
  - intros id n. rewrite lookup_insert. case_decide as Hid.
    + intros [= <-]. eexists. rewrite lookup_middle. by repeat split.
    + intros (k & Hk & Hrest)%Ho. exists k. split; [|done].
      by apply lookup_app_l_Some.
  - intros n k f [H|[-> ->]]%lookup_snoc; [by eapply Hb|done].
  - intros n k f r [H|[-> ->]]%lookup_snoc; [by eapply Hr|done].
Qed.

(** Changing the phase of one call without touching its channel. *)
Lemma inv_phase c n k ph p w :
  inv c → c.(calls) !! n = Some k →
  (∀ f r, ph = Returned (Some f) r →
     f.(typ) = frameRESP ∧ f.(reqID) = k.(call_id) ∧ r = do_response f) →
  p ⊆ c.(pend) →
  inv (mkClient p c.(subs) c.(closed) c.(nextID) (<[n := with_phase k ph]> c.(calls))
         c.(rbuf) w c.(fired)).
Proof.
  intros [Ho Hb Hr] Hk Hph Hp. split; simpl.
  - intros id m Hm. eapply lookup_weaken in Hm; [|done]. apply Ho in Hm as (k' & Hk' & Hid & Hch).
    destruct (decide (n = m)) as [->|Hne].
    + exists (with_phase k ph). rewrite list_lookup_insert_eq by (by eapply lookup_lt_Some).
      simplify_eq. done.
    + exists k'. by rewrite list_lookup_insert_ne.
  - intros m k' f [(-> & <- & _)|[_ H]]%list_lookup_insert_Some Hf; [|by eapply Hb].
    simpl in *. by eapply Hb.
  - intros m k' f r [(-> & <- & _)|[_ H]]%list_lookup_insert_Some Hf; [|by eapply Hr].
    by apply Hph.
Qed.

Lemma inv_ext c c' :
  inv c → c'.(pend) = c.(pend) → c'.(calls) = c.(calls) → inv c'.
Proof. intros [Ho Hb Hr] Hp Hc. split; rewrite ?Hp, ?Hc; done. Qed.

(** The reader neither panics nor blocks: the channel under a pending id is open
    and empty. *)
Lemma dispatchFrame_ok c f : inv c → ∃ c', dispatchFrame c f = Ret c'.
Proof.
  intros [Ho _ _]. unfold dispatchFrame. repeat case_match; try by eexists.
  - destruct (Ho _ _ H0) as (k & Hk & _ & Hch). simpl in *. simplify_eq.
    rewrite Hch. by eexists.
  - destruct (Ho _ _ H0) as (k & Hk & _). simpl in *. simplify_eq.
Qed.

Lemma dispatchEvent_frame c f :
  (dispatchEvent c f).(pend) = c.(pend) ∧ (dispatchEvent c f).(calls) = c.(calls).
Proof. unfold dispatchEvent. by repeat case_match. Qed.

Lemma inv_dispatch c f c' : inv c → dispatchFrame c f = Ret c' → inv c'.
Proof.
  intros Hinv. unfold dispatchFrame. destruct (Z.eqb_spec f.(typ) frameRESP) as [Hty|_].
  2:{ case_match; intros [= <-]; [|done].
      apply (inv_ext c); [done|apply dispatchEvent_frame..]. }
  destruct Hinv as [Ho Hb Hr].
  assert (Hdel : inv (set_pend c (delete f.(reqID) c.(pend)))).
  { split; [|done..]. simpl. intros id n [_ H]%lookup_delete_Some. by apply Ho. }
  destruct (c.(pend) !! f.(reqID)) as [n|] eqn:Hn; [|by intros [= <-]].
  destruct (Ho _ _ Hn) as (k & Hk & Hid & Hch). simpl. rewrite Hk, Hch. simpl.
  intros [= <-]. split; simpl.
  - intros id m [Hne H]%lookup_delete_Some. apply Ho in H as (k' & Hk' & Hid' & Hch').
    exists k'. rewrite list_lookup_insert_ne; [done|]. intros ->. simplify_eq.
  - intros m k' g [(-> & <- & _)|[_ H]]%list_lookup_insert_Some Hg; [|by eapply Hb].
    simpl in Hg. by simplify_eq.
  - intros m k' g r [(-> & <- & _)|[_ H]]%list_lookup_insert_Some Hg; [|by eapply Hr].
    by eapply (Hr _ k).
Qed.

Lemma length_close_calls ns cs : length (foldl close_call cs ns) = length cs.
Proof.
  revert cs. induction ns as [|n ns IH]; intros cs; csimpl; [done|].
  rewrite IH. unfold close_call. by rewrite length_alter.
Qed.

Lemma lookup_close_calls ns cs m k :
  foldl close_call cs ns !! m = Some k →
  ∃ k0, cs !! m = Some k0 ∧ k = (if decide (m ∈ ns)
    then with_chan k0 (Chan k0.(call_chan).(chan_buf) true) else k0).
Proof.
  revert cs. induction ns as [|n ns IH]; intros cs; csimpl; [by exists k|].
  intros (k1 & Hk1 & ->)%IH. unfold close_call in Hk1. destruct (decide (m = n)) as [->|Hne].
  - rewrite list_lookup_alter_eq in Hk1. apply fmap_Some in Hk1 as (k0 & Hk0 & ->).
    exists k0. split; [done|]. rewrite (decide_True (P := n ∈ n :: ns)) by (by left).
    by case_decide.
  - rewrite list_lookup_alter_ne in Hk1 by done. exists k1. split; [done|].
    apply decide_ext. split; [by right|by intros [|]%elem_of_cons].
Qed.

Lemma inv_exit c : inv c → inv (readLoop_exit c).
Proof.
  intros [Ho Hb Hr]. split; simpl.
  - intros id n H. by rewrite lookup_empty in H.
  - intros n k f (k0 & Hk0 & ->)%lookup_close_calls. case_decide; simpl; by eapply Hb.
  - intros n k f r (k0 & Hk0 & ->)%lookup_close_calls. case_decide; simpl; by eapply Hr.
Qed.

Lemma inv_step c c' : inv c → step c c' → inv c'.
Proof.
  intros Hinv Hs. destruct Hs as
    [c op vs|c n k bs Hk Hp Hbs|c n k Hk Hp|c n k f Hk Hp Hf|c n k Hk Hp Hch|c n k Hk Hp
    |c chunk Hcl|c f m c' Hcl Hd Hdf|c Hcl Hd|c id h|c id].
  - by apply inv_register.
  - by apply (inv_phase c n k Sent c.(pend)).
  - apply (inv_phase c n k _ _ c.(wrote)); [done..|]. apply delete_subseteq.
  - pose proof Hinv as [Ho Hb Hr].
    assert (Hfresh : ∀ id, c.(pend) !! id ≠ Some n).
    { intros id (k' & Hk' & _ & Hch)%Ho. simplify_eq. by rewrite Hch in Hf. }
    split; simpl.
    + intros id m Hm. destruct (Ho _ _ Hm) as (k' & Hk' & Hrest). exists k'.
      rewrite list_lookup_insert_ne; [done|]. intros ->. by eapply Hfresh.
    + intros m k' g [(-> & <- & _)|[_ H]]%list_lookup_insert_Some Hg; [done|by eapply Hb].
    + intros m k' g r [(-> & <- & _)|[_ H]]%list_lookup_insert_Some Hg; [|by eapply Hr].
      simpl in *. simplify_eq. split_and!; by eapply Hb || done.
  - by apply (inv_phase c n k _ c.(pend) c.(wrote)).
  - by apply (inv_phase c n k _ c.(pend) c.(wrote)).
  - by apply (inv_ext c).
  - eapply inv_dispatch; [|done]. by apply (inv_ext c).
  - by apply inv_exit.
  - by apply (inv_ext c).
  - by apply (inv_ext c).
Qed.

Lemma inv_reachable c : reachable c → inv c.
Proof.
  revert c. apply (rtc_ind_r (R := step) inv newClient); [|by eauto using inv_step].
  split; simpl; intros *; by rewrite ?lookup_empty, ?lookup_nil.
Qed.

#[export] Hint Resolve inv_reachable : lotor.

(** * No waiting call is forgotten *)
Definition waiting (k : call) : Prop := k.(call_phase) = Registered ∨ k.(call_phase) = Sent.

(** A call that will be woken by the reader, or has been. *)
Definition attended (c : Client) (n : nat) (k : call) : Prop :=
  c.(pend) !! k.(call_id) = Some n ∨ is_Some k.(call_chan).(chan_buf)
  ∨ k.(call_chan).(chan_closed) = true.

(** Until the 32-bit request counter wraps, ids are call numbers plus one and every
    waiting call is attended. *)
Record live (c : Client) : Prop := {
  live_next : c.(nextID) = len c.(calls);
  live_id n k : c.(calls) !! n = Some k → k.(call_id) = Z.of_nat n + 1;
  live_wait n k : c.(calls) !! n = Some k → waiting k → attended c n k
}.

Lemma live_register c op vs :
  len c.(calls) + 1 < 2 ^ 32 → live c → live (do_register c op vs).
Proof.
  intros Hlt [Hn Hi Hw].
  assert (Hid : u32 (c.(nextID) + 1) = len c.(calls) + 1).
  { rewrite Hn. apply Z.mod_small. unfold len in *. lia. }
  split; simpl; rewrite Hid.
  - by rewrite len_app.
  - intros n k [H|[-> ->]]%lookup_snoc; [by apply Hi|done].
  - intros n k [H|[-> ->]]%lookup_snoc Hk.
    2:{ left. simpl. rewrite Hid. apply lookup_insert_eq. }
    destruct (Hw n k H Hk) as [Hp|Hrest]; [left|by right]. simpl.
    rewrite Hid, lookup_insert_ne; [done|]. apply lookup_lt_Some in H as Hl.
    rewrite (Hi n k H). unfold len. lia.
Qed.

(** Rewriting one call, with the same id, into one that is attended or returned. *)
Lemma live_update c n k k' p rb w fi :
  live c → c.(calls) !! n = Some k → k'.(call_id) = k.(call_id) →
  (∀ id m, id ≠ k.(call_id) → c.(pend) !! id = Some m → p !! id = Some m) →
  (waiting k' → p !! k'.(call_id) = Some n ∨ is_Some k'.(call_chan).(chan_buf)
     ∨ k'.(call_chan).(chan_closed) = true) →
  live (mkClient p c.(subs) c.(closed) c.(nextID) (<[n := k']> c.(calls)) rb w fi).
Proof.
  intros [Hn Hi Hw] Hk Hid Hp Hk'. split; simpl.
  - unfold len. by rewrite length_insert.
  - intros m x [(-> & <- & _)|[_ H]]%list_lookup_insert_Some; [|by apply Hi].
    rewrite Hid. by apply Hi.
  - intros m x [(-> & <- & _)|[Hne H]]%list_lookup_insert_Some Hwait; [by apply Hk'|].
    destruct (Hw m x H Hwait) as [Hm|Hrest]; [left; simpl|by right].
    apply Hp; [|done]. rewrite (Hi _ _ H), (Hi _ _ Hk). lia.
Qed.

Lemma live_exit c : live c → live (readLoop_exit c).
Proof.
  intros [Hn Hi Hw]. split; simpl.
  - rewrite Hn. unfold len. by rewrite length_close_calls.
  - intros n k (k0 & Hk0 & ->)%lookup_close_calls. case_decide; simpl; by eapply Hi.
  - intros n k (k0 & Hk0 & ->)%lookup_close_calls Hwait. unfold attended. simpl.
    case_decide as Hin; [by right; right|].
    destruct (Hw n k0 Hk0 Hwait) as [Hp|Hrest]; [|by right].
    contradict Hin. apply list_elem_of_fmap. exists (k0.(call_id), n).
    split; [done|]. by apply elem_of_map_to_list.
Qed.

Lemma live_dispatch c f c' :
  inv c → live c → dispatchFrame c f = Ret c' → live c'.
Proof.
  intros Hinv Hl. unfold dispatchFrame. destruct (f.(typ) =? frameRESP).
  2:{ case_match; intros [= <-]; [|done]. destruct (dispatchEvent_frame c f) as [Hp Hc].
      destruct Hl as [Hn Hi Hw]. split.
      - rewrite Hc, <- Hn. unfold dispatchEvent. by repeat case_match.
      - by rewrite Hc.
      - unfold attended. by rewrite Hc, Hp. }
  destruct (c.(pend) !! f.(reqID)) as [n|] eqn:Hn.
  - destruct (inv_open _ Hinv _ _ Hn) as (k & Hk & Hid & Hch). simpl. rewrite Hk, Hch. simpl.
    intros [= <-]. apply (live_update c n k); [done..| |].
    + simpl. intros id m Hne Hm. rewrite lookup_delete_ne; [done|congruence].
    + intros _. right. left. by eexists.
  - intros [= <-]. destruct Hl as [Hx Hi Hw]. split; [done..|]. simpl. intros n k Hk Hwait.
    destruct (Hw n k Hk Hwait) as [Hp|Hrest]; [left; simpl|by right].
    rewrite lookup_delete_ne; [done|congruence].
Qed.

Lemma live_step c c' :
  inv c → step c c' → len c'.(calls) < 2 ^ 32 → live c → live c'.
Proof.
  intros Hinv Hs Hlt Hl. destruct Hs as
    [c op vs|c n k bs Hk Hp Hbs|c n k Hk Hp|c n k f Hk Hp Hf|c n k Hk Hp Hch|c n k Hk Hp
    |c chunk Hcl|c f m c' Hcl Hd Hdf|c Hcl Hd|c id h|c id].
  - apply live_register; [|done]. simpl in Hlt. by rewrite len_app in Hlt.
  - apply (live_update c n k); [done..|]. intros _. apply (live_wait _ Hl n k Hk). by left.
  - apply (live_update c n k); [done..| |by intros [|]].
    simpl. intros id m Hne Hm. by rewrite lookup_delete_ne.
  - apply (live_update c n k); [done..|by intros [|]].
  - apply (live_update c n k); [done..|by intros [|]].
  - apply (live_update c n k); [done..|by intros [|]].
  - by destruct Hl; split.
  - apply (live_dispatch (set_rbuf c (drop m c.(rbuf))) f); [by apply (inv_ext c)| |done].
    by destruct Hl; split.
  - by apply live_exit.
  - by destruct Hl; split.
  - by destruct Hl; split.
Qed.

Lemma dispatchFrame_calls c f c' :
  dispatchFrame c f = Ret c' → length c'.(calls) = length c.(calls).
Proof.
  unfold dispatchFrame, dispatchEvent. repeat case_match; try (by intros [= <-]); try done.
  intros (ch & _ & [= <-])%bind_Ret_inv. simpl. by rewrite length_insert.
Qed.

Lemma step_calls_mono c c' : step c c' → (length c.(calls) <= length c'.(calls))%nat.
Proof.
  destruct 1; simpl; rewrite ?length_app, ?length_insert; try lia.
  - match goal with H : dispatchFrame _ _ = _ |- _ => apply dispatchFrame_calls in H end.
    simpl in *. lia.
  - by rewrite length_close_calls.
Qed.

Lemma live_reachable c : reachable c → len c.(calls) < 2 ^ 32 → live c.
Proof.
  revert c. apply (rtc_ind_r (R := step) (fun c => len c.(calls) < 2 ^ 32 → live c) newClient).
  - intros _. split; simpl; [done|intros *; by rewrite lookup_nil..].
  - intros c c' Hr Hs IH Hlt. eapply live_step; eauto with lotor.
    apply IH. apply step_calls_mono in Hs. unfold len in *. lia.
Qed.

(** * After the reader has exited

    [N] is the number of calls at that time. *)
Record after (N : nat) (c : Client) : Prop := {
  after_closed : c.(closed) = true;
  after_length : (N <= length c.(calls))%nat;
  after_old n k :
    c.(calls) !! n = Some k → (n < N)%nat → waiting k →
    is_Some k.(call_chan).(chan_buf) ∨ k.(call_chan).(chan_closed) = true;
  after_new n k :
    c.(calls) !! n = Some k → (N <= n)%nat →
    k.(call_chan) = Chan None false
    ∧ ∀ f r, k.(call_phase) = Returned f r → r = Throw ErrWrite ∨ r = Throw ErrTimeout
}.

Lemma after_exit c : reachable c → len c.(calls) < 2 ^ 32 → after (length c.(calls)) (readLoop_exit c).
Proof.
  intros Hr Hlt. pose proof (live_exit c (live_reachable c Hr Hlt)) as Hl. split; [done|..].
  - simpl. by rewrite length_close_calls.
  - intros n k Hk _ Hw. destruct (live_wait _ Hl n k Hk Hw) as [Hp|H]; [|done]. simpl in Hp.
    by rewrite lookup_empty in Hp.
  - intros n k Hk Hn. apply lookup_lt_Some in Hk. simpl in Hk. rewrite length_close_calls in Hk. lia.
Qed.

(** Updating one call. *)
Lemma after_update N c n k k' p s i rb w fi :
  after N c → c.(calls) !! n = Some k →
  (waiting k' → waiting k ∧ k'.(call_chan) = k.(call_chan)) →
  (k.(call_chan) = Chan None false → k'.(call_chan) = k.(call_chan)
     ∧ ∀ f r, k'.(call_phase) = Returned f r → r = Throw ErrWrite ∨ r = Throw ErrTimeout) →
  after N (mkClient p s c.(closed) i (<[n := k']> c.(calls)) rb w fi).
Proof.
  intros [Hc Hl Ho Hn] Hk Hold Hnew. split; simpl; [done|by rewrite length_insert|..].
  - intros m x [(-> & <- & _)|[_ H]]%list_lookup_insert_Some Hm Hw; [|by eapply Ho].
    destruct (Hold Hw) as [Hw' ->]. by eapply Ho.
  - intros m x [(-> & <- & _)|[_ H]]%list_lookup_insert_Some Hm; [|by eapply Hn].
    destruct (Hn _ _ Hk Hm) as [Hch _]. destruct (Hnew Hch) as [-> Hret]. done.
Qed.

Lemma after_step N c c' : after N c → step c c' → after N c'.
Proof.
  intros Ha Hs. pose proof (after_closed _ _ Ha) as Hclosed. destruct Hs as
    [c op vs|c n k bs Hk Hp Hbs|c n k Hk Hp|c n k f Hk Hp Hf|c n k Hk Hp Hch|c n k Hk Hp
    |c chunk Hcl|c f m c' Hcl Hd Hdf|c Hcl Hd|c id h|c id]; try congruence.
  - destruct Ha as [Hc Hl Ho Hn]. split; simpl; [done|rewrite length_app; lia|..].
    + intros n k [H|[-> ->]]%lookup_snoc Hlt; [by eapply Ho|lia].
    + intros n k [H|[-> ->]]%lookup_snoc Hlt; [by eapply Hn|done].
  - apply (after_update N c n k); try done. intros _. by split; [left|].
  - apply (after_update N c n k); try done; [by intros [|]|]. intros _. split; [done|].
    intros f r [= <- <-]. by left.
  - apply (after_update N c n k); try done; [by intros [|]|]. intros Hch. by rewrite Hch in Hf.
  - apply (after_update N c n k); try done; [by intros [|]|]. intros Hch'. congruence.
  - apply (after_update N c n k); try done; [by intros [|]|]. intros _. split; [done|].
    intros f r [= <- <-]. by right.
  - by destruct Ha; split.
  - by destruct Ha; split.
Qed.

(** * A frame the decoder cannot parse *)

(** A frame of the right length whose first argument has the unknown tag [t]. *)
Definition badFrame (n : Z) (f : frame) (t : Z) (body : list byte) : list byte :=
  frameHeader n f ++ putUvarint 1 ++ to_byte t :: body.

Lemma decodeFrame_bad n f t body :
  is_u32 n → wf_frame f → 9 <= t < 256 → decodeFrame (badFrame n f t body) = Ret None.
Proof.
  intros Hn Hf Ht. unfold decodeFrame, badFrame.
  destruct (_ <? 4); [done|].
  destruct (frameHeader_fields n f (putUvarint 1 ++ to_byte t :: body) Hn Hf)
    as (-> & -> & -> & -> & -> & ->). obind.
  destruct (_ <? 4 + n); [done|].
  change 14%nat with (length (frameHeader n f)).
  rewrite readUvarint_put by (unfold is_u64; lia).
  change (maxSliceCap <? 1) with false. cbv iota.
  rewrite (assoc_L (++) (frameHeader n f)), <- length_app.
  set (pre := frameHeader n f ++ putUvarint 1).
  assert (Hd : decodeValue (pre ++ to_byte t :: body) (length pre) = Throw (errUnknownTag t)).
  { unfold decodeValue.
    pose proof (decodeValue_fuel_tag (length (pre ++ to_byte t :: body)) pre t body []
      ltac:(lia)) as Ht'. rewrite app_nil_r in Ht'. rewrite Ht'. cbv zeta.
    unfold decodeTagged, tagNull, tagBool, tagU64, tagI64, tagStr, tagAddr, tagBytes, tagList, tagMap.
    repeat match goal with |- context [t =? ?x] =>
      rewrite (proj2 (Z.eqb_neq t x)) by lia end. done. }
  assert (Hi : decode_item (decodeValue (pre ++ to_byte t :: body)) [] (length pre) =
    Throw (errUnknownTag t)) by (unfold decode_item; by rewrite Hd).
  rewrite for_range_S by lia. by rewrite Hi.
Qed.

Lemma badFrame_app n f t body more :
  badFrame n f t body ++ more = badFrame n f t (body ++ more).
Proof. unfold badFrame. by rewrite <- !(assoc_L (++)). Qed.

(** * Properties *)

(** C33: framing does not depend on how the bytes arrive. If the peer sends the
    encodings of any sequence of well-formed frames, then for every way of cutting
    the byte stream into reads [readLoop] dispatches exactly those frames, in order,
    and ends with an empty buffer. *)
Theorem readLoop_chunking fs bs chunks :
  encodes fs bs → concat chunks = bs → readChunks [] chunks = Ret (fs, []).
Proof.
  intros He Hc. apply (readChunks_stream fs bs); [done|by rewrite Hc|].
  rewrite Hc. intros ->. inversion He as [|f b ? ? _ Hb]; [done|].
  apply encodeFrame_length in Hb. destruct b; [simpl in Hb; lia|done].
Qed.

Lemma readLoop_chunking_witness :
  let f := Frame [vU64 1] frameRESP 0 7 0 in
  let bs := [x00; x00; x00; x0d; x01; x02; x00; x00; x00; x00; x00; x07; x00; x00;
             x01; x02; x01] in
  readChunks [] [take 3 bs; []; drop 3 bs ++ take 9 bs; drop 9 bs] = Ret ([f; f], []).
Proof.
  intros f bs. apply (readLoop_chunking [f; f] (bs ++ bs ++ [])); [|reflexivity].
  assert (Hf : wf_frame f).
  { constructor; try (vm_compute; intuition congruence).
    intros v [->|[]%not_elem_of_nil]%elem_of_cons. constructor. unfold is_u64. lia. }
  constructor; [done|reflexivity|]. constructor; [done|reflexivity|]. constructor.
Defined.

(** C34: in every interleaving of callers and reader, the reader goroutine never
    panics and never blocks while it hands a frame over: the channel registered
    under a pending request id is open and empty, whatever the server sends. *)
Theorem readLoop_never_stuck c f :
  reachable c → ∃ c', dispatchFrame c f = Ret c'.
Proof. intros H. apply dispatchFrame_ok. auto with lotor. Qed.

Lemma readLoop_never_stuck_witness :
  ∃ c', dispatchFrame (do_register newClient 3 []) (Frame [] frameRESP 0 1 0) = Ret c'.
Proof.
  apply readLoop_never_stuck. unfold reachable. eapply rtc_l; [apply step_register|].
  apply rtc_refl.
Defined.

(** C35: responses are correlated. Whenever a call of [do] has returned from a
    response, that frame is a [RESP] frame that carried the request id the call
    wrote, and the call's result is what [do] computes from that frame. *)
Theorem do_correlated c n k f r :
  reachable c → c.(calls) !! n = Some k → k.(call_phase) = Returned (Some f) r →
  f.(typ) = frameRESP ∧ f.(reqID) = (do_request k).(reqID) ∧ r = do_response f.
Proof. intros Hr. by apply (inv_ret c); auto with lotor. Qed.

(** A run of one request and its response, for the examples below. *)
Definition exampleResponse : frame := Frame [vU64 5] frameRESP 0 1 0.
Definition exampleBytes : list byte :=
  [x00; x00; x00; x0d; x01; x02; x00; x00; x00; x00; x00; x01; x00; x00; x01; x02; x05].
Definition exampleSent : Client :=
  mkClient {[1 := 0%nat]} ∅ false 1 [Call 3 [] 1 (Chan None false) Sent] []
    [x00; x00; x00; x0b; x01; x01; x00; x00; x00; x00; x00; x01; x00; x03; x00] [].
Definition exampleDone : Client :=
  mkClient ∅ ∅ false 1
    [Call 3 [] 1 (Chan None false) (Returned (Some exampleResponse) (Ret [vU64 5]))] []
    exampleSent.(wrote) [].

Lemma exampleSent_reachable : reachable exampleSent.
Proof.
  unfold reachable. eapply rtc_l; [apply (step_register _ 3 [])|].
  eapply rtc_l; [eapply (step_write_ok _ 0); reflexivity|]. apply rtc_refl.
Qed.

Lemma exampleDone_reachable : reachable exampleDone.
Proof.
  unfold reachable. etrans; [apply exampleSent_reachable|].
  eapply rtc_l; [apply (step_read _ exampleBytes); reflexivity|].
  eapply rtc_l; [eapply step_frame; vm_compute; reflexivity|].
  eapply rtc_l; [eapply (step_receive _ 0); reflexivity|]. apply rtc_refl.
Qed.

Lemma do_correlated_witness :
  exampleResponse.(typ) = frameRESP ∧ exampleResponse.(reqID) = 1
  ∧ Ret [vU64 5] = do_response exampleResponse.
Proof.
  apply (do_correlated exampleDone 0
    (Call 3 [] 1 (Chan None false) (Returned (Some exampleResponse) (Ret [vU64 5]))));
    [apply exampleDone_reachable|reflexivity|reflexivity].
Defined.

(** C36: when the connection fails, nobody who waits is left behind. Let the reader exit
    before [2^32] requests were issued. From then on, whatever the callers do, every call
    that was registered before the exit and still waits has a delivered response or a closed
    channel, so its [select] returns at once; a call that is registered after the exit has
    an open, empty channel for good, and returns only with a write error or by timeout. *)
Theorem readLoop_exit_wakes c c' n k :
  reachable c → len c.(calls) < 2 ^ 32 → step c (readLoop_exit c) → rtc step (readLoop_exit c) c' →
  c'.(calls) !! n = Some k →
  ((n < length c.(calls))%nat → waiting k →
     is_Some k.(call_chan).(chan_buf) ∨ k.(call_chan).(chan_closed) = true)
  ∧ ((length c.(calls) <= n)%nat →
     k.(call_chan) = Chan None false
     ∧ ∀ f r, k.(call_phase) = Returned f r → r = Throw ErrWrite ∨ r = Throw ErrTimeout).
Proof.
  intros Hr Hlt _ Hrun Hk.
  assert (Hafter : after (length c.(calls)) c').
  { revert c' Hrun Hk. intros c' Hrun _. revert c' Hrun.
    apply (rtc_ind_r (R := step) (after (length c.(calls))) (readLoop_exit c));
      [by apply after_exit|]. intros c1 c2 _ Hs Ha. by eapply after_step. }
  destruct Hafter as [_ _ Hold Hnew]. split; intros Hn; [intros Hw; by eapply Hold|].
  by eapply Hnew.
Qed.

(** A call made after the exit, whose write succeeds, is left to its timeout. *)
Definition exampleLate : Client :=
  do_register (readLoop_exit exampleSent) 3 [].

Lemma readLoop_exit_wakes_witness :
  (is_Some (@None frame) ∨ true = true)
  ∧ Chan None false = Chan None false.
Proof.
  assert (Hexit : step exampleSent (readLoop_exit exampleSent)) by (apply step_exit; reflexivity).
  assert (Hrun : rtc step (readLoop_exit exampleSent) exampleLate).
  { eapply rtc_l; [apply step_register|apply rtc_refl]. }
  split.
  - apply (readLoop_exit_wakes exampleSent exampleLate 0 (Call 3 [] 1 (Chan None true) Sent));
      [apply exampleSent_reachable|vm_compute; reflexivity|exact Hexit|exact Hrun|reflexivity
      |simpl; lia|right; reflexivity].
  - apply (readLoop_exit_wakes exampleSent exampleLate 1 (Call 3 [] 2 (Chan None false) Registered));
      [apply exampleSent_reachable|vm_compute; reflexivity|exact Hexit|exact Hrun|reflexivity
      |simpl; lia].
Defined.

(** An unparsable frame wedges the connection. Once the buffer starts with a
    frame whose first argument has an unknown tag, [decodeFrame] reports it as
    incomplete no matter what follows: no later frame is ever dispatched and the
    buffer only grows. *)
Theorem bad_frame_wedges n f t body chunks :
  is_u32 n → wf_frame f → 9 <= t < 256 →
  readChunks (badFrame n f t body) chunks = Ret ([], badFrame n f t body ++ concat chunks).
Proof.
  intros Hn Hf Ht. revert body. induction chunks as [|tmp chunks IH]; intros body.
  - cbn [readChunks concat]. by rewrite app_nil_r.
  - destruct tmp as [|x tmp]; [apply IH|].
    rewrite readChunks_cons, badFrame_app, drain_None by (by apply decodeFrame_bad). obind.
    rewrite IH, <- badFrame_app, <- (assoc_L (++)). done.
Qed.

Lemma bad_frame_wedges_witness :
  let f := Frame [] frameEVENT 0 0 0 in
  readChunks (badFrame 12 f 9 []) [exampleBytes; exampleBytes] =
    Ret ([], badFrame 12 f 9 [] ++ exampleBytes ++ exampleBytes).
Proof.
  intros f. apply (bad_frame_wedges 12 f 9 [] [exampleBytes; exampleBytes]);
    [unfold is_u32; lia| |lia].
  constructor; try (vm_compute; intuition congruence). by intros v ?%not_elem_of_nil.
Defined.

(** Short frames crash the reader. When the buffer holds exactly a frame whose
    announced length is below the ten bytes of a frame header, [decodeFrame]
    indexes past the end of the buffer and panics. *)
Theorem short_frame_panics n body :
  0 <= n < 10 → len body = n → decodeFrame (AppendUint32 n ++ body) = Panic.
Proof.
  intros Hn Hb. unfold decodeFrame. rewrite len_prefixed, Hb.
  destruct (Z.ltb_spec (4 + n) 4); [lia|].
  assert (Hu : Uint32 (AppendUint32 n ++ body) 0 = Ret n).
  { unfold Uint32. simpl. rewrite Uint32_Append by (unfold is_u32; lia). done. }
  rewrite Hu. obind. rewrite Z.ltb_irrefl. clear Hu.
  assert (Hl : (length body < 10)%nat) by (unfold len in Hb; lia).
  do 10 (destruct body as [|? body]; [reflexivity|]). simpl in Hl. lia.
Qed.

Lemma short_frame_panics_witness : decodeFrame [x00; x00; x00; x00] = Panic.
Proof. apply (short_frame_panics 0 []); [lia|reflexivity]. Defined.
