(* ===== verification/Operations.v ===== *)
(** The typed operations of the LWP client: the methods of [src/lotor/client.go].

    A method builds a request (opcode and arguments), calls [do] and decodes the
    response arguments into a result struct. It is modelled as a [command]; the
    method call itself is [perform do command]. *)
From S2P Require Import Prelude Wire Connection.

(** * Opcodes *)
Definition opHELLO : Z := 0x0001.
Definition opAUTH : Z := 0x0002.
Definition opAUTHVERIFY : Z := 0x0010.
Definition opACCESSCHECK : Z := 0x0020.
Definition opACCESSGRANT : Z := 0x0021.
Definition opACCESSREVOKE : Z := 0x0022.
Definition opACCESSEXPAND : Z := 0x0023.
Definition opMETERCONSUME : Z := 0x0030.
Definition opMETERRELEASE : Z := 0x0031.
Definition opMETERGET : Z := 0x0032.
Definition opSEATCLAIM : Z := 0x0040.
Definition opSEATRELEASE : Z := 0x0041.
Definition opCONFGET : Z := 0x0050.
Definition opWATCH : Z := 0x0060.
Definition opUNWATCH : Z := 0x0061.
Definition opWALLETCREDIT : Z := 0x0070.
Definition opWALLETDEBIT : Z := 0x0071.
Definition opWALLETGET : Z := 0x0072.
Definition opALLOWANCEGRANT : Z := 0x0073.
Definition opALLOWANCEGET : Z := 0x0074.
Definition opPOLICYCHECK : Z := 0x0080.
Definition opINVITECREATE : Z := 0x0090.
Definition opINVITEACCEPT : Z := 0x0091.
Definition opINVITECANCEL : Z := 0x0092.
Definition opINVITELIST : Z := 0x0093.
Definition opMEMBERREMOVE : Z := 0x0094.
Definition opMEMBERROLESET : Z := 0x0095.
Definition opENCRYPTEDINVITECREATE : Z := 0x00A9.
Definition opENCRYPTEDINVITEACCEPT : Z := 0x00AA.

(** * Commands *)
Inductive op_error : Type :=
| DoError (e : do_error)
| ErrMsg (msg : string).

Record command (A : Type) : Type := Command {
  cmd_guard : option op_error;
  cmd_op : Z;
  cmd_args : list value;
  cmd_decode : list value → outcome op_error A
}.
Arguments Command {A} _ _ _ _.
Arguments cmd_guard {A} _.
Arguments cmd_op {A} _.
Arguments cmd_args {A} _.
Arguments cmd_decode {A} _ _.

Definition lift_do {A} (m : outcome do_error A) : outcome op_error A :=
  match m with
  | Ret a => Ret a
  | Throw e => Throw (DoError e)
  | Panic => Panic
  | Diverge => Diverge
  end.

(** A method call: the local guard, the exchange, the decoding. *)
Definition perform {A} (do : Z → list value → outcome do_error (list value)) (c : command A)
    : outcome op_error A :=
  match c.(cmd_guard) with
  | Some e => Throw e
  | None => a ← lift_do (do c.(cmd_op) c.(cmd_args)); c.(cmd_decode) a
  end.

Definition request {A} (op : Z) (vs : list value) (dec : list value → outcome op_error A)
    : command A := Command None op vs dec.

(** [if cond { field = get(a[i]) }] on a field whose zero value is [zero]. *)
Definition field_if {A} (cond : bool) (a : list value) (i : nat) (get : value → A) (zero : A)
    : outcome op_error A :=
  if cond then v ← idx a i; Ret (get v) else Ret zero.

(** [len(a) >= n]. *)
Definition has (a : list value) (n : Z) : bool := n <=? len a.

Definition asTrue (v : value) : bool := asNum v =? 1.

(** [sort.Strings] on a list of strings is [sortStrings] of Wire. *)
Definition strs (vs : list value) : list string := asStr <$> vs.

(** [m["k"]]: the zero value when absent. *)
Definition field (v : value) (key : string) : value := default value_zero (v.(Map) !! key).

(** * Authentication *)
Definition Hello : command unit :=
  request opHELLO [vU64 protoVersion; vU64 0; vStr "lotor-go"] (fun _ => Ret tt).

(** * Dialing *)
Inductive dial_error : Type :=
| DialTLSConfig
| DialNetwork
| DialHello (e : op_error).

(** The end of [newClient]: the handshake on a new connection; [do] is its [do]. The result says
    that the client is usable, the flag that its connection is still open: it is closed when
    the handshake fails. *)
Definition handshake (do : Z → list value → outcome do_error (list value))
    : outcome dial_error unit * bool :=
  match perform do Hello with
  | Ret _ => (Ret tt, true)
  | Throw e => (Throw (DialHello e), false)
  | Panic => (Panic, true)
  | Diverge => (Diverge, true)
  end.

(** [Dial] and [DialTLS]; [connects] says whether the address can be reached, [config] whether
    there is a TLS configuration. *)
Definition Dial (connects : string → bool) (do : Z → list value → outcome do_error (list value))
    (addr : string) : outcome dial_error unit * bool :=
  if connects addr then handshake do else (Throw DialNetwork, false).

Definition DialTLS (connects : string → bool) (do : Z → list value → outcome do_error (list value))
    (addr : string) (config : bool) : outcome dial_error unit * bool :=
  if negb config then (Throw DialTLSConfig, false)
  else if connects addr then handshake do else (Throw DialNetwork, false).

Definition Auth (apiKey : string) : command unit :=
  request opAUTH [vStr apiKey] (fun _ => Ret tt).

Record Verified : Type := mkVerified {
  Verified_Subject : string;
  Verified_Org : string;
  Verified_Reason : string;
  Verified_Valid : bool
}.

Definition AuthVerify (credType : Z) (credential : string) : command Verified :=
  Command
    (if credType <? 0 then Some (ErrMsg "credential type must be non-negative") else None)
    opAUTHVERIFY [vU64 (u64 credType); vStr credential]
    (fun a =>
       let ok := has a 6 in
       valid ← field_if ok a 0 asBool false;
       subject ← field_if ok a 1 asStr "";
       org ← field_if ok a 2 asStr "";
       reason ← field_if ok a 5 asStr "";
       Ret (mkVerified subject org reason valid)).

(** * Authorization *)
Record Decision : Type := mkDecision {
  Decision_Reason : string;
  Decision_Evidence : string;
  Decision_CompositionVersion : Z;
  Decision_Allow : bool
}.

Record CompositionPin : Type := mkCompositionPin {
  Pin_Operation : string;
  Pin_ResultHash : string;
  Pin_PoolRef : string;
  Pin_CompositionSubject : string;
  Pin_Version : Z
}.

Record PolicyInput : Type := mkPolicyInput {
  PolicyInput_Pin : CompositionPin;
  ScopeRef : string;
  DestinationRef : string;
  RegionRef : string;
  ExecutionPolicyRef : string;
  EvidenceRefs : list string;
  RetentionDays : Z;
  Reveal : bool;
  Export : bool
}.

Record PolicyDecision : Type := mkPolicyDecision {
  PolicyDecision_State : string;
  PolicyDecision_Reasons : list string;
  PolicyDecision_Evidence : string;
  PolicyDecision_SourcePins : list string;
  PolicyDecision_CompositionVersion : Z
}.

Definition policyContext (subject : string) (input : PolicyInput) : value :=
  let evidence := sortStrings input.(EvidenceRefs) in
  let compositionSubject :=
    if decide (input.(PolicyInput_Pin).(Pin_CompositionSubject) = "") then subject
    else input.(PolicyInput_Pin).(Pin_CompositionSubject) in
  vMap (list_to_map [
    ("composition_hash", vStr input.(PolicyInput_Pin).(Pin_ResultHash));
    ("composition_version", vU64 input.(PolicyInput_Pin).(Pin_Version));
    ("composition_subject", vAddr compositionSubject);
    ("scope_ref", vStr input.(ScopeRef));
    ("destination_ref", vStr input.(DestinationRef));
    ("region_ref", vStr input.(RegionRef));
    ("execution_policy_ref", vStr input.(ExecutionPolicyRef));
    ("evidence_refs", vList (vStr <$> evidence));
    ("retention_days", vU64 input.(RetentionDays));
    ("reveal", vBool input.(Reveal));
    ("export", vBool input.(Export))]).

Definition PolicyCheck (subject : string) (input : PolicyInput) : command PolicyDecision :=
  request opPOLICYCHECK
    [vAddr subject; vStr input.(PolicyInput_Pin).(Pin_Operation); policyContext subject input]
    (fun a =>
       let ok := has a 5 in
       state ← field_if ok a 0 asStr "";
       reasons ← field_if ok a 1 (fun v => strs v.(List)) [];
       evidence ← field_if ok a 2 asStr "";
       version ← field_if ok a 3 U64 0;
       pins ← field_if ok a 4 (fun v => strs v.(List)) [];
       Ret (mkPolicyDecision state reasons evidence pins version)).

Definition AccessCheck (subject relation object : string) : command Decision :=
  request opACCESSCHECK [vAddr subject; vStr relation; vAddr object]
    (fun a =>
       let ok := has a 2 in
       allow ← field_if ok a 0 asTrue false;
       reason ← field_if ok a 1 asStr "";
       Ret (mkDecision reason "" 0 allow)).

(** [if len(values) == 0 || !values[0].asBool() { return errors.New(msg) }]. *)
Definition committed (msg : string) (a : list value) : outcome op_error unit :=
  if len a =? 0 then Throw (ErrMsg msg)
  else v ← idx a 0; if asBool v then Ret tt else Throw (ErrMsg msg).

Definition AccessGrant (subject relation object : string) (expiresAt : Z) : command unit :=
  request opACCESSGRANT [vAddr subject; vStr relation; vAddr object; vU64 expiresAt]
    (committed "access grant was not committed").

Definition AccessRevoke (subject relation object : string) : command unit :=
  request opACCESSREVOKE [vAddr subject; vStr relation; vAddr object]
    (committed "access revoke was not committed").

Definition AccessExpand (object relation : string) (limit : Z) : command (list string) :=
  request opACCESSEXPAND [vAddr object; vStr relation; vU64 limit]
    (fun a =>
       if len a =? 0 then Ret []
       else
         v ← idx a 0;
         if negb (v.(Kind) =? tagList) then Ret []
         else Ret (sortStrings (filter (fun item => item ≠ "") (strs v.(List))))).

Definition accessPin (pin : CompositionPin) : value :=
  let values : gmap string value := list_to_map [
    ("operation", vStr pin.(Pin_Operation));
    ("composition_hash", vStr pin.(Pin_ResultHash));
    ("composition_version", vU64 pin.(Pin_Version))] in
  vMap (if decide (pin.(Pin_CompositionSubject) = "") then values
        else <["composition_subject" := vAddr pin.(Pin_CompositionSubject)]> values).

Definition AccessCheckPinned (subject relation object : string) (pin : CompositionPin)
    : command Decision :=
  request opACCESSCHECK [vAddr subject; vStr relation; vAddr object; accessPin pin]
    (fun a =>
       allow ← field_if (has a 2) a 0 asTrue false;
       reason ← field_if (has a 2) a 1 asStr "";
       evidence ← field_if (has a 5) a 3 asStr "";
       version ← field_if (has a 5) a 4 U64 0;
       Ret (mkDecision reason evidence version allow)).

(** * Configuration *)
Record ConfBlob : Type := mkConfBlob {
  ConfBlob_Board : string;
  ConfBlob_Etag : string;
  ConfBlob_ContentType : string;
  ConfBlob_Payload : list byte;
  ConfBlob_Version : Z;
  ConfBlob_Changed : bool
}.

Definition ConfGet (board : string) (knownVersion : Z) : command ConfBlob :=
  request opCONFGET
    ([vStr board] ++ (if 0 <? knownVersion then [vU64 knownVersion] else []))
    (fun a =>
       let ok := has a 6 in
       changed ← field_if ok a 0 asBool false;
       board ← field_if ok a 1 asStr board;
       version ← field_if ok a 2 U64 0;
       etag ← field_if ok a 3 asStr "";
       contentType ← field_if ok a 4 asStr "";
       payload ← field_if ok a 5
         (fun v => if v.(Kind) =? tagBytes then v.(Bytes) else []) [];
       Ret (mkConfBlob board etag contentType payload version changed)).

(** * Metering *)
Record ConsumeResult : Type := mkConsumeResult {
  Consume_Reason : string;
  Consume_Evidence : string;
  Consume_Remaining : Z;
  Consume_Used : Z;
  Consume_BlocksPurchased : Z;
  Consume_WalletBalance : Z;
  Consume_GrantDrawn : Z;
  Consume_GrantRemaining : Z;
  Consume_Max : Z;
  Consume_CompositionVersion : Z;
  Consume_Accepted : bool
}.

(** The decoding of [MeterConsume]. *)
Definition decodeConsume (a : list value) : outcome op_error ConsumeResult :=
  accepted ← field_if (has a 4) a 0 asTrue false;
  reason ← field_if (has a 4) a 1 asStr "";
  remaining ← field_if (has a 4) a 2 asNum 0;
  used ← field_if (has a 4) a 3 asNum 0;
  max ← field_if (has a 4 && has a 5) a 4 asNum 0;
  blocks ← field_if (has a 8) a 6 asNum 0;
  wallet ← field_if (has a 8) a 7 asNum 0;
  drawn ← field_if (has a 10) a 8 asNum 0;
  grantRemaining ← field_if (has a 10) a 9 asNum 0;
  pinned ← field_if (has a 8) a 6 (fun v => v.(Kind) =? tagStr) false;
  evidence ← field_if pinned a 6 asStr "";
  version ← field_if pinned a 7 U64 0;
  Ret (mkConsumeResult reason evidence remaining used blocks wallet drawn grantRemaining max
         version accepted).

Definition MeterConsume (scope meter : string) (n : Z) (idempotencyKey : string)
    : command ConsumeResult :=
  request opMETERCONSUME
    ([vAddr scope; vStr meter; vU64 n] ++
     (if decide (idempotencyKey = "") then [] else [vNull; vStr idempotencyKey]))
    decodeConsume.

Definition capacityPin (pin : CompositionPin) : value :=
  let values : gmap string value := list_to_map [
    ("operation", vStr pin.(Pin_Operation));
    ("composition_hash", vStr pin.(Pin_ResultHash));
    ("composition_version", vU64 pin.(Pin_Version))] in
  vMap (if decide (pin.(Pin_PoolRef) = "") then values
        else <["pool_ref" := vStr pin.(Pin_PoolRef)]> values).

Definition MeterConsumePinned (scope meter : string) (n : Z) (idempotencyKey : string)
    (pin : CompositionPin) : command ConsumeResult :=
  request opMETERCONSUME
    [vAddr scope; vStr meter; vU64 n; vNull; vStr idempotencyKey; capacityPin pin]
    (fun a =>
       accepted ← field_if (has a 6) a 0 asTrue false;
       reason ← field_if (has a 6) a 1 asStr "";
       remaining ← field_if (has a 6) a 2 asNum 0;
       used ← field_if (has a 6) a 3 asNum 0;
       max ← field_if (has a 6) a 4 asNum 0;
       evidence ← field_if (has a 8) a 6 asStr "";
       version ← field_if (has a 8) a 7 U64 0;
       Ret (mkConsumeResult reason evidence remaining used 0 0 0 0 max version accepted)).

Definition MeterReleasePinned (scope meter : string) (n : Z) (idempotencyKey : string)
    (pin : CompositionPin) : command unit :=
  request opMETERRELEASE
    [vAddr scope; vStr meter; vU64 n; vStr idempotencyKey; capacityPin pin]
    (fun a =>
       denied ← (if len a =? 0 then Ret true else v ← idx a 0; Ret (negb (asBool v)));
       if denied : bool then
         given ← field_if (has a 6) a 5 asStr "";
         let reason := if decide (given = "") then "capacity_release_denied" else given in
         Throw (ErrMsg ("meter release denied: " ++ reason))
       else Ret tt).

Definition MeterUsed (scope meter : string) : command Z :=
  request opMETERGET [vAddr scope; vStr meter] (fun a => field_if (has a 1) a 0 asNum 0).

Record MeterState : Type := mkMeterState {
  MeterState_Evidence : string;
  MeterState_Interval : string;
  MeterState_Reason : string;
  MeterState_Used : Z;
  MeterState_Max : Z;
  MeterState_Remaining : Z;
  MeterState_CompositionVersion : Z
}.

Definition MeterGetPinned (scope meter : string) (pin : CompositionPin) : command MeterState :=
  request opMETERGET [vAddr scope; vStr meter; capacityPin pin]
    (fun a =>
       used ← field_if (has a 4) a 0 asNum 0;
       max ← field_if (has a 4) a 1 asNum 0;
       remaining ← field_if (has a 4) a 2 asNum 0;
       interval ← field_if (has a 4) a 3 asStr "";
       evidence ← field_if (has a 10) a 8 asStr "";
       version ← field_if (has a 10) a 9 U64 0;
       reason ← field_if (has a 11) a 10 asStr "";
       Ret (mkMeterState evidence interval reason used max remaining version)).

(** * Seats *)
Record SeatResult : Type := mkSeatResult {
  Seat_Reason : string;
  Seat_SeatID : string;
  Seat_Evidence : string;
  Seat_Used : Z;
  Seat_Max : Z;
  Seat_CompositionVersion : Z;
  Seat_Outcome : Z
}.

Definition decodeSeatResult (a : list value) : outcome op_error SeatResult :=
  outcome ← field_if (has a 6) a 0 asNum 0;
  reason ← field_if (has a 6) a 1 asStr "";
  used ← field_if (has a 6) a 2 asNum 0;
  max ← field_if (has a 6) a 3 asNum 0;
  seatID ← field_if (has a 6) a 4 asStr "";
  evidence ← field_if (has a 8) a 6 asStr "";
  version ← field_if (has a 8) a 7 U64 0;
  Ret (mkSeatResult reason seatID evidence used max version outcome).

Definition SeatClaimPinned (scope seatType user idempotencyKey : string) (pin : CompositionPin)
    : command SeatResult :=
  request opSEATCLAIM
    [vAddr scope; vStr seatType; vAddr user; vStr idempotencyKey; capacityPin pin]
    decodeSeatResult.

Definition SeatReleasePinned (scope seatType user : string) (pin : CompositionPin)
    : command SeatResult :=
  request opSEATRELEASE [vAddr scope; vStr seatType; vAddr user; capacityPin pin]
    (fun a =>
       outcome ← field_if (has a 3) a 0 (fun v => if asBool v then 1 else 0) 0;
       used ← field_if (has a 3) a 1 asNum 0;
       evidence ← field_if (has a 5) a 3 asStr "";
       version ← field_if (has a 5) a 4 U64 0;
       reason ← field_if (has a 6) a 5 asStr "";
       Ret (mkSeatResult reason "" evidence used 0 version outcome)).

(** * Invitations and members *)
Record LifecycleResult : Type := mkLifecycleResult {
  Lifecycle_Reason : string;
  Lifecycle_InvitationID : string;
  Lifecycle_SeatID : string;
  Lifecycle_Evidence : string;
  Lifecycle_Active : Z;
  Lifecycle_Reserved : Z;
  Lifecycle_Used : Z;
  Lifecycle_Maximum : Z;
  Lifecycle_Remaining : Z;
  Lifecycle_LogSeq : Z;
  Lifecycle_CompositionVersion : Z;
  Lifecycle_Accepted : bool
}.

Definition LifecycleResult_zero : LifecycleResult :=
  mkLifecycleResult "" "" "" "" 0 0 0 0 0 0 0 false.

Definition decodeLifecycleResult (a : list value) : outcome op_error LifecycleResult :=
  if len a <? 12 then Ret LifecycleResult_zero
  else
    accepted ← idx a 0;
    reason ← idx a 1;
    invitationID ← idx a 2;
    seatID ← idx a 3;
    active ← idx a 4;
    reserved ← idx a 5;
    used ← idx a 6;
    maximum ← idx a 7;
    remaining ← idx a 8;
    logSeq ← idx a 9;
    evidence ← idx a 10;
    version ← idx a 11;
    Ret (mkLifecycleResult (asStr reason) (asStr invitationID) (asStr seatID) (asStr evidence)
           (asNum active) (asNum reserved) (asNum used) (asNum maximum) (asNum remaining)
           logSeq.(U64) version.(U64) (asBool accepted)).

Record InvitationResourceGrant : Type := mkInvitationResourceGrant {
  Grant_Resource : string;
  Grant_Relation : string;
  Grant_KeyResource : string;
  Grant_KeyVersion : Z
}.

Definition grantValue (grant : InvitationResourceGrant) : value :=
  vMap (list_to_map [
    ("resource", vAddr grant.(Grant_Resource)); ("relation", vStr grant.(Grant_Relation));
    ("key_resource", vAddr grant.(Grant_KeyResource));
    ("key_version", vU64 grant.(Grant_KeyVersion))]).

Definition EncryptedInvitationCreatePinned
    (scope actor invitationID invitee role ticket : string) (expiresAt : Z)
    (idempotencyKey : string) (pin : CompositionPin) (grants : list InvitationResourceGrant)
    : command LifecycleResult :=
  request opENCRYPTEDINVITECREATE
    [vAddr scope; vAddr actor; vStr invitationID; vAddr invitee; vStr role; vStr ticket;
     vU64 expiresAt; vStr idempotencyKey; capacityPin pin; vList (grantValue <$> grants)]
    decodeLifecycleResult.

Definition InvitationCreatePinned
    (scope actor invitationID invitee role ticket : string) (expiresAt : Z)
    (idempotencyKey : string) (pin : CompositionPin) : command LifecycleResult :=
  request opINVITECREATE
    [vAddr scope; vAddr actor; vStr invitationID; vAddr invitee; vStr role; vStr ticket;
     vU64 expiresAt; vStr idempotencyKey; capacityPin pin]
    decodeLifecycleResult.

Definition InvitationAccept
    (ticket authenticatedInvitee memberSubject idempotencyKey : string)
    : command LifecycleResult :=
  request opINVITEACCEPT
    [vStr ticket; vAddr authenticatedInvitee; vAddr memberSubject; vStr idempotencyKey]
    decodeLifecycleResult.

Definition EncryptedInvitationAccept
    (ticket authenticatedInvitee memberSubject recipientKeyID idempotencyKey : string)
    : command LifecycleResult :=
  request opENCRYPTEDINVITEACCEPT
    [vStr ticket; vAddr authenticatedInvitee; vAddr memberSubject; vStr recipientKeyID;
     vStr idempotencyKey]
    decodeLifecycleResult.

Definition InvitationCancel (scope actor invitationID idempotencyKey : string)
    : command LifecycleResult :=
  request opINVITECANCEL [vAddr scope; vAddr actor; vStr invitationID; vStr idempotencyKey]
    decodeLifecycleResult.

Record OrganizationInvitation : Type := mkOrganizationInvitation {
  Invitation_ID : string;
  Invitation_Invitee : string;
  Invitation_Role : string;
  Invitation_SeatID : string;
  Invitation_ExpiresAt : Z;
  Invitation_SeatReserved : bool
}.

(** [for _, v := range list { if v.Kind != tagMap { continue }; append(f(v)) }]. *)
Definition collectMaps {A} (f : value → A) (vs : list value) : list A :=
  f <$> filter (fun v => v.(Kind) = tagMap) vs.

Definition decodeInvitation (v : value) : OrganizationInvitation :=
  mkOrganizationInvitation (asStr (field v "invitation_id")) (asStr (field v "invitee"))
    (asStr (field v "role")) (asStr (field v "seat_id")) (U64 (field v "expires_at"))
    (asBool (field v "seat_reserved")).

Definition InvitationList (scope : string) : command (list OrganizationInvitation) :=
  request opINVITELIST [vAddr scope]
    (fun a =>
       if len a =? 0 then Ret []
       else
         v ← idx a 0;
         if negb (v.(Kind) =? tagList) then Ret []
         else Ret (collectMaps decodeInvitation v.(List))).

Definition MemberRemove (scope actor memberSubject idempotencyKey : string)
    : command LifecycleResult :=
  request opMEMBERREMOVE [vAddr scope; vAddr actor; vAddr memberSubject; vStr idempotencyKey]
    decodeLifecycleResult.

Definition MemberRoleSetPinned (scope actor memberSubject role idempotencyKey : string)
    (pin : CompositionPin) : command LifecycleResult :=
  request opMEMBERROLESET
    [vAddr scope; vAddr actor; vAddr memberSubject; vStr role; vStr idempotencyKey;
     capacityPin pin]
    decodeLifecycleResult.

(** * Allowances and wallets *)
Record AllowanceResult : Type := mkAllowanceResult {
  Allowance_Reason : string;
  Allowance_UnitsTotal : Z;
  Allowance_WalletBalance : Z;
  Allowance_Accepted : bool
}.

Definition AllowanceGrant (scope meter : string) (units expiresAt : Z) (wallet : string)
    (cost : Z) (idempotencyKey : string) : command AllowanceResult :=
  request opALLOWANCEGRANT
    ([vAddr scope; vStr meter; vU64 units; vU64 expiresAt; vStr wallet; vU64 cost] ++
     (if decide (idempotencyKey = "") then [] else [vStr idempotencyKey]))
    (fun a =>
       accepted ← field_if (has a 4) a 0 asTrue false;
       reason ← field_if (has a 4) a 1 asStr "";
       unitsTotal ← field_if (has a 4) a 2 asNum 0;
       walletBalance ← field_if (has a 4) a 3 asNum 0;
       Ret (mkAllowanceResult reason unitsTotal walletBalance accepted)).

Definition AllowanceBalance (scope meter : string) : command (Z * Z) :=
  request opALLOWANCEGET [vAddr scope; vStr meter]
    (fun a =>
       remaining ← field_if (has a 2) a 0 asNum 0;
       grants ← field_if (has a 2) a 1 asNum 0;
       Ret (remaining, grants)).

Record WalletResult : Type := mkWalletResult {
  Wallet_Reason : string;
  Wallet_Balance : Z;
  Wallet_Accepted : bool
}.

Definition walletOp (op : Z) (scope wallet : string) (amount : Z) (idem : string)
    : command WalletResult :=
  request op
    ([vAddr scope; vStr wallet; vU64 amount] ++
     (if decide (idem = "") then [] else [vStr idem]))
    (fun a =>
       accepted ← field_if (has a 3) a 0 asTrue false;
       reason ← field_if (has a 3) a 1 asStr "";
       balance ← field_if (has a 3) a 2 asNum 0;
       Ret (mkWalletResult reason balance accepted)).

Definition WalletCredit (scope wallet : string) (amount : Z) (idempotencyKey : string)
    : command WalletResult := walletOp opWALLETCREDIT scope wallet amount idempotencyKey.

Definition WalletDebit (scope wallet : string) (amount : Z) (idempotencyKey : string)
    : command WalletResult := walletOp opWALLETDEBIT scope wallet amount idempotencyKey.

Definition WalletBalance (scope wallet : string) : command Z :=
  request opWALLETGET [vAddr scope; vStr wallet] (fun a => field_if (has a 1) a 0 asNum 0).

(** * Subscriptions *)

(** The exchange of [Watch]; the subscription is then stored by [watch_register]. *)
Definition Watch (selectors : list string) : command string :=
  request opWATCH [vList (vStr <$> selectors)] (fun a => field_if (has a 1) a 0 asStr "").

Definition watch_register (c : Client) (id : string) (handler : nat) : Client :=
  set_subs c (<[id := handler]> c.(subs)).

(** [Unwatch]: the handler is removed before the request is sent. *)
Definition unwatch_register (c : Client) (id : string) : Client :=
  set_subs c (delete id c.(subs)).

Definition Unwatch (id : string) : command unit :=
  request opUNWATCH [vStr id] (fun _ => Ret tt).

Record WalletLowEvent : Type := mkWalletLowEvent {
  WalletLow_Scope : string;
  WalletLow_Wallet : string;
  WalletLow_Balance : Z;
  WalletLow_Threshold : Z
}.

(** [strings.LastIndex(s, "/")] on the bytes of [s]; [None] is [-1]. *)
Fixpoint lastSlash (s : list byte) : option nat :=
  match s with
  | [] => None
  | c :: s =>
      match lastSlash s with
      | Some i => Some (S i)
      | None => if decide (c = x2f) then Some 0%nat else None
      end
  end.

(** The callback [OnWalletLow] registers, up to the call of the user's handler. *)
Definition walletLow (ev : Event) : option WalletLowEvent :=
  if decide (ev.(Event_Type) = "wallet_low") then
    let target := bytes_of ev.(Event_Target) in
    let '(scope, wallet) :=
      match lastSlash target with
      | Some i => (string_of (take i target), string_of (drop (S i) target))
      | None => (ev.(Event_Target), "")
      end in
    Some (mkWalletLowEvent scope wallet (default 0 (ev.(Event_Detail) !! "balance"))
            (default 0 (ev.(Event_Detail) !! "threshold")))
  else None.

Definition OnWalletLow : command string := Watch ["wallet_low"].

(** * Lemmas *)
Lemma field_if_panics {A} cond a i (get : value → A) zero :
  (cond = true → (i < length a)%nat) → panics (field_if cond a i get zero) = false.
Proof.
  unfold field_if. destruct cond; [|done]. intros H. apply bind_panics; [|done].
  apply idx_panics. by apply H.
Qed.

Lemma field_if_true {A} a i (get : value → A) zero v :
  a !! i = Some v → field_if true a i get zero = Ret (get v).
Proof. intros H. unfold field_if, idx. by rewrite H. Qed.

Lemma has_true a n : has a n = true ↔ n <= len a.
Proof. apply Z.leb_le. Qed.

(** Decoders indexed under their length checks do not panic. *)
Ltac solve_index :=
  unfold has, len in *; intros;
  repeat match goal with H : _ && _ = true |- _ => apply andb_true_iff in H; destruct H end;
  breflect; lia.
Ltac no_panic :=
  repeat first
    [ done
    | apply field_if_panics; solve_index
    | apply bind_panics; [|intros ? _]
    | apply idx_panics; solve_index
    | case_match; breflect ].

Lemma committed_panics msg a : panics (committed msg a) = false.
Proof.
  unfold committed. destruct (Z.eqb_spec (len a) 0); [done|].
  apply bind_panics; [|intros v _; by case_match]. apply idx_panics. unfold len in *. lia.
Qed.

Lemma decodeConsume_panics a : panics (decodeConsume a) = false.
Proof.
  unfold decodeConsume.
  do 9 (apply bind_panics; [apply field_if_panics; solve_index|intros ? _]).
  apply bind_panics; [apply field_if_panics; solve_index|]. intros pinned Hp.
  assert (Hlen : pinned = true → has a 8 = true).
  { intros ->. unfold field_if in Hp. destruct (has a 8); [done|]. by injection Hp. }
  do 2 (apply bind_panics;
    [apply field_if_panics; intros H; apply Hlen in H; revert H; solve_index|intros ? _]).
  done.
Qed.

Lemma decodeLifecycleResult_panics a : panics (decodeLifecycleResult a) = false.
Proof. unfold decodeLifecycleResult. destruct (Z.ltb_spec (len a) 12); [done|]. no_panic. Qed.

Lemma decodeSeatResult_panics a : panics (decodeSeatResult a) = false.
Proof. unfold decodeSeatResult. no_panic. Qed.

#[export] Hint Resolve committed_panics decodeConsume_panics decodeLifecycleResult_panics
  decodeSeatResult_panics : lotor.

(** Every command a method of [client.go] issues. *)
Inductive issued : ∀ {A}, command A → Prop :=
| issued_Hello : issued Hello
| issued_Auth k : issued (Auth k)
| issued_AuthVerify t k : issued (AuthVerify t k)
| issued_PolicyCheck s i : issued (PolicyCheck s i)
| issued_AccessCheck s r o : issued (AccessCheck s r o)
| issued_AccessGrant s r o e : issued (AccessGrant s r o e)
| issued_AccessRevoke s r o : issued (AccessRevoke s r o)
| issued_AccessExpand o r l : issued (AccessExpand o r l)
| issued_AccessCheckPinned s r o p : issued (AccessCheckPinned s r o p)
| issued_ConfGet b v : issued (ConfGet b v)
| issued_MeterConsume s m n k : issued (MeterConsume s m n k)
| issued_MeterConsumePinned s m n k p : issued (MeterConsumePinned s m n k p)
| issued_MeterReleasePinned s m n k p : issued (MeterReleasePinned s m n k p)
| issued_MeterUsed s m : issued (MeterUsed s m)
| issued_MeterGetPinned s m p : issued (MeterGetPinned s m p)
| issued_SeatClaimPinned s t u k p : issued (SeatClaimPinned s t u k p)
| issued_SeatReleasePinned s t u p : issued (SeatReleasePinned s t u p)
| issued_EncryptedInvitationCreatePinned s a i e r t x k p g :
    issued (EncryptedInvitationCreatePinned s a i e r t x k p g)
| issued_InvitationCreatePinned s a i e r t x k p :
    issued (InvitationCreatePinned s a i e r t x k p)
| issued_InvitationAccept t i m k : issued (InvitationAccept t i m k)
| issued_EncryptedInvitationAccept t i m r k : issued (EncryptedInvitationAccept t i m r k)
| issued_InvitationCancel s a i k : issued (InvitationCancel s a i k)
| issued_InvitationList s : issued (InvitationList s)
| issued_MemberRemove s a m k : issued (MemberRemove s a m k)
| issued_MemberRoleSetPinned s a m r k p : issued (MemberRoleSetPinned s a m r k p)
| issued_AllowanceGrant s m u e w c k : issued (AllowanceGrant s m u e w c k)
| issued_AllowanceBalance s m : issued (AllowanceBalance s m)
| issued_WalletCredit s w n k : issued (WalletCredit s w n k)
| issued_WalletDebit s w n k : issued (WalletDebit s w n k)
| issued_WalletBalance s w : issued (WalletBalance s w)
| issued_Watch l : issued (Watch l)
| issued_Unwatch i : issued (Unwatch i).

Lemma issued_panics {A} (c : command A) a : issued c → panics (c.(cmd_decode) a) = false.
Proof. destruct 1; simpl; auto with lotor; no_panic. Qed.

Lemma perform_panics {A} do (c : command A) :
  (∀ a, panics (c.(cmd_decode) a) = false) →
  (∀ op vs, panics (do op vs) = false) → panics (perform do c) = false.
Proof.
  intros Hc Hd. unfold perform. destruct (cmd_guard c); [done|].
  apply bind_panics; [|auto]. specialize (Hd c.(cmd_op) c.(cmd_args)).
  by destruct (do _ _).
Qed.

Lemma lastSlash_spec s i :
  lastSlash s = Some i →
  s = take i s ++ x2f :: drop (S i) s ∧ x2f ∉ drop (S i) s.
Proof.
  revert i. induction s as [|c s IH]; intros i; simpl; [done|].
  destruct (lastSlash s) as [j|] eqn:Hj.
  - intros [= <-]. destruct (IH j eq_refl) as [Heq Hn]. simpl. split; [by f_equal|done].
  - destruct (decide (c = x2f)) as [->|]; [|done]. intros [= <-]. simpl. split; [by rewrite drop_0|].
    rewrite drop_0. clear IH. induction s as [|d s IH]; [apply not_elem_of_nil|].
    simpl in Hj. destruct (lastSlash s); [done|]. destruct (decide (d = x2f)); [done|].
    apply not_elem_of_cons. split; [congruence|by apply IH].
Qed.

(** What a server sends for a lifecycle outcome: one value per field, in order. *)
Definition lifecycleValues (r : LifecycleResult) : list value :=
  [vBool r.(Lifecycle_Accepted); vStr r.(Lifecycle_Reason); vStr r.(Lifecycle_InvitationID);
   vStr r.(Lifecycle_SeatID); vI64 r.(Lifecycle_Active); vI64 r.(Lifecycle_Reserved);
   vI64 r.(Lifecycle_Used); vI64 r.(Lifecycle_Maximum); vI64 r.(Lifecycle_Remaining);
   vU64 r.(Lifecycle_LogSeq); vStr r.(Lifecycle_Evidence);
   vU64 r.(Lifecycle_CompositionVersion)].

(** * Properties *)

(** What [do] makes of the response it receives; without one it fails with [e]. *)
Definition exchange (e : do_error) (response : option frame) (op : Z) (vs : list value)
    : outcome do_error (list value) :=
  match response with Some f => do_response f | None => Throw e end.

Lemma do_response_panics f :
  panics (do_response f) = true ↔ f.(opcode) = statusERR ∧ f.(args) = [].
Proof.
  unfold do_response. destruct (Z.eqb_spec f.(opcode) statusERR) as [->|Hne]; [|by split; [|intros []]].
  destruct f.(args) as [|v vs]; simpl; [by split|]. split; [|by intros []].
  intros Hp. exfalso. revert Hp. unfold len. destruct vs as [|w vs].
  - simpl. by case_match.
  - destruct (1 <? _); simpl; by case_match.
Qed.



(** Access decisions fail closed. [AccessCheck] and [AccessCheckPinned] allow
    only if the response has at least two values and the first is the number one,
    and [AccessGrant] succeeds only if the first value is the boolean true; every
    other response, the empty one included, denies or is an error. *)
Theorem access_fails_closed a d s r o p e :
  (cmd_decode (AccessCheck s r o) a = Ret d ∨ cmd_decode (AccessCheckPinned s r o p) a = Ret d →
   d.(Decision_Allow) = true → (2 <= length a)%nat ∧ ∃ v, a !! 0%nat = Some v ∧ asNum v = 1)
  ∧ (cmd_decode (AccessGrant s r o e) a = Ret tt →
     ∃ v, a !! 0%nat = Some v ∧ v.(Kind) = tagBool ∧ v.(Bool) = true).
Proof.
  split.
  - intros Hd Hallow.
    assert (Hok : ∃ reason ev ver, (allow ← field_if (has a 2) a 0 asTrue false;
      Ret (mkDecision reason ev ver allow)) = Ret (E := op_error) d).
    { destruct Hd as [Hd|Hd]; simpl in Hd;
        repeat (apply bind_Ret_inv in Hd as (? & ? & Hd)); injection Hd as <-;
        do 3 eexists; by rewrite H. }
    destruct Hok as (reason & ev & ver & (b & Hb & [= <-])%bind_Ret_inv). simpl in Hallow.
    unfold field_if, has in Hb. destruct (Z.leb_spec 2 (len a)); [|by injection Hb as <-].
    apply bind_Ret_inv in Hb as (v & Hv & [= <-]). split; [unfold len in *; lia|].
    exists v. unfold idx in Hv. destruct (a !! 0%nat); [|done]. injection Hv as ->.
    split; [done|]. by apply Z.eqb_eq.
  - simpl. unfold committed. destruct (len a =? 0); [done|].
    intros (v & Hv & H)%bind_Ret_inv. exists v. unfold idx in Hv.
    destruct (a !! 0%nat); [|done]. injection Hv as ->. unfold asBool in H.
    destruct (_ && _) eqn:Hb; [|done]. by breflect.
Qed.

Lemma access_fails_closed_witness :
  (2 <= 2)%nat ∧ ∃ v, [vU64 1; vStr "direct"] !! 0%nat = Some v ∧ asNum v = 1.
Proof.
  apply (proj1 (access_fails_closed [vU64 1; vStr "direct"] (mkDecision "direct" "" 0 true)
    "user:42" "view" "doc:99" (mkCompositionPin "" "" "" "" 0) 0));
    [left; reflexivity|reflexivity].
Defined.

(** A lifecycle outcome is read back field by field: decoding the twelve values
    a server sends for an in-range outcome yields that outcome, and any shorter
    response yields the zero (not accepted) outcome. *)
Theorem lifecycle_decoded r a :
  decodeLifecycleResult (lifecycleValues r) = Ret r
  ∧ ((length a < 12)%nat → decodeLifecycleResult a = Ret LifecycleResult_zero).
Proof.
  split; [by destruct r|]. intros H. unfold decodeLifecycleResult.
  destruct (Z.ltb_spec (len a) 12); [done|]. unfold len in *. lia.
Qed.

Lemma lifecycle_decoded_witness :
  decodeLifecycleResult [vBool true] = Ret LifecycleResult_zero.
Proof. apply (lifecycle_decoded LifecycleResult_zero [vBool true]). simpl. lia. Defined.

(** In a response of [MeterConsume] that carries evidence (the seventh value is a
    string), no overage block is reported, but the eighth value is read twice: the
    wallet balance reported is the composition version. *)
Theorem consume_evidence_balance a r e ver :
  decodeConsume a = Ret r → (8 <= length a)%nat →
  a !! 6%nat = Some (vStr e) → a !! 7%nat = Some (vU64 ver) →
  r.(Consume_Evidence) = e ∧ r.(Consume_CompositionVersion) = ver
  ∧ r.(Consume_BlocksPurchased) = 0 ∧ r.(Consume_WalletBalance) = uint64ToInt64 ver.
Proof.
  intros Hr Hlen H6 H7. unfold decodeConsume in Hr.
  assert (H8 : has a 8 = true) by (apply has_true; unfold len; lia). rewrite H8 in Hr.
  rewrite !(field_if_true a 6 _ _ _ H6), (field_if_true a 7 _ _ _ H7) in Hr.
  repeat (apply bind_Ret_inv in Hr as (? & ? & Hr)).
  repeat match goal with H : Ret _ = Ret _ |- _ => injection H as <- end.
  repeat match goal with H : field_if _ a 6 _ _ = _ |- _ =>
    rewrite (field_if_true a 6 _ _ _ H6) in H; injection H as <- end.
  repeat match goal with H : field_if _ a 7 _ _ = _ |- _ =>
    rewrite (field_if_true a 7 _ _ _ H7) in H; injection H as <- end.
  done.
Qed.

Lemma consume_evidence_balance_witness :
  let a := [vU64 1; vStr "ok"; vU64 9; vU64 1; vU64 10; vNull; vStr "evidence:1"; vU64 7] in
  uint64ToInt64 7 = 7 ∧
  ∃ r, decodeConsume a = Ret r ∧ r.(Consume_WalletBalance) = uint64ToInt64 7.
Proof.
  intros a. split; [reflexivity|]. eexists. split; [reflexivity|].
  apply (consume_evidence_balance a _ "evidence:1" 7); [reflexivity|simpl; lia|reflexivity..].
Defined.

(** The wallet-low callback splits its target at the last slash: scope and wallet
    put back together around that slash give the target, the wallet name contains no
    slash, and a target without a slash is all scope. *)
Theorem walletLow_target ev w :
  walletLow ev = Some w →
  (bytes_of ev.(Event_Target) =
     bytes_of w.(WalletLow_Scope) ++ x2f :: bytes_of w.(WalletLow_Wallet)
   ∧ x2f ∉ bytes_of w.(WalletLow_Wallet))
  ∨ (w.(WalletLow_Scope) = ev.(Event_Target) ∧ w.(WalletLow_Wallet) = ""
     ∧ lastSlash (bytes_of ev.(Event_Target)) = None).
Proof.
  unfold walletLow. case_decide; [|done].
  destruct (lastSlash (bytes_of ev.(Event_Target))) as [i|] eqn:Hi; intros [= <-]; simpl.
  - left. rewrite !bytes_of_string_of. by apply lastSlash_spec.
  - by right.
Qed.

Lemma walletLow_target_witness :
  let ev := mkEvent "wallet_low" "org:acme/team/credits" ∅ 1 "w1" in
  (bytes_of "org:acme/team/credits" = bytes_of "org:acme/team" ++ x2f :: bytes_of "credits"
   ∧ x2f ∉ bytes_of "credits")
  ∨ ("org:acme/team" = "org:acme/team/credits" ∧ "credits" = ""
     ∧ lastSlash (bytes_of "org:acme/team/credits") = None).
Proof.
  intros ev.
  apply (walletLow_target ev (mkWalletLowEvent "org:acme/team" "credits" 0 0)). reflexivity.
Defined.

(** The policy context put on the wire is canonical: it does not depend on the
    order of the evidence references, and an empty composition subject defaults to
    the checked subject. *)
Theorem policyContext_canonical subject input refs :
  refs ≡ₚ input.(EvidenceRefs) →
  let input' := mkPolicyInput input.(PolicyInput_Pin) input.(ScopeRef) input.(DestinationRef)
    input.(RegionRef) input.(ExecutionPolicyRef) refs input.(RetentionDays) input.(Reveal)
    input.(Export) in
  encodeValue (policyContext subject input') = encodeValue (policyContext subject input)
  ∧ (input.(PolicyInput_Pin).(Pin_CompositionSubject) = "" →
     field (policyContext subject input) "composition_subject" = vAddr subject).
Proof.
  intros Hp input'. split.
  - unfold policyContext, input'. cbn [EvidenceRefs PolicyInput_Pin ScopeRef DestinationRef
      RegionRef ExecutionPolicyRef RetentionDays Reveal Export].
    rewrite (sortStrings_canonical _ _ Hp). reflexivity.
  - intros He. unfold policyContext, field. rewrite (decide_True _ _ He).
    cbn [Map vMap list_to_map foldr fst snd curry].
    rewrite !lookup_insert_ne by discriminate. rewrite lookup_insert_eq. reflexivity.
Qed.

Lemma policyContext_canonical_witness :
  let pin := mkCompositionPin "operation:export" "abc" "" "" 11 in
  let input := mkPolicyInput pin "" "" "" "" ["evidence:a"; "evidence:z"] 365 false true in
  let input' := mkPolicyInput pin "" "" "" "" ["evidence:z"; "evidence:a"] 365 false true in
  encodeValue (policyContext "user:alice" input') = encodeValue (policyContext "user:alice" input)
  ∧ ("" = "" → field (policyContext "user:alice" input) "composition_subject" = vAddr "user:alice").
Proof.
  intros pin input input'.
  apply (policyContext_canonical "user:alice" input ["evidence:z"; "evidence:a"]).
  apply Permutation_swap.
Defined.

(** Dialing leaks no connection: one is open afterwards exactly when a client is returned, and
    that is exactly when the address was reached, TLS was configured if asked for, and the
    handshake was answered. *)
Theorem dial_leaves_no_connection connects do addr config :
  (∀ op args, do op args ≠ Panic ∧ do op args ≠ Diverge) →
  (∀ out, out = Dial connects do addr ∨ out = DialTLS connects do addr config →
     out.2 = true ↔ out.1 = Ret tt)
  ∧ ((Dial connects do addr).1 = Ret tt ↔ connects addr = true ∧ returns (perform do Hello) = true)
  ∧ ((DialTLS connects do addr config).1 = Ret tt ↔
     config = true ∧ connects addr = true ∧ returns (perform do Hello) = true).
Proof.
  intros Hdo. unfold Dial, DialTLS, handshake, perform, Hello. cbn [cmd_guard request cmd_op cmd_args].
  destruct (Hdo opHELLO [vU64 protoVersion; vU64 0; vStr "lotor-go"]) as [Hp Hd].
  destruct (do _ _) as [a|e| |]; try done; simpl;
    destruct (connects addr), config; simpl; naive_solver.
Qed.
