(* ===== verification/KeyAccess.v ===== *)
(** The key-management operations of the LWP client: [src/lotor/key_access.go]. *)
From S2P Require Import Prelude Wire Connection Operations.

(** * Opcodes *)
Definition opSUBJECTKEYREGISTER : Z := 0x00A0.
Definition opSUBJECTKEYLIST : Z := 0x00A1.
Definition opSUBJECTKEYREVOKE : Z := 0x00A2.
Definition opRESOURCEKEYCREATE : Z := 0x00A3.
Definition opRESOURCEGRANTPREPARE : Z := 0x00A4.
Definition opRESOURCEENVELOPESUBMIT : Z := 0x00A5.
Definition opRESOURCEENVELOPEGET : Z := 0x00A6.
Definition opRESOURCEMEMBERLIST : Z := 0x00A7.
Definition opRESOURCEGRANTREVOKE : Z := 0x00A8.
Definition opRESOURCEKEYACTIVATE : Z := 0x00AC.

(** * Subject keys *)
Record SubjectKeyRegistration : Type := mkSubjectKeyRegistration {
  Reg_Actor : string;
  Reg_Subject : string;
  Reg_KeyID : string;
  Reg_DeviceID : string;
  Reg_Generation : Z;
  Reg_CustodyMode : string;
  Reg_CustodyStatus : string;
  Reg_Transferability : string;
  Reg_KeyRevision : Z;
  Reg_EncryptionAlgorithm : string;
  Reg_EncryptionPublicKey : list byte;
  Reg_SigningAlgorithm : string;
  Reg_SigningPublicKey : list byte;
  Reg_EncryptedPrivateKeyBackup : list byte;
  Reg_BackupKDF : string;
  Reg_BackupSalt : list byte;
  Reg_BackupNonce : list byte;
  Reg_Proof : list byte;
  Reg_BackupFormatVersion : Z
}.

Record SubjectKeyMutation : Type := mkSubjectKeyMutation {
  KeyMutation_Reason : string;
  KeyMutation_KeyID : string;
  KeyMutation_LogSeq : Z;
  KeyMutation_Accepted : bool
}.

Record SubjectKey : Type := mkSubjectKey {
  SubjectKey_KeyID : string;
  SubjectKey_DeviceID : string;
  SubjectKey_EncryptionAlgorithm : string;
  SubjectKey_SigningAlgorithm : string;
  SubjectKey_BackupKDF : string;
  SubjectKey_Status : string;
  SubjectKey_CustodyMode : string;
  SubjectKey_CustodyStatus : string;
  SubjectKey_Transferability : string;
  SubjectKey_EncryptionPublicKey : list byte;
  SubjectKey_SigningPublicKey : list byte;
  SubjectKey_EncryptedPrivateKeyBackup : list byte;
  SubjectKey_BackupSalt : list byte;
  SubjectKey_BackupNonce : list byte;
  SubjectKey_BackupFormatVersion : Z;
  SubjectKey_Generation : Z;
  SubjectKey_KeyRevision : Z;
  SubjectKey_LogSeq : Z
}.

(** [len(values) > n]. *)
Definition more (a : list value) (n : Z) : bool := n <? len a.

Definition decodeSubjectKeyMutation (a : list value) : outcome op_error SubjectKeyMutation :=
  accepted ← field_if (more a 0) a 0 asBool false;
  reason ← field_if (more a 1) a 1 asStr "";
  keyID ← field_if (more a 2) a 2 asStr "";
  logSeq ← field_if (more a 3) a 3 U64 0;
  Ret (mkSubjectKeyMutation reason keyID logSeq accepted).

Definition SubjectKeyRegister (input : SubjectKeyRegistration) : command SubjectKeyMutation :=
  request opSUBJECTKEYREGISTER
    [vAddr input.(Reg_Actor); vAddr input.(Reg_Subject); vStr input.(Reg_KeyID);
     vStr input.(Reg_DeviceID); vStr input.(Reg_EncryptionAlgorithm);
     vBytes input.(Reg_EncryptionPublicKey); vStr input.(Reg_SigningAlgorithm);
     vBytes input.(Reg_SigningPublicKey); vBytes input.(Reg_EncryptedPrivateKeyBackup);
     vStr input.(Reg_BackupKDF); vBytes input.(Reg_BackupSalt); vBytes input.(Reg_BackupNonce);
     vU64 input.(Reg_BackupFormatVersion); vBytes input.(Reg_Proof);
     vU64 input.(Reg_Generation); vStr input.(Reg_CustodyMode); vStr input.(Reg_CustodyStatus);
     vStr input.(Reg_Transferability); vU64 input.(Reg_KeyRevision)]
    decodeSubjectKeyMutation.

Definition SubjectKeyRevoke (actor subject keyID : string) : command SubjectKeyMutation :=
  request opSUBJECTKEYREVOKE [vAddr actor; vAddr subject; vStr keyID] decodeSubjectKeyMutation.

(** [len(values) < 3 || !values[0].asBool() || values[2].Kind != kind], the guard of
    the three read operations; [Some v] is [values[2]] when it passes. *)
Definition third_if_ok (kind : Z) (a : list value) : outcome op_error (option value) :=
  if len a <? 3 then Ret None
  else
    ok ← idx a 0;
    if negb (asBool ok) then Ret None
    else
      v ← idx a 2;
      if negb (v.(Kind) =? kind) then Ret None else Ret (Some v).

Definition decodeSubjectKey (item : value) : SubjectKey :=
  mkSubjectKey (asStr (field item "key_id")) (asStr (field item "device_id"))
    (asStr (field item "encryption_algorithm")) (asStr (field item "signing_algorithm"))
    (asStr (field item "backup_kdf")) (asStr (field item "status"))
    (asStr (field item "custody_mode")) (asStr (field item "custody_status"))
    (asStr (field item "transferability")) (Bytes (field item "encryption_public_key"))
    (Bytes (field item "signing_public_key")) (Bytes (field item "encrypted_private_key_backup"))
    (Bytes (field item "backup_salt")) (Bytes (field item "backup_nonce"))
    (U64 (field item "backup_format_version")) (U64 (field item "generation"))
    (U64 (field item "key_revision")) (U64 (field item "log_seq")).

Definition SubjectKeyList (actor subject : string) : command (list SubjectKey) :=
  request opSUBJECTKEYLIST [vAddr actor; vAddr subject]
    (fun a =>
       r ← third_if_ok tagList a;
       match r with
       | None => Ret []
       | Some v => Ret (collectMaps decodeSubjectKey v.(List))
       end).

(** * Resource keys *)
Record ResourceKeyVersionInput : Type := mkResourceKeyVersionInput {
  RKV_Scope : string;
  RKV_Actor : string;
  RKV_KeyResource : string;
  RKV_Algorithm : string;
  RKV_CustodyHandle : string;
  RKV_ManifestHash : string;
  RKV_Version : Z;
  RKV_GraphRevision : Z;
  RKV_IdentityRevision : Z;
  RKV_KeyRevision : Z;
  RKV_PolicyRevision : Z;
  RKV_CustodyRevision : Z;
  RKV_ExpectedEnvelopes : Z
}.

Record ResourceGrantInput : Type := mkResourceGrantInput {
  RG_Actor : string;
  RG_GrantID : string;
  RG_Scope : string;
  RG_Resource : string;
  RG_Subject : string;
  RG_Relation : string;
  RG_KeyResource : string;
  RG_RecipientKeyID : string;
  RG_InvitationID : string;
  RG_KeyVersion : Z
}.

Record ResourceEnvelopeInput : Type := mkResourceEnvelopeInput {
  RE_ClientID : string;
  RE_Scope : string;
  RE_Actor : string;
  RE_GrantID : string;
  RE_KeyResource : string;
  RE_RecipientSubject : string;
  RE_RecipientKeyID : string;
  RE_EncryptionSuite : string;
  RE_Issuer : string;
  RE_IssuerKeyID : string;
  RE_Ciphertext : list byte;
  RE_AADHash : list byte;
  RE_Signature : list byte;
  RE_KeyVersion : Z
}.

Record ResourceGrantMutation : Type := mkResourceGrantMutation {
  GrantMutation_Reason : string;
  GrantMutation_GrantID : string;
  GrantMutation_Status : string;
  GrantMutation_LogSeq : Z;
  GrantMutation_Accepted : bool
}.

Record ResourceMember : Type := mkResourceMember {
  Member_GrantID : string;
  Member_Subject : string;
  Member_Relation : string;
  Member_Resource : string;
  Member_KeyResource : string;
  Member_RecipientKeyID : string;
  Member_InvitationID : string;
  Member_Status : string;
  Member_RecipientKeyStatus : string;
  Member_RecipientEncryptionAlgorithm : string;
  Member_RecipientSigningAlgorithm : string;
  Member_RecipientEncryptionPublicKey : list byte;
  Member_RecipientSigningPublicKey : list byte;
  Member_KeyVersion : Z;
  Member_LogSeq : Z
}.

Record ResourceEnvelope : Type := mkResourceEnvelope {
  Envelope_GrantID : string;
  Envelope_KeyResource : string;
  Envelope_RecipientKeyID : string;
  Envelope_EncryptionSuite : string;
  Envelope_Issuer : string;
  Envelope_IssuerKeyID : string;
  Envelope_IssuerSigningAlgorithm : string;
  Envelope_IssuerKeyStatus : string;
  Envelope_Scope : string;
  Envelope_Resource : string;
  Envelope_RecipientSubject : string;
  Envelope_Relation : string;
  Envelope_Ciphertext : list byte;
  Envelope_AADHash : list byte;
  Envelope_Signature : list byte;
  Envelope_IssuerSigningPublicKey : list byte;
  Envelope_KeyVersion : Z;
  Envelope_LogSeq : Z
}.

(** The decoding shared, apart from the position of [LogSeq], by
    [ResourceKeyVersionCreate]. *)
Definition decodeKeyVersion (a : list value) : outcome op_error SubjectKeyMutation :=
  accepted ← field_if (more a 0) a 0 asBool false;
  reason ← field_if (more a 1) a 1 asStr "";
  keyID ← field_if (more a 2) a 2 asStr "";
  logSeq ← field_if (more a 4) a 4 U64 0;
  Ret (mkSubjectKeyMutation reason keyID logSeq accepted).

Definition ResourceKeyVersionCreate (input : ResourceKeyVersionInput)
    : command SubjectKeyMutation :=
  request opRESOURCEKEYCREATE
    [vAddr input.(RKV_Scope); vAddr input.(RKV_Actor); vAddr input.(RKV_KeyResource);
     vU64 input.(RKV_Version); vStr input.(RKV_Algorithm); vStr input.(RKV_CustodyHandle);
     vStr input.(RKV_ManifestHash); vU64 input.(RKV_GraphRevision);
     vU64 input.(RKV_IdentityRevision); vU64 input.(RKV_KeyRevision);
     vU64 input.(RKV_PolicyRevision); vU64 input.(RKV_CustodyRevision);
     vU64 input.(RKV_ExpectedEnvelopes)]
    decodeKeyVersion.

(** [ResourceKeyVersionActivate] overwrites [LogSeq] only when a fifth value came. *)
Definition ResourceKeyVersionActivate (scope actor keyResource : string) (version : Z)
    (manifestHash : string) : command SubjectKeyMutation :=
  request opRESOURCEKEYACTIVATE
    [vAddr scope; vAddr actor; vAddr keyResource; vU64 version; vStr manifestHash]
    (fun a =>
       result ← decodeSubjectKeyMutation a;
       logSeq ← field_if (more a 4) a 4 U64 result.(KeyMutation_LogSeq);
       Ret (mkSubjectKeyMutation result.(KeyMutation_Reason) result.(KeyMutation_KeyID) logSeq
              result.(KeyMutation_Accepted))).

Definition decodeResourceGrantMutation (a : list value) : outcome op_error ResourceGrantMutation :=
  accepted ← field_if (more a 0) a 0 asBool false;
  reason ← field_if (more a 1) a 1 asStr "";
  grantID ← field_if (more a 2) a 2 asStr "";
  status ← field_if (more a 3) a 3 asStr "";
  logSeq ← field_if (more a 4) a 4 U64 0;
  Ret (mkResourceGrantMutation reason grantID status logSeq accepted).

Definition ResourceGrantPrepare (input : ResourceGrantInput) : command ResourceGrantMutation :=
  request opRESOURCEGRANTPREPARE
    [vAddr input.(RG_Actor); vStr input.(RG_GrantID); vAddr input.(RG_Scope);
     vAddr input.(RG_Resource); vAddr input.(RG_Subject); vStr input.(RG_Relation);
     vAddr input.(RG_KeyResource); vU64 input.(RG_KeyVersion); vStr input.(RG_RecipientKeyID);
     vStr input.(RG_InvitationID)]
    decodeResourceGrantMutation.

Definition ResourceEnvelopeSubmit (input : ResourceEnvelopeInput)
    : command ResourceGrantMutation :=
  request opRESOURCEENVELOPESUBMIT
    [vAddr input.(RE_Scope); vAddr input.(RE_Actor); vStr input.(RE_GrantID);
     vAddr input.(RE_KeyResource); vU64 input.(RE_KeyVersion); vAddr input.(RE_RecipientSubject);
     vStr input.(RE_RecipientKeyID); vStr input.(RE_EncryptionSuite);
     vBytes input.(RE_Ciphertext); vBytes input.(RE_AADHash); vAddr input.(RE_Issuer);
     vStr input.(RE_IssuerKeyID); vBytes input.(RE_Signature); vStr input.(RE_ClientID)]
    decodeResourceGrantMutation.

Definition decodeEnvelope (item : value) : ResourceEnvelope :=
  mkResourceEnvelope (asStr (field item "grant_id")) (asStr (field item "key_resource"))
    (asStr (field item "recipient_key_id")) (asStr (field item "encryption_suite"))
    (asStr (field item "issuer")) (asStr (field item "issuer_key_id"))
    (asStr (field item "issuer_signing_algorithm")) (asStr (field item "issuer_key_status"))
    (asStr (field item "scope")) (asStr (field item "resource"))
    (asStr (field item "recipient_subject")) (asStr (field item "relation"))
    (Bytes (field item "ciphertext")) (Bytes (field item "aad_hash"))
    (Bytes (field item "signature")) (Bytes (field item "issuer_signing_public_key"))
    (U64 (field item "key_version")) (U64 (field item "log_seq")).

(** The pair [(ResourceEnvelope, bool)]: [None] is [(ResourceEnvelope{}, false)]. *)
Definition ResourceEnvelopeGetSelf (actor subject resource : string)
    : command (option ResourceEnvelope) :=
  request opRESOURCEENVELOPEGET [vAddr actor; vAddr subject; vAddr resource]
    (fun a => r ← third_if_ok tagMap a; Ret (option_map decodeEnvelope r)).

Definition decodeMember (item : value) : ResourceMember :=
  mkResourceMember (asStr (field item "grant_id")) (asStr (field item "subject"))
    (asStr (field item "relation")) (asStr (field item "resource"))
    (asStr (field item "key_resource")) (asStr (field item "recipient_key_id"))
    (asStr (field item "invitation_id")) (asStr (field item "status"))
    (asStr (field item "recipient_key_status"))
    (asStr (field item "recipient_encryption_algorithm"))
    (asStr (field item "recipient_signing_algorithm"))
    (Bytes (field item "recipient_encryption_public_key"))
    (Bytes (field item "recipient_signing_public_key"))
    (U64 (field item "key_version")) (U64 (field item "log_seq")).

Definition ResourceMemberList (scope actor resource : string) : command (list ResourceMember) :=
  request opRESOURCEMEMBERLIST [vAddr scope; vAddr actor; vAddr resource]
    (fun a =>
       r ← third_if_ok tagList a;
       match r with
       | None => Ret []
       | Some v => Ret (collectMaps decodeMember v.(List))
       end).

Definition ResourceGrantRevoke (scope actor grantID : string) : command ResourceGrantMutation :=
  request opRESOURCEGRANTREVOKE [vAddr scope; vAddr actor; vStr grantID]
    decodeResourceGrantMutation.

(** * Lemmas *)
Lemma third_if_ok_panics kind a : panics (third_if_ok kind a) = false.
Proof.
  unfold third_if_ok. destruct (Z.ltb_spec (len a) 3); [done|]. no_panic.
Qed.

Lemma third_if_ok_Some kind a v :
  third_if_ok kind a = Ret (Some v) →
  ∃ ok, a !! 0%nat = Some ok ∧ asBool ok = true ∧ a !! 2%nat = Some v ∧ v.(Kind) = kind.
Proof.
  unfold third_if_ok. destruct (_ <? 3); [done|]. intros (ok & Hok & H)%bind_Ret_inv.
  destruct (asBool ok) eqn:Hb; [|done]. simpl in H.
  apply bind_Ret_inv in H as (w & Hw & H). destruct (Z.eqb_spec w.(Kind) kind); [|done].
  simpl in H. injection H as ->. unfold idx in *. exists ok.
  destruct (a !! 0%nat), (a !! 2%nat); naive_solver.
Qed.

Ltac solve_more := unfold more, len in *; intros; breflect; lia.

Lemma decodeSubjectKeyMutation_panics a : panics (decodeSubjectKeyMutation a) = false.
Proof.
  unfold decodeSubjectKeyMutation.
  repeat (apply bind_panics; [apply field_if_panics; solve_more|intros ? _]). done.
Qed.

Lemma decodeKeyVersion_panics a : panics (decodeKeyVersion a) = false.
Proof.
  unfold decodeKeyVersion.
  repeat (apply bind_panics; [apply field_if_panics; solve_more|intros ? _]). done.
Qed.

Lemma decodeResourceGrantMutation_panics a : panics (decodeResourceGrantMutation a) = false.
Proof.
  unfold decodeResourceGrantMutation.
  repeat (apply bind_panics; [apply field_if_panics; solve_more|intros ? _]). done.
Qed.

#[export] Hint Resolve third_if_ok_panics decodeSubjectKeyMutation_panics
  decodeKeyVersion_panics decodeResourceGrantMutation_panics : lotor.

(** Every command a method of [key_access.go] issues. *)
Inductive key_issued : ∀ {A}, command A → Prop :=
| issued_SubjectKeyRegister i : key_issued (SubjectKeyRegister i)
| issued_SubjectKeyRevoke a s k : key_issued (SubjectKeyRevoke a s k)
| issued_SubjectKeyList a s : key_issued (SubjectKeyList a s)
| issued_ResourceKeyVersionCreate i : key_issued (ResourceKeyVersionCreate i)
| issued_ResourceKeyVersionActivate s a k v h :
    key_issued (ResourceKeyVersionActivate s a k v h)
| issued_ResourceGrantPrepare i : key_issued (ResourceGrantPrepare i)
| issued_ResourceEnvelopeSubmit i : key_issued (ResourceEnvelopeSubmit i)
| issued_ResourceEnvelopeGetSelf a s r : key_issued (ResourceEnvelopeGetSelf a s r)
| issued_ResourceMemberList s a r : key_issued (ResourceMemberList s a r)
| issued_ResourceGrantRevoke s a g : key_issued (ResourceGrantRevoke s a g).

Lemma key_issued_panics {A} (c : command A) a :
  key_issued c → panics (c.(cmd_decode) a) = false.
Proof.
  destruct 1; simpl; auto with lotor;
    repeat (apply bind_panics;
      [auto with lotor; apply field_if_panics; solve_more|intros ? _]); by try case_match.
Qed.

(** * Properties *)

(** No key-management operation panics on a response, whatever values the server
    returns, and an envelope is handed out only from a response whose first value is
    the boolean true and whose third value is a map. *)
Theorem key_operations_safe {A} do (c : command A) a e actor subject resource :
  key_issued c → (∀ op vs, panics (do op vs) = false) →
  panics (perform do c) = false
  ∧ (cmd_decode (ResourceEnvelopeGetSelf actor subject resource) a = Ret (Some e) →
     ∃ ok v, a !! 0%nat = Some ok ∧ asBool ok = true ∧ a !! 2%nat = Some v
       ∧ v.(Kind) = tagMap ∧ e = decodeEnvelope v).
Proof.
  intros Hc Hd. split.
  - apply perform_panics; [|done]. intros vs. by apply key_issued_panics.
  - simpl. intros ([v|] & H & [= <-])%bind_Ret_inv.
    apply third_if_ok_Some in H as (ok & H0 & Hok & H2 & Hk). by exists ok, v.
Qed.

Lemma key_operations_safe_witness :
  panics (perform (fun _ _ => Ret []) (SubjectKeyRevoke "user:a" "user:b" "k")) = false.
Proof.
  apply (key_operations_safe (fun _ _ => Ret []) (SubjectKeyRevoke "user:a" "user:b" "k") []
    (decodeEnvelope value_zero) "" "" ""); [constructor|reflexivity].
Defined.

(** C29: [ResourceKeyVersionActivate] and [ResourceKeyVersionCreate] agree on every
    response of five or more values: acceptance, reason and key from the first three,
    the log sequence from the fifth, although [Activate] goes through the four-value
    decoder first. *)
Theorem key_version_log_seq input scope actor keyResource version manifestHash a :
  (5 <= length a)%nat →
  cmd_decode (ResourceKeyVersionActivate scope actor keyResource version manifestHash) a =
  cmd_decode (ResourceKeyVersionCreate input) a.
Proof.
  intros Hlen.
  destruct a as [|v0 [|v1 [|v2 [|v3 [|v4 a]]]]]; simpl in Hlen; try lia.
  assert (Hm : ∀ n, n < 5 → more (v0 :: v1 :: v2 :: v3 :: v4 :: a) n = true).
  { intros n Hn. unfold more, len. simpl. apply Z.ltb_lt. lia. }
  simpl. unfold decodeSubjectKeyMutation, decodeKeyVersion. rewrite !Hm by lia. done.
Qed.

Lemma key_version_log_seq_witness :
  let a := [vBool true; vStr "ok"; vStr "key:1"; vU64 2; vU64 99] in
  cmd_decode (ResourceKeyVersionActivate "s" "a" "k" 1 "h") a =
  cmd_decode (ResourceKeyVersionCreate (mkResourceKeyVersionInput "" "" "" "" "" "" 0 0 0 0 0 0 0)) a.
Proof. intros a. apply key_version_log_seq. simpl. lia. Defined.
