(* ===== verification/GoStd.v ===== *)
(** Go standard library: the parts of [unicode/utf8], [encoding/hex], [encoding/base64],
    [crypto/sha256], [strings] and [bytes] that the sources call, as executable
    functions on bytes, with the round trips and shapes the components rely on. *)
From S2P Require Import Prelude.

(** * unicode/utf8 *)
Definition RuneError : Z := 65533.

Definition cont (lo hi : Z) (b : byte) : bool := (lo <=? byteZ b) && (byteZ b <=? hi).

(** [utf8.DecodeRune] on a non-empty slice: the rune and its width; an invalid or
    short encoding is ([RuneError], 1). *)
Definition decodeRune (b0 : byte) (rest : list byte) : Z * nat :=
  let c := byteZ b0 in
  if c <? 128 then (c, 1%nat)
  else if (c <? 194) || (244 <? c) then (RuneError, 1%nat)
  else if c <? 224 then
    match rest with
    | b1 :: _ =>
        if cont 128 191 b1
        then (c mod 32 * 64 + byteZ b1 mod 64, 2%nat)
        else (RuneError, 1%nat)
    | _ => (RuneError, 1%nat)
    end
  else if c <? 240 then
    let lo := if c =? 224 then 160 else 128 in
    let hi := if c =? 237 then 159 else 191 in
    match rest with
    | b1 :: b2 :: _ =>
        if cont lo hi b1 && cont 128 191 b2
        then (c mod 16 * 4096 + byteZ b1 mod 64 * 64 + byteZ b2 mod 64, 3%nat)
        else (RuneError, 1%nat)
    | _ => (RuneError, 1%nat)
    end
  else
    let lo := if c =? 240 then 144 else 128 in
    let hi := if c =? 244 then 143 else 191 in
    match rest with
    | b1 :: b2 :: b3 :: _ =>
        if cont lo hi b1 && cont 128 191 b2 && cont 128 191 b3
        then (c mod 8 * 262144 + byteZ b1 mod 64 * 4096 + byteZ b2 mod 64 * 64
              + byteZ b3 mod 64, 4%nat)
        else (RuneError, 1%nat)
    | _ => (RuneError, 1%nat)
    end.

(** The runes [for _, c := range s] visits. Every step drops at least one byte, so
    the length of the string is enough fuel. *)
Fixpoint runes_fuel (fuel : nat) (s : list byte) : list Z :=
  match fuel, s with
  | S fuel, b :: rest =>
      let '(r, w) := decodeRune b rest in r :: runes_fuel fuel (drop w s)
  | _, _ => []
  end.

Definition runes (s : string) : list Z := runes_fuel (length (bytes_of s)) (bytes_of s).

(** * encoding/hex *)
Definition hexDigit (z : Z) : byte :=
  if z <? 10 then to_byte (48 + z) else to_byte (87 + z).

Definition hexEncode (b : list byte) : list byte :=
  b ≫= (fun c => [hexDigit (Z.shiftr (byteZ c) 4); hexDigit (Z.land (byteZ c) 15)]).

Definition EncodeToString (b : list byte) : string := string_of (hexEncode b).

(** Hex decoding accepts both cases. *)
Definition unhex (b : byte) : option Z :=
  let c := byteZ b in
  if (48 <=? c) && (c <=? 57) then Some (c - 48)
  else if (97 <=? c) && (c <=? 102) then Some (c - 87)
  else if (65 <=? c) && (c <=? 70) then Some (c - 55)
  else None.

Fixpoint hexDecode (s : list byte) : option (list byte) :=
  match s with
  | [] => Some []
  | a :: b :: s =>
      x ← unhex a; y ← unhex b; r ← hexDecode s;
      Some (to_byte (Z.lor (Z.shiftl x 4) y) :: r)
  | _ => None
  end.

(** * encoding/base64, the raw URL alphabet *)
Definition enc6 (z : Z) : byte :=
  if z <? 26 then to_byte (65 + z)
  else if z <? 52 then to_byte (71 + z)
  else if z <? 62 then to_byte (z - 4)
  else if z =? 62 then to_byte 45
  else to_byte 95.

Definition dec6 (b : byte) : option Z :=
  let c := byteZ b in
  if (65 <=? c) && (c <=? 90) then Some (c - 65)
  else if (97 <=? c) && (c <=? 122) then Some (c - 71)
  else if (48 <=? c) && (c <=? 57) then Some (c + 4)
  else if c =? 45 then Some 62
  else if c =? 95 then Some 63
  else None.

(** The six-bit groups of a byte sequence. *)
Fixpoint sextets (b : list byte) : list Z :=
  match b with
  | x :: y :: z :: b =>
      let x := byteZ x in let y := byteZ y in let z := byteZ z in
      x / 4 :: (x mod 4) * 16 + y / 16 :: (y mod 16) * 4 + z / 64 :: z mod 64 :: sextets b
  | [x; y] =>
      let x := byteZ x in let y := byteZ y in
      [x / 4; (x mod 4) * 16 + y / 16; (y mod 16) * 4]
  | [x] => let x := byteZ x in [x / 4; (x mod 4) * 16]
  | [] => []
  end.

Definition rawURLEncode (b : list byte) : list byte := enc6 <$> sextets b.

(** Decoding of the groups; [strict] is [Encoding.Strict], which rejects non-zero
    trailing bits. *)
Fixpoint unsextets (strict : bool) (l : list Z) : option (list byte) :=
  match l with
  | a :: b :: c :: d :: l =>
      r ← unsextets strict l;
      Some (to_byte (a * 4 + b / 16) :: to_byte ((b mod 16) * 16 + c / 4)
            :: to_byte ((c mod 4) * 64 + d) :: r)
  | [a; b; c] =>
      if strict && negb (c mod 4 =? 0) then None
      else Some [to_byte (a * 4 + b / 16); to_byte ((b mod 16) * 16 + c / 4)]
  | [a; b] =>
      if strict && negb (b mod 16 =? 0) then None else Some [to_byte (a * 4 + b / 16)]
  | [_] => None
  | [] => Some []
  end.

(** The decoder skips carriage returns and line feeds. *)
Definition newline (b : byte) : bool := (byteZ b =? 10) || (byteZ b =? 13).

Definition rawURLDecode (strict : bool) (s : list byte) : option (list byte) :=
  l ← mapM dec6 (filter (fun b => newline b = false) s); unsextets strict l.

(** [base64.RawURLEncoding.EncodedLen]. *)
Definition EncodedLen (n : Z) : Z := n / 3 * 4 + (n mod 3 * 8 + 5) / 6.

(** * strings *)

(** [strings.HasPrefix]. *)
Definition HasPrefix (s p : string) : bool :=
  bool_decide (take (length (bytes_of p)) (bytes_of s) = bytes_of p).

(** [strings.HasSuffix], [strings.TrimPrefix], [strings.TrimSuffix]. *)
Definition HasSuffix (s p : string) : bool :=
  let n := length (bytes_of p) in
  let m := length (bytes_of s) in
  Nat.leb n m && bool_decide (drop (m - n) (bytes_of s) = bytes_of p).
Definition TrimPrefix (s p : string) : string :=
  if HasPrefix s p then string_of (drop (length (bytes_of p)) (bytes_of s)) else s.
Definition TrimSuffix (s p : string) : string :=
  if HasSuffix s p then string_of (take (length (bytes_of s) - length (bytes_of p)) (bytes_of s))
  else s.

(** [strings.Contains]: the second string starts at some position of the first. *)
Fixpoint contains (s p : list byte) : bool :=
  bool_decide (take (length p) s = p) || match s with [] => false | _ :: s => contains s p end.
Definition Contains (s p : string) : bool := contains (bytes_of s) (bytes_of p).

(** The runes with the bytes they were decoded from. *)
Fixpoint chunks_fuel (fuel : nat) (s : list byte) : list (Z * list byte) :=
  match fuel, s with
  | S fuel, b :: rest =>
      let '(r, w) := decodeRune b rest in (r, take w s) :: chunks_fuel fuel (drop w s)
  | _, _ => []
  end.

Fixpoint dropWhile {A} (p : A → bool) (l : list A) : list A :=
  match l with
  | [] => []
  | x :: l' => if p x then dropWhile p l' else l
  end.

(** [unicode.IsSpace]. *)
Definition IsSpace (r : Z) : bool :=
  (9 <=? r) && (r <=? 13) || (r =? 32) || (r =? 133) || (r =? 160) || (r =? 5760)
  || (8192 <=? r) && (r <=? 8202) || (r =? 8232) || (r =? 8233) || (r =? 8239) || (r =? 8287)
  || (r =? 12288).

(** [strings.TrimSpace]. *)
Definition TrimSpace (s : string) : string :=
  let trim := dropWhile (fun c : Z * list byte => IsSpace c.1) in
  string_of (concat (snd <$>
    rev (trim (rev (trim (chunks_fuel (length (bytes_of s)) (bytes_of s))))))).

(** [strings.ContainsAny] for a set of ASCII characters. *)
Definition ContainsAny (s : string) (set : list byte) : bool :=
  existsb (fun b => existsb (Byte.eqb b) set) (bytes_of s).

(** [strings.Split] at a one-byte separator. *)
Fixpoint splitAt (sep : byte) (s : list byte) : list (list byte) :=
  match s with
  | [] => [[]]
  | c :: s =>
      if Byte.eqb c sep then [] :: splitAt sep s
      else match splitAt sep s with
           | part :: parts => (c :: part) :: parts
           | [] => [[c]]
           end
  end.

(** [strings.ToLower] and [strings.ToUpper] on the ASCII letters. *)
Definition toLower (b : byte) : byte :=
  if (65 <=? byteZ b) && (byteZ b <=? 90) then to_byte (byteZ b + 32) else b.
Definition toUpper (b : byte) : byte :=
  if (97 <=? byteZ b) && (byteZ b <=? 122) then to_byte (byteZ b - 32) else b.
Definition ToLower (s : string) : string := string_of (toLower <$> bytes_of s).

(** [http.CanonicalHeaderKey]: upper case at the start and after hyphens, unless a byte is
    not allowed in the name of a header. *)
Definition tokenByte (b : byte) : bool :=
  let z := byteZ b in
  (97 <=? z) && (z <=? 122) || (65 <=? z) && (z <=? 90) || (48 <=? z) && (z <=? 57)
  || existsb (Byte.eqb b) (bytes_of "!#$%&'*+-.^_`|~").

Fixpoint canonicalFrom (upper : bool) (b : list byte) : list byte :=
  match b with
  | [] => []
  | c :: b => (if upper then toUpper c else toLower c) :: canonicalFrom (Byte.eqb c x2d) b
  end.

Definition CanonicalHeaderKey (name : string) : string :=
  if forallb tokenByte (bytes_of name) then string_of (canonicalFrom true (bytes_of name)) else name.
Definition ToUpper (s : string) : string := string_of (toUpper <$> bytes_of s).

(** * strconv *)

(** Decimal digits of a non-negative number; twenty rounds cover every [int64]. *)
Fixpoint digits (fuel : nat) (z : Z) (acc : list byte) : list byte :=
  match fuel with
  | O => acc
  | S fuel =>
      let acc := to_byte (48 + z mod 10) :: acc in
      if z <? 10 then acc else digits fuel (z / 10) acc
  end.

(** [strconv.Itoa], and the verb [%d]. *)
Definition Itoa (z : Z) : list byte :=
  if z <? 0 then x2d :: digits 20 (- z) [] else digits 20 z [].

(** [strconv.Atoi]: an optional sign, digits, and no overflow of [int]. *)
Definition digitsValue (l : list byte) : option Z :=
  match l with
  | [] => None
  | _ => foldl (fun acc b => a ← acc;
           if (48 <=? byteZ b) && (byteZ b <=? 57) then Some (a * 10 + (byteZ b - 48)) else None)
         (Some 0) l
  end.

Definition Atoi (s : string) : option Z :=
  z ← match bytes_of s with
      | x2d :: l => Z.opp <$> digitsValue l
      | x2b :: l => digitsValue l
      | l => digitsValue l
      end;
  if (- 2 ^ 63 <=? z) && (z <? 2 ^ 63) then Some z else None.

(** * Lemmas: decimal numbers *)
Definition digit (b : byte) : Prop := 48 <= byteZ b <= 57.

Lemma digits_digit fuel z acc : Forall digit acc → Forall digit (digits fuel z acc).
Proof.
  revert z acc. induction fuel as [|fuel IH]; intros z acc Ha; simpl; [done|].
  assert (Hd : Forall digit (to_byte (48 + z mod 10) :: acc)).
  { apply Forall_cons. split; [|done]. unfold digit. rewrite byteZ_to_byte.
    rewrite Z.mod_small; Z.to_euclidean_division_equations; lia. }
  destruct (z <? 10); auto.
Qed.

(** The number a list of digits denotes. *)
Definition decimal (l : list byte) : Z := foldl (fun a b => a * 10 + (byteZ b - 48)) 0 l.

Lemma foldl_decimal l a :
  foldl (fun a b => a * 10 + (byteZ b - 48)) a l = a * 10 ^ len l + decimal l.
Proof.
  unfold decimal. revert a. induction l as [|b l IH]; intros a; cbn [foldl].
  - unfold len. simpl. lia.
  - rewrite IH, (IH (0 * 10 + (byteZ b - 48))). unfold len. simpl length. rewrite Nat2Z.inj_succ.
    rewrite Z.pow_succ_r by lia. lia.
Qed.

Lemma decimal_digits fuel z acc :
  0 <= z < 10 ^ Z.of_nat fuel →
  decimal (digits fuel z acc) = z * 10 ^ len acc + decimal acc.
Proof.
  revert z acc. induction fuel as [|fuel IH]; intros z acc Hz; cbn [digits].
  { simpl in Hz. lia. }
  rewrite Nat2Z.inj_succ, Z.pow_succ_r in Hz by lia.
  assert (Hd : decimal (to_byte (48 + z mod 10) :: acc) = (z mod 10) * 10 ^ len acc + decimal acc).
  { unfold decimal at 1. cbn [foldl]. rewrite foldl_decimal, byteZ_to_byte.
    rewrite (Z.mod_small (48 + z mod 10)) by (Z.to_euclidean_division_equations; lia). lia. }
  destruct (Z.ltb_spec z 10).
  - rewrite Hd, (Z.mod_small z) by lia. done.
  - rewrite IH by (Z.to_euclidean_division_equations; lia). rewrite Hd. unfold len. simpl length.
    rewrite Nat2Z.inj_succ, Z.pow_succ_r by lia.
    rewrite (Z.div_mod z 10) at 3 by lia. lia.
Qed.

#[global] Opaque digits.

Lemma Itoa_inj a b : is_i64 a → is_i64 b → Itoa a = Itoa b → a = b.
Proof.
  unfold is_i64, Itoa. intros Ha Hb.
  assert (Hbig : 2 ^ 63 < 10 ^ Z.of_nat 20) by (vm_compute; done).
  assert (Hdig : ∀ z, 0 <= z <= 2 ^ 63 → decimal (digits 20 z []) = z).
  { intros z Hz. rewrite decimal_digits by (split; [lia|]; eapply Z.le_lt_trans; [apply Hz|done]).
    change (z * 1 + 0 = z). lia. }
  assert (Hsign : ∀ z l, digits 20 z [] ≠ x2d :: l).
  { intros z l Heq. pose proof (digits_digit 20 z [] (Forall_nil_2 _)) as Hd. rewrite Heq in Hd.
    apply Forall_cons in Hd as [Hd _]. unfold digit in Hd. change (byteZ x2d) with 45 in Hd. lia. }
  destruct (Z.ltb_spec a 0), (Z.ltb_spec b 0); intros Heq.
  - apply (f_equal tail) in Heq. cbn [tail] in Heq. apply (f_equal decimal) in Heq. rewrite !Hdig in Heq by lia. lia.
  - destruct (Hsign _ _ (eq_sym Heq)).
  - destruct (Hsign _ _ Heq).
  - apply (f_equal decimal) in Heq. rewrite !Hdig in Heq by lia. lia.
Qed.

Lemma Itoa_no_nul z : x00 ∉ Itoa z.
Proof.
  assert (Hd : ∀ z, x00 ∉ digits 20 z []).
  { intros z' Hin. pose proof (digits_digit 20 z' [] (Forall_nil_2 _)) as Hd.
    rewrite Forall_forall in Hd. apply Hd in Hin. unfold digit in Hin. change (byteZ x00) with 0 in Hin. lia. }
  unfold Itoa. destruct (z <? 0); [|done]. apply not_elem_of_cons. by split.
Qed.

(** * Lemmas: splitting *)

(** A separator that does not occur on either side is found at the same place. *)
Lemma sep_inj (x : byte) (a b r s : list byte) :
  x ∉ a → x ∉ b → a ++ x :: r = b ++ x :: s → a = b ∧ r = s.
Proof.
  revert b. induction a as [|c a IH]; intros [|d b] Ha Hb Heq; simpl in Heq.
  - by injection Heq.
  - injection Heq as -> _. by destruct Hb; left.
  - injection Heq as -> _. by destruct Ha; left.
  - apply not_elem_of_cons in Ha as [_ Ha]. apply not_elem_of_cons in Hb as [_ Hb].
    injection Heq as -> Heq. by destruct (IH b Ha Hb Heq) as [-> ->].
Qed.

Lemma splitAt_nonempty sep s : splitAt sep s ≠ [].
Proof. destruct s as [|c s]; simpl; [done|]. destruct (Byte.eqb c sep); [done|]. by destruct (splitAt sep s). Qed.

(** Joining the parts around the separator gives the string back. *)
Lemma splitAt_join sep s part parts :
  splitAt sep s = part :: parts → s = part ++ concat ((fun p => sep :: p) <$> parts).
Proof.
  revert part parts. induction s as [|c s IH]; intros part parts; simpl; [by intros [= <- <-]|].
  destruct (splitAt sep s) as [|p ps] eqn:Hs; [by destruct (splitAt_nonempty sep s)|].
  destruct (Byte.eqb c sep) eqn:He; intros [= <- <-]; csimpl; f_equal; auto.
  by apply Byte.byte_dec_bl.
Qed.

(** * Lemmas: runes *)
Lemma decodeRune_ascii b rest : byteZ b < 128 → decodeRune b rest = (byteZ b, 1%nat).
Proof. intros H. unfold decodeRune. by rewrite (proj2 (Z.ltb_lt _ _) H). Qed.

Lemma decodeRune_multibyte b rest : 128 <= byteZ b → 128 <= (decodeRune b rest).1.
Proof.
  intros H. pose proof (byteZ_range b). unfold decodeRune, cont, RuneError.
  repeat (case_match; simpl; breflect; try lia).
  all: Z.to_euclidean_division_equations; lia.
Qed.

(** A test that only ASCII characters pass is the same on runes and on bytes. *)
Lemma runes_forallb (p : Z → bool) s :
  (∀ z, p z = true → z < 128) →
  forallb p (runes s) = forallb (fun b => p (byteZ b)) (bytes_of s).
Proof.
  intros Hp. unfold runes. generalize (bytes_of s) as l. clear s. intros l.
  assert (Hn : (length l <= length l)%nat) by done. revert Hn.
  generalize (length l) at 2 3 as fuel. intros fuel. revert l.
  induction fuel as [|fuel IH]; intros [|b l]; simpl; try done; [lia|]. intros Hl.
  destruct (Z.lt_ge_cases (byteZ b) 128) as [Hb|Hb].
  - rewrite decodeRune_ascii by done. simpl. rewrite drop_0, IH by lia. done.
  - pose proof (decodeRune_multibyte b l Hb) as Hr. destruct (decodeRune b l) as [r w].
    simpl in *. assert (Hf : ∀ z, 128 <= z → p z = false).
    { intros z Hz. destruct (p z) eqn:Hpz; [|done]. apply Hp in Hpz. lia. }
    by rewrite !Hf by lia.
Qed.

(** * Lemmas: hex *)
Lemma length_hexEncode b : length (hexEncode b) = (2 * length b)%nat.
Proof. unfold hexEncode. induction b as [|c b IH]; csimpl; [done|]. rewrite IH. lia. Qed.

Lemma unhex_hexDigit z : 0 <= z < 16 → unhex (hexDigit z) = Some z.
Proof.
  intros H. assert (z = 0 ∨ z = 1 ∨ z = 2 ∨ z = 3 ∨ z = 4 ∨ z = 5 ∨ z = 6 ∨ z = 7 ∨ z = 8
    ∨ z = 9 ∨ z = 10 ∨ z = 11 ∨ z = 12 ∨ z = 13 ∨ z = 14 ∨ z = 15) as Hz by lia.
  repeat destruct Hz as [->|Hz]; [reflexivity..|]. by subst z.
Qed.

Lemma nibbles c :
  0 <= Z.shiftr (byteZ c) 4 < 16 ∧ 0 <= Z.land (byteZ c) 15 < 16
  ∧ Z.lor (Z.shiftl (Z.shiftr (byteZ c) 4) 4) (Z.land (byteZ c) 15) = byteZ c.
Proof.
  pose proof (byte_forall (fun c => let x := Z.shiftr (byteZ c) 4 in let y := Z.land (byteZ c) 15 in
    (0 <=? x) && (x <? 16) && ((0 <=? y) && (y <? 16)) && (Z.lor (Z.shiftl x 4) y =? byteZ c))
    ltac:(vm_compute; reflexivity) c) as Hc.
  cbv zeta beta in Hc. breflect. lia.
Qed.

Lemma hexDecode_hexEncode b : hexDecode (hexEncode b) = Some b.
Proof.
  induction b as [|c b IH]; [done|]. unfold hexEncode in *. csimpl.
  destruct (nibbles c) as (H1 & H2 & H3). rewrite !unhex_hexDigit by done. csimpl.
  rewrite IH. csimpl. by rewrite H3, to_byte_byteZ.
Qed.

(** The characters of a lower-case digest. *)
Definition lowerHex (z : Z) : bool := (97 <=? z) && (z <=? 102) || (48 <=? z) && (z <=? 57).

Lemma hexDigit_lower z : 0 <= z < 16 → lowerHex (byteZ (hexDigit z)) = true.
Proof.
  intros H. unfold hexDigit, lowerHex. case_match; breflect; rewrite byteZ_to_byte, Z.mod_small by lia;
    apply orb_true_iff; rewrite !andb_true_iff, !Z.leb_le; lia.
Qed.

Lemma hexEncode_lower b : forallb (fun c => lowerHex (byteZ c)) (hexEncode b) = true.
Proof.
  induction b as [|c b IH]; [done|]. unfold hexEncode in *. csimpl.
  destruct (nibbles c) as (H1 & H2 & _). rewrite !hexDigit_lower by done. by rewrite IH.
Qed.

Lemma hexDigit_unhex c :
  lowerHex (byteZ c) = true → ∃ x, unhex c = Some x ∧ 0 <= x < 16 ∧ hexDigit x = c.
Proof.
  intros H.
  pose proof (byte_forall (fun c => negb (lowerHex (byteZ c)) || match unhex c with
    | Some x => (0 <=? x) && (x <? 16) && Byte.eqb (hexDigit x) c | None => false end)
    ltac:(vm_compute; reflexivity) c) as Hc.
  simpl in Hc. rewrite H in Hc. simpl in Hc. destruct (unhex c) as [x|]; [|done].
  exists x. breflect. split; [done|]. split; [lia|]. by apply Byte.byte_dec_bl.
Qed.

Lemma nibbles_join x y :
  0 <= x < 16 → 0 <= y < 16 →
  let z := byteZ (to_byte (Z.lor (Z.shiftl x 4) y)) in Z.shiftr z 4 = x ∧ Z.land z 15 = y.
Proof.
  intros Hx Hy. simpl. rewrite Z.lor_comm, lor_shiftl_add by lia.
  rewrite byteZ_to_byte, Z.mod_small by lia. rewrite Z.shiftr_div_pow2 by lia.
  change 15 with (Z.ones 4). rewrite Z.land_ones by lia. change (2 ^ 4) with 16.
  Z.to_euclidean_division_equations. lia.
Qed.

(** Lower-case hex of even length is exactly what [hexEncode] produces. *)
Lemma hexEncode_hexDecode s :
  Nat.Even (length s) → forallb (fun c => lowerHex (byteZ c)) s = true →
  ∃ b, hexDecode s = Some b ∧ hexEncode b = s.
Proof.
  intros [n Hn]. revert s Hn. induction n as [|n IH]; intros s Hn.
  { destruct s; [|simpl in Hn; lia]. by exists []. }
  destruct s as [|a [|b s]]; simpl in Hn; try lia. simpl. intros H.
  apply andb_true_iff in H as [Ha H]. apply andb_true_iff in H as [Hb H].
  destruct (hexDigit_unhex a Ha) as (x & -> & Hx & <-).
  destruct (hexDigit_unhex b Hb) as (y & -> & Hy & <-).
  destruct (IH s ltac:(lia) H) as (r & -> & Hr). csimpl. eexists. split; [done|].
  unfold hexEncode in *. csimpl.
  destruct (nibbles_join x y Hx Hy) as [-> ->]. by rewrite Hr.
Qed.

(** * Lemmas: base64 *)
Lemma dec6_enc6 z : 0 <= z < 64 → dec6 (enc6 z) = Some z.
Proof.
  intros H. unfold enc6, dec6.
  repeat case_match; breflect; rewrite ?byteZ_to_byte, ?Z.mod_small in * by lia;
    try (f_equal; lia); exfalso;
    repeat match goal with H : _ && _ = false |- _ => apply andb_false_iff in H as [H|H] end;
    breflect; lia.
Qed.

Lemma enc6_dec6 b z : dec6 b = Some z → 0 <= z < 64 ∧ enc6 z = b ∧ newline b = false.
Proof.
  intros H.
  pose proof (byte_forall (fun b => match dec6 b with
    | Some z => (0 <=? z) && (z <? 64) && Byte.eqb (enc6 z) b && negb (newline b)
    | None => true end) ltac:(vm_compute; reflexivity) b) as Hb.
  simpl in Hb. rewrite H in Hb. breflect. split; [lia|]. split; [by apply Byte.byte_dec_bl|done].
Qed.

Lemma sextets_range b : Forall (fun z => 0 <= z < 64) (sextets b).
Proof.
  remember (length b) as n eqn:Hn. revert b Hn.
  induction (lt_wf n) as [n _ IH]. intros b ->.
  pose proof (fun b => byteZ_range b) as R.
  destruct b as [|x [|y [|z b]]]; simpl; [constructor|..].
  all: pose proof (R x); try pose proof (R y); try pose proof (R z).
  all: repeat (apply Forall_cons; split; [Z.to_euclidean_division_equations; lia|]).
  - constructor.
  - constructor.
  - apply (IH (length b)); [simpl; lia|done].
Qed.

Lemma list_ind3 {A} (P : list A → Prop) :
  P [] → (∀ x, P [x]) → (∀ x y, P [x; y]) →
  (∀ x y z l, P l → P (x :: y :: z :: l)) → ∀ l, P l.
Proof.
  intros H0 H1 H2 H3 l.
  enough (P l ∧ (∀ x, P (x :: l)) ∧ (∀ x y, P (x :: y :: l))) by tauto.
  induction l as [|a l IH]; [done|]. destruct IH as (I0 & I1 & I2).
  split; [apply I1|split; [intros x; apply I2|intros x y; by apply H3]].
Qed.

Ltac dm := Z.to_euclidean_division_equations; lia.

Lemma unsextets_sextets strict b : unsextets strict (sextets b) = Some b.
Proof.
  induction b as [|x|x y|x y z b IH] using list_ind3; [done|..]; simpl.
  - pose proof (byteZ_range x). replace (byteZ x mod 4 * 16 mod 16) with 0 by dm.
    rewrite andb_false_r. do 2 f_equal.
    replace (_ * 4 + _) with (byteZ x) by dm. apply to_byte_byteZ.
  - pose proof (byteZ_range x). pose proof (byteZ_range y).
    replace (byteZ y mod 16 * 4 mod 4) with 0 by dm. rewrite andb_false_r.
    set (m := byteZ x mod 4 * 16 + byteZ y / 16).
    replace (byteZ x / 4 * 4 + m / 16) with (byteZ x) by (unfold m; dm).
    replace (m mod 16 * 16 + _ / 4) with (byteZ y) by (unfold m; dm).
    by rewrite !to_byte_byteZ.
  - pose proof (byteZ_range x). pose proof (byteZ_range y). pose proof (byteZ_range z).
    rewrite IH. csimpl. set (m := byteZ x mod 4 * 16 + byteZ y / 16).
    set (k := byteZ y mod 16 * 4 + byteZ z / 64).
    replace (byteZ x / 4 * 4 + m / 16) with (byteZ x) by (unfold m; dm).
    replace (m mod 16 * 16 + k / 4) with (byteZ y) by (unfold m, k; dm).
    replace (k mod 4 * 64 + byteZ z mod 64) with (byteZ z) by (unfold k; dm).
    by rewrite !to_byte_byteZ.
Qed.

Lemma mapM_dec6_enc6 l : Forall (fun z => 0 <= z < 64) l → mapM dec6 (enc6 <$> l) = Some l.
Proof.
  intros H. apply mapM_fmap_Forall_Some. apply (Forall_impl _ _ _ H). intros z Hz.
  by apply dec6_enc6.
Qed.

Lemma filter_newline_enc6 l :
  Forall (fun z => 0 <= z < 64) l →
  filter (fun b => newline b = false) (enc6 <$> l) = enc6 <$> l.
Proof.
  induction 1 as [|z l Hz _ IH]; [done|]. csimpl.
  rewrite filter_cons_True; [by rewrite IH|].
  by destruct (enc6_dec6 _ _ (dec6_enc6 z Hz)) as (_ & _ & ?).
Qed.

Lemma rawURL_roundtrip strict b : rawURLDecode strict (rawURLEncode b) = Some b.
Proof.
  unfold rawURLDecode, rawURLEncode. pose proof (sextets_range b).
  rewrite filter_newline_enc6, mapM_dec6_enc6 by done. csimpl. apply unsextets_sextets.
Qed.

Lemma length_rawURLEncode b : len (rawURLEncode b) = EncodedLen (len b).
Proof.
  unfold rawURLEncode, EncodedLen, len. rewrite length_fmap.
  induction b as [|x|x y|x y z b IH] using list_ind3; [done..|]. simpl length.
  rewrite !Nat2Z.inj_succ. dm.
Qed.


Lemma list_ind4 {A} (P : list A → Prop) :
  P [] → (∀ x, P [x]) → (∀ x y, P [x; y]) → (∀ x y z, P [x; y; z]) →
  (∀ x y z w l, P l → P (x :: y :: z :: w :: l)) → ∀ l, P l.
Proof.
  intros H0 H1 H2 H3 H4 l.
  enough (P l ∧ (∀ x, P (x :: l)) ∧ (∀ x y, P (x :: y :: l)) ∧ (∀ x y z, P (x :: y :: z :: l)))
    by tauto.
  induction l as [|a l IH]; [done|]. destruct IH as (I0 & I1 & I2 & I3).
  split_and!; [apply I1|intros x; apply I2|intros x y; apply I3|intros x y z; by apply H4].
Qed.

(** A strict decoder accepts one sequence of groups for each byte sequence. *)
Lemma sextets_unsextets l b :
  Forall (fun z => 0 <= z < 64) l → unsextets true l = Some b → sextets b = l.
Proof.
  revert b. induction l as [|x|x y|x y z|x y z w l IH] using list_ind4; intros b Hl; simpl.
  - by intros [= <-].
  - done.
  - destruct (Z.eqb_spec (y mod 16) 0); simpl; [|done]. intros [= <-]. simpl.
    rewrite !Forall_cons in Hl. rewrite byteZ_to_byte. repeat first [dm | f_equal].
  - destruct (Z.eqb_spec (z mod 4) 0); simpl; [|done]. intros [= <-]. simpl.
    rewrite !Forall_cons in Hl. rewrite !byteZ_to_byte. repeat first [dm | f_equal].
  - rewrite !Forall_cons in Hl. destruct Hl as (Hx & Hy & Hz & Hw & Hl).
    destruct (unsextets true l) as [r|] eqn:Hr; simpl; [|done]. intros [= <-]. simpl.
    rewrite !byteZ_to_byte, (IH r Hl eq_refl). repeat first [dm | f_equal].
Qed.

Lemma mapM_dec6_Some s l :
  mapM dec6 s = Some l → Forall (fun z => 0 <= z < 64) l ∧ enc6 <$> l = s
  ∧ filter (fun b => newline b = false) s = s.
Proof.
  revert l. induction s as [|c s IH]; intros l; csimpl; [by intros [= <-]|].
  destruct (dec6 c) as [z|] eqn:Hc; simpl; [|done].
  destruct (mapM dec6 s) as [l'|]; simpl; [|done]. intros [= <-].
  destruct (IH l' eq_refl) as (Hr & He & Hf). apply enc6_dec6 in Hc as (Hz & Hec & Hn).
  split; [by constructor|]. csimpl. rewrite He, Hec. split; [done|].
  by rewrite filter_cons_True, Hf.
Qed.

(** Without line breaks, strict decoding is exactly the inverse of encoding. *)
Lemma rawURLDecode_strict s b :
  Forall (fun c => newline c = false) s → rawURLDecode true s = Some b → s = rawURLEncode b.
Proof.
  intros Hs. assert (Hf : filter (fun c => newline c = false) s = s).
  { induction Hs as [|c s Hc _ IH]; [done|]. by rewrite filter_cons_True, IH. }
  unfold rawURLDecode, rawURLEncode. rewrite Hf.
  destruct (mapM dec6 s) as [l|] eqn:Hm; simpl; [|done]. intros Hu.
  apply mapM_dec6_Some in Hm as (Hr & He & _). by rewrite (sextets_unsextets l b Hr Hu).
Qed.

(** * Lemmas: trimming *)

(** What follows a rune does not matter for its decoding. *)
Lemma decodeRune_prefix b p q :
  ((decodeRune b (p ++ q)).2 <= S (length p))%nat → decodeRune b p = decodeRune b (p ++ q).
Proof.
  unfold decodeRune. destruct p as [|x [|y [|z p]]]; simpl; intros H; repeat case_match;
    simplify_eq/=; try done; try lia.
Qed.

Lemma decodeRune_width b rest :
  (1 <= (decodeRune b rest).2 <= S (length rest))%nat.
Proof. unfold decodeRune. repeat case_match; simplify_eq/=; lia. Qed.

Definition chunks (s : list byte) : list (Z * list byte) := chunks_fuel (length s) s.

Lemma chunks_fuel_enough n m s :
  (length s <= n)%nat → (length s <= m)%nat → chunks_fuel n s = chunks_fuel m s.
Proof.
  revert m s. induction n as [|n IH]; intros [|m] [|b s]; simpl; try done; try lia. intros Hn Hm.
  pose proof (decodeRune_width b s). destruct (decodeRune b s) as [r w]. simpl in *. f_equal.
  apply IH; rewrite length_drop; simpl; lia.
Qed.

Lemma chunks_cons b s :
  chunks (b :: s) =
  ((decodeRune b s).1, take (decodeRune b s).2 (b :: s)) :: chunks (drop (decodeRune b s).2 (b :: s)).
Proof.
  unfold chunks. simpl. pose proof (decodeRune_width b s). destruct (decodeRune b s) as [r w].
  simpl in *. f_equal. apply chunks_fuel_enough; rewrite length_drop; simpl; lia.
Qed.

(** Induction along the runes of a string. *)
Lemma chunks_ind (P : list byte → Prop) :
  P [] → (∀ b s, P (drop (decodeRune b s).2 (b :: s)) → P (b :: s)) → ∀ s, P s.
Proof.
  intros H0 H1 s. remember (length s) as n eqn:Hn. revert s Hn.
  induction n as [n IH] using lt_wf_ind. intros [|b s] ->; [done|]. apply H1.
  eapply IH; [|done]. pose proof (decodeRune_width b s). rewrite length_drop. simpl. lia.
Qed.

Definition unchunk (l : list (Z * list byte)) : list byte := concat (snd <$> l).

Lemma unchunk_chunks s : unchunk (chunks s) = s.
Proof.
  induction s as [|b s IH] using chunks_ind; [done|]. rewrite chunks_cons. unfold unchunk in *.
  csimpl. rewrite IH. apply take_drop.
Qed.

(** A run of chunks is the chunks of its bytes. *)
Lemma chunks_prefix s l l' : chunks s = l ++ l' → chunks (unchunk l) = l.
Proof.
  revert l. induction s as [|b s IH] using chunks_ind; intros l; [by destruct l|].
  rewrite chunks_cons. destruct l as [|c l]; [done|]. pose proof (decodeRune_width b s) as Hw.
  destruct (decodeRune b s) as [r [|w]] eqn:Hdec; simpl in *; [lia|]. intros [= <- Hl].
  specialize (IH _ Hl).
  assert (Hs : take w s ++ unchunk l ++ unchunk l' = s).
  { unfold unchunk. rewrite <- concat_app, <- fmap_app, <- Hl. fold (unchunk (chunks (drop w s))).
    by rewrite unchunk_chunks, take_drop. }
  assert (Hd : decodeRune b (take w s ++ unchunk l) = (r, S w)).
  { rewrite (decodeRune_prefix _ _ (unchunk l')); rewrite <- app_assoc, Hs, Hdec; [done|].
    simpl. rewrite length_app, length_take. lia. }
  unfold unchunk at 1. csimpl. fold (unchunk l). rewrite chunks_cons, Hd. simpl.
  rewrite take_app_le, drop_app_ge by (rewrite length_take; lia).
  rewrite length_take, take_take, Nat.min_id.
  replace (w - w `min` length s)%nat with 0%nat by lia. by rewrite drop_0, IH.
Qed.

Lemma chunks_suffix s l l' : chunks s = l ++ l' → chunks (unchunk l') = l'.
Proof.
  revert l. induction s as [|b s IH] using chunks_ind; intros l.
  { intros H. symmetry in H. by apply app_nil in H as [-> ->]. }
  destruct l as [|c l]; simpl.
  - intros <-. by rewrite unchunk_chunks.
  - rewrite chunks_cons. intros [= _ H]. by apply (IH l).
Qed.

Lemma dropWhile_split {A} (p : A → bool) l :
  ∃ l', l = l' ++ dropWhile p l ∧ Forall (fun x => p x = true) l' ∧
    match dropWhile p l with x :: _ => p x = false | [] => True end.
Proof.
  induction l as [|x l (l' & Hl & Hp' & Hh)]; [by exists []|]. simpl. destruct (p x) eqn:Hp.
  - exists (x :: l'). simpl. rewrite <- Hl. auto.
  - by exists [].
Qed.

Lemma dropWhile_id {A} (p : A → bool) l :
  match l with x :: _ => p x = false | [] => True end → dropWhile p l = l.
Proof. destruct l as [|x l]; simpl; [done|]. by intros ->. Qed.

(** The chunks that are left after trimming. *)
Definition trimmed (l : list (Z * list byte)) : list (Z * list byte) :=
  rev (dropWhile (fun c : Z * list byte => IsSpace c.1)
         (rev (dropWhile (fun c : Z * list byte => IsSpace c.1) l))).

Lemma trimmed_idem l : trimmed (trimmed l) = trimmed l.
Proof.
  unfold trimmed. set (p := fun c : Z * list byte => IsSpace c.1).
  destruct (dropWhile_split p l) as (a & _ & _ & Hfront). set (m := dropWhile p l) in *.
  destruct (dropWhile_split p (rev m)) as (d & Hm & _ & Hback). set (n := dropWhile p (rev m)) in *.
  assert (Hr : m = rev n ++ rev d) by (rewrite <- (rev_involutive m), Hm; by rewrite rev_app_distr).
  rewrite (dropWhile_id p (rev n)).
  - rewrite rev_involutive. by rewrite dropWhile_id.
  - rewrite Hr in Hfront. by destruct (rev n).
Qed.

Lemma trimmed_infix l : ∃ a b, l = a ++ trimmed l ++ b.
Proof.
  unfold trimmed. set (p := fun c : Z * list byte => IsSpace c.1).
  destruct (dropWhile_split p l) as (a & Hl & _ & _). set (m := dropWhile p l) in *.
  destruct (dropWhile_split p (rev m)) as (d & Hm & _ & _). set (n := dropWhile p (rev m)) in *.
  exists a, (rev d). rewrite <- rev_app_distr, <- Hm, rev_involutive. done.
Qed.

Lemma TrimSpace_chunks s :
  TrimSpace s = string_of (unchunk (trimmed (chunks (bytes_of s)))).
Proof. done. Qed.

Lemma chunks_TrimSpace s :
  chunks (bytes_of (TrimSpace s)) = trimmed (chunks (bytes_of s)).
Proof.
  rewrite TrimSpace_chunks, bytes_of_string_of.
  destruct (trimmed_infix (chunks (bytes_of s))) as (a & b & Hl).
  pose proof (chunks_suffix _ _ _ Hl) as Hs. exact (chunks_prefix _ _ _ Hs).
Qed.

(** Trimming twice is trimming once. *)
Lemma TrimSpace_idem s : TrimSpace (TrimSpace s) = TrimSpace s.
Proof. by rewrite TrimSpace_chunks, chunks_TrimSpace, trimmed_idem, <- TrimSpace_chunks. Qed.

Lemma TrimSpace_infix s : ∃ a b, bytes_of s = a ++ bytes_of (TrimSpace s) ++ b.
Proof.
  destruct (trimmed_infix (chunks (bytes_of s))) as (a & b & Hl).
  exists (unchunk a), (unchunk b). rewrite TrimSpace_chunks, bytes_of_string_of.
  unfold unchunk. rewrite <- !concat_app, <- !fmap_app, <- Hl. symmetry. apply unchunk_chunks.
Qed.
