(* ===== verification/Sha256.v ===== *)
(** [crypto/sha256] as an executable function on bytes (FIPS 180-4), and [Digest], the
    lower-case hex form every component of the sources names data with. *)
From S2P Require Import Prelude GoStd.

(** * Words of 32 bits *)
Definition rotr (n x : Z) : Z := Z.lor (Z.shiftr x n) (u32 (Z.shiftl x (32 - n))).
Definition Ch (x y z : Z) : Z := Z.lxor (Z.land x y) (Z.land (2 ^ 32 - 1 - x) z).
Definition Maj (x y z : Z) : Z := Z.lxor (Z.lxor (Z.land x y) (Z.land x z)) (Z.land y z).
Definition Sigma0 (x : Z) : Z := Z.lxor (Z.lxor (rotr 2 x) (rotr 13 x)) (rotr 22 x).
Definition Sigma1 (x : Z) : Z := Z.lxor (Z.lxor (rotr 6 x) (rotr 11 x)) (rotr 25 x).
Definition sigma0 (x : Z) : Z := Z.lxor (Z.lxor (rotr 7 x) (rotr 18 x)) (Z.shiftr x 3).
Definition sigma1 (x : Z) : Z := Z.lxor (Z.lxor (rotr 17 x) (rotr 19 x)) (Z.shiftr x 10).

(** The constants are 32 fractional bits of roots of the first primes: cube roots for the
    round constants, square roots for the initial chaining words. *)
Definition isPrime (n : Z) : bool :=
  forallb (fun d => negb (n mod (Z.of_nat d + 2) =? 0)) (seq 0 (Z.to_nat n - 2)).

Definition firstPrimes (k : nat) : list Z :=
  take k (filter (fun n => isPrime n = true) (Z.of_nat <$> seq 2 310)).

(** The integer cube root below [2 ^ bits], bit by bit from the top. *)
Fixpoint cubeRoot (bits : nat) (n r : Z) : Z :=
  match bits with
  | O => r
  | S bits =>
      let r' := r + 2 ^ Z.of_nat bits in
      cubeRoot bits n (if r' * r' * r' <=? n then r' else r)
  end.

Definition roundConstants : list Z :=
  Eval vm_compute in (fun p => u32 (cubeRoot 36 (p * 2 ^ 96) 0)) <$> firstPrimes 64.

Definition initialWords : list Z :=
  Eval vm_compute in (fun p => u32 (Z.sqrt (p * 2 ^ 64))) <$> firstPrimes 8.

(** The eight chaining words. *)
Record chain : Type := mkChain { ha : Z; hb : Z; hc : Z; hd : Z; he : Z; hf : Z; hg : Z; hh : Z }.

Definition chain0 : chain :=
  mkChain (nth 0 initialWords 0) (nth 1 initialWords 0) (nth 2 initialWords 0) (nth 3 initialWords 0) (nth 4 initialWords 0) (nth 5 initialWords 0) (nth 6 initialWords 0)
    (nth 7 initialWords 0).

Definition round (s : chain) (kw : Z * Z) : chain :=
  let t1 := hh s + Sigma1 (he s) + Ch (he s) (hf s) (hg s) + kw.1 + kw.2 in
  let t2 := Sigma0 (ha s) + Maj (ha s) (hb s) (hc s) in
  mkChain (u32 (t1 + t2)) (ha s) (hb s) (hc s) (u32 (hd s + t1)) (he s) (hf s) (hg s).

(** The message schedule, kept as a window of the last sixteen words. *)
Fixpoint schedule (n : nat) (w : list Z) : list Z :=
  match n with
  | O => []
  | S n =>
      let next := u32 (sigma1 (nth 14 w 0) + nth 9 w 0 + sigma0 (nth 1 w 0) + nth 0 w 0) in
      nth 0 w 0 :: schedule n (tail w ++ [next])
  end.

Fixpoint words (b : list byte) : list Z :=
  match b with
  | b0 :: b1 :: b2 :: b3 :: b =>
      byteZ b0 * 2 ^ 24 + byteZ b1 * 2 ^ 16 + byteZ b2 * 2 ^ 8 + byteZ b3 :: words b
  | _ => []
  end.

Definition block (s : chain) (b : list byte) : chain :=
  let t := fold_left round (zip roundConstants (schedule 64 (words b))) s in
  mkChain (u32 (ha s + ha t)) (u32 (hb s + hb t)) (u32 (hc s + hc t)) (u32 (hd s + hd t))
    (u32 (he s + he t)) (u32 (hf s + hf t)) (u32 (hg s + hg t)) (u32 (hh s + hh t)).

Definition bigEndian (k : nat) (z : Z) : list byte :=
  (fun i => to_byte (Z.shiftr z (8 * Z.of_nat (k - S i)))) <$> seq 0 k.

(** Padding to a multiple of 64 bytes: 0x80, zeros, the bit length. *)
Definition pad (b : list byte) : list byte :=
  let zeros := Z.to_nat ((55 - len b) mod 64) in
  b ++ x80 :: replicate zeros x00 ++ bigEndian 8 (8 * len b).

Fixpoint blocks (n : nat) (s : chain) (b : list byte) : chain :=
  match n with
  | O => s
  | S n => blocks n (block s (take 64 b)) (drop 64 b)
  end.

Definition Sum256 (b : list byte) : list byte :=
  let p := pad b in
  let s := blocks (length p / 64) chain0 p in
  [ha s; hb s; hc s; hd s; he s; hf s; hg s; hh s] ≫= bigEndian 4.

(** [Digest] of [bridge/protocol.go]. *)
Definition Digest (value : list byte) : string := EncodeToString (Sum256 value).

(** The published vector for ["abc"], and a message of two blocks. *)
Example Sum256_abc :
  Digest (bytes_of "abc") = "ba7816bf8f01cfea414140de5dae2223b00361a396177a9cb410ff61f20015ad".
Proof. vm_compute. reflexivity. Qed.

Example Sum256_two_blocks :
  Digest (bytes_of "abcdbcdecdefdefgefghfghighijhijkijkljklmklmnlmnomnopnopq") =
  "248d6a61d20638b8e5c026930c3e6039a33ce45964ff2167f6ecedd419db06c1".
Proof. vm_compute. reflexivity. Qed.

(** * Shape of a digest *)
Lemma length_Sum256 b : length (Sum256 b) = 32%nat.
Proof. reflexivity. Qed.

Lemma Digest_bytes b :
  length (bytes_of (Digest b)) = 64%nat
  ∧ forallb (fun c => lowerHex (byteZ c)) (bytes_of (Digest b)) = true.
Proof.
  unfold Digest, EncodeToString. rewrite bytes_of_string_of. split; [|apply hexEncode_lower].
  by rewrite length_hexEncode, length_Sum256.
Qed.

(** Equal digests are equal sums: the hex form loses nothing. *)
Lemma Digest_inj b c : Digest b = Digest c → Sum256 b = Sum256 c.
Proof.
  unfold Digest, EncodeToString. intros H.
  apply (f_equal bytes_of) in H. rewrite !bytes_of_string_of in H.
  apply (f_equal hexDecode) in H. rewrite !hexDecode_hexEncode in H. by apply Some_inj in H.
Qed.

#[global] Opaque Sum256.
