(* ===== verification/Interfaces.v ===== *)
(** Interfaces to the parts of the Go standard library that the bridge packages use
    through their documented contract only: [crypto/ed25519] and [encoding/json].

    The operations are classes, their documented laws separate classes, so that the
    definitions of the components mention only the operations and each theorem names
    the laws it needs. The last sections give instances that satisfy the laws: they
    show that the laws are consistent and serve as the concrete inputs of examples. *)
From stdpp Require Import countable.
From S2P Require Import Prelude GoStd Sha256.

(** * crypto/ed25519 *)
Definition SeedSize : Z := 32.
Definition PublicKeySize : Z := 32.
Definition PrivateKeySize : Z := 64.
Definition SignatureSize : Z := 64.

Class Ed25519 : Type := {
  NewKeyFromSeed : list byte → list byte;
  Sign : list byte → list byte → list byte;
  Verify : list byte → list byte → list byte → bool;
}.

(** [PrivateKey.Public]: the second half of the private key. *)
Definition Public (key : list byte) : list byte := drop 32 key.

Class Ed25519Laws `{Ed25519} : Prop := {
  NewKeyFromSeed_length seed : len seed = SeedSize → len (NewKeyFromSeed seed) = PrivateKeySize;
  NewKeyFromSeed_prefix seed : len seed = SeedSize → take 32 (NewKeyFromSeed seed) = seed;
  Sign_length key m : len key = PrivateKeySize → len (Sign key m) = SignatureSize;
  Verify_Sign seed m :
    len seed = SeedSize →
    Verify (Public (NewKeyFromSeed seed)) m (Sign (NewKeyFromSeed seed) m) = true;
}.

Lemma Public_length `{Ed25519Laws} seed :
  len seed = SeedSize → len (Public (NewKeyFromSeed seed)) = PublicKeySize.
Proof.
  intros Hs. apply NewKeyFromSeed_length in Hs. unfold Public, len, PublicKeySize,
    PrivateKeySize in *. rewrite length_drop. lia.
Qed.

(** * encoding/json *)

(** [Marshal] is [json.Marshal]; [Decode] is one call of [Decoder.Decode] into a value
    of the type with [DisallowUnknownFields]: the value and the unread bytes. *)
Class Json (A : Type) : Type := {
  Marshal : A → option (list byte);
  Decode : list byte → option (A * list byte);
}.

(** Encoding a value whose strings are valid UTF-8 and whose embedded raw JSON is
    compact succeeds and is read back unchanged. [clean] says which values those are. *)
Class JsonLaws (A : Type) `{Json A} (clean : A → Prop) : Prop := {
  Marshal_clean v : clean v → is_Some (Marshal v);
  Decode_Marshal v raw : clean v → Marshal v = Some raw → Decode raw = Some (v, []);
}.

(** [json.Unmarshal], which reads one whole value and tolerates unknown fields. *)
Class JsonUnmarshal (A : Type) : Type := { Unmarshal : list byte → option A }.

Class JsonUnmarshalLaws (A : Type) `{Json A} `{JsonUnmarshal A} (clean : A → Prop) : Prop := {
  Unmarshal_Marshal v raw : clean v → Marshal v = Some raw → Unmarshal raw = Some v;
  Unmarshal_nil : Unmarshal [] = None;
}.

(** [json.RawMessage]: [Compact] is [json.Marshal] of a raw message, which validates and
    compacts it, [Valid] is [json.Valid]. *)
Class RawJson : Type := {
  Compact : list byte → option (list byte);
  Valid : list byte → bool;
}.

Class RawJsonLaws `{RawJson} : Prop := {
  Compact_nil : Compact [] = Some (bytes_of "null");
  Compact_idem b c : Compact b = Some c → Compact c = Some c ∧ c ≠ [];
  Valid_Compact b : b ≠ [] → Valid b = true ↔ is_Some (Compact b);
  Valid_nil : Valid [] = false;
}.

(** JSON white space. *)
Definition isSpace (b : byte) : bool :=
  (byteZ b =? 32) || (byteZ b =? 9) || (byteZ b =? 10) || (byteZ b =? 13).

(** A second [Decode] at the end of the input fails with [io.EOF] exactly when only
    white space is left. *)
Definition atEOF (rest : list byte) : bool := forallb isSpace rest.

(** * Valid UTF-8 *)
Fixpoint validRunes (fuel : nat) (s : list byte) : bool :=
  match fuel, s with
  | S fuel, b :: rest =>
      let '(r, w) := decodeRune b rest in
      negb ((r =? RuneError) && Nat.eqb w 1) && validRunes fuel (drop w s)
  | _, _ => true
  end.

(** [utf8.ValidString]. *)
Definition ValidString (s : string) : bool := validRunes (length (bytes_of s)) (bytes_of s).

Lemma ValidString_ascii s :
  forallb (fun b => byteZ b <? 128) (bytes_of s) = true → ValidString s = true.
Proof.
  unfold ValidString. generalize (bytes_of s) as l. intros l. induction l as [|b l IH]; [done|].
  simpl. intros [Hb Hl]%andb_true_iff. apply Z.ltb_lt in Hb. rewrite decodeRune_ascii by done.
  simpl. rewrite drop_0, (IH Hl), andb_true_r. apply negb_true_iff, andb_false_iff. left.
  apply Z.eqb_neq. unfold RuneError. lia.
Qed.

(** * net/url and net/http *)

(** The parts of a parsed URL that the sources look at; [URL_User] says whether there is
    user information, [URL_String] is the result of [String]. *)
Record URL : Type := mkURL {
  URL_Scheme : string;
  URL_User : bool;
  URL_Host : string;
  URL_Hostname : string;
  URL_Port : string;
  URL_Path : string;
  URL_RawPath : string;
  URL_Opaque : string;
  URL_RawQuery : string;
  URL_ForceQuery : bool;
  URL_Fragment : string;
  URL_String : string
}.

(** An HTTP reply: the status and the body, or [None] if reading the body fails. *)
Record Reply : Type := mkReply {
  Reply_Status : Z;
  Reply_Body : option (list byte)
}.

(** What comes of sending a request: its URL is refused by [http.NewRequest], there is no
    reply, or there is one. *)
Inductive exchange : Type :=
| BadRequest
| NoReply
| Replied (reply : Reply).

(** [strings.TrimRight] of a slash. *)
Definition TrimRightSlash (s : string) : string :=
  string_of (rev (dropWhile (Byte.eqb x2f) (rev (bytes_of s)))).

(** [net.JoinHostPort]. *)
Definition JoinHostPort (host port : string) : string :=
  if ContainsAny host [x3a; x25] then "[" +:+ host +:+ "]:" +:+ port else host +:+ ":" +:+ port.

(** [url.PathEscape]: the characters a path segment keeps, and the others as a percent
    sign and two upper-case hexadecimal digits. *)
Definition keptInSegment (b : byte) : bool :=
  let z := byteZ b in
  (97 <=? z) && (z <=? 122) || (65 <=? z) && (z <=? 90) || (48 <=? z) && (z <=? 57)
  || (z =? 45) || (z =? 95) || (z =? 46) || (z =? 126)
  || (z =? 36) || (z =? 38) || (z =? 43) || (z =? 58) || (z =? 61) || (z =? 64).

Definition upperHexDigit (z : Z) : byte :=
  to_byte (if z <? 10 then 48 + z else 55 + z).

Definition escapeByte (b : byte) : list byte :=
  if keptInSegment b then [b]
  else [x25; upperHexDigit (byteZ b / 16); upperHexDigit (byteZ b mod 16)].

Definition PathEscape (s : string) : string := string_of (bytes_of s ≫= escapeByte).

(** A segment is read back from its escaped form, which has no slash. *)
Fixpoint unescape (b : list byte) : list byte :=
  match b with
  | x25 :: h :: l :: rest =>
      to_byte (default 0 (unhex h) * 16 + default 0 (unhex l)) :: unescape rest
  | c :: rest => c :: unescape rest
  | [] => []
  end.

Definition escapeByteOk (b : byte) : bool :=
  negb (existsb (Byte.eqb x2f) (escapeByte b))
  && match escapeByte b with
     | [c] => Byte.eqb c b && negb (Byte.eqb b x25)
     | [c; h; l] =>
         Byte.eqb c x25 && Byte.eqb (to_byte (default 0 (unhex h) * 16 + default 0 (unhex l))) b
     | _ => false
     end.

Lemma escapeByte_ok b : escapeByteOk b = true.
Proof. revert b. apply byte_forall. by vm_compute. Qed.

Lemma unescape_escapeByte b rest : unescape (escapeByte b ++ rest) = b :: unescape rest.
Proof.
  pose proof (escapeByte_ok b) as Hok. unfold escapeByteOk in Hok. apply andb_true_iff in Hok as [_ Hok].
  destruct (escapeByte b) as [|c [|h [|l [|]]]]; try done.
  - apply andb_true_iff in Hok as [Hc Hb]. apply Byte.byte_dec_bl in Hc as ->. simpl.
    by destruct b.
  - apply andb_true_iff in Hok as [Hc Hb]. apply Byte.byte_dec_bl in Hc as ->.
    apply Byte.byte_dec_bl in Hb. simpl. by rewrite Hb.
Qed.

Lemma unescape_PathEscape s : string_of (unescape (bytes_of (PathEscape s))) = s.
Proof.
  assert (Hl : ∀ l, unescape (l ≫= escapeByte) = l).
  { intros l. induction l as [|b l IH]; [done|]. csimpl. by rewrite unescape_escapeByte, IH. }
  unfold PathEscape. by rewrite bytes_of_string_of, Hl, string_of_bytes_of.
Qed.

Lemma PathEscape_inj s t : PathEscape s = PathEscape t → s = t.
Proof. intros H. by rewrite <- (unescape_PathEscape s), H, unescape_PathEscape. Qed.

Lemma PathEscape_no_slash s : x2f ∉ bytes_of (PathEscape s).
Proof.
  unfold PathEscape. rewrite bytes_of_string_of. intros (b & Hb & _)%list_elem_of_bind.
  pose proof (escapeByte_ok b) as Hok. unfold escapeByteOk in Hok. apply andb_true_iff in Hok as [Hok _].
  rewrite negb_existsb, forallb_forall in Hok. apply list_elem_of_In, Hok in Hb. done.
Qed.

(** * Instances *)

(** A signature scheme with the laws above: the signature of a message is the hash of
    the public key and the message, twice. *)
#[local] Instance hashScheme : Ed25519 := {
  NewKeyFromSeed seed := seed ++ seed;
  Sign key m := let h := Sum256 (Public key ++ m) in h ++ h;
  Verify pub m s := let h := Sum256 (pub ++ m) in bool_decide (s = h ++ h);
}.

Lemma hashScheme_laws : Ed25519Laws.
Proof.
  split; simpl; intros; unfold len, SeedSize, PrivateKeySize, SignatureSize in *.
  - rewrite length_app. lia.
  - rewrite take_app_le by lia. apply take_ge. lia.
  - rewrite length_app, !length_Sum256. done.
  - by apply bool_decide_eq_true.
Qed.

(** A type whose values are tables of strings has a textual code with the laws of [Json]:
    every character after a marker, the ends of strings and of rows as marks. *)
Class Fields (A : Type) : Type := {
  toFields : A → list (list string);
  ofFields : list (list string) → option A;
  ofFields_toFields v : ofFields (toFields v) = Some v;
}.

Fixpoint markString (s : list byte) : list byte :=
  match s with [] => [x00] | c :: s => x01 :: c :: markString s end.

Definition markRow (row : list string) : list byte := (row ≫= markString ∘ bytes_of) ++ [x02].
Definition markTable (t : list (list string)) : list byte := t ≫= markRow.

Fixpoint unmark (b str : list byte) (row : list string) (t : list (list string))
    : option (list (list string)) :=
  match b with
  | [] => Some (rev t)
  | x00 :: b => unmark b [] (string_of (rev str) :: row) t
  | x01 :: c :: b => unmark b (c :: str) row t
  | x02 :: b => unmark b [] [] (rev row :: t)
  | _ => None
  end.

Lemma unmark_string s b str row t :
  unmark (markString s ++ b) str row t = unmark b [] (string_of (rev str ++ s) :: row) t.
Proof.
  revert str. induction s as [|c s IH]; intros str; simpl; [by rewrite app_nil_r|].
  rewrite IH. simpl. by rewrite <- app_assoc.
Qed.

Lemma unmark_row r b row t :
  unmark (markRow r ++ b) [] row t = unmark b [] [] ((rev row ++ r) :: t).
Proof.
  unfold markRow. rewrite <- app_assoc. revert row. induction r as [|s r IH]; intros row; csimpl.
  - by rewrite app_nil_r.
  - rewrite <- app_assoc, unmark_string. simpl. rewrite string_of_bytes_of, IH. simpl.
    by rewrite <- app_assoc.
Qed.

Lemma unmark_table l t : unmark (markTable l) [] [] t = Some (rev t ++ l).
Proof.
  unfold markTable. revert t. induction l as [|r l IH]; intros t; csimpl; [by rewrite app_nil_r|].
  rewrite unmark_row, IH. simpl. by rewrite <- app_assoc.
Qed.

Definition fieldsJson (A : Type) `{Fields A} : Json A := {|
  Marshal v := Some (markTable (toFields v));
  Decode raw := t ← unmark raw [] [] []; v ← ofFields t; Some (v, []);
|}.

Lemma fieldsJson_laws (A : Type) `{Fields A} (clean : A → Prop) :
  @JsonLaws A (fieldsJson A) clean.
Proof.
  split; simpl; [by eexists|]. intros v raw _ [= <-].
  rewrite unmark_table. simpl. by rewrite ofFields_toFields.
Qed.

Definition fieldsUnmarshal (A : Type) `{Fields A} : JsonUnmarshal A := {|
  Unmarshal raw := match raw with [] => None | _ => t ← unmark raw [] [] []; ofFields t end;
|}.

Lemma markTable_nonempty t : t ≠ [] → markTable t ≠ [].
Proof.
  destruct t as [|[|s r] t]; csimpl; [done| |]; unfold markTable, markRow; csimpl; [done|].
  by destruct (bytes_of s).
Qed.

Lemma fieldsUnmarshal_laws (A : Type) `{Fields A} (clean : A → Prop) :
  (∀ v : A, toFields v ≠ []) →
  @JsonUnmarshalLaws A (fieldsJson A) (fieldsUnmarshal A) clean.
Proof.
  intros Hne. split; simpl; [|done]. intros v raw _ [= <-].
  pose proof (markTable_nonempty _ (Hne v)) as Hm.
  destruct (markTable (toFields v)) as [|c b] eqn:Hb; [done|]. rewrite <- Hb, unmark_table.
  apply ofFields_toFields.
Qed.

(** Numbers as strings. *)
Fixpoint bits (p : positive) : list byte :=
  match p with
  | xH => []
  | xO p => x30 :: bits p
  | xI p => x31 :: bits p
  end.

Fixpoint unbits (b : list byte) : positive :=
  match b with
  | [] => xH
  | c :: b => if Byte.eqb c x30 then xO (unbits b) else xI (unbits b)
  end.

Lemma unbits_bits p : unbits (bits p) = p.
Proof. induction p as [p IH|p IH|]; simpl; [by rewrite IH..|done]. Qed.

Definition ofZ (z : Z) : string := string_of (bits (encode z)).
Definition toZ (s : string) : option Z := decode (unbits (bytes_of s)).

Lemma toZ_ofZ z : toZ (ofZ z) = Some z.
Proof. unfold toZ, ofZ. by rewrite bytes_of_string_of, unbits_bits, decode_encode. Qed.

#[global] Opaque ofZ toZ.

(** Raw messages that are accepted as they are. *)
#[local] Instance plainRaw : RawJson := {
  Compact b := match b with [] => Some (bytes_of "null") | _ => Some b end;
  Valid b := match b with [] => false | _ => true end;
}.

Lemma plainRaw_laws : RawJsonLaws.
Proof.
  split; [done|..|done].
  - intros [|x b] c; simpl; intros [= <-]; done.
  - by intros [|x b].
Qed.
