(* ===== verification/Protocol.v ===== *)
(** The signed function protocol: [bridge/protocol.go].

    Identifiers and digests, the manifest digest, and the four kinds of signed message
    with their signing and verifying operations. [json.Marshal], [Decoder.Decode] and
    the signature scheme come from the interfaces. *)
From stdpp Require Import countable.
From S2P Require Import Prelude GoStd Sha256 Interfaces.

(** * Constants and errors *)
Definition ProtocolVersion : Z := 1.
Definition MaximumInputBytes : Z := Z.shiftl 4 20.
Definition MaximumBodyBytes : Z := Z.shiftl 16 20.

Definition newlineString : string := string_of [x0a].
Definition authorizationPurpose : string := "lotor-function-authorization-v1" +:+ newlineString.
Definition resultPurpose : string := "lotor-function-result-v1" +:+ newlineString.
Definition validationPurpose : string := "lotor-function-validation-v1" +:+ newlineString.
Definition resourceAccessPurpose : string :=
  "lotor-function-resource-access-v1" +:+ newlineString.

Inductive bridge_error : Type :=
| ErrInvalid
| ErrUnauthorized
| ErrUnavailable
| ErrNotFound
| ErrConflict
| ErrInProgress
| ErrOutcomeUnknown
| ErrOther.

#[global] Instance bridge_error_eq_dec : EqDecision bridge_error.
Proof. solve_decision. Defined.

(** * Data *)
Record Scope : Type := mkScope {
  Scope_TenantID : string;
  Scope_ApplicationID : string;
  Scope_EnvironmentID : string;
  Scope_OwnerResource : string
}.

Record Function : Type := mkFunction {
  Function_Name : string;
  Function_Version : string;
  Function_InputSchemaDigest : string;
  Function_OutputSchemaDigest : string
}.

Record Manifest : Type := mkManifest {
  Manifest_Functions : list Function;
  Manifest_ProtocolVersion : Z
}.

Record SignedMessage : Type := mkSignedMessage {
  KeyID : string;
  Payload : string;
  Signature : string
}.

Record ValidationRequest : Type := mkValidationRequest {
  Validation_Authorization : SignedMessage
}.

Record ResourceAccessRequest : Type := mkResourceAccessRequest {
  Access_Authorization : SignedMessage;
  Access_Resource : string;
  Access_Slot : string;
  Access_PayloadVersion : Z;
  Access_UseCustody : bool
}.

Record Authorization : Type := mkAuthorization {
  Auth_Function : option Function;
  Auth_Scope : Scope;
  Auth_Kind : string;
  Auth_Issuer : string;
  Auth_Audience : string;
  Auth_BindingID : string;
  Auth_PolicyDigest : string;
  Auth_ManifestDigest : string;
  Auth_InputDigest : string;
  Auth_ID : string;
  Auth_Nonce : string;
  Auth_Principal : string;
  Auth_Resources : list string;
  Auth_Capabilities : list string;
  Auth_Input : list byte;
  Auth_ExpiresAt : Z;
  Auth_IssuedAt : Z;
  Auth_ProtocolVersion : Z;
  Auth_BindingRevision : Z
}.

Record Result : Type := mkResult {
  Result_ID : string;
  Result_BindingID : string;
  Result_ManifestDigest : string;
  Result_AuthorizationDigest : string;
  Result_Kind : string;
  Result_Nonce : string;
  Result_ErrorCode : string;
  Result_Output : list byte;
  Result_ProtocolVersion : Z;
  Result_BindingRevision : Z;
  Result_CompletedAt : Z
}.

#[global] Instance Scope_eq_dec : EqDecision Scope.
Proof. solve_decision. Defined.
#[global] Instance Function_eq_dec : EqDecision Function.
Proof. solve_decision. Defined.
#[global] Instance SignedMessage_eq_dec : EqDecision SignedMessage.
Proof. solve_decision. Defined.
#[global] Instance Authorization_eq_dec : EqDecision Authorization.
Proof. solve_decision. Defined.
#[global] Instance Result_eq_dec : EqDecision Result.
Proof. solve_decision. Defined.
#[global] Instance Function_countable : Countable Function.
Proof.
  apply (inj_countable'
    (fun f => (f.(Function_Name), f.(Function_Version), f.(Function_InputSchemaDigest),
      f.(Function_OutputSchemaDigest)))
    (fun '(a, b, c, d) => mkFunction a b c d)).
  by intros [].
Defined.

(** * Predicates on strings *)

(** [identifier]: one to [maximum] visible ASCII characters. The loop ranges over the
    runes of the string. *)
Definition identifier (value : string) (maximum : Z) : bool :=
  if (slen value <? 1) || (maximum <? slen value) then false
  else forallb (fun c => negb ((c <=? 32) || (127 <=? c))) (runes value).

(** [isDigest]: 64 lower-case hexadecimal characters. *)
Definition isDigest (value : string) : bool :=
  if negb (slen value =? 64) then false
  else forallb (fun c => (97 <=? c) && (c <=? 102) || (48 <=? c) && (c <=? 57)) (runes value).

(** * The manifest digest *)

(** The order that the comparison of [sort.Slice] sorts by: names first, then versions. *)
Definition functionLe (a b : Function) : Prop :=
  if decide (a.(Function_Name) = b.(Function_Name))
  then String.le a.(Function_Version) b.(Function_Version)
  else String.le a.(Function_Name) b.(Function_Name).

#[global] Instance functionLe_dec : RelDecision functionLe.
Proof. intros a b. unfold functionLe. case_decide; apply _. Defined.

Definition validFunction (function : Function) : bool :=
  identifier function.(Function_Name) 128 && identifier function.(Function_Version) 128
  && isDigest function.(Function_InputSchemaDigest)
  && isDigest function.(Function_OutputSchemaDigest).

(** The loop over the sorted functions; [prev] is [manifest.Functions[i-1]]. *)
Fixpoint checkFunctions (prev : option Function) (functions : list Function) : bool :=
  match functions with
  | [] => true
  | function :: rest =>
      if negb (validFunction function) then false
      else if match prev with
              | Some p => bool_decide (function.(Function_Name) = p.(Function_Name)
                                       ∧ function.(Function_Version) = p.(Function_Version))
              | None => false
              end then false
      else checkFunctions (Some function) rest
  end.

Section Signing.
Context `{!Ed25519} `{!RawJson} `{!Json (list Function)} `{!Json Authorization} `{!Json Result}
  `{!Json ValidationRequest} `{!Json ResourceAccessRequest}.

(** The fixed start of the hashed bytes: an object with the field [protocol_version]
    (the value is [strconv.Itoa(ProtocolVersion)]), then the key [functions]. *)
Definition manifestPrefix : list byte :=
  x7b :: x22 :: bytes_of "protocol_version" ++ x22 :: bytes_of ":1," ++
  x22 :: bytes_of "functions" ++ [x22; x3a].

(** [ManifestDigest] after the copy of the functions has been sorted. *)
Definition manifestDigestSorted (functions : list Function) : outcome bridge_error string :=
  if negb (checkFunctions None functions) then Throw ErrInvalid
  else match Marshal functions with
       | None => Throw ErrInvalid
       | Some raw =>
           Ret (Digest (manifestPrefix ++ raw ++ [x7d]))
       end.

Definition ManifestDigest (manifest : Manifest) : outcome bridge_error string :=
  if negb (manifest.(Manifest_ProtocolVersion) =? ProtocolVersion)
     || (len manifest.(Manifest_Functions) <? 1) || (64 <? len manifest.(Manifest_Functions))
  then Throw ErrInvalid
  else manifestDigestSorted (merge_sort functionLe manifest.(Manifest_Functions)).

(** * Signing and verifying *)
Definition sign {A} `{!Json A} (value : A) (purpose keyID : string) (key : list byte)
    : outcome bridge_error SignedMessage :=
  if negb (identifier keyID 256) || negb (len key =? PrivateKeySize) then Throw ErrInvalid
  else match Marshal value with
       | None => Throw ErrInvalid
       | Some raw =>
           if MaximumBodyBytes / 2 <? len raw then Throw ErrInvalid
           else
             let signature := Sign key (bytes_of purpose ++ raw) in
             Ret (mkSignedMessage keyID (string_of (rawURLEncode raw))
                    (string_of (rawURLEncode signature)))
       end.

Definition verify (message : SignedMessage) (purpose : string) (key : list byte)
    : outcome bridge_error (list byte) :=
  if negb (identifier message.(KeyID) 256) || negb (len key =? PublicKeySize)
     || negb (slen message.(Signature) =? EncodedLen SignatureSize)
     || (EncodedLen (MaximumBodyBytes / 2) <? slen message.(Payload))
  then Throw ErrUnauthorized
  else match rawURLDecode true (bytes_of message.(Payload)) with
       | None => Throw ErrUnauthorized
       | Some raw =>
           match rawURLDecode true (bytes_of message.(Signature)) with
           | None => Throw ErrUnauthorized
           | Some signature =>
               if negb (len signature =? SignatureSize)
                  || negb (Verify key (bytes_of purpose ++ raw) signature)
               then Throw ErrUnauthorized
               else Ret raw
           end
       end.

Definition strictJSON {A} `{!Json A} (raw : list byte) : outcome bridge_error A :=
  match Decode raw with
  | None => Throw ErrInvalid
  | Some (value, rest) => if atEOF rest then Ret value else Throw ErrInvalid
  end.

(** The three verifiers that only decode: every failure is [ErrUnauthorized]. *)
Definition verifyInto {A} `{!Json A} (message : SignedMessage) (purpose : string)
    (key : list byte) : outcome bridge_error (A * list byte) :=
  match verify message purpose key with
  | Ret raw =>
      match strictJSON raw with
      | Ret value => Ret (value, raw)
      | _ => Throw ErrUnauthorized
      end
  | _ => Throw ErrUnauthorized
  end.

Definition SignResourceAccess (value : ResourceAccessRequest) (keyID : string) (key : list byte) :=
  sign value resourceAccessPurpose keyID key.

Definition VerifyResourceAccess (message : SignedMessage) (key : list byte)
    : outcome bridge_error ResourceAccessRequest :=
  r ← verifyInto message resourceAccessPurpose key; Ret r.1.

Definition SignValidation (value : ValidationRequest) (keyID : string) (key : list byte) :=
  sign value validationPurpose keyID key.

Definition VerifyValidation (message : SignedMessage) (key : list byte)
    : outcome bridge_error ValidationRequest :=
  r ← verifyInto message validationPurpose key; Ret r.1.

Definition withInput (value : Authorization) (input : list byte) (digest : string)
    : Authorization :=
  mkAuthorization value.(Auth_Function) value.(Auth_Scope) value.(Auth_Kind)
    value.(Auth_Issuer) value.(Auth_Audience) value.(Auth_BindingID) value.(Auth_PolicyDigest)
    value.(Auth_ManifestDigest) digest value.(Auth_ID) value.(Auth_Nonce)
    value.(Auth_Principal) value.(Auth_Resources) value.(Auth_Capabilities) input
    value.(Auth_ExpiresAt) value.(Auth_IssuedAt) value.(Auth_ProtocolVersion)
    value.(Auth_BindingRevision).

Definition SignAuthorization (value : Authorization) (keyID : string) (key : list byte)
    : outcome bridge_error SignedMessage :=
  if negb (len value.(Auth_Input) =? 0) then
    if (MaximumInputBytes <? len value.(Auth_Input))
       || negb (bool_decide (value.(Auth_InputDigest) = Digest value.(Auth_Input)))
    then Throw ErrInvalid
    else match Compact value.(Auth_Input) with
         | None => Throw ErrInvalid
         | Some compact =>
             if MaximumInputBytes <? len compact then Throw ErrInvalid
             else sign (withInput value compact (Digest compact)) authorizationPurpose keyID key
         end
  else sign value authorizationPurpose keyID key.

Definition VerifyAuthorization (message : SignedMessage) (key : list byte)
    : outcome bridge_error (Authorization * list byte) :=
  verifyInto message authorizationPurpose key.

Definition withOutput (value : Result) (output : list byte) : Result :=
  mkResult value.(Result_ID) value.(Result_BindingID) value.(Result_ManifestDigest)
    value.(Result_AuthorizationDigest) value.(Result_Kind) value.(Result_Nonce)
    value.(Result_ErrorCode) output value.(Result_ProtocolVersion)
    value.(Result_BindingRevision) value.(Result_CompletedAt).

Definition SignResult (value : Result) (keyID : string) (key : list byte)
    : outcome bridge_error SignedMessage :=
  if MaximumInputBytes <? len value.(Result_Output) then Throw ErrInvalid
  else if negb (len value.(Result_Output) =? 0) then
    match Compact value.(Result_Output) with
    | None => Throw ErrInvalid
    | Some canonical =>
        if MaximumInputBytes <? len canonical then Throw ErrInvalid
        else sign (withOutput value canonical) resultPurpose keyID key
    end
  else sign value resultPurpose keyID key.

Definition VerifyResult (message : SignedMessage) (key : list byte)
    (authorization : Authorization) (rawAuthorization : list byte)
    : outcome bridge_error Result :=
  match verifyInto message resultPurpose key with
  | Ret (value, _) =>
      if MaximumInputBytes <? len value.(Result_Output) then Throw ErrUnauthorized
      else if negb (value.(Result_ProtocolVersion) =? ProtocolVersion)
        || negb (bool_decide (value.(Result_ID) = authorization.(Auth_ID)))
        || negb (bool_decide (value.(Result_Kind) = authorization.(Auth_Kind)))
        || negb (bool_decide (value.(Result_BindingID) = authorization.(Auth_BindingID)))
        || negb (value.(Result_BindingRevision) =? authorization.(Auth_BindingRevision))
        || negb (bool_decide (value.(Result_ManifestDigest) = authorization.(Auth_ManifestDigest)))
        || negb (bool_decide (value.(Result_AuthorizationDigest) = Digest rawAuthorization))
        || negb (bool_decide (value.(Result_Nonce) = authorization.(Auth_Nonce)))
      then Throw ErrUnauthorized
      else Ret value
  | _ => Throw ErrUnauthorized
  end.
End Signing.

(** * Lemmas: identifiers and digests *)
Definition visible (b : byte) : bool := (33 <=? byteZ b) && (byteZ b <=? 126).

Lemma identifier_bytes value maximum :
  identifier value maximum = true ↔
  1 <= slen value <= maximum ∧ forallb visible (bytes_of value) = true.
Proof.
  unfold identifier.
  rewrite (runes_forallb (fun c => negb ((c <=? 32) || (127 <=? c)))).
  2:{ intros z Hz. breflect. lia. }
  replace (forallb _ (bytes_of value)) with (forallb visible (bytes_of value)).
  2:{ apply forallb_ext. intros b. unfold visible. destruct (Z.leb_spec 33 (byteZ b)),
        (Z.leb_spec (byteZ b) 126), (Z.leb_spec (byteZ b) 32), (Z.leb_spec 127 (byteZ b));
        simpl; done || lia. }
  destruct (Z.ltb_spec (slen value) 1), (Z.ltb_spec maximum (slen value)); simpl;
    split; try done; try (intros [? _]; lia); naive_solver.
Qed.

Lemma isDigest_bytes value :
  isDigest value = true ↔
  slen value = 64 ∧ forallb (fun c => lowerHex (byteZ c)) (bytes_of value) = true.
Proof.
  unfold isDigest.
  rewrite (runes_forallb (fun c => (97 <=? c) && (c <=? 102) || (48 <=? c) && (c <=? 57))).
  2:{ intros z [Hz|Hz]%orb_true_iff; breflect; lia. }
  destruct (Z.eqb_spec (slen value) 64); simpl; [|naive_solver]. unfold lowerHex. naive_solver.
Qed.

(** The test of other packages for a digest, a round trip through [encoding/hex], agrees
    with [isDigest]. *)
Lemma isDigest_hexDecode value :
  isDigest value = match hexDecode (bytes_of value) with
                   | Some decoded => (len decoded =? 32) && bool_decide (EncodeToString decoded = value)
                   | None => false
                   end.
Proof.
  apply eq_true_iff_eq. rewrite isDigest_bytes. unfold slen. split.
  - intros (Hlen & Hhex).
    destruct (hexEncode_hexDecode (bytes_of value)) as (b & -> & Hb); [|done|].
    { exists 32%nat. unfold len in Hlen. lia. }
    apply andb_true_iff. split.
    + apply Z.eqb_eq. pose proof (length_hexEncode b) as Hl. rewrite Hb in Hl. unfold len in *. lia.
    + apply bool_decide_eq_true. unfold EncodeToString. by rewrite Hb, string_of_bytes_of.
  - destruct (hexDecode (bytes_of value)) as [b|]; [|done]. intros H. breflect.
    subst value. unfold EncodeToString. rewrite bytes_of_string_of.
    split; [|apply hexEncode_lower]. unfold len in *. rewrite length_hexEncode. lia.
Qed.

(** The test of other packages for an identifier, with [strings.IndexFunc]. *)
Lemma identifier_existsb value maximum :
  identifier value maximum =
  negb (bool_decide (value = "")) && (slen value <=? maximum)
  && negb (existsb (fun c => (c <=? 32) || (127 <=? c)) (runes value)).
Proof.
  unfold identifier. rewrite negb_existsb.
  assert (0 <= slen value) by (unfold slen, len; lia).
  case_bool_decide as He; rewrite slen_empty in He;
    destruct (Z.ltb_spec (slen value) 1), (Z.leb_spec (slen value) maximum),
      (Z.ltb_spec maximum (slen value)); simpl; done || lia.
Qed.

Lemma isDigest_Digest b : isDigest (Digest b) = true.
Proof.
  apply isDigest_bytes. destruct (Digest_bytes b) as [Hl Hh]. unfold slen, len. by rewrite Hl.
Qed.

Lemma identifier_ValidString value maximum :
  identifier value maximum = true → ValidString value = true.
Proof.
  intros [_ H]%identifier_bytes. apply ValidString_ascii. rewrite forallb_forall in *.
  intros b Hb. specialize (H b Hb). unfold visible in H. breflect. apply Z.ltb_lt. lia.
Qed.

Lemma isDigest_identifier value : isDigest value = true → identifier value 256 = true.
Proof.
  rewrite isDigest_bytes, identifier_bytes. intros [Hl H]. split; [lia|].
  rewrite forallb_forall in *. intros b Hb. specialize (H b Hb). unfold lowerHex, visible in *.
  apply andb_true_iff. rewrite !Z.leb_le. apply orb_true_iff in H as [H|H]; breflect; lia.
Qed.

(** * Lemmas: signing and verifying *)
Lemma EncodedLen_mono a b : 0 <= a <= b → EncodedLen a <= EncodedLen b.
Proof. unfold EncodedLen. intros H. Z.to_euclidean_division_equations. lia. Qed.

Section SigningLemmas.
Context `{!Ed25519} `{!Ed25519Laws}.

Lemma sign_Ret {A} `{!Json A} (value : A) purpose keyID key message :
  sign value purpose keyID key = Ret message ↔
  identifier keyID 256 = true ∧ len key = PrivateKeySize ∧
  ∃ raw, Marshal value = Some raw ∧ len raw <= MaximumBodyBytes / 2 ∧
    message = mkSignedMessage keyID (string_of (rawURLEncode raw))
      (string_of (rawURLEncode (Sign key (bytes_of purpose ++ raw)))).
Proof.
  unfold sign. destruct (identifier keyID 256), (Z.eqb_spec (len key) PrivateKeySize); simpl;
    try naive_solver.
  destruct (Marshal value) as [raw|]; [|naive_solver].
  destruct (Z.ltb_spec (MaximumBodyBytes / 2) (len raw)); [|naive_solver].
  split; [done|]. intros (_ & _ & raw' & [= ->] & Hl & _). lia.
Qed.

(** What [verify] accepts, as a specification. *)
Lemma verify_Ret message purpose key raw :
  verify message purpose key = Ret raw →
  rawURLDecode true (bytes_of message.(Payload)) = Some raw ∧
  ∃ signature, rawURLDecode true (bytes_of message.(Signature)) = Some signature ∧
    len signature = SignatureSize ∧ Verify key (bytes_of purpose ++ raw) signature = true.
Proof.
  unfold verify. destruct (_ || _ || _ || _); [done|].
  destruct (rawURLDecode true (bytes_of (Payload message))) as [r|]; [|done].
  destruct (rawURLDecode true (bytes_of (Signature message))) as [signature|]; [|done].
  destruct (negb (len signature =? SignatureSize) || _) eqn:Hbad; [done|]. intros [= ->].
  breflect. naive_solver.
Qed.

Lemma verify_sign {A} `{!Json A} (value : A) purpose keyID seed message :
  len seed = SeedSize → sign value purpose keyID (NewKeyFromSeed seed) = Ret message →
  ∃ raw, Marshal value = Some raw ∧
    verify message purpose (Public (NewKeyFromSeed seed)) = Ret raw.
Proof.
  intros Hseed (Hid & Hkey & raw & Hraw & Hlen & ->)%sign_Ret. exists raw. split; [done|].
  pose proof (Sign_length _ (bytes_of purpose ++ raw) Hkey) as Hsig.
  unfold verify, slen. simpl. rewrite !bytes_of_string_of, !length_rawURLEncode, Hid, Hsig.
  rewrite Public_length by done. rewrite !Z.eqb_refl. simpl.
  destruct (Z.ltb_spec (EncodedLen (MaximumBodyBytes / 2)) (EncodedLen (len raw))) as [Hlong|_].
  { pose proof (EncodedLen_mono (len raw) (MaximumBodyBytes / 2)) as Hm.
    unfold len in *. lia. }
  rewrite !rawURL_roundtrip, Hsig, Z.eqb_refl, Verify_Sign by done. done.
Qed.

Lemma strictJSON_Marshal {A} `{!Json A} (clean : A → Prop) `{!JsonLaws A clean} value raw :
  clean value → Marshal value = Some raw → strictJSON raw = Ret value.
Proof. intros Hc Hm. unfold strictJSON. by rewrite (Decode_Marshal _ _ Hc Hm). Qed.

Lemma verifyInto_sign {A} `{!Json A} (clean : A → Prop) `{!JsonLaws A clean} value purpose keyID
    seed message :
  len seed = SeedSize → clean value →
  sign value purpose keyID (NewKeyFromSeed seed) = Ret message →
  ∃ raw, Marshal value = Some raw ∧
    verifyInto message purpose (Public (NewKeyFromSeed seed)) = Ret (value, raw).
Proof.
  intros Hseed Hc Hs. destruct (verify_sign _ _ _ _ _ Hseed Hs) as (raw & Hm & Hv).
  exists raw. split; [done|]. unfold verifyInto. rewrite Hv.
  by rewrite (strictJSON_Marshal clean value raw Hc Hm).
Qed.

End SigningLemmas.

(** * Lemmas: the order of functions *)
Definition functionKey (f : Function) : string * string :=
  (f.(Function_Name), f.(Function_Version)).

#[global] Instance functionLe_transitive : Transitive functionLe.
Proof.
  intros a b c. unfold functionLe. repeat case_decide; intros Hab Hbc; try congruence.
  - by transitivity (Function_Version b).
  - assert (Function_Name a = Function_Name b); [|done].
    apply (anti_symm String.le); [done|]. congruence.
  - by transitivity (Function_Name b).
Qed.

#[global] Instance functionLe_total : Total functionLe.
Proof.
  intros a b. unfold functionLe. repeat case_decide; try congruence; apply (total String.le).
Qed.

Lemma functionLe_antisym a b : functionLe a b → functionLe b a → functionKey a = functionKey b.
Proof.
  unfold functionLe, functionKey. repeat case_decide; intros Hab Hba; try congruence.
  - f_equal; [done|]. by apply (anti_symm String.le).
  - assert (Function_Name a = Function_Name b); [|done]. by apply (anti_symm String.le).
Qed.

(** Between two functions with the same key, a sorted list has only that key. *)
Lemma functionLe_between a b c :
  functionLe a b → functionLe b c → functionKey a = functionKey c →
  functionKey a = functionKey b.
Proof.
  intros Hab Hbc Hk. apply functionLe_antisym; [done|].
  assert (functionLe c a).
  { unfold functionLe. injection Hk as -> ->. rewrite decide_True by done. done. }
  by transitivity c.
Qed.

(** On a sorted list the comparison of neighbours finds every repeated name and
    version. *)
Lemma checkFunctions_sorted prev l :
  StronglySorted functionLe (option_list prev ++ l) →
  checkFunctions prev l = true ↔
  Forall (fun f => validFunction f = true) l ∧
  (∀ p, prev = Some p → functionKey p ∉ (functionKey <$> l)) ∧ NoDup (functionKey <$> l).
Proof.
  revert prev. induction l as [|f l IH]; intros prev Hs.
  { simpl. split; [|done]. intros _. split; [constructor|]. split; [|constructor].
    intros p _. apply not_elem_of_nil. }
  assert (Hl : StronglySorted functionLe (f :: l)).
  { destruct prev; simpl in Hs; [|done]. by apply StronglySorted_inv in Hs as [? _]. }
  csimpl. rewrite Forall_cons, NoDup_cons. destruct (validFunction f) eqn:Hv; simpl;
    [|naive_solver].
  assert (Hnext : checkFunctions (Some f) l = true ↔
    Forall (fun f => validFunction f = true) l ∧ (functionKey f ∉ (functionKey <$> l))
    ∧ NoDup (functionKey <$> l)).
  { rewrite (IH (Some f) Hl). naive_solver. }
  destruct prev as [p|]; [|naive_solver].
  case_bool_decide as Hd.
  { split; [done|]. intros (_ & Hp & _). destruct (Hp p eq_refl). destruct Hd as [Hn Hv'].
    unfold functionKey at 1. rewrite <- Hn, <- Hv'. left. }
  rewrite Hnext. split; [|naive_solver]. intros (Hvl & Hf & Hnd). split; [done|].
  split; [|done]. intros ? [= <-].
  assert (Hpf : functionKey p ≠ functionKey f) by (unfold functionKey; intros [=]; naive_solver).
  apply not_elem_of_cons. split; [done|]. intros (g & Hg & Hin)%list_elem_of_fmap.
  apply Hpf, (functionLe_between p f g); [..|done].
  - apply StronglySorted_inv in Hs as [_ Hs]. rewrite Forall_forall in Hs. apply Hs. left.
  - apply StronglySorted_inv in Hl as [_ Hl]. rewrite Forall_forall in Hl. by apply Hl.
Qed.

Lemma checkFunctions_None l :
  Sorted functionLe l →
  checkFunctions None l = true ↔
  Forall (fun f => validFunction f = true) l ∧ NoDup (functionKey <$> l).
Proof.
  intros Hs. rewrite checkFunctions_sorted; [naive_solver|]. simpl.
  by apply Sorted_StronglySorted; [apply _|].
Qed.

(** Two sorted arrangements of the same functions pass the checks together, and are
    then the same list. *)
Lemma checkFunctions_canonical l1 l2 :
  Sorted functionLe l1 → Sorted functionLe l2 → l1 ≡ₚ l2 →
  checkFunctions None l1 = checkFunctions None l2
  ∧ (checkFunctions None l1 = true → l1 = l2).
Proof.
  intros Hs1 Hs2 Hp. split.
  - apply eq_true_iff_eq. rewrite !checkFunctions_None by done. by rewrite Hp.
  - intros [_ Hnd]%checkFunctions_None; [|done].
    apply (StronglySorted_unique_strong functionLe); [|by apply Sorted_StronglySorted; [apply _|]..|done].
    intros f g Hf Hg Hfg Hgf. rewrite <- Hp in Hg.
    apply (functionLe_antisym _ _ Hfg) in Hgf.
    apply list_elem_of_lookup in Hf as [i Hi]. apply list_elem_of_lookup in Hg as [j Hj].
    assert (i = j); [|naive_solver].
    apply (NoDup_lookup _ i j (functionKey f) Hnd); rewrite list_lookup_fmap;
      [by rewrite Hi|by rewrite Hj, Hgf].
Qed.

(** * Values that JSON carries unchanged *)
Definition cleanString (s : string) : Prop := ValidString s = true.

Definition cleanFunction (f : Function) : Prop :=
  cleanString f.(Function_Name) ∧ cleanString f.(Function_Version)
  ∧ cleanString f.(Function_InputSchemaDigest) ∧ cleanString f.(Function_OutputSchemaDigest).

Definition cleanScope (s : Scope) : Prop :=
  cleanString s.(Scope_TenantID) ∧ cleanString s.(Scope_ApplicationID)
  ∧ cleanString s.(Scope_EnvironmentID) ∧ cleanString s.(Scope_OwnerResource).

Definition cleanMessage (m : SignedMessage) : Prop :=
  cleanString m.(KeyID) ∧ cleanString m.(Payload) ∧ cleanString m.(Signature).

Definition cleanValidation (v : ValidationRequest) : Prop :=
  cleanMessage v.(Validation_Authorization).

Definition cleanAccess (v : ResourceAccessRequest) : Prop :=
  cleanMessage v.(Access_Authorization) ∧ cleanString v.(Access_Resource)
  ∧ cleanString v.(Access_Slot) ∧ is_i64 v.(Access_PayloadVersion).

(** The fields of an authorization other than its input. *)
Definition cleanGrant (a : Authorization) : Prop :=
  (∀ f, a.(Auth_Function) = Some f → cleanFunction f) ∧ cleanScope a.(Auth_Scope)
  ∧ Forall cleanString [a.(Auth_Kind); a.(Auth_Issuer); a.(Auth_Audience); a.(Auth_BindingID);
      a.(Auth_PolicyDigest); a.(Auth_ManifestDigest); a.(Auth_ID); a.(Auth_Nonce);
      a.(Auth_Principal)]
  ∧ Forall cleanString a.(Auth_Resources) ∧ Forall cleanString a.(Auth_Capabilities)
  ∧ Forall is_i64 [a.(Auth_ExpiresAt); a.(Auth_IssuedAt); a.(Auth_ProtocolVersion);
      a.(Auth_BindingRevision)].

(** Raw JSON that is absent or already compact. *)
Definition cleanRaw `{!RawJson} (raw : list byte) : Prop := raw = [] ∨ Compact raw = Some raw.

Definition cleanAuthorization `{!RawJson} (a : Authorization) : Prop :=
  cleanGrant a ∧ cleanString a.(Auth_InputDigest) ∧ cleanRaw a.(Auth_Input).

(** The fields of a result other than its output. *)
Definition cleanOutcome (r : Result) : Prop :=
  Forall cleanString [r.(Result_ID); r.(Result_BindingID); r.(Result_ManifestDigest);
    r.(Result_AuthorizationDigest); r.(Result_Kind); r.(Result_Nonce); r.(Result_ErrorCode)]
  ∧ Forall is_i64 [r.(Result_ProtocolVersion); r.(Result_BindingRevision);
      r.(Result_CompletedAt)].

Definition cleanResult `{!RawJson} (r : Result) : Prop :=
  cleanOutcome r ∧ cleanRaw r.(Result_Output).

Lemma cleanString_Digest b : cleanString (Digest b).
Proof. exact (identifier_ValidString _ _ (isDigest_identifier _ (isDigest_Digest b))). Qed.

#[export] Hint Resolve cleanString_Digest : lotor.

Lemma validFunction_clean f : validFunction f = true → cleanFunction f.
Proof.
  unfold validFunction. intros H. breflect.
  repeat split; unfold cleanString; eauto using identifier_ValidString, isDigest_identifier.
Qed.

(** * Lemmas: purposes *)
Definition purposes : list string :=
  [authorizationPurpose; resultPurpose; validationPurpose; resourceAccessPurpose].

Lemma purposes_prefix_free p q r s :
  p ∈ purposes → q ∈ purposes → bytes_of p ++ r = bytes_of q ++ s → p = q ∧ r = s.
Proof.
  unfold purposes. intros Hp Hq H.
  repeat (apply elem_of_cons in Hp as [->|Hp]; [|]); [..|by apply not_elem_of_nil in Hp];
  repeat (apply elem_of_cons in Hq as [->|Hq]; [|]); try (by apply not_elem_of_nil in Hq);
  first [discriminate H|split; [done|by simplify_list_eq]].
Qed.

Lemma SignResult_Ret `{!Ed25519} `{!RawJson} `{!RawJsonLaws} `{!Json Result}
    result keyID key message :
  SignResult result keyID key = Ret message →
  ∃ output, cleanRaw output ∧ (result.(Result_Output) = [] ∧ output = []
      ∨ Compact result.(Result_Output) = Some output)
    ∧ len output <= MaximumInputBytes
    ∧ sign (withOutput result output) resultPurpose keyID key = Ret message.
Proof.
  unfold SignResult. destruct (Z.ltb_spec MaximumInputBytes (len result.(Result_Output))); [done|].
  destruct (Z.eqb_spec (len result.(Result_Output)) 0) as [Hn|Hn]; simpl.
  - intros Hs. exists []. destruct result as [a b c d e f g output h i j]; simpl in *.
    destruct output; [|unfold len in Hn; simpl in Hn; lia].
    split; [by left|]. split; [by left|]. done.
  - destruct (Compact result.(Result_Output)) as [output|] eqn:Hc; [|done].
    destruct (Z.ltb_spec MaximumInputBytes (len output)); [done|]. intros Hs.
    exists output. destruct (Compact_idem _ _ Hc) as [Hi _].
    split; [by right|]. split; [by right|]. done.
Qed.

(** A signed result verifies against the authorization it matches. *)
Lemma VerifyResult_SignResult `{!Ed25519} `{!Ed25519Laws} `{!RawJson} `{!RawJsonLaws}
    `{!Json Result} `{!JsonLaws Result cleanResult} result keyID seed message a raw :
  len seed = SeedSize → cleanOutcome result →
  SignResult result keyID (NewKeyFromSeed seed) = Ret message →
  result.(Result_ProtocolVersion) = ProtocolVersion →
  result.(Result_ID) = a.(Auth_ID) → result.(Result_Kind) = a.(Auth_Kind) →
  result.(Result_BindingID) = a.(Auth_BindingID) →
  result.(Result_BindingRevision) = a.(Auth_BindingRevision) →
  result.(Result_ManifestDigest) = a.(Auth_ManifestDigest) →
  result.(Result_AuthorizationDigest) = Digest raw → result.(Result_Nonce) = a.(Auth_Nonce) →
  ∃ output, (result.(Result_Output) = [] ∧ output = []
      ∨ Compact result.(Result_Output) = Some output)
    ∧ VerifyResult message (Public (NewKeyFromSeed seed)) a raw = Ret (withOutput result output).
Proof.
  intros Hseed Ho Hs Hver Hid Hkind Hbind Hrev Hman Hdig Hnonce.
  destruct (SignResult_Ret result keyID (NewKeyFromSeed seed) message Hs)
    as (output & Hraw & Hout & Hlen & Hsign).
  exists output. split; [done|].
  assert (Hc : cleanResult (withOutput result output)) by done.
  destruct (verifyInto_sign cleanResult _ _ _ _ _ Hseed Hc Hsign) as (rawResult & _ & Hv).
  unfold VerifyResult. rewrite Hv. simpl. rewrite (proj2 (Z.ltb_ge _ _)) by done.
  rewrite Hver, Hid, Hkind, Hbind, Hrev, Hman, Hdig, Hnonce.
  by rewrite !bool_decide_eq_true_2, !Z.eqb_refl by done.
Qed.

(** * Properties *)
Section Properties.
Context `{!Ed25519} `{!Ed25519Laws} `{!RawJson} `{!RawJsonLaws}
  `{!Json (list Function)} `{!JsonLaws (list Function) (Forall cleanFunction)}
  `{!Json Authorization} `{!JsonLaws Authorization cleanAuthorization}
  `{!Json Result} `{!JsonLaws Result cleanResult}.

(** The manifest digest is canonical. It is the same for every order in which the
    functions are registered and for every sorting algorithm ([sort.Slice] is not
    stable), and a manifest of 1 to 64 functions has one exactly when every function is
    valid and no name and version is registered twice. *)
Theorem manifest_canonical functions sorted :
  1 <= len functions <= 64 → Sorted functionLe sorted → sorted ≡ₚ functions →
  let manifest := mkManifest functions ProtocolVersion in
  ManifestDigest manifest = manifestDigestSorted sorted
  ∧ ((∃ digest, ManifestDigest manifest = Ret digest ∧ isDigest digest = true) ↔
     Forall (fun f => validFunction f = true) functions ∧ NoDup (functionKey <$> functions)).
Proof.
  intros Hlen Hs Hp manifest.
  assert (Hms : Sorted functionLe (merge_sort functionLe functions))
    by (apply Sorted_merge_sort, _).
  assert (Hmp : merge_sort functionLe functions ≡ₚ sorted)
    by (by rewrite merge_sort_Permutation).
  destruct (checkFunctions_canonical _ _ Hms Hs Hmp) as [Heq Hsame].
  assert (Hm : ManifestDigest manifest = manifestDigestSorted sorted).
  { unfold ManifestDigest. simpl. rewrite (proj2 (Z.ltb_ge _ _)), (proj2 (Z.ltb_ge _ _)) by lia.
    simpl. unfold manifestDigestSorted. rewrite <- Heq.
    destruct (checkFunctions None (merge_sort functionLe functions)); [|done].
    by rewrite Hsame. }
  split; [done|]. rewrite Hm. unfold manifestDigestSorted.
  rewrite <- Hp. rewrite <- (checkFunctions_None _ Hs).
  destruct (checkFunctions None sorted) eqn:Hc; simpl; [|naive_solver].
  apply checkFunctions_None in Hc as [Hv _]; [|done].
  destruct (Marshal_clean sorted) as [raw ->].
  { eapply Forall_impl; [done|]. apply validFunction_clean. }
  split; [done|]. intros _. eexists. split; [done|]. apply isDigest_Digest.
Qed.

(** C19: a signed authorization comes back from verification with the transmitted,
    compacted input, and its input digest is the digest of exactly those bytes. *)
Theorem authorization_roundtrip authorization keyID seed message :
  len seed = SeedSize → cleanGrant authorization →
  cleanString authorization.(Auth_InputDigest) →
  SignAuthorization authorization keyID (NewKeyFromSeed seed) = Ret message →
  ∃ input digest raw,
    VerifyAuthorization message (Public (NewKeyFromSeed seed)) =
      Ret (withInput authorization input digest, raw)
    ∧ (authorization.(Auth_Input) = [] → input = [] ∧ digest = authorization.(Auth_InputDigest))
    ∧ (authorization.(Auth_Input) ≠ [] →
       Compact authorization.(Auth_Input) = Some input ∧ input ≠ [] ∧ digest = Digest input
       ∧ len input <= MaximumInputBytes
       ∧ authorization.(Auth_InputDigest) = Digest authorization.(Auth_Input)).
Proof.
  intros Hseed Hg Hid. unfold SignAuthorization.
  destruct (Z.eqb_spec (len authorization.(Auth_Input)) 0) as [Hn|Hn]; simpl.
  - intros Hs. apply length_zero_iff_nil in Hn || (unfold len in Hn; destruct
      authorization.(Auth_Input) eqn:Hi; [|simpl in Hn; lia]).
    assert (Hc : cleanAuthorization authorization).
    { split; [done|]. split; [done|]. by left. }
    destruct (verifyInto_sign cleanAuthorization _ _ _ _ _ Hseed Hc Hs) as (raw & _ & Hv).
    exists [], authorization.(Auth_InputDigest), raw. split; [|naive_solver].
    unfold VerifyAuthorization. rewrite Hv. do 2 f_equal. destruct authorization. simpl in *.
    unfold withInput. simpl. by rewrite Hi.
  - destruct (Z.ltb_spec MaximumInputBytes (len authorization.(Auth_Input))); [done|].
    case_bool_decide as Hd; [|done]. simpl.
    destruct (Compact authorization.(Auth_Input)) as [input|] eqn:Hcomp; [|done].
    destruct (Z.ltb_spec MaximumInputBytes (len input)); [done|]. intros Hs.
    destruct (Compact_idem _ _ Hcomp) as [Hidem Hne].
    assert (Hc : cleanAuthorization (withInput authorization input (Digest input))).
    { split; [done|]. split; [apply cleanString_Digest|by right]. }
    destruct (verifyInto_sign cleanAuthorization _ _ _ _ _ Hseed Hc Hs) as (raw & _ & Hv).
    exists input, (Digest input), raw. split; [done|]. split; [|done].
    intros He. by rewrite He in Hn.
Qed.

(** A result is bound to one authorization. The message signed for a result verifies
    against an authorization exactly when its identity, kind, binding, revision,
    manifest and nonce are the result's and the bytes of the authorization hash to the
    digest in the result; what comes back is the result with its output compacted. *)
Theorem result_binding result keyID seed message :
  len seed = SeedSize → cleanOutcome result →
  SignResult result keyID (NewKeyFromSeed seed) = Ret message →
  ∃ output, cleanRaw output ∧ (result.(Result_Output) = [] ∧ output = []
      ∨ Compact result.(Result_Output) = Some output)
  ∧ ∀ authorization raw r,
    VerifyResult message (Public (NewKeyFromSeed seed)) authorization raw = Ret r ↔
    r = withOutput result output
    ∧ result.(Result_ProtocolVersion) = ProtocolVersion
    ∧ result.(Result_ID) = authorization.(Auth_ID)
    ∧ result.(Result_Kind) = authorization.(Auth_Kind)
    ∧ result.(Result_BindingID) = authorization.(Auth_BindingID)
    ∧ result.(Result_BindingRevision) = authorization.(Auth_BindingRevision)
    ∧ result.(Result_ManifestDigest) = authorization.(Auth_ManifestDigest)
    ∧ result.(Result_AuthorizationDigest) = Digest raw
    ∧ result.(Result_Nonce) = authorization.(Auth_Nonce).
Proof.
  intros Hseed Ho Hs.
  destruct (SignResult_Ret result keyID (NewKeyFromSeed seed) message Hs)
    as (output & Hraw & Hout & Hlen & Hsign).
  exists output. split; [done|]. split; [done|]. intros authorization raw r.
  assert (Hc : cleanResult (withOutput result output)) by done.
  destruct (verifyInto_sign cleanResult _ _ _ _ _ Hseed Hc Hsign) as (rawResult & _ & Hv).
  unfold VerifyResult. rewrite Hv. simpl.
  rewrite (proj2 (Z.ltb_ge _ _)) by done.
  destruct (negb _ || _ || _ || _ || _ || _ || _ || _) eqn:Hb.
  - split; [done|]. intros (_ & Hver & Hid & Hkind & Hbind & Hrev & Hman & Hdig & Hnonce).
    rewrite Hver, Hid, Hkind, Hbind, Hrev, Hman, Hdig, Hnonce in Hb.
    by rewrite !bool_decide_eq_true_2, !Z.eqb_refl in Hb.
  - breflect. split; [intros [= <-]; done|]. by intros (-> & _).
Qed.

(** The four kinds of signed messages: who signs and who accepts them. *)
Inductive message_kind : Type :=
| AuthorizationMessage | ResultMessage | ValidationMessage | ResourceAccessMessage.

Context `{!Json ValidationRequest} `{!Json ResourceAccessRequest}.

Definition issuedAs (kind : message_kind) (key : list byte) (m : SignedMessage) : Prop :=
  match kind with
  | AuthorizationMessage => ∃ value keyID, SignAuthorization value keyID key = Ret m
  | ResultMessage => ∃ value keyID, SignResult value keyID key = Ret m
  | ValidationMessage => ∃ value keyID, SignValidation value keyID key = Ret m
  | ResourceAccessMessage => ∃ value keyID, SignResourceAccess value keyID key = Ret m
  end.

Definition acceptedAs (kind : message_kind) (key : list byte) (m : SignedMessage) : Prop :=
  match kind with
  | AuthorizationMessage => returns (VerifyAuthorization m key) = true
  | ResultMessage => ∃ a raw, returns (VerifyResult m key a raw) = true
  | ValidationMessage => returns (VerifyValidation m key) = true
  | ResourceAccessMessage => returns (VerifyResourceAccess m key) = true
  end.

Definition purposeOf (kind : message_kind) : string :=
  match kind with
  | AuthorizationMessage => authorizationPurpose
  | ResultMessage => resultPurpose
  | ValidationMessage => validationPurpose
  | ResourceAccessMessage => resourceAccessPurpose
  end.

(** The text that is signed for a payload. *)
Definition signedText (kind : message_kind) (raw : list byte) : list byte :=
  bytes_of (purposeOf kind) ++ raw.

Lemma purposeOf_inj k1 k2 r s : signedText k1 r = signedText k2 s → k1 = k2 ∧ r = s.
Proof.
  unfold signedText.
  intros Htext. assert (Hin : ∀ k, purposeOf k ∈ purposes) by (intros []; unfold purposes; set_solver).
  destruct (purposes_prefix_free _ _ _ _ (Hin k1) (Hin k2) Htext) as [Hp ->].
  split; [|done]. by destruct k1, k2.
Qed.

(** What an issued message carries: its payload and the signature of payload and purpose. *)
Lemma sign_text {A} `{!Json A} (value : A) purpose keyID key m :
  sign value purpose keyID key = Ret m →
  ∃ raw, rawURLDecode true (bytes_of m.(Payload)) = Some raw
    ∧ rawURLDecode true (bytes_of m.(Signature)) = Some (Sign key (bytes_of purpose ++ raw)).
Proof.
  intros (_ & _ & raw & _ & _ & ->)%sign_Ret. exists raw. simpl.
  by rewrite !bytes_of_string_of, !rawURL_roundtrip.
Qed.

Lemma issuedAs_text kind key m :
  issuedAs kind key m →
  ∃ raw, rawURLDecode true (bytes_of m.(Payload)) = Some raw
    ∧ rawURLDecode true (bytes_of m.(Signature)) = Some (Sign key (bytes_of (purposeOf kind) ++ raw)).
Proof.
  destruct kind; intros (value & keyID & Hs); try by apply sign_text in Hs.
  - unfold SignAuthorization in Hs. repeat (case_match; try done); by apply sign_text in Hs.
  - apply SignResult_Ret in Hs as (output & _ & _ & _ & Hs). by apply sign_text in Hs.
Qed.

Lemma verifyInto_text {A} `{!Json A} m purpose key (r : A * list byte) :
  verifyInto m purpose key = Ret r →
  ∃ raw signature, rawURLDecode true (bytes_of m.(Payload)) = Some raw
    ∧ rawURLDecode true (bytes_of m.(Signature)) = Some signature
    ∧ Verify key (bytes_of purpose ++ raw) signature = true.
Proof.
  unfold verifyInto. destruct (verify m purpose key) as [raw| | |] eqn:Hv; try done. intros _.
  apply verify_Ret in Hv as (Hp & signature & Hs & _ & Hv). by exists raw, signature.
Qed.

Lemma acceptedAs_text kind key m :
  acceptedAs kind key m →
  ∃ raw signature, rawURLDecode true (bytes_of m.(Payload)) = Some raw
    ∧ rawURLDecode true (bytes_of m.(Signature)) = Some signature
    ∧ Verify key (bytes_of (purposeOf kind) ++ raw) signature = true.
Proof.
  destruct kind; unfold acceptedAs, VerifyAuthorization, VerifyResult, VerifyValidation,
    VerifyResourceAccess;
    try intros (a & raw & Hr); try intros Hr;
    destruct (verifyInto m _ key) as [r| | |] eqn:Hv; try done; by apply verifyInto_text in Hv.
Qed.

(** C18: a signature for one purpose is not accepted for another. If a message of one kind was
    signed by a key, and a message of any kind with that signature is accepted under some
    public key, then it is of the same kind and carries the same payload, or else that key
    accepts the signature of the issued text, its purpose followed by its payload, for the
    different text of the accepted message, which is a forgery. *)
Theorem domain_separation issuedKind acceptedKind key public issued accepted :
  issuedAs issuedKind key issued → acceptedAs acceptedKind public accepted →
  accepted.(Signature) = issued.(Signature) →
  ∃ raw raw', rawURLDecode true (bytes_of issued.(Payload)) = Some raw
    ∧ rawURLDecode true (bytes_of accepted.(Payload)) = Some raw'
    ∧ (acceptedKind = issuedKind ∧ raw' = raw
       ∨ signedText acceptedKind raw' ≠ signedText issuedKind raw
         ∧ Verify public (signedText acceptedKind raw') (Sign key (signedText issuedKind raw)) = true).
Proof.
  intros (raw & Hp & Hs)%issuedAs_text (raw' & signature & Hp' & Hs' & Hv)%acceptedAs_text Hsame.
  rewrite Hsame, Hs in Hs'. injection Hs' as <-. exists raw, raw'. split_and!; [done..|].
  destruct (decide (signedText acceptedKind raw' = signedText issuedKind raw)) as [Heq|Hne];
    [left; by apply purposeOf_inj|by right].
Qed.

End Properties.

(** * Witnesses: the properties at concrete inputs *)
Module Samples.

Definition digestA : string := Digest (bytes_of "input schema").
Definition echo (version : string) : Function := mkFunction "echo" version digestA digestA.
Definition seed : list byte := replicate 32 x07.
Definition scope : Scope := mkScope "tenant" "app" "env" "org:acme".

(** Records as tables of strings, and back. *)
Definition ofFunction (f : Function) : list string :=
  [f.(Function_Name); f.(Function_Version); f.(Function_InputSchemaDigest);
   f.(Function_OutputSchemaDigest)].

Definition toFunction (l : list string) : option Function :=
  match l with [a; b; c; d] => Some (mkFunction a b c d) | _ => None end.

#[export] Instance functions_fields : Fields (list Function).
Proof.
  refine {|
  toFields l := ofFunction <$> l;
  ofFields l := mapM toFunction l
  |}.
 intros l. apply mapM_fmap_Some. by intros [].
Defined.

#[export] Instance Authorization_fields : Fields Authorization.
Proof.
  refine {|
  toFields a := [from_option ofFunction [] a.(Auth_Function); [a.(Auth_Scope).(Scope_TenantID);
      a.(Auth_Scope).(Scope_ApplicationID); a.(Auth_Scope).(Scope_EnvironmentID);
      a.(Auth_Scope).(Scope_OwnerResource)];
      [a.(Auth_Kind); a.(Auth_Issuer); a.(Auth_Audience); a.(Auth_BindingID);
       a.(Auth_PolicyDigest); a.(Auth_ManifestDigest); a.(Auth_InputDigest); a.(Auth_ID);
       a.(Auth_Nonce); a.(Auth_Principal); string_of a.(Auth_Input)];
      a.(Auth_Resources); a.(Auth_Capabilities);
      [ofZ a.(Auth_ExpiresAt); ofZ a.(Auth_IssuedAt); ofZ a.(Auth_ProtocolVersion);
       ofZ a.(Auth_BindingRevision)]];
  ofFields l :=
    match l with
    | [f; [t; ap; en; ow]; [k; i; au; b; p; m; d; n; o; pr; inp]; rs; cs; [e; ia; v; r]] =>
        e ← toZ e; ia ← toZ ia; v ← toZ v; r ← toZ r;
        Some (mkAuthorization (toFunction f) (mkScope t ap en ow) k i au b p m d n o pr rs cs
                (bytes_of inp) e ia v r)
    | _ => None
    end
  |}.
 intros [[[]|] []]; simpl; rewrite !toZ_ofZ; simpl; by rewrite bytes_of_string_of.
Defined.

#[export] Instance Result_fields : Fields Result.
Proof.
  refine {|
  toFields r := [[r.(Result_ID); r.(Result_BindingID); r.(Result_ManifestDigest);
      r.(Result_AuthorizationDigest); r.(Result_Kind); r.(Result_Nonce); r.(Result_ErrorCode);
      string_of r.(Result_Output); ofZ r.(Result_ProtocolVersion);
      ofZ r.(Result_BindingRevision); ofZ r.(Result_CompletedAt)]];
  ofFields l :=
    match l with
    | [[a; b; c; d; e; f; g; o; v; i; j]] =>
        v ← toZ v; i ← toZ i; j ← toZ j; Some (mkResult a b c d e f g (bytes_of o) v i j)
    | _ => None
    end
  |}.
 intros []; simpl. rewrite !toZ_ofZ. simpl. by rewrite bytes_of_string_of.
Defined.

#[export] Instance SignedMessage_fields : Fields SignedMessage.
Proof.
  refine {|
  toFields m := [[m.(KeyID); m.(Payload); m.(Signature)]];
  ofFields l := match l with [[k; p; s]] => Some (mkSignedMessage k p s) | _ => None end
  |}.
 by intros [].
Defined.

Definition grant : Authorization :=
  mkAuthorization (Some (echo "1")) scope "invocation" "control" "runtime" "binding" "" digestA
    (Digest (bytes_of "[1]")) "invocation:1" "" "user:1" ["doc:1"] [] (bytes_of "[1]")
    1300 1000 1 1.

Definition outcome1 : Result :=
  mkResult "invocation:1" "binding" digestA (Digest (bytes_of "grant")) "invocation" "" ""
    (bytes_of "[2]") 1 1 1001.

#[export] Existing Instances hashScheme plainRaw hashScheme_laws plainRaw_laws.
#[export] Instance functions_json : Json (list Function) := fieldsJson _.
#[export] Instance authorization_json : Json Authorization := fieldsJson _.
#[export] Instance result_json : Json Result := fieldsJson _.
#[export] Instance functions_json_laws : JsonLaws (list Function) (Forall cleanFunction) :=
  fieldsJson_laws _ _.
#[export] Instance authorization_json_laws : JsonLaws Authorization cleanAuthorization :=
  fieldsJson_laws _ _.
#[export] Instance message_json : Json SignedMessage := fieldsJson _.
#[export] Instance message_json_laws : JsonLaws SignedMessage cleanMessage :=
  fieldsJson_laws _ _.
#[export] Instance result_json_laws : JsonLaws Result cleanResult := fieldsJson_laws _ _.

Lemma manifest_canonical_witness :
  ManifestDigest (mkManifest [echo "2"; echo "1"] 1) =
  manifestDigestSorted [echo "1"; echo "2"].
Proof.
  apply (manifest_canonical [echo "2"; echo "1"] [echo "1"; echo "2"]).
  - unfold len. simpl. lia.
  - repeat constructor.
  - apply Permutation_swap.
Defined.

Ltac clean := unfold digestA; repeat match goal with
  | |- Forall _ [] => apply Forall_nil_2
  | |- Forall _ (_ :: _) => apply Forall_cons_2
  | |- _ ∧ _ => split
  | |- cleanString (Digest _) => apply cleanString_Digest
  | |- cleanString _ => reflexivity
  | |- is_i64 _ => unfold is_i64; lia
  end.

Lemma grant_clean : cleanGrant grant.
Proof.
  unfold cleanGrant, cleanScope, grant. simpl. split; [|clean].
  intros f [= <-]. unfold cleanFunction. simpl. clean.
Qed.

(** Signing the samples succeeds. *)
Lemma grant_signed :
  returns (SignAuthorization grant "control:1" (NewKeyFromSeed seed)) = true.
Proof. vm_compute. reflexivity. Qed.

Lemma outcome1_signed : returns (SignResult outcome1 "runtime:1" (NewKeyFromSeed seed)) = true.
Proof. vm_compute. reflexivity. Qed.

Lemma authorization_roundtrip_witness :
  ∃ message, SignAuthorization grant "control:1" (NewKeyFromSeed seed) = Ret message
  ∧ ∃ input digest raw, VerifyAuthorization message (Public (NewKeyFromSeed seed)) =
      Ret (withInput grant input digest, raw).
Proof.
  destruct (proj1 (returns_Ret _) grant_signed) as [message Hs]. exists message. split; [done|].
  destruct (authorization_roundtrip grant "control:1" seed message)
    as (input & digest & raw & H & _);
    [reflexivity|apply grant_clean|apply cleanString_Digest|exact Hs|].
  exists input, digest, raw. exact H.
Defined.

Lemma result_binding_witness :
  ∃ message, SignResult outcome1 "runtime:1" (NewKeyFromSeed seed) = Ret message
  ∧ ∀ raw r, VerifyResult message (Public (NewKeyFromSeed seed)) grant raw = Ret r →
      Digest (bytes_of "grant") = Digest raw.
Proof.
  destruct (proj1 (returns_Ret _) outcome1_signed) as [message Hs]. exists message.
  split; [done|]. intros raw r Hv.
  destruct (result_binding outcome1 "runtime:1" seed message)
    as (output & _ & _ & H);
    [reflexivity|unfold cleanOutcome, outcome1; simpl; clean|exact Hs|].
  apply H in Hv. apply Hv.
Defined.

#[local] Instance validation_json : Json ValidationRequest := {| Marshal _ := None; Decode _ := None |}.
#[local] Instance access_json : Json ResourceAccessRequest := {| Marshal _ := None; Decode _ := None |}.

(** A signed grant that verifies. *)
Lemma grant_accepted :
  ∃ message, issuedAs AuthorizationMessage (NewKeyFromSeed seed) message
    ∧ acceptedAs AuthorizationMessage (Public (NewKeyFromSeed seed)) message.
Proof.
  destruct (proj1 (returns_Ret _) grant_signed) as [message Hs]. exists message.
  split; [by exists grant, "control:1"|]. simpl.
  assert (Hv : match SignAuthorization grant "control:1" (NewKeyFromSeed seed) with
    | Ret m => returns (VerifyAuthorization m (Public (NewKeyFromSeed seed))) | _ => false end = true)
    by (vm_compute; reflexivity).
  by rewrite Hs in Hv.
Qed.

Lemma domain_separation_witness :
  ∃ message raw raw', issuedAs AuthorizationMessage (NewKeyFromSeed seed) message
    ∧ rawURLDecode true (bytes_of message.(Payload)) = Some raw
    ∧ (AuthorizationMessage = AuthorizationMessage ∧ raw' = raw
       ∨ signedText AuthorizationMessage raw' ≠ signedText AuthorizationMessage raw
         ∧ Verify (Public (NewKeyFromSeed seed)) (signedText AuthorizationMessage raw')
             (Sign (NewKeyFromSeed seed) (signedText AuthorizationMessage raw)) = true).
Proof.
  destruct grant_accepted as (message & Hi & Ha). exists message.
  destruct (domain_separation AuthorizationMessage AuthorizationMessage (NewKeyFromSeed seed)
    (Public (NewKeyFromSeed seed)) message message Hi Ha eq_refl) as (raw & raw' & Hp & _ & H).
  exists raw, raw'. split; [exact Hi|]. split; [exact Hp|exact H].
Defined.

End Samples.
