(* ===== verification/ExecutionStore.v ===== *)
(** The contract of [ExecutionStore] in [bridge/runtime.go]: what the runtime relies on
    and what a durable store has to promise.

    A store is seen through its journal, which binds an operation identity to the digest
    of the request and to the result once there is one. Operations are relations between
    the store before, the answer and the store after, so that a store may also fail with
    or without effect. *)
From S2P Require Import Prelude GoStd Sha256 Interfaces Protocol.

(** An entry of the journal: the digest of the request and the result, if complete. *)
Abbreviation entry := (prod string (option Result)).

Class ExecutionStore (S : Type) : Type := {
  store_ok : S → Prop;
  journal : S → gmap string entry;
  Reserve : S → string → string → outcome bridge_error (option Result) → S → Prop;
  Complete : S → string → string → Result → outcome bridge_error unit → S → Prop;
}.

(** A new reservation of [id]. *)
Definition reserved (j : gmap string entry) (id digest : string) (j' : gmap string entry) : Prop :=
  j !! id = None ∧ j' = <[id := (digest, None)]> j.

(** A reservation of [id] that is completed, or was already completed with this result. *)
Definition completed (j : gmap string entry) (id digest : string) (r : Result)
    (j' : gmap string entry) : Prop :=
  (j !! id = Some (digest, None) ∨ j !! id = Some (digest, Some r))
  ∧ j' = <[id := (digest, Some r)]> j.

(** The comment of the interface, clause by clause. *)
Class ExecutionStoreLaws `{RawJson} (S : Type) `{ExecutionStore S} : Prop := {
  Reserve_ok s id d a s' : store_ok s → Reserve s id d a s' → store_ok s';
  Complete_ok s id d r a s' :
    store_ok s → cleanResult r → Complete s id d r a s' → store_ok s';
  (** nil and no error: the caller owns a new reservation *)
  Reserve_new s id d s' :
    store_ok s → Reserve s id d (Ret None) s' → reserved (journal s) id d (journal s');
  (** a result is the one stored for the same identity and digest *)
  Reserve_stored s id d r s' :
    store_ok s → Reserve s id d (Ret (Some r)) s' →
    journal s !! id = Some (d, Some r) ∧ journal s' = journal s;
  (** changed input conflicts *)
  Reserve_conflict s id d s' :
    store_ok s → Reserve s id d (Throw ErrConflict) s' →
    (∃ d' o, d' ≠ d ∧ journal s !! id = Some (d', o)) ∧ journal s' = journal s;
  (** an incomplete reservation is never given out again *)
  Reserve_in_progress s id d s' :
    store_ok s → Reserve s id d (Throw ErrInProgress) s' →
    journal s !! id = Some (d, None) ∧ journal s' = journal s;
  (** a failure may leave a reservation behind, and nothing else *)
  Reserve_failed s id d e s' :
    store_ok s → Reserve s id d (Throw e) s' →
    journal s' = journal s ∨ reserved (journal s) id d (journal s');
  (** the store answers with a value or an error *)
  Reserve_answers s id d a s' : Reserve s id d a s' → panics a = false ∧ diverges a = false;
  Complete_done s id d r s' :
    store_ok s → cleanResult r → Complete s id d r (Ret tt) s' →
    completed (journal s) id d r (journal s');
  Complete_failed s id d r a s' :
    store_ok s → cleanResult r → Complete s id d r a s' →
    journal s' = journal s ∨ completed (journal s) id d r (journal s');
}.

(** * The journal only grows

    Entries are never removed, their digest never changes, and a result is never
    replaced. *)
Definition journal_le (j j' : gmap string entry) : Prop :=
  ∀ id d o, j !! id = Some (d, o) →
    ∃ o', j' !! id = Some (d, o') ∧ (∀ r, o = Some r → o' = Some r).

#[global] Instance journal_le_preorder : PreOrder journal_le.
Proof.
  split; [by intros j id d o Hj; exists o|].
  intros j1 j2 j3 H12 H23 id d o (o2 & H2 & Ho2)%H12.
  apply H23 in H2 as (o3 & H3 & Ho3). exists o3. naive_solver.
Qed.

Lemma reserved_le j id d j' : reserved j id d j' → journal_le j j'.
Proof.
  intros [Hn ->] id' d' o Hj. exists o. split; [|done].
  rewrite lookup_insert_ne; [done|]. intros ->. by rewrite Hn in Hj.
Qed.

Lemma completed_le j id d r j' : completed j id d r j' → journal_le j j'.
Proof.
  intros [Hj ->] id' d' o Ho. destruct (decide (id = id')) as [<-|].
  - rewrite lookup_insert_eq. exists (Some r). destruct Hj as [Hj|Hj]; naive_solver.
  - rewrite lookup_insert_ne by done. by exists o.
Qed.

#[export] Hint Resolve reserved_le completed_le : lotor.

Section Laws.
Context `{!RawJson} {S : Type} `{!ExecutionStore S} `{!ExecutionStoreLaws S}.

Lemma Reserve_le s id d a s' :
  store_ok s → Reserve s id d a s' → journal_le (journal s) (journal s').
Proof.
  intros Hok Hr. destruct (Reserve_answers _ _ _ _ _ Hr) as [Hp Hd].
  destruct a as [[r|]|e| |]; try done.
  - by destruct (Reserve_stored _ _ _ _ _ Hok Hr) as [_ ->].
  - eauto using reserved_le, Reserve_new.
  - destruct (Reserve_failed _ _ _ _ _ Hok Hr) as [->|?]; eauto using reserved_le. done.
Qed.

Lemma Complete_le s id d r a s' :
  store_ok s → cleanResult r → Complete s id d r a s' → journal_le (journal s) (journal s').
Proof.
  intros Hok Hc Hr. destruct (Complete_failed _ _ _ _ _ _ Hok Hc Hr) as [->|?];
    eauto using completed_le. done.
Qed.

End Laws.

(** * The reference store

    The contract as a function on the journal itself: the model that a durable store
    implements, here without failures. *)
Definition reserveEntry (j : gmap string entry) (id d : string)
    : outcome bridge_error (option Result) * gmap string entry :=
  match j !! id with
  | None => (Ret None, <[id := (d, None)]> j)
  | Some (d', o) =>
      if decide (d' = d) then
        match o with
        | None => (Throw ErrInProgress, j)
        | Some r => (Ret (Some r), j)
        end
      else (Throw ErrConflict, j)
  end.

Definition completeEntry (j : gmap string entry) (id d : string) (r : Result)
    : outcome bridge_error unit * gmap string entry :=
  match j !! id with
  | Some (d', o) =>
      if decide (d' = d ∧ (o = None ∨ o = Some r)) then (Ret tt, <[id := (d, Some r)]> j)
      else (Throw ErrConflict, j)
  | None => (Throw ErrConflict, j)
  end.

Lemma reserveEntry_spec j id d a j' :
  reserveEntry j id d = (a, j') →
  (a = Ret None ∧ reserved j id d j')
  ∨ j' = j ∧ ((∃ r, a = Ret (Some r) ∧ j !! id = Some (d, Some r))
     ∨ (a = Throw ErrInProgress ∧ j !! id = Some (d, None))
     ∨ (a = Throw ErrConflict ∧ ∃ d' o, d' ≠ d ∧ j !! id = Some (d', o))).
Proof.
  unfold reserveEntry, reserved. destruct (j !! id) as [[d' o]|]; [|naive_solver].
  case_decide; [subst; destruct o|]; intros [= <- <-]; right; eauto 10.
Qed.

Lemma completeEntry_spec j id d r a j' :
  completeEntry j id d r = (a, j') →
  (a = Ret tt ∧ completed j id d r j') ∨ (a = Throw ErrConflict ∧ j' = j).
Proof.
  unfold completeEntry, completed. destruct (j !! id) as [[d' o]|]; [|naive_solver].
  case_decide as Hd; intros [= <- <-]; [|by right]. left. destruct Hd as [-> [->| ->]]; eauto.
Qed.

#[local] Instance referenceStore : ExecutionStore (gmap string entry) := {
  store_ok _ := True;
  journal j := j;
  Reserve j id d a j' := reserveEntry j id d = (a, j');
  Complete j id d r a j' := completeEntry j id d r = (a, j');
}.

Lemma referenceStore_laws `{!RawJson} : ExecutionStoreLaws (gmap string entry).
Proof.
  split; simpl; intros; try done;
    repeat match goal with
    | H : reserveEntry _ _ _ = _ |- _ => apply reserveEntry_spec in H
    | H : completeEntry _ _ _ _ = _ |- _ => apply completeEntry_spec in H
    end; naive_solver.
Qed.
