(* ===== verification/Runtime.v ===== *)
(** The function runtime: [bridge/runtime.go].

    [NewRuntime], [validAuthorization], [execute] and the whole of [ServeHTTP]. A request
    is a program over the effects of the handler (reading the clock, asking a context for
    its error, the authorization callback, the execution store, the application handler),
    and requests run interleaved over one store. *)
From S2P Require Import Prelude GoStd Sha256 Interfaces Protocol ExecutionStore.

(** * Data *)

(** A handler is a name for the application's function; its behaviour is the answer to
    the effect that calls it. [None] is a nil handler. *)
Record Registration : Type := mkRegistration {
  Registration_Handler : option nat;
  Registration_Function : Function
}.

Record Config : Type := mkConfig {
  Config_Store : bool;
  Config_TrustedKeys : gmap string (list byte);
  Config_Authorize : bool;
  Config_Scope : Scope;
  Config_Audience : string;
  Config_BindingID : string;
  Config_SigningKeyID : string;
  Config_Issuer : string;
  Config_SigningKey : list byte;
  Config_Functions : list Registration;
  Config_BindingRevision : Z;
  Config_ExecutionTimeout : Z
}.

Record Runtime : Type := mkRuntime {
  functions : gmap Function nat;
  manifestDigest : string;
  config : Config
}.

(** Durations and instants are nanoseconds, [Unix] is seconds. *)
Definition Second : Z := 1000000000.
Definition Unix (t : Z) : Z := i64 (t / Second).

Record HttpRequest : Type := mkHttpRequest {
  Request_Method : string;
  Request_Path : string;
  Request_RawQuery : string;
  Request_ContentType : string;
  (** the bytes of the body, or [None] if reading it fails *)
  Request_Body : option (list byte)
}.

Inductive response_body : Type :=
| BodyCode (code : string)
| BodyMessage (message : SignedMessage).

Record HttpResponse : Type := mkHttpResponse {
  Response_Status : Z;
  Response_Headers : gmap string string;
  Response_Body : response_body
}.

(** What the application handler does. *)
Inductive handler_outcome : Type :=
| HandlerReturns (output : list byte)
| HandlerFails
| HandlerPanics.

(** * Construction *)
Definition validScope (scope : Scope) : bool :=
  identifier scope.(Scope_TenantID) 256 && identifier scope.(Scope_ApplicationID) 256
  && identifier scope.(Scope_EnvironmentID) 256 && identifier scope.(Scope_OwnerResource) 256.

(** The loop over the registrations: stops at a nil handler. *)
Fixpoint register (registrations : list Registration) (fs : list Function)
    (hs : gmap Function nat) : outcome bridge_error (list Function * gmap Function nat) :=
  match registrations with
  | [] => Ret (fs, hs)
  | r :: rest =>
      match r.(Registration_Handler) with
      | None => Throw ErrInvalid
      | Some h =>
          register rest (fs ++ [r.(Registration_Function)])
            (<[r.(Registration_Function) := h]> hs)
      end
  end.

Definition withTimeout (c : Config) (timeout : Z) : Config :=
  mkConfig c.(Config_Store) c.(Config_TrustedKeys) c.(Config_Authorize) c.(Config_Scope)
    c.(Config_Audience) c.(Config_BindingID) c.(Config_SigningKeyID) c.(Config_Issuer)
    c.(Config_SigningKey) c.(Config_Functions) c.(Config_BindingRevision) timeout.

Section Runtime.
Context `{!Ed25519} `{!RawJson} `{!Json (list Function)} `{!Json Authorization} `{!Json Result}
  `{!Json SignedMessage}.
(** [mime.ParseMediaType]: the media type, or [None] on an error. *)
Context (ParseMediaType : string → option string).

Definition NewRuntime (config : Config) : outcome bridge_error Runtime :=
  if negb (identifier config.(Config_Issuer) 256) || negb (identifier config.(Config_Audience) 256)
     || negb (identifier config.(Config_BindingID) 256) || (config.(Config_BindingRevision) <? 1)
     || negb (validScope config.(Config_Scope)) || negb (identifier config.(Config_SigningKeyID) 256)
     || negb (len config.(Config_SigningKey) =? PrivateKeySize)
     || bool_decide (config.(Config_TrustedKeys) = ∅) || negb config.(Config_Store)
     || negb config.(Config_Authorize)
  then Throw ErrInvalid
  else if negb (bool_decide (map_Forall (fun id key =>
              identifier id 256 = true ∧ len key = PublicKeySize) config.(Config_TrustedKeys)))
  then Throw ErrInvalid
  else
    '(fs, hs) ← register config.(Config_Functions) [] ∅;
    digest ← ManifestDigest (mkManifest fs ProtocolVersion);
    let timeout :=
      if config.(Config_ExecutionTimeout) =? 0 then 30 * Second
      else config.(Config_ExecutionTimeout) in
    if (timeout <? 0) || (5 * 60 * Second <? timeout) then Throw ErrInvalid
    else Ret (mkRuntime hs digest (withTimeout config timeout)).

(** * The checks on a verified authorization *)

(** [value.ExpiresAt-value.IssuedAt] is a subtraction of [int64]. *)
Definition validAuthorization (runtime : Runtime) (value : Authorization) (path : string)
    (now : Z) : bool :=
  let config := runtime.(config) in
  if negb (value.(Auth_ProtocolVersion) =? ProtocolVersion) || negb (identifier value.(Auth_ID) 256)
     || negb (bool_decide (value.(Auth_Issuer) = config.(Config_Issuer)))
     || negb (bool_decide (value.(Auth_Audience) = config.(Config_Audience)))
     || negb (bool_decide (value.(Auth_BindingID) = config.(Config_BindingID)))
     || negb (value.(Auth_BindingRevision) =? config.(Config_BindingRevision))
     || negb (bool_decide (value.(Auth_ManifestDigest) = runtime.(manifestDigest)))
     || negb (bool_decide (value.(Auth_Scope) = config.(Config_Scope)))
     || (value.(Auth_IssuedAt) <=? 0) || (now <? value.(Auth_IssuedAt))
     || (value.(Auth_ExpiresAt) <=? now) || (value.(Auth_ExpiresAt) <=? value.(Auth_IssuedAt))
     || (300 <? i64 (value.(Auth_ExpiresAt) - value.(Auth_IssuedAt)))
  then false
  else if bool_decide (path = "/v1/functions/challenge") then
    bool_decide (value.(Auth_Kind) = "challenge") && identifier value.(Auth_Nonce) 256
    && bool_decide (value.(Auth_Function) = None) && bool_decide (value.(Auth_Principal) = "")
    && (len value.(Auth_Input) =? 0) && bool_decide (value.(Auth_InputDigest) = "")
    && bool_decide (value.(Auth_PolicyDigest) = "") && (len value.(Auth_Resources) =? 0)
    && (len value.(Auth_Capabilities) =? 0)
  else match value.(Auth_Function) with
  | None => false
  | Some function =>
      if negb (bool_decide (value.(Auth_Kind) = "invocation"))
         || negb (bool_decide (value.(Auth_Nonce) = ""))
         || negb (identifier value.(Auth_Principal) 256) || (len value.(Auth_Input) =? 0)
         || (MaximumInputBytes <? len value.(Auth_Input)) || negb (Valid value.(Auth_Input))
         || negb (bool_decide (value.(Auth_InputDigest) = Digest value.(Auth_Input)))
         || negb (bool_decide (value.(Auth_PolicyDigest) = ""))
            && negb (isDigest value.(Auth_PolicyDigest))
      then false
      else if bool_decide (runtime.(functions) !! function = None) then false
      else if (128 <? len value.(Auth_Resources)) || (64 <? len value.(Auth_Capabilities))
      then false
      else forallb (fun r => identifier r 256) value.(Auth_Resources)
           && forallb (fun c => identifier c 256) value.(Auth_Capabilities)
  end.

(** * Programs over the effects of a request *)
Inductive prog : Type :=
| Done (response : HttpResponse)
| Now (k : Z → prog)
| CtxErr (deadline : Z) (k : bool → prog)
| CallAuthorize (a : Authorization) (m : SignedMessage)
    (invocation : option (Authorization * SignedMessage)) (k : option bridge_error → prog)
| CallReserve (id digest : string) (k : outcome bridge_error (option Result) → prog)
| CallHandler (h : nat) (a : Authorization) (k : handler_outcome → prog)
| CallComplete (id digest : string) (r : Result) (k : outcome bridge_error unit → prog).

(** [execute]: a panic of the handler is recovered and counts as a failure, and so does
    a context that ended before or during the call. A nil handler panics when called. *)
Definition execute (deadline : Z) (handler : option nat) (a : Authorization)
    (k : outcome bridge_error (list byte) → prog) : prog :=
  CtxErr deadline (fun err =>
    if err then k (Throw ErrUnavailable)
    else match handler with
    | None => k (Throw ErrUnavailable)
    | Some h =>
        CallHandler h a (fun o =>
          match o with
          | HandlerPanics => k (Throw ErrUnavailable)
          | HandlerReturns output =>
              CtxErr deadline (fun err => k (if err then Throw ErrUnavailable else Ret output))
          | HandlerFails => CtxErr deadline (fun err => k (Throw (if err then ErrUnavailable else ErrOther)))
          end)
    end).

Definition headers : gmap string string :=
  {["Cache-Control" := "no-store"; "Content-Type" := "application/json"]}.

Definition writeError (status : Z) (code : string) : prog :=
  Done (mkHttpResponse status headers (BodyCode code)).

(** [grantActive]: the context has no error and the grant has not expired; the clock is
    read only if the context has no error. *)
Definition grantActive (a : Authorization) (k : bool → prog) : prog :=
  CtxErr (a.(Auth_ExpiresAt) * Second) (fun err =>
    if err then k false else Now (fun now => k (Unix now <? a.(Auth_ExpiresAt)))).

Definition identity (runtime : Runtime) (a : Authorization) : string :=
  runtime.(config).(Config_BindingID) +:+ ":" +:+ a.(Auth_ID).

(** The copy of the authorization whose digest identifies the operation. *)
Definition semantic (a : Authorization) : Authorization :=
  mkAuthorization a.(Auth_Function) a.(Auth_Scope) a.(Auth_Kind) a.(Auth_Issuer)
    a.(Auth_Audience) a.(Auth_BindingID) a.(Auth_PolicyDigest) a.(Auth_ManifestDigest)
    a.(Auth_InputDigest) a.(Auth_ID) a.(Auth_Nonce) a.(Auth_Principal) a.(Auth_Resources)
    a.(Auth_Capabilities) a.(Auth_Input) 0 0 a.(Auth_ProtocolVersion) a.(Auth_BindingRevision).

Definition newResult (a : Authorization) (raw : list byte) (now : Z) (nonce : string) : Result :=
  mkResult a.(Auth_ID) a.(Auth_BindingID) a.(Auth_ManifestDigest) (Digest raw) a.(Auth_Kind)
    nonce "" [] ProtocolVersion a.(Auth_BindingRevision) (Unix now).

Definition withAuthorizationDigest (r : Result) (digest : string) : Result :=
  mkResult r.(Result_ID) r.(Result_BindingID) r.(Result_ManifestDigest) digest r.(Result_Kind)
    r.(Result_Nonce) r.(Result_ErrorCode) r.(Result_Output) r.(Result_ProtocolVersion)
    r.(Result_BindingRevision) r.(Result_CompletedAt).

(** The result of an execution: the compacted output, or [outcome_unknown]. *)
Definition finish (r : Result) (output : outcome bridge_error (list byte)) (now : Z) : Result :=
  let failed :=
    mkResult r.(Result_ID) r.(Result_BindingID) r.(Result_ManifestDigest)
      r.(Result_AuthorizationDigest) r.(Result_Kind) r.(Result_Nonce) "outcome_unknown"
      r.(Result_Output) r.(Result_ProtocolVersion) r.(Result_BindingRevision) (Unix now) in
  match output with
  | Ret output =>
      match Compact output with
      | Some canonical =>
          if negb (Valid output) || (MaximumInputBytes <? len output)
             || (MaximumInputBytes <? len canonical)
          then failed
          else mkResult r.(Result_ID) r.(Result_BindingID) r.(Result_ManifestDigest)
                 r.(Result_AuthorizationDigest) r.(Result_Kind) r.(Result_Nonce)
                 r.(Result_ErrorCode) canonical r.(Result_ProtocolVersion)
                 r.(Result_BindingRevision) (Unix now)
      | None => failed
      end
  | _ => failed
  end.

(** Signing and sending the result. *)
Definition respond (runtime : Runtime) (r : Result) : prog :=
  match SignResult r runtime.(config).(Config_SigningKeyID) runtime.(config).(Config_SigningKey) with
  | Ret signed => Done (mkHttpResponse 200 headers (BodyMessage signed))
  | _ => writeError 503 "result_unavailable"
  end.

(** The instant at which the context of an execution ends. *)
Definition executionDeadline (runtime : Runtime) (a : Authorization) (now : Z) : Z :=
  let deadline := a.(Auth_ExpiresAt) * Second in
  let bound := now + runtime.(config).(Config_ExecutionTimeout) in
  if bound <? deadline then bound else deadline.

(** What follows the handler: the result is completed in the store, then sent. *)
Definition conclude (runtime : Runtime) (r : Result) (id digest : string)
    (output : outcome bridge_error (list byte)) : prog :=
  Now (fun now =>
    let r := finish r output now in
    CallComplete id digest r (fun err =>
      match err with
      | Ret _ => respond runtime r
      | _ => writeError 503 "outcome_unknown"
      end)).

(** The branch of [ServeHTTP] for a fresh reservation. *)
Definition run (runtime : Runtime) (a : Authorization) (r : Result) (id digest : string) : prog :=
  Now (fun now =>
    execute (executionDeadline runtime a now)
      (a.(Auth_Function) ≫= fun f => runtime.(functions) !! f) a (conclude runtime r id digest)).

(** The branch of [ServeHTTP] for an invocation. *)
Definition invoke (runtime : Runtime) (a : Authorization) (raw : list byte) (r : Result) : prog :=
  match Marshal (semantic a) with
  | None => writeError 400 "invalid_request"
  | Some semanticJSON =>
      let id := identity runtime a in
      let digest := Digest semanticJSON in
      CallReserve id digest (fun answer =>
        grantActive a (fun active =>
          if negb active then writeError 401 "unauthorized"
          else match answer with
          | Throw ErrInProgress | Throw ErrConflict => writeError 409 "operation_conflict"
          | Ret (Some stored) => respond runtime (withAuthorizationDigest stored (Digest raw))
          | Ret None => run runtime a r id digest
          | _ => writeError 503 "storage_unavailable"
          end))
  end.

(** [ServeHTTP] once the authorization has been verified. *)
Definition serveVerified (runtime : Runtime) (a : Authorization) (raw : list byte)
    (message : SignedMessage) : prog :=
  let invocation :=
    if bool_decide (a.(Auth_Kind) = "invocation") then Some (a, message) else None in
  CallAuthorize a message invocation (fun err =>
    match err with
    | Some ErrUnavailable => writeError 503 "authorization_unavailable"
    | Some _ => writeError 401 "unauthorized"
    | None =>
        grantActive a (fun active =>
          if negb active then writeError 401 "unauthorized"
          else Now (fun now =>
            if bool_decide (a.(Auth_Kind) = "challenge")
            then respond runtime (newResult a raw now a.(Auth_Nonce))
            else invoke runtime a raw (newResult a raw now "")))
    end).

Definition ServeHTTP (runtime : Runtime) (request : HttpRequest) : prog :=
  let path := request.(Request_Path) in
  if negb (bool_decide (path = "/v1/functions/challenge"))
     && negb (bool_decide (path = "/v1/functions/invoke"))
  then writeError 404 "not_found"
  else if negb (bool_decide (request.(Request_Method) = "POST")) then
    Done (mkHttpResponse 405 (<["Allow" := "POST"]> headers) (BodyCode "method_not_allowed"))
  else if negb (bool_decide (ParseMediaType request.(Request_ContentType) =
                             Some "application/json"))
          || negb (bool_decide (request.(Request_RawQuery) = ""))
  then writeError 400 "invalid_request"
  else
    let limit :=
      if bool_decide (path = "/v1/functions/challenge") then Z.shiftl 64 10
      else MaximumBodyBytes in
    match request.(Request_Body) with
    | None => writeError 400 "invalid_request"
    | Some body =>
        if limit <? len body then writeError 400 "invalid_request"
        else match strictJSON body with
        | Ret message =>
            match runtime.(config).(Config_TrustedKeys) !! message.(KeyID) with
            | None => writeError 401 "unauthorized"
            | Some key =>
                match VerifyAuthorization message key with
                | Ret (a, raw) =>
                    Now (fun now =>
                      if negb (validAuthorization runtime a path (Unix now))
                      then writeError 401 "unauthorized"
                      else serveVerified runtime a raw message)
                | _ => writeError 401 "unauthorized"
                end
            end
        | _ => writeError 400 "invalid_request"
        end
    end.

End Runtime.

(** * Execution

    A label is one effect with its answer; [lstep] lets the environment answer anything. *)
Inductive label : Type :=
| LNow (now : Z)
| LCtx (deadline : Z) (err : bool)
| LAuthorize (a : Authorization) (m : SignedMessage)
    (invocation : option (Authorization * SignedMessage)) (err : option bridge_error)
| LReserve (id digest : string) (answer : outcome bridge_error (option Result))
| LRun (h : nat) (a : Authorization) (o : handler_outcome)
| LComplete (id digest : string) (r : Result) (answer : outcome bridge_error unit).

Inductive lstep : prog → label → prog → Prop :=
| lstep_now k z : lstep (Now k) (LNow z) (k z)
| lstep_ctx d k e : lstep (CtxErr d k) (LCtx d e) (k e)
| lstep_authorize a m i k e : lstep (CallAuthorize a m i k) (LAuthorize a m i e) (k e)
| lstep_reserve id d k ans : lstep (CallReserve id d k) (LReserve id d ans) (k ans)
| lstep_run h a k o : lstep (CallHandler h a k) (LRun h a o) (k o)
| lstep_complete id d r k ans :
    lstep (CallComplete id d r k) (LComplete id d r ans) (k ans).

Inductive path : prog → list label → prog → Prop :=
| path_nil p : path p [] p
| path_cons p l q tr r : lstep p l q → path q tr r → path p (l :: tr) r.

(** * Interleaved requests over one store

    The requests in progress, the store they share, and the handler calls so far. A step
    starts a request, lets one request take a step, or loses all requests in progress (a
    restart): only the store survives. *)
Section System.
Context {S : Type} `{!ExecutionStore S}.

Record system : Type := mkSystem {
  sys_store : S;
  sys_requests : list prog;
  sys_runs : list Authorization
}.

(** What an effect does to the store and to the record of handler calls. *)
Inductive effect : label → S → S → list Authorization → Prop :=
| effect_reserve id d ans s s' : Reserve s id d ans s' → effect (LReserve id d ans) s s' []
| effect_complete id d r ans s s' :
    Complete s id d r ans s' → effect (LComplete id d r ans) s s' []
| effect_run h a o s : effect (LRun h a o) s s [a]
| effect_now z s : effect (LNow z) s s []
| effect_ctx d e s : effect (LCtx d e) s s []
| effect_authorize a m i e s : effect (LAuthorize a m i e) s s [].

Inductive sys_step (start : prog → Prop) : system → system → Prop :=
| sys_start p s ps runs :
    start p → sys_step start (mkSystem s ps runs) (mkSystem s (ps ++ [p]) runs)
| sys_request i p l q s s' ps runs new :
    ps !! i = Some p → lstep p l q → effect l s s' new →
    sys_step start (mkSystem s ps runs) (mkSystem s' (<[i := q]> ps) (new ++ runs))
| sys_restart s ps runs : sys_step start (mkSystem s ps runs) (mkSystem s [] runs).

(** A run of the system in which request [i] survives: its own effects, in order, among the
    steps of the others. *)
Inductive follow (start : prog → Prop) (i : nat) : system → list label → system → Prop :=
| follow_nil y : follow start i y [] y
| follow_other p y y1 tr y2 :
    sys_step start y y1 → y.(sys_requests) !! i = Some p → y1.(sys_requests) !! i = Some p →
    follow start i y1 tr y2 → follow start i y tr y2
| follow_own p l q s s' ps runs new tr y2 :
    ps !! i = Some p → lstep p l q → effect l s s' new →
    follow start i (mkSystem s' (<[i := q]> ps) (new ++ runs)) tr y2 →
    follow start i (mkSystem s ps runs) (l :: tr) y2.

End System.
Arguments system S : clear implicits.

(** * The discipline of a request

    [guarded held p]: in [p] the handler is called only for the identity of a reservation
    that this request made itself and has not used yet; results are completed only in
    the form JSON carries and under the identity they belong to. *)

(** A result that the runtime may complete under [id]: its own, for an invocation with this
    identity, and without an error code only with a canonical output. *)
Definition ownResult `{!RawJson} (rt : Runtime) (id : string) (r : Result) : Prop :=
  id = rt.(config).(Config_BindingID) +:+ ":" +:+ r.(Result_ID)
  ∧ cleanOutcome r ∧ r.(Result_ProtocolVersion) = ProtocolVersion
  ∧ r.(Result_Kind) = "invocation" ∧ r.(Result_Nonce) = ""
  ∧ r.(Result_BindingID) = rt.(config).(Config_BindingID)
  ∧ r.(Result_BindingRevision) = rt.(config).(Config_BindingRevision)
  ∧ r.(Result_ManifestDigest) = rt.(manifestDigest)
  ∧ (r.(Result_ErrorCode) = "" → Compact r.(Result_Output) = Some r.(Result_Output)).

Fixpoint guarded `{!RawJson} (rt : Runtime) (held : option string) (p : prog) : Prop :=
  match p with
  | Done _ => True
  | Now k => ∀ z, guarded rt held (k z)
  | CtxErr _ k => ∀ e, guarded rt held (k e)
  | CallAuthorize _ _ _ k => ∀ e, guarded rt held (k e)
  | CallReserve id _ k =>
      held = None ∧ guarded rt (Some id) (k (Ret None))
      ∧ (∀ ans, ans ≠ Ret None → guarded rt None (k ans))
  | CallHandler _ a k => held = Some (identity rt a) ∧ ∀ o, guarded rt None (k o)
  | CallComplete id _ r k =>
      cleanResult r ∧ ownResult rt id r ∧ ∀ ans, guarded rt held (k ans)
  end.

Section Lemmas.
Context `{!Ed25519} `{!RawJson} `{!RawJsonLaws} `{!Json (list Function)} `{!Json Authorization}
  `{!Json Result} `{!Json SignedMessage} (ParseMediaType : string → option string).

#[local] Arguments finish : simpl never.
#[local] Arguments respond : simpl never.

(** A runtime that [NewRuntime] built. *)
Definition built (rt : Runtime) : Prop :=
  ∃ c, NewRuntime c = Ret rt ∧ is_i64 c.(Config_BindingRevision).

Lemma manifestDigest_isDigest m d : ManifestDigest m = Ret d → isDigest d = true.
Proof.
  unfold ManifestDigest, manifestDigestSorted. repeat case_match; try done.
  intros [= <-]. apply isDigest_Digest.
Qed.

Lemma built_facts rt :
  built rt →
  identifier rt.(config).(Config_BindingID) 256 = true
  ∧ isDigest rt.(manifestDigest) = true
  ∧ is_i64 rt.(config).(Config_BindingRevision)
  ∧ identifier rt.(config).(Config_SigningKeyID) 256 = true
  ∧ len rt.(config).(Config_SigningKey) = PrivateKeySize
  ∧ 0 <= rt.(config).(Config_ExecutionTimeout) <= 300 * Second.
Proof.
  intros (c & Hc & Hr). revert Hc. unfold NewRuntime.
  destruct (_ || negb c.(Config_Authorize)) eqn:Hg; [done|].
  destruct (negb (bool_decide (map_Forall _ _))); [done|].
  intros ([fs hs] & _ & Hc)%bind_Ret_inv. apply bind_Ret_inv in Hc as (d & Hd & Hc).
  revert Hc. cbv zeta. generalize (if c.(Config_ExecutionTimeout) =? 0 then 30 * Second
    else c.(Config_ExecutionTimeout)) as t. intros t.
  destruct ((_ <? 0) || _) eqn:Ht; [done|]. intros [= <-]. breflect. simpl.
  do 5 (split; [eauto using manifestDigest_isDigest|]). lia.
Qed.

Lemma validAuthorization_facts rt a p now :
  validAuthorization rt a p now = true →
  identifier a.(Auth_ID) 256 = true
  ∧ a.(Auth_BindingID) = rt.(config).(Config_BindingID)
  ∧ a.(Auth_BindingRevision) = rt.(config).(Config_BindingRevision)
  ∧ a.(Auth_ManifestDigest) = rt.(manifestDigest)
  ∧ a.(Auth_Scope) = rt.(config).(Config_Scope)
  ∧ 0 < a.(Auth_IssuedAt) <= now ∧ now < a.(Auth_ExpiresAt)
  ∧ (is_i64 a.(Auth_ExpiresAt) → a.(Auth_ExpiresAt) <= a.(Auth_IssuedAt) + 300)
  ∧ ((p = "/v1/functions/challenge" ∧ a.(Auth_Kind) = "challenge"
      ∧ identifier a.(Auth_Nonce) 256 = true)
     ∨ (p ≠ "/v1/functions/challenge" ∧ a.(Auth_Kind) = "invocation" ∧ a.(Auth_Nonce) = ""
        ∧ ∃ f h, a.(Auth_Function) = Some f ∧ rt.(functions) !! f = Some h)).
Proof.
  unfold validAuthorization. destruct (_ || (300 <? _)) eqn:Hg; [done|]. breflect.
  intros Hk. do 5 (split; [done|]). split; [lia|]. split; [lia|]. split.
  { intros He. rewrite i64_id in *; [lia|]. unfold is_i64 in *. lia. }
  case_bool_decide as Hp.
  - left. breflect. done.
  - right. destruct (Auth_Function a) as [f|]; [|done].
    destruct (_ || _ && negb (isDigest _)) eqn:Hi; [done|].
    destruct (bool_decide (rt.(functions) !! f = None)) eqn:Hf; [done|]. breflect.
    split; [done|]. split; [done|]. split; [done|].
    destruct (rt.(functions) !! f) as [h|] eqn:Hh; [|done]. eauto.
Qed.

Lemma cleanString_identifier v n : identifier v n = true → cleanString v.
Proof. apply identifier_ValidString. Qed.

Lemma cleanString_isDigest v : isDigest v = true → cleanString v.
Proof. intros Hd%isDigest_identifier. by eapply cleanString_identifier. Qed.

(** The result of a valid authorization of a built runtime is clean, whatever the
    handler produced. *)
Lemma newResult_clean rt a p t raw now nonce :
  built rt → validAuthorization rt a p t = true → (nonce = "" ∨ nonce = a.(Auth_Nonce)) →
  cleanResult (newResult a raw now nonce).
Proof.
  intros Hb%built_facts Hv%validAuthorization_facts Hn.
  destruct Hb as (Hbind & Hman & Hrev & _). destruct Hv as (Hid & Hb & Hr & Hm & _ & _ & _ & _ & Hk).
  split; [|by left]. unfold cleanOutcome, newResult. simpl. rewrite Hb, Hr, Hm.
  assert (cleanString a.(Auth_Kind) ∧ cleanString nonce) as [Hkind Hnonce].
  { destruct Hk as [(_ & -> & Hno)|(_ & -> & Hno & _)]; (split; [done|]);
      destruct Hn as [->| ->]; try done; [by eapply cleanString_identifier|by rewrite Hno]. }
  split; repeat apply Forall_cons_2; eauto using cleanString_identifier, cleanString_isDigest,
    cleanString_Digest, i64_range, Forall_nil_2; try done.
Qed.

Lemma finish_clean r output now : cleanResult r → cleanResult (finish r output now).
Proof.
  intros [[Hs Hz] Hraw]. unfold finish.
  assert (Hz' : Forall is_i64 [r.(Result_ProtocolVersion); r.(Result_BindingRevision); Unix now]).
  { repeat apply Forall_cons_2; try apply Forall_nil_2; try apply i64_range.
    all: by repeat (apply Forall_cons in Hz as [? Hz]). }
  assert (Hf : cleanResult (mkResult r.(Result_ID) r.(Result_BindingID) r.(Result_ManifestDigest)
      r.(Result_AuthorizationDigest) r.(Result_Kind) r.(Result_Nonce) "outcome_unknown"
      r.(Result_Output) r.(Result_ProtocolVersion) r.(Result_BindingRevision) (Unix now))).
  { split; [|done]. split; [|done]. simpl. repeat (apply Forall_cons in Hs as [? Hs]).
    repeat apply Forall_cons_2; try done. }
  destruct output as [output|e| |]; try exact Hf.
  destruct (Compact output) as [c|] eqn:Hc; [|exact Hf]. destruct (_ || _ || _); [exact Hf|].
  split; [split; [done|done]|]. right. by apply Compact_idem in Hc as [? _].
Qed.

(** A result that belongs to an authorization, except for its digest. *)
Definition resultOf (a : Authorization) (r : Result) : Prop :=
  cleanOutcome r ∧ r.(Result_ProtocolVersion) = ProtocolVersion
  ∧ r.(Result_ID) = a.(Auth_ID) ∧ r.(Result_Kind) = a.(Auth_Kind)
  ∧ r.(Result_BindingID) = a.(Auth_BindingID)
  ∧ r.(Result_BindingRevision) = a.(Auth_BindingRevision)
  ∧ r.(Result_ManifestDigest) = a.(Auth_ManifestDigest) ∧ r.(Result_Nonce) = a.(Auth_Nonce).

Lemma newResult_resultOf rt a p t raw now nonce :
  built rt → validAuthorization rt a p t = true →
  (nonce = a.(Auth_Nonce) ∨ nonce = "" ∧ a.(Auth_Kind) ≠ "challenge") →
  resultOf a (newResult a raw now nonce).
Proof.
  intros Hb Hv Hn. unfold resultOf. split.
  - apply (newResult_clean rt a p t raw now nonce); try done. naive_solver.
  - apply validAuthorization_facts in Hv as (_ & _ & _ & _ & _ & _ & _ & _ & Hk).
    simpl. repeat split. destruct Hn as [->|[-> Hne]]; [done|]. naive_solver.
Qed.

Lemma finish_resultOf a r output now :
  resultOf a r → cleanResult r → resultOf a (finish r output now)
  ∧ (finish r output now).(Result_AuthorizationDigest) = r.(Result_AuthorizationDigest).
Proof.
  intros Hr Hc. pose proof (finish_clean r output now Hc) as [Ho _]. revert Ho.
  unfold resultOf in *. unfold finish. destruct output as [output|e| |]; try naive_solver.
  destruct (Compact output); [|naive_solver]. destruct (_ || _ || _); naive_solver.
Qed.

(** A finished result without an error code has a canonical output. *)
Lemma finish_canonical r output now :
  r.(Result_ErrorCode) = "" → (finish r output now).(Result_ErrorCode) = "" →
  Compact (finish r output now).(Result_Output) = Some (finish r output now).(Result_Output).
Proof.
  intros Hr. unfold finish. destruct output as [output|e| |]; try done.
  destruct (Compact output) as [c|] eqn:Hc; [|done]. destruct (_ || _ || _); [done|]. intros _. simpl.
  by apply Compact_idem in Hc as [? _].
Qed.

(** The result of a run belongs to its identity. *)
Lemma finish_own rt a p t raw start output now :
  built rt → validAuthorization rt a p t = true → a.(Auth_Kind) ≠ "challenge" →
  ownResult rt (identity rt a) (finish (newResult a raw start "") output now).
Proof.
  intros Hb Hv Hk.
  destruct (finish_resultOf a (newResult a raw start "") output now)
    as [(Hc & Hver & Hid & Hkind & Hbind & Hrev & Hman & Hnonce) _];
    [by eapply newResult_resultOf; eauto|by eapply newResult_clean; eauto|].
  apply validAuthorization_facts in Hv as (_ & Hb' & Hr & Hm & _ & _ & _ & _ & Hkinds).
  unfold ownResult, identity. rewrite Hid, Hver, Hkind, Hbind, Hrev, Hman, Hnonce.
  do 3 (split; [done|]). split; [naive_solver|]. split; [naive_solver|]. do 3 (split; [done|]).
  by apply finish_canonical.
Qed.

(** A result stored under the identity of a valid invocation belongs to it. *)
Lemma own_resultOf rt a p t r :
  validAuthorization rt a p t = true → a.(Auth_Kind) ≠ "challenge" →
  ownResult rt (identity rt a) r → resultOf a r.
Proof.
  intros Hv Hk (Hid & Hc & Hver & Hkind & Hnonce & Hbind & Hrev & Hman & _).
  apply validAuthorization_facts in Hv as (_ & Hb' & Hr & Hm & _ & _ & _ & _ & Hkinds).
  unfold identity in Hid. do 2 apply (inj (String.append _)) in Hid. unfold resultOf.
  rewrite Hver, Hkind, Hnonce, Hbind, Hrev, Hman, Hb', Hr, Hm, Hid. naive_solver.
Qed.

Lemma guarded_respond rt held r : guarded rt held (respond rt r).
Proof. unfold respond. by destruct (SignResult _ _ _). Qed.

Lemma guarded_grantActive rt held a k :
  (∀ b, guarded rt held (k b)) → guarded rt held (grantActive a k).
Proof. intros Hk [|]; simpl; auto. Qed.

Lemma guarded_conclude rt held r id d output :
  cleanResult r → (∀ now, ownResult rt id (finish r output now)) →
  guarded rt held (conclude rt r id d output).
Proof.
  intros Hr Ho z. split; [by apply finish_clean|]. split; [done|]. intros [[]|e| |]; try done. apply guarded_respond.
Qed.

Lemma guarded_run rt a r id d :
  cleanResult r → id = identity rt a → (∀ output now, ownResult rt id (finish r output now)) →
  guarded rt (Some id) (run rt a r id d).
Proof.
  intros Hr -> Ho z. unfold execute. intros [|]; [by apply guarded_conclude|].
  destruct (Auth_Function a ≫= _) as [h|]; [|by apply guarded_conclude].
  split; [done|]. intros [out| |]; [intros [|]|intros [|]|]; by apply guarded_conclude.
Qed.

Lemma guarded_ServeHTTP rt request : built rt → guarded rt None (ServeHTTP ParseMediaType rt request).
Proof.
  intros Hb. unfold ServeHTTP. destruct (negb _ && negb _); [done|]. destruct (negb _); [done|].
  destruct (negb _ || negb _); [done|]. destruct (Request_Body request) as [body|]; [|done].
  destruct (_ <? len body); [done|]. destruct (strictJSON body) as [message| | |]; try done.
  destruct (_ !! KeyID message) as [key|]; [|done].
  destruct (VerifyAuthorization message key) as [[a raw]| | |]; try done. intros now.
  destruct (validAuthorization _ _ _ _) eqn:Hv; simpl; [|done].
  intros [[]|]; try done. apply guarded_grantActive. intros [|]; [|done]. intros z. simpl.
  case_bool_decide; [apply guarded_respond|]. unfold invoke.
  destruct (Marshal (semantic _)); [|done]. simpl. split; [done|].
  split.
  - intros [|]; [done|]. intros z'. destruct (_ <? _); simpl; [|done].
    apply guarded_run; [|done|]; [by eapply newResult_clean; eauto|].
    intros. by eapply finish_own.
  - intros [[r|]|[]| |] Hans; try done; intros [|]; try done; intros z';
      destruct (_ <? _); try done; apply guarded_respond.
Qed.

(** * Paths of one request *)

(** The request carries [message], which a trusted key verified as [a]. *)
Definition verified (rt : Runtime) (request : HttpRequest) (message : SignedMessage)
    (a : Authorization) (raw : list byte) : Prop :=
  ∃ body key, request.(Request_Body) = Some body ∧ strictJSON body = Ret message
    ∧ rt.(config).(Config_TrustedKeys) !! message.(KeyID) = Some key
    ∧ VerifyAuthorization message key = Ret (a, raw).

Lemma verified_unique rt request m1 a1 raw1 m2 a2 raw2 :
  verified rt request m1 a1 raw1 → verified rt request m2 a2 raw2 →
  m1 = m2 ∧ a1 = a2 ∧ raw1 = raw2.
Proof. intros (b1 & k1 & ? & ? & ? & ?) (b2 & k2 & ? & ? & ? & ?). naive_solver congruence. Qed.

(** A request is refused at once, or it is verified and its checks begin. *)
Lemma ServeHTTP_cases rt request :
  (∃ status h code, ServeHTTP ParseMediaType rt request =
     Done (mkHttpResponse status h (BodyCode code)))
  ∨ ∃ message a raw, verified rt request message a raw
    ∧ ServeHTTP ParseMediaType rt request =
      Now (fun now => if negb (validAuthorization rt a request.(Request_Path) (Unix now))
                      then writeError 401 "unauthorized" else serveVerified rt a raw message).
Proof.
  unfold ServeHTTP. destruct (negb _ && negb _); [by left; do 3 eexists|].
  destruct (negb _); [by left; do 3 eexists|].
  destruct (negb _ || negb _); [by left; do 3 eexists|].
  destruct (Request_Body request) as [body|] eqn:Hbody; [|by left; do 3 eexists].
  destruct (_ <? len body); [by left; do 3 eexists|].
  destruct (strictJSON body) as [message| | |] eqn:Hm; try by left; do 3 eexists.
  destruct (_ !! KeyID message) as [key|] eqn:Hk; [|by left; do 3 eexists].
  destruct (VerifyAuthorization message key) as [[a raw]| | |] eqn:Hv; try by left; do 3 eexists.
  right. exists message, a, raw. split; [|done]. by exists body, key.
Qed.

(** One step along a path. *)
Ltac path_inv H :=
  let Hl := fresh in let Hrest := fresh in
  inversion H as [|? ? ? ? ? Hl Hrest]; subst; clear H;
  try (inversion Hl; subst; clear Hl; rename Hrest into H).

Lemma path_grantActive a k tr q :
  path (grantActive a k) tr q → (∀ d k, q ≠ CtxErr d k) → (∀ k, q ≠ Now k) →
  ∃ tr', (tr = LCtx (a.(Auth_ExpiresAt) * Second) true :: tr' ∧ path (k false) tr' q)
    ∨ ∃ t, tr = LCtx (a.(Auth_ExpiresAt) * Second) false :: LNow t :: tr'
        ∧ path (k (Unix t <? a.(Auth_ExpiresAt))) tr' q.
Proof.
  intros Hp Hq1 Hq2. unfold grantActive in Hp. path_inv Hp; [by destruct (Hq1 _ _ eq_refl)|].
  match type of Hp with path (if ?e then _ else _) _ _ => destruct e end; [by eauto|].
  path_inv Hp; [by destruct (Hq2 _ eq_refl)|]. eauto 10.
Qed.

(** Programs that never call a handler. *)
Fixpoint silent (p : prog) : Prop :=
  match p with
  | Done _ => True
  | Now k => ∀ z, silent (k z)
  | CtxErr _ k => ∀ e, silent (k e)
  | CallAuthorize _ _ _ k => ∀ e, silent (k e)
  | CallReserve _ _ k => ∀ ans, silent (k ans)
  | CallHandler _ _ _ => False
  | CallComplete _ _ _ k => ∀ ans, silent (k ans)
  end.

Lemma silent_path p tr q : silent p → path p tr q → silent q ∧ ∀ h a o, LRun h a o ∉ tr.
Proof.
  intros Hs Hp. induction Hp as [p|p l q tr r Hl Hp IH]; [split; [done|intros *; apply not_elem_of_nil]|].
  assert (silent q) as Hq by (destruct Hl; naive_solver). destruct (IH Hq) as [Hr Hn].
  split; [done|]. intros h a o. apply not_elem_of_cons. split; [|done]. by destruct Hl.
Qed.

Lemma silent_respond rt r : silent (respond rt r).
Proof. unfold respond. by destruct (SignResult _ _ _). Qed.

Lemma silent_conclude rt r id d output : silent (conclude rt r id d output).
Proof. intros z [[]|e| |]; try done. apply silent_respond. Qed.

Lemma silent_handler p tr h a k : silent p → ¬ path p tr (CallHandler h a k).
Proof. intros Hs Hp. by destruct (silent_path _ _ _ Hs Hp). Qed.

Lemma path_run_handler rt a r id d tr h a' k :
  path (run rt a r id d) tr (CallHandler h a' k) →
  a' = a ∧ ∃ t f, tr = [LNow t; LCtx (executionDeadline rt a t) false]
    ∧ a.(Auth_Function) = Some f ∧ rt.(functions) !! f = Some h.
Proof.
  intros Hp. unfold run in Hp. path_inv Hp. unfold execute in Hp. path_inv Hp.
  match type of Hp with path (if ?e then _ else _) _ _ => destruct e end;
    [by apply silent_handler in Hp; [|apply silent_conclude]|].
  destruct (Auth_Function a ≫= _) as [h'|] eqn:Hf;
    [|by apply silent_handler in Hp; [|apply silent_conclude]].
  path_inv Hp.
  - apply bind_Some in Hf as (f & Hf & Hh). split; [done|]. by exists z, f.
  - exfalso. apply silent_handler in Hp; [done|].
    destruct o; [intros [|]|intros [|]|]; apply silent_conclude.
Qed.

Lemma path_grantActive_handler a k tr h a' k' :
  path (grantActive a k) tr (CallHandler h a' k') → silent (k false) →
  ∃ t tr', tr = LCtx (a.(Auth_ExpiresAt) * Second) false :: LNow t :: tr'
    ∧ Unix t < a.(Auth_ExpiresAt) ∧ path (k true) tr' (CallHandler h a' k').
Proof.
  intros Hp Hk. apply path_grantActive in Hp as (tr' & [[_ Hp]|(t & -> & Hp)]); [..|done|done].
  - by apply silent_handler in Hp.
  - destruct (Z.ltb_spec (Unix t) a.(Auth_ExpiresAt)); [|by apply silent_handler in Hp]. eauto.
Qed.

(** Where a signed answer comes from. *)
Definition sent (rt : Runtime) (r : Result) (response : HttpResponse) : Prop :=
  ∃ message, response = mkHttpResponse 200 headers (BodyMessage message)
    ∧ SignResult r rt.(config).(Config_SigningKeyID) rt.(config).(Config_SigningKey) = Ret message.

Definition isMessage (response : HttpResponse) : bool :=
  match response.(Response_Body) with BodyMessage _ => true | BodyCode _ => false end.

Lemma path_respond rt r tr response :
  path (respond rt r) tr (Done response) → isMessage response = true →
  tr = [] ∧ sent rt r response.
Proof.
  unfold respond. intros Hp Hm. destruct (SignResult _ _ _) as [m| | |] eqn:Hs; path_inv Hp; try done.
  split; [done|]. by exists m.
Qed.

Lemma path_code status code tr response :
  path (writeError status code) tr (Done response) → isMessage response = false.
Proof. intros Hp. by path_inv Hp. Qed.

Lemma path_conclude rt r id d output tr response :
  path (conclude rt r id d output) tr (Done response) → isMessage response = true →
  ∃ now, sent rt (finish r output now) response.
Proof.
  intros Hp Hm. unfold conclude in Hp. path_inv Hp. path_inv Hp.
  destruct ans as [[]|e| |]; try by apply path_code in Hp; rewrite Hp in Hm.
  exists z. by eapply path_respond.
Qed.

Lemma path_run rt a r id d tr response :
  path (run rt a r id d) tr (Done response) → isMessage response = true →
  ∃ output now, sent rt (finish r output now) response.
Proof.
  intros Hp Hm. unfold run in Hp. path_inv Hp. unfold execute in Hp. path_inv Hp.
  destruct e; [eauto using path_conclude|].
  destruct (Auth_Function a ≫= _) as [h|]; [|eauto using path_conclude]. path_inv Hp.
  destruct o; [path_inv Hp|path_inv Hp|]; eauto using path_conclude.
Qed.

Lemma path_grantActive_Done a k tr response :
  path (grantActive a k) tr (Done response) → isMessage response = true →
  (∃ status code, k false = writeError status code) →
  ∃ t tr', tr = LCtx (a.(Auth_ExpiresAt) * Second) false :: LNow t :: tr'
    ∧ Unix t < a.(Auth_ExpiresAt) ∧ path (k true) tr' (Done response).
Proof.
  intros Hp Hm (status & code & Hk).
  apply path_grantActive in Hp as (tr' & [[_ Hp]|(t & -> & Hp)]); [..|done|done].
  - rewrite Hk in Hp. apply path_code in Hp. by rewrite Hp in Hm.
  - destruct (Z.ltb_spec (Unix t) a.(Auth_ExpiresAt)); [by eauto|].
    rewrite Hk in Hp. apply path_code in Hp. by rewrite Hp in Hm.
Qed.

(** The ways an invocation is answered with a result: replayed from the store, or run. *)
Lemma path_invoke rt a raw r tr response :
  path (invoke rt a raw r) tr (Done response) → isMessage response = true →
  ∃ json ans tr', Marshal (semantic a) = Some json
    ∧ tr = LReserve (identity rt a) (Digest json) ans :: tr'
    ∧ ((∃ stored, ans = Ret (Some stored)
        ∧ sent rt (withAuthorizationDigest stored (Digest raw)) response
        ∧ ∀ h a' o, LRun h a' o ∉ tr)
       ∨ (ans = Ret None ∧ ∃ output now, sent rt (finish r output now) response)).
Proof.
  intros Hp Hm. unfold invoke in Hp.
  destruct (Marshal (semantic a)) as [json|]; [|by apply path_code in Hp; rewrite Hp in Hm].
  path_inv Hp. exists json, ans. eexists. do 2 (split; [done|]).
  apply path_grantActive_Done in Hp as (t & tr' & -> & _ & Hp); [|done|by do 2 eexists].
  simpl in Hp. destruct ans as [[stored|]|[]| |];
    try by apply path_code in Hp; rewrite Hp in Hm.
  - left. exists stored. apply path_respond in Hp as [-> Hs]; [|done]. split; [done|].
    split; [done|]. intros *. rewrite !not_elem_of_cons. repeat split; try done.
    apply not_elem_of_nil.
  - right. split; [done|]. by eapply path_run.
Qed.

(** * Safety of the interleavings *)
Context {S : Type} `{!ExecutionStore S} `{!ExecutionStoreLaws S}.

Definition requestOf (rt : Runtime) (p : prog) : Prop :=
  ∃ request, p = ServeHTTP ParseMediaType rt request.

(** The requests that hold an unused reservation of [id], and the runs of [id]. *)
Definition holders (id : string) (helds : list (option string)) : nat :=
  length (filter (fun h => h = Some id) helds).

Definition runsOf (rt : Runtime) (id : string) (runs : list Authorization) : nat :=
  length (filter (fun a => identity rt a = id) runs).

(** Every reservation is in the journal and is either still held or was used once. *)
Definition sys_inv (rt : Runtime) (y : system S) : Prop :=
  store_ok y.(sys_store) ∧
  ∃ helds, Forall2 (guarded rt) helds y.(sys_requests) ∧
    ∀ id, (holders id helds + runsOf rt id y.(sys_runs) <=
           match journal y.(sys_store) !! id with Some _ => 1 | None => 0 end)%nat.

Lemma holders_app id l1 l2 : holders id (l1 ++ l2) = (holders id l1 + holders id l2)%nat.
Proof. unfold holders. by rewrite filter_app, length_app. Qed.

Lemma holders_insert id helds i h h' :
  helds !! i = Some h →
  (holders id (<[i := h']> helds) + (if decide (h = Some id) then 1 else 0) =
   holders id helds + (if decide (h' = Some id) then 1 else 0))%nat.
Proof.
  intros Hi. rewrite <- (take_drop_middle helds i h Hi) at 2.
  rewrite insert_take_drop by (by eapply lookup_lt_Some).
  rewrite !holders_app. unfold holders. rewrite !filter_cons.
  repeat case_decide; simpl; try done; lia.
Qed.

(** What a label does to the reservation a request holds, and what it demands. *)
Definition held_after (held : option string) (l : label) : option string :=
  match l with
  | LReserve id _ (Ret None) => Some id
  | LReserve _ _ _ | LRun _ _ _ => None
  | _ => held
  end.

Lemma guarded_lstep rt held p l q :
  guarded rt held p → lstep p l q →
  guarded rt (held_after held l) q
  ∧ match l with
    | LReserve _ _ _ => held = None
    | LRun _ a _ => held = Some (identity rt a)
    | LComplete id _ r _ => cleanResult r ∧ ownResult rt id r
    | _ => True
    end.
Proof.
  intros Hg Hl. destruct Hl; simpl in *; try naive_solver.
  destruct Hg as (-> & Hnew & Hother). split; [|done].
  destruct ans as [[r|]|e| |]; try done; by apply Hother.
Qed.

Lemma sys_inv_effect rt held l s s' new helds runs i :
  store_ok s → helds !! i = Some held → effect l s s' new →
  match l with
  | LReserve _ _ _ => held = None
  | LRun _ a _ => held = Some (identity rt a)
  | LComplete id _ r _ => cleanResult r ∧ ownResult rt id r
  | _ => True
  end →
  (∀ id, (holders id helds + runsOf rt id runs <=
          match journal s !! id with Some _ => 1 | None => 0 end)%nat) →
  store_ok s' ∧
  ∀ id, (holders id (<[i := held_after held l]> helds) + runsOf rt id (new ++ runs) <=
         match journal s' !! id with Some _ => 1 | None => 0 end)%nat.
Proof.
  intros Hok Hi Heff Hl Hinv.
  assert (Hins : ∀ h id, (holders id (<[i := h]> helds) + (if decide (held = Some id) then 1 else 0)
     = holders id helds + (if decide (h = Some id) then 1 else 0))%nat)
    by (intros; by apply holders_insert).
  assert (Hmono : ∀ j j', journal_le j j' → ∀ id,
    (match j !! id with Some _ => 1 | None => 0 end <=
     match j' !! id with Some _ => 1 | None => 0 end)%nat).
  { intros j j' Hle id. destruct (j !! id) as [[d o]|] eqn:Hj; [|lia].
    by destruct (Hle _ _ _ Hj) as (o' & -> & _). }
  destruct Heff as [id d ans s s' Hres|id d r ans s s' Hcomp|h a o s|z s|d e s|a m inv e s];
    simpl in *.
  - subst held. split; [by eapply Reserve_ok|]. intros id'.
    pose proof (Hmono _ _ (Reserve_le _ _ _ _ _ Hok Hres) id') as Hle. specialize (Hinv id').
    destruct ans as [[r|]|e| |]; try (specialize (Hins None id'); simpl in Hins; lia).
    destruct (Reserve_new _ _ _ _ Hok Hres) as [Hn Hj]. specialize (Hins (Some id) id').
    rewrite Hj in *. destruct (decide (id = id')) as [<-|Hne].
    + rewrite Hn in Hinv. rewrite lookup_insert_eq. simpl in Hins. case_decide; [|done]. lia.
    + simpl in Hins. rewrite decide_False in Hins by congruence. lia.
  - split; [by eapply Complete_ok; [..|apply Hl|]|]. intros id'.
    pose proof (Hmono _ _ (Complete_le _ _ _ _ _ _ Hok (proj1 Hl) Hcomp) id').
    specialize (Hins held id'). specialize (Hinv id'). lia.
  - subst held. split; [done|]. intros id'. specialize (Hins None id'). specialize (Hinv id').
    simpl in Hins. unfold runsOf in *. rewrite filter_cons.
    repeat case_decide; simpl; try congruence; lia.
  - split; [done|]. intros id'. specialize (Hins held id'). specialize (Hinv id'). lia.
  - split; [done|]. intros id'. specialize (Hins held id'). specialize (Hinv id'). lia.
  - split; [done|]. intros id'. specialize (Hins held id'). specialize (Hinv id'). lia.
Qed.

Lemma sys_inv_step rt y y' :
  built rt → sys_inv rt y → sys_step (requestOf rt) y y' → sys_inv rt y'.
Proof.
  intros Hb (Hok & helds & Hg & Hinv) Hstep.
  destruct Hstep as [p s ps runs [request ->]|i p l q s s' ps runs new Hp Hl Heff|s ps runs];
    simpl in *.
  - split; [done|]. exists (helds ++ [None]). split.
    + apply Forall2_app; [done|]. constructor; [by apply guarded_ServeHTTP|constructor].
    + intros id. rewrite holders_app. specialize (Hinv id). unfold holders at 2. simpl. lia.
  - destruct (Forall2_lookup_r _ _ _ _ _ Hg Hp) as (held & Hi & Hheld).
    destruct (guarded_lstep _ _ _ _ _ Hheld Hl) as [Hq Hdem].
    destruct (sys_inv_effect _ _ _ _ _ _ _ _ _ Hok Hi Heff Hdem Hinv) as [Hok' Hinv'].
    split; [done|]. exists (<[i := held_after held l]> helds). split; [|done].
    by apply Forall2_insert.
  - split; [done|]. exists []. split; [constructor|]. intros id. specialize (Hinv id).
    unfold holders. simpl. lia.
Qed.

(** The journal only grows along every run of the system. *)
Lemma sys_step_le rt y y' :
  built rt → sys_inv rt y → sys_step (requestOf rt) y y' →
  journal_le (journal y.(sys_store)) (journal y'.(sys_store)).
Proof.
  intros Hb (Hok & helds & Hg & _) Hstep.
  destruct Hstep as [p s ps runs _|i p l q s s' ps runs new Hp Hl Heff|s ps runs]; simpl in *;
    [done| |done].
  destruct (Forall2_lookup_r _ _ _ _ _ Hg Hp) as (held & _ & Hheld).
  destruct (guarded_lstep _ _ _ _ _ Hheld Hl) as [_ Hdem].
  destruct Heff; try done; [by eapply Reserve_le|by destruct Hdem; eapply Complete_le].
Qed.

Lemma sys_reach_le rt y y' :
  built rt → sys_inv rt y → rtc (sys_step (requestOf rt)) y y' →
  sys_inv rt y' ∧ journal_le (journal y.(sys_store)) (journal y'.(sys_store)).
Proof.
  intros Hb Hinv Hr. revert y' Hr.
  apply (rtc_ind_r (R := sys_step (requestOf rt)) (fun y' => sys_inv rt y' ∧
    journal_le (journal y.(sys_store)) (journal y'.(sys_store))) y); [done|].
  intros y1 y2 _ Hs [Hi Hle]. split; [by eapply sys_inv_step|].
  etransitivity; [done|]. by eapply sys_step_le.
Qed.

Lemma sys_inv_initial rt s : store_ok s → sys_inv rt (mkSystem s [] []).
Proof.
  intros Hok. split; [done|]. exists []. split; [constructor|]. intros id.
  unfold holders, runsOf. simpl. case_match; lia.
Qed.

(** C1: the handler of a function runs at most once per invocation identity. However many
    requests arrive, however their steps interleave over the shared store, whatever the
    clock, the contexts, the authorization callback and the handlers answer, and however
    often the process restarts, the handler is called at most once for each identity,
    and only for identities that the store has recorded. *)
Theorem at_most_once rt s y id :
  built rt → store_ok s →
  rtc (sys_step (requestOf rt)) (mkSystem s [] []) y →
  (runsOf rt id y.(sys_runs) <= 1)%nat
  ∧ (runsOf rt id y.(sys_runs) = 1%nat → is_Some (journal y.(sys_store) !! id)).
Proof.
  intros Hb Hok Hr.
  destruct (sys_reach_le _ _ _ Hb (sys_inv_initial rt s Hok) Hr) as [Hinv _].
  destruct Hinv as (_ & helds & _ & Hcount). specialize (Hcount id).
  destruct (journal (sys_store y) !! id); split; try lia. by intros.
Qed.

(** C2: the handler is entered only with current authority. On every path of a request
    to the call of a handler, the message was verified under a trusted key, its
    authorization was valid at the first clock reading, the authorization callback
    accepted it with this invocation in the context, the grant had not expired after
    that callback nor after the reservation, the store gave out a new reservation, and
    the handler is the one registered for the authorized function. *)
Theorem run_authorized rt request tr h a k :
  path (ServeHTTP ParseMediaType rt request) tr (CallHandler h a k) →
  let expiry := a.(Auth_ExpiresAt) * Second in
  ∃ message raw digest f t0 t1 t2 t3 t4,
    verified rt request message a raw
    ∧ validAuthorization rt a request.(Request_Path) (Unix t0) = true
    ∧ a.(Auth_Function) = Some f ∧ rt.(functions) !! f = Some h
    ∧ Unix t1 < a.(Auth_ExpiresAt) ∧ Unix t3 < a.(Auth_ExpiresAt)
    ∧ tr = [LNow t0; LAuthorize a message (Some (a, message)) None; LCtx expiry false; LNow t1;
            LNow t2; LReserve (identity rt a) digest (Ret None); LCtx expiry false; LNow t3;
            LNow t4; LCtx (executionDeadline rt a t4) false].
Proof.
  intros Hp. destruct (ServeHTTP_cases rt request)
    as [(st & hd & c & Heq)|(message & a0 & raw & Hver & Heq)]; rewrite Heq in Hp; [path_inv Hp|].
  path_inv Hp. destruct (validAuthorization _ _ _ _) eqn:Hv; [|path_inv Hp]. unfold serveVerified in Hp.
  simpl in Hp. path_inv Hp. destruct e as [[]|]; try by path_inv Hp.
  apply path_grantActive_handler in Hp as (t1 & tr1 & -> & Ht1 & Hp); [|done].
  simpl in Hp. path_inv Hp. case_bool_decide as Hc.
  { exfalso. by apply silent_handler in Hp; [|apply silent_respond]. }
  unfold invoke in Hp. destruct (Marshal (semantic a0)) as [json|]; [|path_inv Hp].
  path_inv Hp. apply path_grantActive_handler in Hp as (t3 & tr3 & -> & Ht3 & Hp); [|done].
  simpl in Hp. destruct ans as [[stored|]|[]| |]; try by path_inv Hp.
  { exfalso. by apply silent_handler in Hp; [|apply silent_respond]. }
  apply path_run_handler in Hp as (-> & t4 & f & -> & Hf & Hh).
  rewrite bool_decide_eq_true_2.
  2:{ destruct (validAuthorization_facts _ _ _ _ Hv) as (_ & _ & _ & _ & _ & _ & _ & _ & Hk).
      naive_solver. }
  by exists message, raw, (Digest json), f, z, t1, z0, t3, t4.
Qed.

(** Conversely, a verified and valid invocation reaches the store, and then its handler or the
    replay of its result, when the environment lets it. *)
Definition deliverable (rt : Runtime) (request : HttpRequest) (message : SignedMessage)
    (a : Authorization) (raw : list byte) (t0 : Z) : Prop :=
  request.(Request_Path) = "/v1/functions/invoke" ∧ request.(Request_Method) = "POST"
  ∧ request.(Request_RawQuery) = ""
  ∧ ParseMediaType request.(Request_ContentType) = Some "application/json"
  ∧ (∀ body, request.(Request_Body) = Some body → len body <= MaximumBodyBytes)
  ∧ verified rt request message a raw
  ∧ validAuthorization rt a request.(Request_Path) (Unix t0) = true.

Lemma path_app p tr q tr' r : path p tr q → path q tr' r → path p (tr ++ tr') r.
Proof. intros Hp Hr. induction Hp; [done|]. simpl. econstructor; eauto. Qed.

Lemma reserve_reached rt request message a raw json ans t0 t1 t2 :
  deliverable rt request message a raw t0 → Unix t1 < a.(Auth_ExpiresAt) →
  Marshal (semantic a) = Some json →
  path (ServeHTTP ParseMediaType rt request)
    [LNow t0; LAuthorize a message (Some (a, message)) None; LCtx (a.(Auth_ExpiresAt) * Second) false;
     LNow t1; LNow t2; LReserve (identity rt a) (Digest json) ans]
    (grantActive a (fun active =>
       if negb active then writeError 401 "unauthorized"
       else match ans with
       | Throw ErrInProgress | Throw ErrConflict => writeError 409 "operation_conflict"
       | Ret (Some stored) => respond rt (withAuthorizationDigest stored (Digest raw))
       | Ret None => run rt a (newResult a raw t2 "") (identity rt a) (Digest json)
       | _ => writeError 503 "storage_unavailable"
       end)).
Proof.
  intros (Hpath & Hmethod & Hquery & Hmime & Hsize & (body & key & Hbody & Hm & Hk & Hv) & Hvalid)
    Ht1 Hjson.
  assert (Heq : ServeHTTP ParseMediaType rt request =
    Now (fun now => if negb (validAuthorization rt a request.(Request_Path) (Unix now))
                    then writeError 401 "unauthorized" else serveVerified rt a raw message)).
  { unfold ServeHTTP. rewrite Hpath, Hmethod, Hmime, Hquery, Hbody. simpl.
    specialize (Hsize _ Hbody). rewrite (proj2 (Z.ltb_ge _ _)) by done. by rewrite Hm, Hk, Hv. }
  rewrite Heq. econstructor; [constructor|]. rewrite Hvalid. simpl.
  assert (Hkind : a.(Auth_Kind) = "invocation").
  { rewrite Hpath in Hvalid.
    destruct (validAuthorization_facts _ _ _ _ Hvalid) as (_ & _ & _ & _ & _ & _ & _ & _ & Hkind).
    naive_solver. }
  unfold serveVerified. rewrite bool_decide_eq_true_2 by done. econstructor; [constructor|].
  econstructor; [constructor|]. econstructor; [constructor|].
  rewrite (proj2 (Z.ltb_lt _ _)) by done. econstructor; [constructor|].
  rewrite bool_decide_eq_false_2 by (by rewrite Hkind).
  unfold invoke. rewrite Hjson. econstructor; [constructor|]. constructor.
Qed.

(** The labels of a request up to its handler. *)
Definition runLabels (rt : Runtime) (message : SignedMessage) (a : Authorization) (digest : string)
    (t : Z) : list label :=
  [LNow t; LAuthorize a message (Some (a, message)) None; LCtx (a.(Auth_ExpiresAt) * Second) false;
   LNow t; LNow t; LReserve (identity rt a) digest (Ret None);
   LCtx (a.(Auth_ExpiresAt) * Second) false; LNow t;
   LNow t; LCtx (executionDeadline rt a t) false].

Lemma handler_reached rt request message a raw json f h t :
  deliverable rt request message a raw t → Unix t < a.(Auth_ExpiresAt) →
  Marshal (semantic a) = Some json → a.(Auth_Function) = Some f → rt.(functions) !! f = Some h →
  ∃ k, path (ServeHTTP ParseMediaType rt request) (runLabels rt message a (Digest json) t)
      (CallHandler h a k)
    ∧ k HandlerPanics = conclude rt (newResult a raw t "") (identity rt a) (Digest json)
        (Throw ErrUnavailable).
Proof.
  intros Hdel Ht Hjson Hf Hh.
  pose proof (reserve_reached _ _ _ _ _ _ (Ret None) t t t Hdel Ht Hjson) as Hp.
  eexists. split.
  - eapply (path_app _ _ _ [_; _; _; _] _ Hp). econstructor; [constructor|].
    econstructor; [constructor|]. rewrite (proj2 (Z.ltb_lt _ _)) by done.
    econstructor; [constructor|]. econstructor; [constructor|]. rewrite Hf. simpl. rewrite Hh. constructor.
  - reflexivity.
Qed.

(** The labels of a request whose result is stored. *)
Definition replayLabels (rt : Runtime) (message : SignedMessage) (a : Authorization)
    (digest : string) (stored : Result) (t : Z) : list label :=
  [LNow t; LAuthorize a message (Some (a, message)) None; LCtx (a.(Auth_ExpiresAt) * Second) false;
   LNow t; LNow t; LReserve (identity rt a) digest (Ret (Some stored));
   LCtx (a.(Auth_ExpiresAt) * Second) false; LNow t].

Lemma replay_reached rt request message a raw json stored t :
  deliverable rt request message a raw t → Unix t < a.(Auth_ExpiresAt) →
  Marshal (semantic a) = Some json →
  path (ServeHTTP ParseMediaType rt request) (replayLabels rt message a (Digest json) stored t)
    (respond rt (withAuthorizationDigest stored (Digest raw))).
Proof.
  intros Hdel Ht Hjson.
  pose proof (reserve_reached _ _ _ _ _ _ (Ret (Some stored)) t t t Hdel Ht Hjson) as Hp.
  eapply (path_app _ _ _ [_; _] _ Hp). econstructor; [constructor|]. econstructor; [constructor|].
  rewrite (proj2 (Z.ltb_lt _ _)) by done. constructor.
Qed.

(** * Results that verify *)
Context `{!Ed25519Laws} `{!JsonLaws Result cleanResult}.

(** The digest of the authorization may be replaced. *)
Lemma resultOf_digest a r raw : resultOf a r → resultOf a (withAuthorizationDigest r (Digest raw)).
Proof.
  intros [[Hstr Hz] Hrest]. split; [|done]. split; [|done]. simpl.
  repeat (apply Forall_cons in Hstr as [? Hstr]).
  repeat apply Forall_cons_2; eauto using cleanString_Digest, Forall_nil_2.
Qed.

(** What [VerifyResult] makes of a canonical output is valid. *)
Lemma canonical_valid (b output : list byte) :
  Compact b = Some b → (b = [] ∧ output = [] ∨ Compact b = Some output) → Valid output = true.
Proof.
  intros Hb Hout. destruct (Compact_idem _ _ Hb) as [_ Hne].
  destruct Hout as [[-> _]|Hout]; [done|]. rewrite Hb in Hout. injection Hout as <-.
  apply Valid_Compact; [done|]. by eexists.
Qed.

Lemma sent_verifies rt seed a raw r response :
  rt.(config).(Config_SigningKey) = NewKeyFromSeed seed → len seed = SeedSize →
  resultOf a r → r.(Result_AuthorizationDigest) = Digest raw → sent rt r response →
  ∃ message output, response = mkHttpResponse 200 headers (BodyMessage message)
    ∧ message.(KeyID) = rt.(config).(Config_SigningKeyID)
    ∧ (r.(Result_Output) = [] ∧ output = [] ∨ Compact r.(Result_Output) = Some output)
    ∧ VerifyResult message (Public (NewKeyFromSeed seed)) a raw = Ret (withOutput r output).
Proof.
  intros Hkey Hseed (Hc & Hv & Hid & Hkind & Hbind & Hrev & Hman & Hnonce) Hd (m & -> & Hs).
  rewrite Hkey in Hs.
  destruct (VerifyResult_SignResult r _ seed m a raw Hseed Hc Hs Hv Hid Hkind Hbind Hrev Hman Hd Hnonce)
    as (output & Ho & Hver). exists m, output. split; [done|]. split; [|done].
  by apply SignResult_Ret in Hs as (? & _ & _ & _ & (_ & _ & ? & _ & _ & ->)%sign_Ret).
Qed.

(** Where a signed answer comes from: a verified and valid authorization, which is a challenge,
    or whose invocation was answered from the store or run. *)
Lemma answer_cases rt request tr response :
  path (ServeHTTP ParseMediaType rt request) tr (Done response) → isMessage response = true →
  ∃ message a raw t, verified rt request message a raw
    ∧ validAuthorization rt a request.(Request_Path) (Unix t) = true
    ∧ ((a.(Auth_Kind) = "challenge" ∧ ∃ now, sent rt (newResult a raw now a.(Auth_Nonce)) response)
       ∨ (a.(Auth_Kind) ≠ "challenge" ∧ ∃ json ans, Marshal (semantic a) = Some json
          ∧ LReserve (identity rt a) (Digest json) ans ∈ tr
          ∧ ((∃ stored, ans = Ret (Some stored)
              ∧ sent rt (withAuthorizationDigest stored (Digest raw)) response)
             ∨ (ans = Ret None
                ∧ ∃ start output now, sent rt (finish (newResult a raw start "") output now) response)))).
Proof.
  intros Hp Hm. destruct (ServeHTTP_cases rt request)
    as [(st & hd & c & Heq)|(message & a & raw & Hver & Heq)]; rewrite Heq in Hp.
  { by path_inv Hp. }
  path_inv Hp. destruct (validAuthorization _ _ _ _) eqn:Hv; [|by path_inv Hp].
  exists message, a, raw, z. do 2 (split; [done|]).
  unfold serveVerified in Hp. simpl in Hp. path_inv Hp. destruct e as [[]|]; try by path_inv Hp.
  apply path_grantActive_Done in Hp as (t1 & tr1 & -> & _ & Hp); [|done|by do 2 eexists].
  simpl in Hp. path_inv Hp. case_bool_decide as Hc.
  - apply path_respond in Hp as [_ Hs]; [|done]. left. eauto.
  - apply path_invoke in Hp as (json & ans & tr' & Hjson & -> & Hcase); [|done]. right.
    split; [done|]. exists json, ans. split; [done|]. split; [do 5 right; left|]. naive_solver.
Qed.

(** The signed result belongs to the authorization if stored results do. *)
Lemma signed_answer rt request tr response :
  built rt → path (ServeHTTP ParseMediaType rt request) tr (Done response) →
  isMessage response = true →
  (∀ id d r, LReserve id d (Ret (Some r)) ∈ tr → ownResult rt id r) →
  ∃ message a raw r, verified rt request message a raw
    ∧ sent rt r response ∧ resultOf a r ∧ r.(Result_AuthorizationDigest) = Digest raw
    ∧ (a.(Auth_Kind) ≠ "challenge" → r.(Result_ErrorCode) = "" →
       Compact r.(Result_Output) = Some r.(Result_Output)).
Proof.
  intros Hb Hp Hm Hstored. destruct (answer_cases _ _ _ _ Hp Hm)
    as (message & a & raw & t & Hver & Hv & [(Hk & now & Hs)|(Hk & json & ans & _ & Hin & Hcase)]);
    exists message, a, raw.
  - eexists. do 2 (split; [done|]). split; [by eapply newResult_resultOf; eauto|]. done.
  - destruct Hcase as [(stored & -> & Hs)|(-> & start & output & now & Hs)];
      eexists; (do 2 (split; [done|])).
    + specialize (Hstored _ _ _ Hin). split; [by eapply resultOf_digest, own_resultOf|].
      split; [done|]. intros _. apply Hstored.
    + destruct (finish_resultOf a (newResult a raw start "") output now) as [Hr ->];
        [eapply newResult_resultOf; eauto|eapply newResult_clean; eauto|].
      do 2 (split; [done|]). intros _. by apply finish_canonical.
Qed.

(** A request that is never handed a reservation runs no handler and completes nothing; [P]
    describes the reservations it asks for. *)
Fixpoint replaying (P : string → string → Prop) (p : prog) : Prop :=
  match p with
  | Done _ => True
  | Now k => ∀ z, replaying P (k z)
  | CtxErr _ k => ∀ e, replaying P (k e)
  | CallAuthorize _ _ _ k => ∀ e, replaying P (k e)
  | CallReserve id d k => P id d ∧ ∀ ans, ans ≠ Ret None → replaying P (k ans)
  | CallHandler _ _ _ | CallComplete _ _ _ _ => False
  end.

Lemma replaying_path P p tr q :
  replaying P p → path p tr q →
  (∀ id d ans, P id d → LReserve id d ans ∈ tr → ans ≠ Ret None) →
  (∀ h a o, LRun h a o ∉ tr) ∧ (∀ id d r ans, LComplete id d r ans ∉ tr).
Proof.
  intros Hs Hp. induction Hp as [p|p l q tr q' Hl Hp IH]; intros Hans.
  { split; intros *; apply not_elem_of_nil. }
  destruct IH as [Hr Hc].
  - destruct Hl; try apply Hs; try done. apply (Hans id d); [apply Hs|left].
  - intros id d ans HP Hin. apply (Hans id d ans HP). by right.
  - split; intros *; apply not_elem_of_cons; (split; [|auto]); by destruct Hl.
Qed.

Lemma replaying_respond P rt r : replaying P (respond rt r).
Proof. unfold respond. by destruct (SignResult _ _ _). Qed.

Lemma replaying_ServeHTTP rt request message a raw :
  verified rt request message a raw →
  replaying (fun id _ => id = identity rt a) (ServeHTTP ParseMediaType rt request).
Proof.
  intros Hver. destruct (ServeHTTP_cases rt request)
    as [(st & hd & c & ->)|(message' & a' & raw' & Hver' & ->)]; [done|].
  destruct (verified_unique _ _ _ _ _ _ _ _ Hver' Hver) as (-> & -> & ->). intros now.
  destruct (validAuthorization _ _ _ _); [|done]. intros [[]|]; try done.
  intros [|]; [done|]. intros z. destruct (_ <? _); [|done]. intros z'. simpl.
  case_bool_decide; [apply replaying_respond|]. unfold invoke.
  destruct (Marshal (semantic a)); [|done]. split; [done|].
  intros [[r|]|[]| |] Hans; try done; intros [|]; try done; intros z'';
    destruct (_ <? _); try done; apply replaying_respond.
Qed.

(** * Requests followed through the system *)
Lemma follow_rtc start i y tr y' : follow start i y tr y' → rtc (sys_step start) y y'.
Proof.
  induction 1 as [|p y y1 tr y2 Hs _ _ _ IH|p l q s s' ps runs new tr y2 Hi Hl He _ IH];
    [done|by eapply rtc_l|]. eapply rtc_l; [|done]. by eapply sys_request.
Qed.

Lemma follow_path start i y tr y' p :
  follow start i y tr y' → y.(sys_requests) !! i = Some p →
  ∃ q, y'.(sys_requests) !! i = Some q ∧ path p tr q.
Proof.
  intros Hf. revert p.
  induction Hf as [|p0 y y1 tr y2 Hs Hy Hy1 _ IH|p0 l q s s' ps runs new tr y2 Hi Hl He _ IH];
    intros p Hp; [by eauto using path_nil|apply IH; congruence|].
  simpl in *. rewrite Hi in Hp. injection Hp as <-. destruct (IH q) as (q' & Hq' & Hpath).
  { apply list_lookup_insert_eq. by eapply lookup_lt_Some. }
  exists q'. split; [done|]. by econstructor.
Qed.

(** Every effect of the request happened at some state of the run. *)
Lemma follow_effect start i y tr y' l :
  follow start i y tr y' → l ∈ tr →
  ∃ y1 s' new, rtc (sys_step start) y y1 ∧ effect l y1.(sys_store) s' new.
Proof.
  induction 1 as [|p y y1 tr y2 Hs _ _ _ IH|p l' q s s' ps runs new tr y2 Hi Hl He _ IH];
    intros Hin; [by apply not_elem_of_nil in Hin| |].
  - destruct (IH Hin) as (y3 & s' & new & Hr & Heff). exists y3, s', new. split; [by eapply rtc_l|done].
  - apply elem_of_cons in Hin as [->|Hin]; [by exists (mkSystem s ps runs), s', new|].
    destruct (IH Hin) as (y3 & s3 & new3 & Hr & Heff). exists y3, s3, new3. split; [|done].
    eapply rtc_l; [|done]. by eapply sys_request.
Qed.

(** All results in the journal are the runtime's own. *)
Definition owned (rt : Runtime) (y : system S) : Prop :=
  ∀ id d r, journal y.(sys_store) !! id = Some (d, Some r) → ownResult rt id r.

Lemma owned_reserved rt j id d j' :
  (∀ id d r, j !! id = Some (d, Some r) → ownResult rt id r) → reserved j id d j' →
  ∀ id d r, j' !! id = Some (d, Some r) → ownResult rt id r.
Proof.
  intros Ho [_ ->] id' d' r. destruct (decide (id = id')) as [<-|Hne].
  - by rewrite lookup_insert_eq.
  - rewrite lookup_insert_ne by done. apply Ho.
Qed.

Lemma owned_step rt y y' :
  built rt → sys_inv rt y → owned rt y → sys_step (requestOf rt) y y' → owned rt y'.
Proof.
  intros Hb (Hok & helds & Hg & _) Ho Hstep.
  destruct Hstep as [p s ps runs _|i p l q s s' ps runs new Hp Hl Heff|s ps runs];
    unfold owned in *; simpl in *; [done| |done].
  destruct (Forall2_lookup_r _ _ _ _ _ Hg Hp) as (held & _ & Hheld).
  destruct (guarded_lstep _ _ _ _ _ Hheld Hl) as [_ Hdem].
  destruct Heff as [id d ans s s' Hres|id d r ans s s' Hcomp|h a o s|z s|d e s|a m inv e s]; try done.
  - destruct (Reserve_answers _ _ _ _ _ Hres) as [Hnp Hnd]. destruct ans as [[r|]|e| |]; try done.
    + by destruct (Reserve_stored _ _ _ _ _ Hok Hres) as [_ ->].
    + by eapply owned_reserved; [|eapply Reserve_new].
    + destruct (Reserve_failed _ _ _ _ _ Hok Hres) as [->|?]; [done|by eapply owned_reserved].
  - destruct Hdem as [Hclean Hown].
    destruct (Complete_failed _ _ _ _ _ _ Hok Hclean Hcomp) as [->|[_ ->]]; [done|].
    intros id' d' r'. destruct (decide (id = id')) as [<-|Hne].
    + rewrite lookup_insert_eq. by intros [= <- <-].
    + rewrite lookup_insert_ne by done. apply Ho.
Qed.

Lemma owned_reach rt s y :
  built rt → store_ok s → journal s = ∅ → rtc (sys_step (requestOf rt)) (mkSystem s [] []) y →
  owned rt y.
Proof.
  intros Hb Hok He Hr. cut (sys_inv rt y ∧ owned rt y); [by intros []|]. revert y Hr.
  apply (rtc_ind_r (R := sys_step (requestOf rt)) (fun y => sys_inv rt y ∧ owned rt y)).
  - split; [by apply sys_inv_initial|]. intros id d r. simpl. by rewrite He, lookup_empty.
  - intros y1 y2 _ Hs [Hi Ho]. split; [by eapply sys_inv_step|by eapply owned_step].
Qed.

(** The results that a request is handed by the store are the runtime's own. *)
Lemma follow_owned rt s y i tr y' :
  built rt → store_ok s → journal s = ∅ → rtc (sys_step (requestOf rt)) (mkSystem s [] []) y →
  follow (requestOf rt) i y tr y' →
  ∀ id d r, LReserve id d (Ret (Some r)) ∈ tr → ownResult rt id r.
Proof.
  intros Hb Hok He Hr Hf id d r Hin.
  destruct (follow_effect _ _ _ _ _ _ Hf Hin) as (y1 & s' & new & Hr1 & Heff).
  assert (Hr' : rtc (sys_step (requestOf rt)) (mkSystem s [] []) y1) by (by etransitivity).
  inversion Heff as [? ? ? ? ? Hres| | | | |]; subst.
  destruct (sys_reach_le _ _ _ Hb (sys_inv_initial rt s Hok) Hr') as [[Hok1 _] _].
  destruct (Reserve_stored _ _ _ _ _ Hok1 Hres) as [Hj _]. by eapply (owned_reach rt s y1).
Qed.

(** What the store hands out for an identity whose result it holds. *)
Lemma follow_final rt s y i tr y' id d r d' ans :
  built rt → store_ok s → rtc (sys_step (requestOf rt)) (mkSystem s [] []) y →
  journal y.(sys_store) !! id = Some (d, Some r) → follow (requestOf rt) i y tr y' →
  LReserve id d' ans ∈ tr → ans ≠ Ret None ∧ ∀ r', ans = Ret (Some r') → d' = d ∧ r' = r.
Proof.
  intros Hb Hok Hr Hj Hf Hin.
  destruct (follow_effect _ _ _ _ _ _ Hf Hin) as (y1 & s' & new & Hr1 & Heff).
  inversion Heff as [? ? ? ? ? Hres| | | | |]; subst.
  destruct (sys_reach_le _ _ _ Hb (sys_inv_initial rt s Hok) Hr) as [Hinv _].
  destruct (sys_reach_le _ _ _ Hb Hinv Hr1) as [(Hok1 & _) Hle].
  destruct (Hle _ _ _ Hj) as (o & Hj1 & Ho). rewrite (Ho r eq_refl) in Hj1. split.
  - intros ->. destruct (Reserve_new _ _ _ _ Hok1 Hres) as [Hn _]. by rewrite Hn in Hj1.
  - intros r' ->. destruct (Reserve_stored _ _ _ _ _ Hok1 Hres) as [Hs _].
    rewrite Hs in Hj1. by injection Hj1 as -> ->.
Qed.

(** C5: a completed result is final. Once the store holds the result [r] of an invocation, a
    request for that invocation, however it interleaves with others, calls no handler and
    completes nothing, and the stored result stays; if it is answered with a result, then
    the request has the content that the stored digest identifies and the answer is [r] for
    the authorization that this request presented. *)
Theorem replay_final rt s y i request message a raw d r tr y' :
  built rt → store_ok s → rtc (sys_step (requestOf rt)) (mkSystem s [] []) y →
  journal y.(sys_store) !! identity rt a = Some (d, Some r) →
  y.(sys_requests) !! i = Some (ServeHTTP ParseMediaType rt request) →
  verified rt request message a raw → follow (requestOf rt) i y tr y' →
  (∀ h a' o, LRun h a' o ∉ tr) ∧ (∀ id' d' r' ans, LComplete id' d' r' ans ∉ tr)
  ∧ journal y'.(sys_store) !! identity rt a = Some (d, Some r)
  ∧ ∀ response, y'.(sys_requests) !! i = Some (Done response) → isMessage response = true →
      a.(Auth_Kind) ≠ "challenge" →
      sent rt (withAuthorizationDigest r (Digest raw)) response
      ∧ ∃ json, Marshal (semantic a) = Some json ∧ d = Digest json.
Proof.
  intros Hb Hok Hr Hj Hi Hver Hf.
  destruct (follow_path _ _ _ _ _ _ Hf Hi) as (q & Hq & Hp).
  destruct (replaying_path _ _ _ _ (replaying_ServeHTTP _ _ _ _ _ Hver) Hp) as [Hrun Hcomp].
  { intros id d' ans -> Hin. by eapply follow_final. }
  do 2 (split; [done|]). split.
  { destruct (sys_reach_le _ _ _ Hb (sys_inv_initial rt s Hok) Hr) as [Hinv _].
    destruct (sys_reach_le _ _ _ Hb Hinv (follow_rtc _ _ _ _ _ Hf)) as [_ Hle].
    destruct (Hle _ _ _ Hj) as (o & Hj' & Ho). by rewrite (Ho r eq_refl) in Hj'. }
  intros response Hdone Hm Hk. rewrite Hq in Hdone. injection Hdone as ->.
  destruct (answer_cases _ _ _ _ Hp Hm)
    as (message' & a' & raw' & t & Hver' & _ & [[Hk' _]|(_ & json & ans & Hjson & Hin & Hcase)]);
    destruct (verified_unique _ _ _ _ _ _ _ _ Hver' Hver) as (-> & -> & ->); [done|].
  destruct (follow_final _ _ _ _ _ _ _ _ _ _ _ Hb Hok Hr Hj Hf Hin) as [Hn Hs].
  destruct Hcase as [(stored & -> & Hsent)|[-> _]]; [|done].
  destruct (Hs stored eq_refl) as [<- ->]. eauto.
Qed.

(** C4: every signed answer verifies. Start with an empty journal and let requests of the
    runtime interleave and the process restart at will. If a request is then answered with
    a signed message, the status is 200 and the caller's [VerifyResult] accepts the message
    against the authorization and the raw bytes of that very request, whether its handler
    ran or a stored result is replayed to a renewed grant; a challenge is answered with its
    own nonce, and the output of an invocation without an error code is valid JSON. *)
Theorem response_verifies rt seed s y i request tr y' response :
  built rt → rt.(config).(Config_SigningKey) = NewKeyFromSeed seed → len seed = SeedSize →
  store_ok s → journal s = ∅ → rtc (sys_step (requestOf rt)) (mkSystem s [] []) y →
  y.(sys_requests) !! i = Some (ServeHTTP ParseMediaType rt request) →
  follow (requestOf rt) i y tr y' → y'.(sys_requests) !! i = Some (Done response) →
  isMessage response = true →
  ∃ message a raw m r, verified rt request message a raw
    ∧ response = mkHttpResponse 200 headers (BodyMessage m)
    ∧ VerifyResult m (Public (NewKeyFromSeed seed)) a raw = Ret r
    ∧ (a.(Auth_Kind) = "challenge" → r.(Result_Nonce) = a.(Auth_Nonce))
    ∧ (a.(Auth_Kind) ≠ "challenge" → r.(Result_ErrorCode) = "" → Valid r.(Result_Output) = true).
Proof.
  intros Hb Hkey Hseed Hok He Hr Hi Hf Hdone Hm.
  destruct (follow_path _ _ _ _ _ _ Hf Hi) as (q & Hq & Hp).
  rewrite Hdone in Hq. injection Hq as <-.
  destruct (signed_answer rt request tr response Hb Hp Hm (follow_owned _ _ _ _ _ _ Hb Hok He Hr Hf))
    as (message & a & raw & r & Hver & Hs & Hres & Hd & Hcanon).
  destruct (sent_verifies _ _ _ _ _ _ Hkey Hseed Hres Hd Hs) as (m & output & -> & _ & Hout & Hv).
  exists message, a, raw, m, (withOutput r output). do 3 (split; [done|]).
  split; [intros _; by apply Hres|]. intros Hk Hcode.
  by eapply canonical_valid; [apply Hcanon|].
Qed.

End Lemmas.

(** * Running a path in the system *)
Section Follow.
Context {S : Type} `{!ExecutionStore S} (start : prog → Prop).

Inductive effects : list label → S → S → list Authorization → Prop :=
| effects_nil s : effects [] s s []
| effects_cons l tr s s' s'' new news :
    effect l s s' new → effects tr s' s'' news → effects (l :: tr) s s'' (news ++ new).

Lemma effects_quiet l tr s s' s'' news :
  effect l s s' [] → effects tr s' s'' news → effects (l :: tr) s s'' news.
Proof. intros Hl Htr. rewrite <- (app_nil_r news). by eapply effects_cons. Qed.

Lemma follow_alone s runs p tr q s' new :
  path p tr q → effects tr s s' new →
  follow start 0 (mkSystem s [p] runs) tr (mkSystem s' [q] (new ++ runs)).
Proof.
  intros Hp. revert s runs s' new. induction Hp as [p|p l q tr r Hl Hp IH]; intros s runs s' new He.
  - inversion He; subst. constructor.
  - inversion He as [|? ? ? s1 ? new1 news Heff Hrest]; subst.
    eapply (follow_own _ _ p l q); [done..|]. simpl. rewrite <- (assoc_L (++)). by apply IH.
Qed.

End Follow.

(** * Witnesses: a runtime, a signed request and a reference store *)
Module RuntimeSamples.
Import Protocol.Samples.

#[export] Existing Instance referenceStore.
#[export] Existing Instance referenceStore_laws.

Definition mime (s : string) : option string := Some s.

(** One function, handled by handler 7. *)
Definition configuration : Config :=
  mkConfig true {["control:1" := Public (NewKeyFromSeed seed)]} true scope "runtime" "binding"
    "runtime:1" "control" (NewKeyFromSeed seed) [mkRegistration (Some 7%nat) (echo "1")] 1 0.

Definition fallback : Runtime := mkRuntime ∅ "" configuration.

Definition runtime1 : Runtime :=
  match NewRuntime configuration with Ret rt => rt | _ => fallback end.

Lemma runtime1_new : NewRuntime configuration = Ret runtime1.
Proof.
  assert (Hr : returns (NewRuntime configuration) = true)
    by (vm_compute; reflexivity).
  unfold runtime1. apply returns_Ret in Hr as [rt ->]. reflexivity.
Qed.

Lemma runtime1_built : built runtime1.
Proof. exists configuration. split; [apply runtime1_new|unfold is_i64; simpl; lia]. Qed.

Lemma runtime1_key : runtime1.(config).(Config_SigningKey) = NewKeyFromSeed seed.
Proof. vm_compute. reflexivity. Qed.

Definition grant1 : Authorization :=
  mkAuthorization (Some (echo "1")) scope "invocation" "control" "runtime" "binding" ""
    runtime1.(manifestDigest) (Digest (bytes_of "[1]")) "invocation:1" "" "user:1" ["doc:1"] []
    (bytes_of "[1]") 1300 1000 1 1.

Definition message1 : SignedMessage :=
  match SignAuthorization grant1 "control:1" (NewKeyFromSeed seed) with
  | Ret m => m
  | _ => mkSignedMessage "" "" ""
  end.

Definition request1 : HttpRequest :=
  mkHttpRequest "POST" "/v1/functions/invoke" "" "application/json"
    (Marshal message1).

(** The checks that a request passes on its way to handler [h]. *)
Definition passes (rt : Runtime) (request : HttpRequest) (message : SignedMessage)
    (a : Authorization) (raw : list byte) (f : Function) (h : nat) (now : Z) : bool :=
  match request.(Request_Body) with
  | Some body =>
      (len body <=? MaximumBodyBytes)
      && match strictJSON body with
         | Ret m =>
             bool_decide (m = message)
             && match rt.(config).(Config_TrustedKeys) !! m.(KeyID) with
                | Some key =>
                    match VerifyAuthorization m key with
                    | Ret (a', raw') =>
                        bool_decide (a' = a ∧ raw' = raw)
                        && validAuthorization rt a request.(Request_Path) now
                        && bool_decide (rt.(functions) !! f = Some h)
                    | _ => false
                    end
                | None => false
                end
         | _ => false
         end
  | None => false
  end.

Lemma passes_verified rt request message a raw f h now :
  passes rt request message a raw f h now = true →
  ∃ body, request.(Request_Body) = Some body ∧ len body <= MaximumBodyBytes
    ∧ verified rt request message a raw
    ∧ validAuthorization rt a request.(Request_Path) now = true
    ∧ rt.(functions) !! f = Some h.
Proof.
  unfold passes, verified. intros H.
  destruct (Request_Body request) as [body|]; [|done]. apply andb_true_iff in H as [Hl H].
  destruct (strictJSON body) as [m| | |] eqn:Hm; try done. apply andb_true_iff in H as [Hmm H].
  apply bool_decide_eq_true in Hmm as ->.
  destruct (_ !! KeyID message) as [key|] eqn:Hk; [|done].
  destruct (VerifyAuthorization message key) as [[a' raw']| | |] eqn:Hv; try done.
  apply andb_true_iff in H as [H Hf]. apply andb_true_iff in H as [Ha H].
  apply bool_decide_eq_true in Ha as [-> ->]. apply bool_decide_eq_true in Hf.
  apply Z.leb_le in Hl. exists body. split; [done|]. split; [done|].
  split; [by exists body, key|done].
Qed.

Definition raw1 : list byte := markTable (toFields grant1).

Lemma request1_passes : passes runtime1 request1 message1 grant1 raw1 (echo "1") 7 1100 = true.
Proof. vm_compute. reflexivity. Qed.

Definition t1100 : Z := 1100 * Second.

Definition digest1 : string := Digest (markTable (toFields (semantic grant1))).

Lemma passes_deliverable rt request message a raw f h t :
  passes rt request message a raw f h (Unix t) = true →
  request.(Request_Path) = "/v1/functions/invoke" → request.(Request_Method) = "POST" →
  request.(Request_RawQuery) = "" → request.(Request_ContentType) = "application/json" →
  deliverable mime rt request message a raw t ∧ rt.(functions) !! f = Some h.
Proof.
  intros (body & Hb & Hl & Hv & Hval & Hf)%passes_verified Hpath Hmethod Hquery Hmime.
  split; [|done]. do 3 (split; [done|]). split; [by rewrite Hmime|]. split; [|done].
  intros body' Hb'. rewrite Hb in Hb'. by injection Hb' as <-.
Qed.

(** The labels on the way of the sample request to its handler. *)
Definition labels1 : list label := runLabels runtime1 message1 grant1 digest1 t1100.

Lemma request1_reaches :
  ∃ k, path (ServeHTTP mime runtime1 request1) labels1 (CallHandler 7 grant1 k)
    ∧ k HandlerPanics = conclude runtime1 (newResult grant1 raw1 t1100 "")
        (identity runtime1 grant1) digest1 (Throw ErrUnavailable).
Proof.
  destruct (passes_deliverable _ _ _ _ _ _ _ t1100 request1_passes eq_refl eq_refl eq_refl eq_refl)
    as [Hdel Hf].
  exact (handler_reached mime runtime1 request1 message1 grant1 raw1 _ (echo "1") 7 t1100 Hdel
    eq_refl eq_refl eq_refl Hf).
Qed.

Lemma run_authorized_witness :
  ∃ k, path (ServeHTTP mime runtime1 request1) labels1 (CallHandler 7 grant1 k)
    ∧ ∃ message raw, verified runtime1 request1 message grant1 raw.
Proof.
  destruct request1_reaches as (k & Hp & _). exists k. split; [exact Hp|].
  destruct (run_authorized mime runtime1 request1 _ 7 grant1 k Hp)
    as (message & raw' & _ & _ & _ & _ & _ & _ & _ & Hver & _).
  exists message, raw'. exact Hver.
Defined.

(** The result of the sample request when its handler panics. *)
Definition result1 : Result :=
  finish (newResult grant1 raw1 t1100 "") (Throw ErrUnavailable) t1100.

Lemma result1_signed :
  returns (SignResult result1 runtime1.(config).(Config_SigningKeyID)
    runtime1.(config).(Config_SigningKey)) = true.
Proof. vm_compute. reflexivity. Qed.

Definition labels2 : list label :=
  labels1 ++ [LRun 7 grant1 HandlerPanics; LNow t1100;
    LComplete (identity runtime1 grant1) digest1 result1 (Ret tt)].

Lemma request1_answered :
  ∃ m, path (ServeHTTP mime runtime1 request1) labels2
    (Done (mkHttpResponse 200 headers (BodyMessage m))).
Proof.
  destruct request1_reaches as (k & Hp & Hk).
  destruct (proj1 (returns_Ret _) result1_signed) as [m Hs]. exists m.
  eapply path_app; [exact Hp|]. econstructor; [apply lstep_run|]. rewrite Hk.
  econstructor; [apply lstep_now|]. econstructor; [apply lstep_complete|].
  fold result1. unfold respond. rewrite Hs. constructor.
Qed.

(** The store before and after the sample request. *)
Definition empty1 : gmap string (prod string (option Result)) := ∅.
Definition stored1 : gmap string (prod string (option Result)) :=
  <[identity runtime1 grant1 := (digest1, Some result1)]>
    (<[identity runtime1 grant1 := (digest1, None)]> empty1).

Lemma empty1_ok : store_ok empty1.
Proof. exact I. Qed.

Lemma stored1_lookup : stored1 !! identity runtime1 grant1 = Some (digest1, Some result1).
Proof. apply lookup_insert_eq. Qed.

Lemma effects2 : effects labels2 empty1 stored1 [grant1].
Proof.
  unfold labels2, labels1, runLabels. simpl app.
  do 5 (eapply effects_quiet; [constructor|]).
  eapply effects_quiet; [constructor; simpl; reflexivity|].
  do 4 (eapply effects_quiet; [constructor|]).
  apply (effects_cons _ _ _ (<[identity runtime1 grant1 := (digest1, None)]> empty1) _ [grant1] []);
    [constructor|].
  eapply effects_quiet; [constructor|].
  eapply effects_quiet; [|constructor].
  constructor. simpl. unfold completeEntry. rewrite lookup_insert_eq.
  rewrite decide_True by auto. reflexivity.
Qed.

(** The system after the sample request has been answered. *)
Lemma request1_ran :
  ∃ m, follow (requestOf mime runtime1) 0 (mkSystem empty1 [ServeHTTP mime runtime1 request1] [])
      labels2 (mkSystem stored1 [Done (mkHttpResponse 200 headers (BodyMessage m))] [grant1])
    ∧ rtc (sys_step (requestOf mime runtime1)) (mkSystem empty1 [] [])
        (mkSystem stored1 [Done (mkHttpResponse 200 headers (BodyMessage m))] [grant1]).
Proof.
  destruct request1_answered as (m & Hp). exists m.
  pose proof (follow_alone (requestOf mime runtime1) empty1 [] _ _ _ _ _ Hp effects2) as Hf.
  split; [exact Hf|]. eapply rtc_l; [apply sys_start; by exists request1|].
  exact (follow_rtc _ _ _ _ _ Hf).
Qed.

Lemma at_most_once_witness :
  ∃ y, rtc (sys_step (requestOf mime runtime1)) (mkSystem ∅ [] []) y
    ∧ runsOf runtime1 (identity runtime1 grant1) y.(sys_runs) = 1%nat
    ∧ is_Some (journal y.(sys_store) !! identity runtime1 grant1).
Proof.
  destruct request1_ran as (m & _ & Hr). eexists. split; [exact Hr|].
  assert (H1 : runsOf runtime1 (identity runtime1 grant1) [grant1] = 1%nat).
  { unfold runsOf. rewrite filter_cons_True by done. done. }
  split; [exact H1|].
  exact (proj2 (at_most_once mime runtime1 ∅ _ (identity runtime1 grant1) runtime1_built I Hr) H1).
Defined.

(** A renewed grant for the same invocation, sent after a restart of the process. *)
Definition grant2 : Authorization :=
  mkAuthorization (Some (echo "1")) scope "invocation" "control" "runtime" "binding" ""
    runtime1.(manifestDigest) (Digest (bytes_of "[1]")) "invocation:1" "" "user:1" ["doc:1"] []
    (bytes_of "[1]") 1500 1200 1 1.

Definition message2 : SignedMessage :=
  match SignAuthorization grant2 "control:1" (NewKeyFromSeed seed) with
  | Ret m => m
  | _ => mkSignedMessage "" "" ""
  end.

Definition request2 : HttpRequest :=
  mkHttpRequest "POST" "/v1/functions/invoke" "" "application/json" (Marshal message2).

Definition raw2 : list byte := markTable (toFields grant2).
Definition t1400 : Z := 1400 * Second.

Lemma request2_passes : passes runtime1 request2 message2 grant2 raw2 (echo "1") 7 1400 = true.
Proof. vm_compute. reflexivity. Qed.

Definition labels3 : list label := replayLabels runtime1 message2 grant2 digest1 result1 t1400.

Lemma effects3 : effects labels3 stored1 stored1 [].
Proof.
  unfold labels3, replayLabels. do 5 (eapply effects_quiet; [constructor|]).
  eapply effects_quiet.
  { constructor. simpl. unfold reserveEntry.
    rewrite (stored1_lookup : stored1 !! identity runtime1 grant2 = _).
    rewrite decide_True by done. reflexivity. }
  do 2 (eapply effects_quiet; [constructor|]). constructor.
Qed.

Lemma result2_signed :
  returns (SignResult (withAuthorizationDigest result1 (Digest raw2))
    runtime1.(config).(Config_SigningKeyID) runtime1.(config).(Config_SigningKey)) = true.
Proof. vm_compute. reflexivity. Qed.

(** The renewed request, from its start to the replay of the stored result. *)
Lemma request2_replayed :
  deliverable mime runtime1 request2 message2 grant2 raw2 t1400
  ∧ rtc (sys_step (requestOf mime runtime1)) (mkSystem empty1 [] [])
      (mkSystem stored1 [ServeHTTP mime runtime1 request2] [grant1])
  ∧ ∃ m, follow (requestOf mime runtime1) 0
      (mkSystem stored1 [ServeHTTP mime runtime1 request2] [grant1]) labels3
      (mkSystem stored1 [Done (mkHttpResponse 200 headers (BodyMessage m))] [grant1]).
Proof.
  destruct (passes_deliverable _ _ _ _ _ _ _ t1400 request2_passes eq_refl eq_refl eq_refl eq_refl)
    as [Hdel _]. split; [exact Hdel|]. split.
  - destruct request1_ran as (m & _ & Hr). etransitivity; [exact Hr|].
    eapply rtc_l; [apply sys_restart|]. eapply rtc_l; [apply sys_start; by exists request2|]. apply rtc_refl.
  - destruct (proj1 (returns_Ret _) result2_signed) as [m Hs]. exists m.
    apply (follow_alone _ stored1 [grant1] _ _ _ stored1 []); [|exact effects3].
    pose proof (replay_reached mime runtime1 request2 message2 grant2 raw2 _ result1 t1400 Hdel
      eq_refl eq_refl) as Hp.
    unfold respond in Hp. rewrite Hs in Hp. exact Hp.
Qed.

Lemma replay_final_witness :
  ∃ m, sent runtime1 (withAuthorizationDigest result1 (Digest raw2))
    (mkHttpResponse 200 headers (BodyMessage m)) ∧ ∀ h a o, LRun h a o ∉ labels3.
Proof.
  destruct request2_replayed as (Hdel & Hr & m & Hf). exists m.
  destruct (replay_final mime runtime1 empty1 _ 0 request2 message2 grant2 raw2 digest1 result1
    labels3 _ runtime1_built empty1_ok Hr stored1_lookup eq_refl
    (proj1 (proj2 (proj2 (proj2 (proj2 (proj2 Hdel)))))) Hf) as (Hrun & _ & _ & Hans).
  split; [|exact Hrun]. exact (proj1 (Hans _ eq_refl eq_refl ltac:(discriminate))).
Defined.

Lemma response_verifies_witness :
  ∃ message a raw m r, verified runtime1 request2 message a raw
    ∧ VerifyResult m (Public (NewKeyFromSeed seed)) a raw = Ret r.
Proof.
  destruct request2_replayed as (_ & Hr & m & Hf).
  destruct (response_verifies mime runtime1 seed empty1 _ 0 request2 labels3 _
    (mkHttpResponse 200 headers (BodyMessage m)) runtime1_built runtime1_key eq_refl empty1_ok
    eq_refl Hr eq_refl Hf eq_refl eq_refl)
    as (message & a & raw & m' & r & Hver & _ & Hv & _).
  exists message, a, raw, m', r. split; [exact Hver|exact Hv].
Defined.

End RuntimeSamples.
