(* ===== verification/SqlStore.v ===== *)
(** The PostgreSQL execution journal: [bridge/sqlstore/postgres.go].

    The table [executions] is a map from its primary key (namespace, operation) to the
    request digest and the result column. Every statement is atomic and may fail before
    or after taking effect; other writers may run between the two statements of
    [Reserve]. The store is shown to implement the contract of [ExecutionStore]. *)
From S2P Require Import Prelude GoStd Sha256 Interfaces Protocol ExecutionStore.

(** * The table *)
Abbreviation row := (prod string (option (list byte))).
Abbreviation table := (gmap (prod string string) row).

(** What goes wrong around a statement. An error of [RowsAffected] is [FailAfter]. *)
Inductive fault : Type := NoFault | FailBefore | FailAfter.

(** [ExecContext] and [RowsAffected]: the number of rows, or [None] on an error. *)
Definition exec (f : fault) (statement : table → Z * table) (s : table) : option Z * table :=
  match f with
  | NoFault => let '(n, s') := statement s in (Some n, s')
  | FailBefore => (None, s)
  | FailAfter => (None, (statement s).2)
  end.

(** [insert ... on conflict (namespace, operation_id) do nothing]. *)
Definition insertReservation (ns id digest : string) (s : table) : Z * table :=
  match s !! (ns, id) with
  | Some _ => (0, s)
  | None => (1, <[(ns, id) := (digest, None)]> s)
  end.

(** [update ... set result=$4 where ... and (result is null or result=$4)]. *)
Definition updateResult (ns id digest : string) (raw : list byte) (s : table) : Z * table :=
  match s !! (ns, id) with
  | Some (existing, result) =>
      if decide (existing = digest ∧ (result = None ∨ result = Some raw))
      then (1, <[(ns, id) := (existing, Some raw)]> s)
      else (0, s)
  | None => (0, s)
  end.

(** * Validation *)

(** The local [identifier]: no rune of the string is outside the visible ASCII range. *)
Definition sqlIdentifier (value : string) (maximum : Z) : bool :=
  negb (bool_decide (value = "")) && (slen value <=? maximum)
  && negb (existsb (fun c => (c <=? 32) || (127 <=? c)) (runes value)).

Definition validIdentity (operationID digest : string) : bool :=
  match hexDecode (bytes_of digest) with
  | Some decoded =>
      sqlIdentifier operationID 513 && (len decoded =? 32)
      && bool_decide (EncodeToString decoded = digest)
  | None => false
  end.

(** [New]; [database] says whether the handle is non-nil. *)
Definition New (database : bool) (ns : string) : outcome bridge_error string :=
  if negb database || negb (sqlIdentifier ns 256) then Throw ErrInvalid else Ret ns.

(** * Installation *)

(** The type of the column [result]; a [jsonb] value is represented by its text. *)
Inductive column : Type := Jsonb | Bytea.

(** The database of the runtime: whether the schema exists, and the table. *)
Record database : Type := mkDatabase {
  Database_Schema : bool;
  Database_Executions : option (column * table)
}.

(** The statements of [Initialize]; [None] is an error. *)
Definition createSchema (db : database) : option database :=
  Some (mkDatabase true db.(Database_Executions)).

Definition createTable (db : database) : option database :=
  match db.(Database_Executions) with
  | Some _ => Some db
  | None => if db.(Database_Schema) then Some (mkDatabase true (Some (Bytea, ∅))) else None
  end.

(** The forward upgrade: the column becomes the UTF-8 text of its values. *)
Definition upgradeResult (db : database) : option database :=
  match db.(Database_Executions) with
  | None => None
  | Some (_, rows) => Some (mkDatabase db.(Database_Schema) (Some (Bytea, rows)))
  end.

(** The loop over the statements in the transaction; the network may fail any of them. *)
Fixpoint runStatements (statements : list (database → option database)) (fails : nat → bool)
    (db : database) : option database :=
  match statements with
  | [] => Some db
  | statement :: rest =>
      if fails (length rest) then None
      else db ← statement db; runStatements rest fails db
  end.

(** [Initialize]: an error before the commit rolls the transaction back; the commit may fail
    before or after taking effect. *)
Definition Initialize (begins : bool) (fails : nat → bool) (commit : fault) (db : database)
    : outcome bridge_error unit * database :=
  if negb begins then (Throw ErrUnavailable, db)
  else match runStatements [createSchema; createTable; upgradeResult] fails db with
  | None => (Throw ErrUnavailable, db)
  | Some installed =>
      match commit with
      | NoFault => (Ret tt, installed)
      | FailBefore => (Throw ErrUnavailable, db)
      | FailAfter => (Throw ErrUnavailable, installed)
      end
  end.

(** What an installation leads to: the same rows, in a table with the new column. *)
Definition installed (db : database) : database :=
  mkDatabase true (Some (Bytea, from_option snd ∅ db.(Database_Executions))).

Section Store.
Context `{!RawJson} `{!Json Result} `{!JsonUnmarshal Result}.
Variable ns : string.

(** The row that [Reserve] read, against the digest of the caller. *)
Definition readRow (digest existing : string) (result : option (list byte))
    : outcome bridge_error (option Result) :=
  if negb (bool_decide (existing = digest)) then Throw ErrConflict
  else
    let raw := default [] result in
    if len raw =? 0 then Throw ErrInProgress
    else if MaximumBodyBytes <? len raw then Throw ErrUnavailable
    else match Unmarshal raw with
    | None => Throw ErrUnavailable
    | Some r =>
        if negb (len r.(Result_Output) =? 0) then
          match Compact r.(Result_Output) with
          | None => Throw ErrUnavailable
          | Some canonical =>
              if MaximumInputBytes <? len canonical then Throw ErrUnavailable
              else Ret (Some (withOutput r canonical))
          end
        else Ret (Some r)
    end.

(** [Store.Reserve]; [others] is what other writers do between the two statements, [f1]
    and [f2] are the faults of the statements. *)
Definition sqlReserve (f1 f2 : fault) (others : table → table) (s : table) (id digest : string)
    : outcome bridge_error (option Result) * table :=
  if negb (validIdentity id digest) then (Throw ErrInvalid, s)
  else match exec f1 (insertReservation ns id digest) s with
  | (None, s) => (Throw ErrUnavailable, s)
  | (Some count, s) =>
      if count =? 1 then (Ret None, s)
      else
        let s := others s in
        match f2, s !! (ns, id) with
        | NoFault, Some (existing, result) => (readRow digest existing result, s)
        | _, _ => (Throw ErrUnavailable, s)
        end
  end.

(** [Store.Complete]. *)
Definition sqlComplete (f : fault) (s : table) (id digest : string) (r : Result)
    : outcome bridge_error unit * table :=
  if negb (validIdentity id digest) || (MaximumInputBytes <? len r.(Result_Output))
  then (Throw ErrInvalid, s)
  else match Marshal r with
  | None => (Throw ErrInvalid, s)
  | Some raw =>
      if MaximumBodyBytes / 2 <? len raw then (Throw ErrInvalid, s)
      else match exec f (updateResult ns id digest raw) s with
      | (None, s) => (Throw ErrUnavailable, s)
      | (Some count, s) => (if count =? 1 then Ret tt else Throw ErrConflict, s)
      end
  end.

(** * The journal of a namespace *)
Definition rowEntry (r : row) : entry :=
  (r.1, match readRow r.1 r.1 r.2 with Ret o => o | _ => None end).

Definition sqlJournal (s : table) : gmap string entry :=
  rowEntry <$> default ∅ (map_curry (M1 := gmap string) (M2 := gmap string) s !! ns).

(** Rows were written by [Complete]. *)
Definition sqlOk (s : table) : Prop :=
  ∀ id d raw, s !! (ns, id) = Some (d, Some raw) →
    ∃ r, cleanResult r ∧ Marshal r = Some raw ∧ len raw <= MaximumBodyBytes / 2
      ∧ len r.(Result_Output) <= MaximumInputBytes.

(** * Lemmas *)
Context `{!RawJsonLaws} `{!JsonUnmarshalLaws Result cleanResult}.

Lemma sqlJournal_lookup s id : sqlJournal s !! id = rowEntry <$> s !! (ns, id).
Proof.
  unfold sqlJournal. rewrite lookup_fmap.
  pose proof (lookup_map_curry (M1 := gmap string) (M2 := gmap string) s ns id) as Hl.
  destruct (map_curry (M1 := gmap string) (M2 := gmap string) s !! ns) as [m|]; simpl in *;
    [f_equal; exact Hl|].
  rewrite <- Hl. by rewrite lookup_empty.
Qed.

Lemma sqlJournal_insert s id r :
  sqlJournal (<[(ns, id) := r]> s) = <[id := rowEntry r]> (sqlJournal s).
Proof.
  apply map_eq. intros id'. rewrite sqlJournal_lookup. destruct (decide (id = id')) as [<-|].
  - by rewrite !lookup_insert_eq.
  - rewrite !lookup_insert_ne, sqlJournal_lookup by congruence. done.
Qed.

(** Only the namespace matters. *)
Lemma withOutput_same r : withOutput r r.(Result_Output) = r.
Proof. by destruct r. Qed.

(** A row written by [Complete] reads back as its result. *)
Lemma readRow_written d r raw :
  cleanResult r → Marshal r = Some raw → len raw <= MaximumBodyBytes / 2 →
  len r.(Result_Output) <= MaximumInputBytes → readRow d d (Some raw) = Ret (Some r).
Proof.
  intros Hc Hm Hl Ho. pose proof (Unmarshal_Marshal _ _ Hc Hm) as Hu.
  unfold readRow. rewrite bool_decide_eq_true_2 by done. simpl.
  destruct (Z.eqb_spec (len raw) 0) as [Hz|_].
  { destruct raw; [by rewrite Unmarshal_nil in Hu|unfold len in Hz; simpl in Hz; lia]. }
  assert (Hhalf : MaximumBodyBytes / 2 <= MaximumBodyBytes) by (vm_compute; done).
  rewrite (proj2 (Z.ltb_ge _ _)) by lia. rewrite Hu.
  destruct (Z.eqb_spec (len r.(Result_Output)) 0) as [|Hne]; simpl; [done|].
  destruct Hc as [_ [Hnil|Hcomp]]; [by rewrite Hnil in Hne|].
  rewrite Hcomp, (proj2 (Z.ltb_ge _ _)) by lia. by rewrite withOutput_same.
Qed.

Lemma rowEntry_pending d : rowEntry (d, None) = (d, None).
Proof. unfold rowEntry, readRow. simpl. by rewrite bool_decide_eq_true_2 by done. Qed.

Lemma rowEntry_written d r raw :
  cleanResult r → Marshal r = Some raw → len raw <= MaximumBodyBytes / 2 →
  len r.(Result_Output) <= MaximumInputBytes → rowEntry (d, Some raw) = (d, Some r).
Proof.
  intros. unfold rowEntry. cbn [fst snd]. by rewrite (readRow_written d r raw) by done.
Qed.

Lemma sqlOk_insert s id d o :
  sqlOk s →
  (∀ raw, o = Some raw → ∃ r, cleanResult r ∧ Marshal r = Some raw
     ∧ len raw <= MaximumBodyBytes / 2 ∧ len r.(Result_Output) <= MaximumInputBytes) →
  sqlOk (<[(ns, id) := (d, o)]> s).
Proof.
  intros Hok Ho id' d' raw. rewrite lookup_insert_Some. intros [[_ [= <- ->]]|[_ Hs]]; eauto.
Qed.

(** What the two statements do to the journal. *)
Lemma insertReservation_spec id d s n s' :
  insertReservation ns id d s = (n, s') → sqlOk s →
  sqlOk s' ∧ ((n = 1 ∧ reserved (sqlJournal s) id d (sqlJournal s'))
              ∨ (n = 0 ∧ s' = s ∧ is_Some (s !! (ns, id)))).
Proof.
  unfold insertReservation. destruct (s !! (ns, id)) as [r|] eqn:Hs; intros [= <- <-] Hok.
  - split; [done|]. right. split; [done|]. split; [done|]. by eexists.
  - split; [by apply sqlOk_insert|]. left. split; [done|]. split.
    + by rewrite sqlJournal_lookup, Hs.
    + by rewrite sqlJournal_insert, rowEntry_pending.
Qed.

Lemma updateResult_spec id d r raw s n s' :
  updateResult ns id d raw s = (n, s') → sqlOk s → cleanResult r → Marshal r = Some raw →
  len raw <= MaximumBodyBytes / 2 → len r.(Result_Output) <= MaximumInputBytes →
  sqlOk s' ∧ ((n = 1 ∧ completed (sqlJournal s) id d r (sqlJournal s')) ∨ (n = 0 ∧ s' = s)).
Proof.
  intros Hu Hok Hc Hm Hl Ho. revert Hu. unfold updateResult.
  destruct (s !! (ns, id)) as [[existing result]|] eqn:Hs; [|intros [= <- <-]; eauto].
  case_decide as Hd; intros [= <- <-]; [|eauto]. destruct Hd as [-> Hres].
  split; [apply sqlOk_insert; [done|]; intros ? [= <-]; eauto|]. left. split; [done|].
  unfold completed. rewrite sqlJournal_lookup, Hs, sqlJournal_insert, (rowEntry_written d r raw) by done.
  split; [|done]. destruct Hres as [->| ->]; simpl; [left|right].
  - by rewrite rowEntry_pending.
  - by rewrite (rowEntry_written d r raw).
Qed.

Lemma readRow_entry d existing result a :
  readRow d existing result = a → panics a = false ∧ diverges a = false
  ∧ (∀ r, a = Ret (Some r) → existing = d ∧ (rowEntry (existing, result)).2 = Some r)
  ∧ a ≠ Ret None
  ∧ (a = Throw ErrConflict → existing ≠ d)
  ∧ (a = Throw ErrInProgress → existing = d ∧ (rowEntry (existing, result)).2 = None).
Proof.
  intros <-. unfold rowEntry, readRow. cbn [fst snd].
  rewrite (bool_decide_eq_true_2 (existing = existing)) by done. cbn [negb].
  case_bool_decide as Hd; cbn [negb]; [|done]. subst.
  repeat (case_match; try done); naive_solver.
Qed.

Lemma exec_insert f id d s n s' :
  exec f (insertReservation ns id d) s = (n, s') → sqlOk s →
  sqlOk s' ∧ ((n = Some 1 ∧ reserved (sqlJournal s) id d (sqlJournal s'))
    ∨ (n = Some 0 ∧ s' = s ∧ is_Some (s !! (ns, id)))
    ∨ (n = None ∧ (s' = s ∨ reserved (sqlJournal s) id d (sqlJournal s')))).
Proof.
  intros He Hok. destruct (insertReservation ns id d s) as [m s1] eqn:Hi.
  destruct (insertReservation_spec _ _ _ _ _ Hi Hok) as [Hok1 Hcase].
  destruct f; simpl in He; rewrite ?Hi in He; injection He as <- <-; simpl; [|by auto 10|];
    split; try done; naive_solver.
Qed.

Lemma sqlReserve_answers f1 f2 others s id d a s' :
  sqlReserve f1 f2 others s id d = (a, s') → panics a = false ∧ diverges a = false.
Proof.
  unfold sqlReserve. destruct (negb _); [by intros [= <- <-]|].
  destruct (exec _ _ s) as [[n|] s1]; [|by intros [= <- <-]].
  destruct (n =? 1); [by intros [= <- <-]|]. cbv zeta.
  destruct f2, (others s1 !! (ns, id)) as [[e o]|]; intros [= <- <-]; try done.
  by destruct (readRow_entry d e o _ eq_refl) as (? & ? & _).
Qed.

Lemma sqlReserve_spec f1 f2 s id d a s' :
  sqlReserve f1 f2 (fun s => s) s id d = (a, s') → sqlOk s →
  sqlOk s' ∧ ((a = Ret None ∧ reserved (sqlJournal s) id d (sqlJournal s'))
    ∨ ((a = Throw ErrUnavailable ∨ a = Throw ErrInvalid)
       ∧ (s' = s ∨ reserved (sqlJournal s) id d (sqlJournal s')))
    ∨ (s' = s ∧ ∃ existing result,
         s !! (ns, id) = Some (existing, result) ∧ a = readRow d existing result)).
Proof.
  unfold sqlReserve. intros Hr Hok. destruct (negb (validIdentity id d)).
  { injection Hr as <- <-. auto 10. }
  destruct (exec f1 (insertReservation ns id d) s) as [n s1] eqn:He.
  destruct (exec_insert _ _ _ _ _ _ He Hok) as [Hok1 Hcase].
  destruct Hcase as [[-> Hres]|[(-> & -> & [[existing result] Hs])|[-> Hres]]];
    [injection Hr as <- <-; by auto 10| |injection Hr as <- <-; by auto 10].
  cbn [Z.eqb] in Hr. rewrite Hs in Hr. destruct f2; injection Hr as <- <-; split; eauto 12.
Qed.

Lemma sqlComplete_spec f s id d r a s' :
  sqlComplete f s id d r = (a, s') → sqlOk s → cleanResult r →
  sqlOk s' ∧ ((a = Ret tt ∧ completed (sqlJournal s) id d r (sqlJournal s'))
    ∨ (a ≠ Ret tt ∧ (s' = s ∨ completed (sqlJournal s) id d r (sqlJournal s')))).
Proof.
  unfold sqlComplete. intros Hr Hok Hc.
  destruct (negb (validIdentity id d) || (MaximumInputBytes <? _)) eqn:Hv.
  { injection Hr as <- <-. auto. }
  apply orb_false_iff in Hv as [_ Ho%Z.ltb_ge].
  destruct (Marshal r) as [raw|] eqn:Hm; [|injection Hr as <- <-; auto].
  destruct (Z.ltb_spec (MaximumBodyBytes / 2) (len raw)) as [|Hl]; [injection Hr as <- <-; auto|].
  destruct (updateResult ns id d raw s) as [n s1] eqn:Hu.
  destruct (updateResult_spec _ _ _ _ _ _ _ Hu Hok Hc Hm Hl Ho) as [Hok1 Hcase].
  unfold exec in Hr. rewrite ?Hu in Hr. destruct f; simpl in Hr.
  - destruct Hcase as [[-> Hd]|[-> ->]]; simpl in Hr; injection Hr as <- <-; auto.
  - injection Hr as <- <-. auto.
  - injection Hr as <- <-. split; [done|]. right. split; [done|]. naive_solver.
Qed.

(** The sources declare that the store is an [ExecutionStore]. *)
#[local] Instance sqlStore : ExecutionStore table := {
  store_ok := sqlOk;
  journal := sqlJournal;
  Reserve s id d a s' := ∃ f1 f2, sqlReserve f1 f2 (fun s => s) s id d = (a, s');
  Complete s id d r a s' := ∃ f, sqlComplete f s id d r = (a, s');
}.

(** C3: the PostgreSQL journal implements the contract of [ExecutionStore]: whatever
    statement fails and whether it failed before or after taking effect, a reservation
    is given out only for a new identity, changed input conflicts, an incomplete
    reservation is reported as in progress, and completion stores the result that later
    reservations return, byte for byte through its JSON form. *)
Theorem sqlStore_refines : ExecutionStoreLaws table.
Proof.
  split; simpl.
  - intros s id d a s' Hok (f1 & f2 & Hr). by apply sqlReserve_spec in Hr as [? _].
  - intros s id d r a s' Hok Hc (f & Hr). by apply sqlComplete_spec in Hr as [? _].
  - intros s id d s' Hok (f1 & f2 & Hr).
    apply sqlReserve_spec in Hr as (_ & [[_ ?]|[[[?|?] _]|(_ & e & o & _ & Ha)]]); try done.
    by apply symmetry, readRow_entry in Ha as (_ & _ & _ & ? & _).
  - intros s id d r s' Hok (f1 & f2 & Hr).
    apply sqlReserve_spec in Hr as (_ & [[? _]|[[[?|?] _]|(-> & e & o & Hs & Ha)]]); try done.
    apply symmetry, readRow_entry in Ha as (_ & _ & Hread & _).
    destruct (Hread r eq_refl) as [-> Hr]. split; [|done]. rewrite sqlJournal_lookup, Hs. simpl.
    f_equal. rewrite (surjective_pairing (rowEntry _)). by rewrite Hr.
  - intros s id d s' Hok (f1 & f2 & Hr).
    apply sqlReserve_spec in Hr as (_ & [[? _]|[[[?|?] _]|(-> & e & o & Hs & Ha)]]); try done.
    apply symmetry, readRow_entry in Ha as (_ & _ & _ & _ & Hread & _).
    split; [|done]. exists e, (rowEntry (e, o)).2. split; [by apply Hread|].
    by rewrite sqlJournal_lookup, Hs.
  - intros s id d s' Hok (f1 & f2 & Hr).
    apply sqlReserve_spec in Hr as (_ & [[? _]|[[[?|?] _]|(-> & e & o & Hs & Ha)]]); try done.
    apply symmetry, readRow_entry in Ha as (_ & _ & _ & _ & _ & Hread).
    destruct (Hread eq_refl) as [-> Hr]. split; [|done]. rewrite sqlJournal_lookup, Hs. simpl.
    f_equal. rewrite (surjective_pairing (rowEntry _)). by rewrite Hr.
  - intros s id d e s' Hok (f1 & f2 & Hr).
    apply sqlReserve_spec in Hr as (_ & [[? _]|[[_ [->|?]]|(-> & _)]]); auto. done.
  - intros s id d a s' (f1 & f2 & Hr). by eapply sqlReserve_answers.
  - intros s id d r s' Hok Hc (f & Hr). apply sqlComplete_spec in Hr as (_ & [[_ ?]|[? _]]); done.
  - intros s id d r a s' Hok Hc (f & Hr).
    apply sqlComplete_spec in Hr as (_ & [[_ ?]|[_ [->|?]]]); auto.
Qed.

(** C6: [Reserve] behaves as one atomic step although it is two statements. Whatever other
    writers do in between, as long as the row they find is not deleted, the answer and
    the final table are those of a [Reserve] without interference, before or after
    theirs. *)
Theorem reserve_atomic f1 f2 others s id d :
  (is_Some (s !! (ns, id)) → is_Some (others s !! (ns, id))) →
  sqlReserve f1 f2 others s id d = sqlReserve f1 f2 (fun s => s) s id d
  ∨ sqlReserve f1 f2 others s id d = sqlReserve f1 f2 (fun s => s) (others s) id d.
Proof.
  intros Hkept. unfold sqlReserve. destruct (negb (validIdentity id d)); [by left|].
  unfold exec, insertReservation.
  destruct (s !! (ns, id)) as [r|] eqn:Hs; [|left; destruct f1; reflexivity].
  destruct Hkept as [r' Hr']; [by eexists|].
  destruct f1; simpl; [|by left..]. right. rewrite Hr'. cbn [Z.eqb]. by rewrite Hr'.
Qed.

End Store.

(** * The validators agree *)
(** The journal accepts exactly the identities the runtime produces: its hexadecimal
    round trip and its rune scan agree with [isDigest] and [identifier] of the protocol. *)
Theorem validIdentity_protocol operationID digest :
  validIdentity operationID digest = identifier operationID 513 && isDigest digest.
Proof.
  unfold validIdentity. rewrite isDigest_hexDecode, identifier_existsb.
  destruct (hexDecode (bytes_of digest)); [|by rewrite andb_false_r]. by rewrite andb_assoc.
Qed.

(** * Witnesses *)
Module SqlSamples.
Import Protocol.Samples.

#[export] Instance result_unmarshal : JsonUnmarshal Result := fieldsUnmarshal _.
#[export] Instance result_unmarshal_laws : JsonUnmarshalLaws Result cleanResult.
Proof. by apply fieldsUnmarshal_laws. Qed.

Lemma sqlStore_refines_witness :
  validIdentity "binding:invocation:1" digestA = true
  ∧ @Reserve table (sqlStore "deployment") ∅ "binding:invocation:1" digestA (Ret None)
      {[("deployment", "binding:invocation:1") := (digestA, None)]}
  ∧ reserved (sqlJournal "deployment" ∅) "binding:invocation:1" digestA
      (sqlJournal "deployment" {[("deployment", "binding:invocation:1") := (digestA, None)]}).
Proof.
  assert (Hv : validIdentity "binding:invocation:1" digestA = true) by (vm_compute; reflexivity).
  assert (Hr : @Reserve table (sqlStore "deployment") ∅ "binding:invocation:1" digestA (Ret None)
    {[("deployment", "binding:invocation:1") := (digestA, None)]}).
  { exists NoFault, NoFault. unfold sqlReserve. rewrite Hv. reflexivity. }
  split; [exact Hv|]. split; [exact Hr|].
  refine (@Reserve_new _ _ _ (sqlStore_refines "deployment") _ _ _ _ _ Hr).
  intros id d raw. rewrite lookup_empty. discriminate.
Defined.

(** Another writer completes the reservation between the statements. *)
Lemma reserve_atomic_witness :
  let s : table := {[("deployment", "op:1") := (digestA, None)]} in
  let others (s : table) : table := <[("deployment", "op:1") := (digestA, Some [x7b])]> s in
  is_Some (others s !! ("deployment", "op:1"))
  ∧ (sqlReserve "deployment" NoFault NoFault others s "op:1" digestA =
       sqlReserve "deployment" NoFault NoFault (fun s => s) s "op:1" digestA
     ∨ sqlReserve "deployment" NoFault NoFault others s "op:1" digestA =
       sqlReserve "deployment" NoFault NoFault (fun s => s) (others s) "op:1" digestA).
Proof.
  intros s others.
  assert (Hk : is_Some (others s !! ("deployment", "op:1")))
    by (unfold others; rewrite lookup_insert_eq; eexists; reflexivity).
  split; [exact Hk|]. apply (reserve_atomic "deployment" NoFault NoFault others s "op:1" digestA).
  intros _. exact Hk.
Defined.

End SqlSamples.

(** * Installation *)
Section InstallationTheorems.

(** [Initialize] is a safe migration: whatever fails, the database is the old one or the
    installed one, never anything between; success means installed; every row, with its
    digest, its result and its pending reservation, is kept; and running it again changes
    nothing. *)
Theorem initialize_migrates begins fails commit db :
  let out := Initialize begins fails commit db in
  (out.2 = db ∨ out.2 = installed db)
  ∧ (out.1 = Ret tt → out.2 = installed db)
  ∧ (begins = true → (∀ i, fails i = false) → commit = NoFault → out = (Ret tt, installed db))
  ∧ installed (installed db) = installed db
  ∧ ∀ column rows, db.(Database_Executions) = Some (column, rows) →
      (installed db).(Database_Executions) = Some (Bytea, rows).
Proof.
  assert (Hrun : ∀ db', runStatements [createSchema; createTable; upgradeResult] fails db = Some db' →
    db' = installed db).
  { intros db'. simpl. destruct (fails 2%nat); [done|]. simpl. destruct (fails 1%nat); [done|].
    destruct db as [schema [[c rows]|]]; simpl; destruct (fails 0%nat); simpl; [done|by intros [= <-]|done|by intros [= <-]]. }
  assert (Hok : (∀ i, fails i = false) →
    runStatements [createSchema; createTable; upgradeResult] fails db = Some (installed db)).
  { intros Hf. destruct db as [schema [[c rows]|]]; simpl; repeat (rewrite Hf; simpl); done. }
  assert (Hrows : ∀ column rows, db.(Database_Executions) = Some (column, rows) →
    (installed db).(Database_Executions) = Some (Bytea, rows)).
  { intros c rows Hdb. unfold installed. by rewrite Hdb. }
  unfold Initialize. destruct begins; cbn [negb]; cbv zeta.
  - destruct (runStatements _ _ _) as [db'|] eqn:Hr.
    + rewrite (Hrun db' eq_refl). destruct commit; simpl; split_and!; intros; try discriminate; eauto.
    + simpl. split_and!; [by left|discriminate| |done|done]. intros _ Hf. by specialize (Hok Hf).
  - simpl. split_and!; [by left|discriminate..|done|done].
Qed.
End InstallationTheorems.
