(* ===== verification/Gateway.v ===== *)
(** Verification of gateway assertions: [lotorhttp/gateway_assertion.go].

    The verifier of one upstream handler, its one-time store and the middleware in front
    of the application handler. *)
From S2P Require Import Prelude GoStd Sha256 Interfaces Protocol.

(** * Data *)
Inductive gateway_error : Type :=
| ErrGatewayAssertionRejected
| ErrGatewayReplayUnavailable.

Record GatewayAssertionClaims : Type := mkClaims {
  Claims_Issuer : string;
  Claims_KeyID : string;
  Claims_Audience : string;
  Claims_Subject : string;
  Claims_SessionIDHash : string;
  Claims_TenantID : string;
  Claims_ApplicationID : string;
  Claims_EnvironmentID : string;
  Claims_BindingID : string;
  Claims_RouteID : string;
  Claims_RoutePin : string;
  Claims_GatewayPlacementID : string;
  Claims_GatewayOwnershipEpoch : Z;
  Claims_RuntimePlacementID : string;
  Claims_RuntimeOwnershipEpoch : Z;
  Claims_Operation : string;
  Claims_Method : string;
  Claims_Path : string;
  Claims_RequestID : string;
  Claims_BodySHA256 : string;
  Claims_QuerySHA256 : string;
  Claims_IdempotencyKeySHA256 : string;
  Claims_IssuedAt : Z;
  Claims_ExpiresAt : Z;
  Claims_ConfigurationVersion : Z;
  Claims_BindingActivationEpoch : Z;
  Claims_ReplayEligible : bool
}.

Record GatewayAssertionAuthority : Type := mkAuthority {
  Authority_Issuer : string;
  Authority_Audience : string;
  Authority_TenantID : string;
  Authority_ApplicationID : string;
  Authority_EnvironmentID : string;
  Authority_BindingID : string;
  Authority_RouteID : string;
  Authority_RoutePin : string;
  Authority_GatewayPlacementID : string;
  Authority_RuntimePlacementID : string;
  Authority_Operation : string;
  Authority_GatewayOwnershipEpoch : Z;
  Authority_RuntimeOwnershipEpoch : Z;
  Authority_ConfigurationVersion : Z;
  Authority_BindingActivationEpoch : Z
}.

#[global] Instance GatewayAssertionAuthority_eq_dec : EqDecision GatewayAssertionAuthority.
Proof. solve_decision. Defined.

#[global] Instance GatewayAssertionClaims_eq_dec : EqDecision GatewayAssertionClaims.
Proof. solve_decision. Defined.

Record GatewayAssertionRequest : Type := mkGatewayRequest {
  Gateway_Method : string;
  Gateway_Path : string;
  Gateway_RawQuery : string;
  Gateway_IdempotencyKey : string;
  Gateway_Body : list byte
}.

(** The verifier; [replay] says whether a one-time store is configured. Durations and
    instants are nanoseconds. *)
Record GatewayAssertionVerifier : Type := mkVerifier {
  keys : gmap string (list byte);
  replay : bool;
  authority : GatewayAssertionAuthority;
  clockSkew : Z
}.

Definition second : Z := 1000000000.

(** * The one-time store *)
Class GatewayAssertionReplayStore (S : Type) : Type := {
  (** the request ID is remembered through this instant *)
  remembers : S → string → Z → Prop;
  (** [Consume] at an instant of the store's clock; [None] is an error *)
  Consume : S → string → Z → Z → option bool * S;
}.

(** The comment of the interface: true only for the first observation through
    [expiresAt]. *)
Class ReplayStoreLaws (S : Type) `{GatewayAssertionReplayStore S} : Prop := {
  Consume_first s id expiresAt t s' :
    Consume s id expiresAt t = (Some true, s') → remembers s' id expiresAt;
  Consume_again s id expiresAt e t answer s' :
    remembers s id expiresAt → t <= expiresAt → Consume s id e t = (answer, s') →
    answer ≠ Some true;
  Consume_keeps s id expiresAt id' e t answer s' :
    remembers s id expiresAt → t <= expiresAt → Consume s id' e t = (answer, s') →
    remembers s' id expiresAt;
}.

(** * Validation *)
Definition controls : list byte := [x00; x0d; x0a].

Definition gatewayToken (value : string) (maximum : Z) : bool :=
  negb (bool_decide (value = "")) && (slen value <=? maximum)
  && bool_decide (TrimSpace value = value) && negb (ContainsAny value controls).

(** [strings.ToLower] matters on ASCII letters only: with any other character the value
    is not hexadecimal. *)
Definition gatewayHash (value : string) : bool :=
  if negb (slen value =? 64) || negb (bool_decide (ToLower value = value)) then false
  else match hexDecode (bytes_of value) with Some _ => true | None => false end.

Definition gatewaySHA256 (value : list byte) : string := EncodeToString (Sum256 value).

Definition constantGatewayHash (expected : string) (value : list byte) : bool :=
  bool_decide (expected = gatewaySHA256 value).

(** The characters of a token besides the upper-case letters. *)
Definition methodMarks : list byte :=
  [x21; x23; x24; x25; x26; x27; x2a; x2b; x2d; x2e; x5e; x5f; x60; x7c; x7e].

Definition methodRune (c : Z) : bool :=
  (65 <=? c) && (c <=? 90) || existsb (fun m => byteZ m =? c) methodMarks.

Definition gatewayMethod (value : string) : bool :=
  if bool_decide (value = "") || negb (bool_decide (value = ToUpper value)) then false
  else forallb methodRune (runes value).

Definition validGatewayAuthority (a : GatewayAssertionAuthority) : bool :=
  gatewayToken a.(Authority_Issuer) 320 && gatewayToken a.(Authority_Audience) 512
  && gatewayToken a.(Authority_TenantID) 300 && gatewayToken a.(Authority_ApplicationID) 300
  && gatewayToken a.(Authority_EnvironmentID) 300 && gatewayToken a.(Authority_BindingID) 200
  && gatewayToken a.(Authority_RouteID) 160 && gatewayHash a.(Authority_RoutePin)
  && gatewayToken a.(Authority_GatewayPlacementID) 200
  && gatewayToken a.(Authority_RuntimePlacementID) 200
  && (0 <? a.(Authority_GatewayOwnershipEpoch)) && (0 <? a.(Authority_RuntimeOwnershipEpoch))
  && (0 <? a.(Authority_ConfigurationVersion)) && (0 <? a.(Authority_BindingActivationEpoch))
  && (bool_decide (a.(Authority_Operation) = "") || gatewayToken a.(Authority_Operation) 256).

Definition validGatewayRequest (request : GatewayAssertionRequest) : bool :=
  let path := request.(Gateway_Path) in
  let key := request.(Gateway_IdempotencyKey) in
  negb (negb (gatewayMethod request.(Gateway_Method)) || bool_decide (path = "")
    || (32 <? slen request.(Gateway_Method)) || (Z.shiftl 8 10 <? slen path)
    || (Z.shiftl 8 10 <? slen request.(Gateway_RawQuery))
    || negb (HasPrefix path "/") || ContainsAny path (controls ++ [x5c])
    || ContainsAny request.(Gateway_RawQuery) controls
    || negb (bool_decide (TrimSpace key = key)) || (512 <? slen key) || ContainsAny key controls).

(** The options of the verifier: a key map, an authority and a skew. *)
Definition NewGatewayAssertionVerifier (options : GatewayAssertionVerifier)
    : outcome gateway_error GatewayAssertionVerifier :=
  if bool_decide (options.(keys) = ∅) || negb (validGatewayAuthority options.(authority))
     || (options.(clockSkew) <? 0) || (30 * second <? options.(clockSkew))
  then Throw ErrGatewayAssertionRejected
  else if negb (bool_decide (map_Forall (fun id key =>
            gatewayToken id 160 = true ∧ len key = PublicKeySize) options.(keys)))
  then Throw ErrGatewayAssertionRejected
  else Ret options.

(** The part of the claims that has to equal the configured authority. *)
Definition claimedAuthority (c : GatewayAssertionClaims) : GatewayAssertionAuthority :=
  mkAuthority c.(Claims_Issuer) c.(Claims_Audience) c.(Claims_TenantID) c.(Claims_ApplicationID)
    c.(Claims_EnvironmentID) c.(Claims_BindingID) c.(Claims_RouteID) c.(Claims_RoutePin)
    c.(Claims_GatewayPlacementID) c.(Claims_RuntimePlacementID) c.(Claims_Operation)
    c.(Claims_GatewayOwnershipEpoch) c.(Claims_RuntimeOwnershipEpoch)
    c.(Claims_ConfigurationVersion) c.(Claims_BindingActivationEpoch).

Definition safeMethod (method : string) : bool :=
  bool_decide (method = "GET") || bool_decide (method = "HEAD")
  || bool_decide (method = "OPTIONS").

Definition validClaims (v : GatewayAssertionVerifier) (claims : GatewayAssertionClaims)
    (request : GatewayAssertionRequest) (now : Z) : bool :=
  if negb (bool_decide (claimedAuthority claims = v.(authority))) then false
  else if (claims.(Claims_IssuedAt) <? 1) || (claims.(Claims_ExpiresAt) <=? claims.(Claims_IssuedAt))
     || (30 <? i64 (claims.(Claims_ExpiresAt) - claims.(Claims_IssuedAt)))
     || (now + v.(clockSkew) <? claims.(Claims_IssuedAt) * second)
     || negb (now - v.(clockSkew) <? claims.(Claims_ExpiresAt) * second)
  then false
  else if negb (gatewayToken claims.(Claims_RequestID) 300)
     || negb (gatewayHash claims.(Claims_BodySHA256)) || negb (gatewayHash claims.(Claims_QuerySHA256))
     || negb (Bool.eqb (bool_decide (claims.(Claims_Subject) = ""))
                       (bool_decide (claims.(Claims_SessionIDHash) = "")))
     || negb (bool_decide (claims.(Claims_SessionIDHash) = ""))
        && negb (gatewayHash claims.(Claims_SessionIDHash))
  then false
  else if negb (bool_decide (claims.(Claims_Method) = request.(Gateway_Method)))
     || negb (bool_decide (claims.(Claims_Path) = request.(Gateway_Path)))
     || negb (constantGatewayHash claims.(Claims_BodySHA256) request.(Gateway_Body))
     || negb (constantGatewayHash claims.(Claims_QuerySHA256) (bytes_of request.(Gateway_RawQuery)))
  then false
  else
    let idempotencyHash :=
      if bool_decide (request.(Gateway_IdempotencyKey) = "") then ""
      else gatewaySHA256 (bytes_of request.(Gateway_IdempotencyKey)) in
    if negb (bool_decide (claims.(Claims_IdempotencyKeySHA256) = idempotencyHash)) then false
    else
      let safe := safeMethod request.(Gateway_Method) in
      (negb safe || claims.(Claims_ReplayEligible))
      && (safe || negb claims.(Claims_ReplayEligible) || negb (bool_decide (idempotencyHash = ""))).

Section Verifier.
Context `{!Ed25519} `{!Json GatewayAssertionClaims}.
Context {S : Type} `{!GatewayAssertionReplayStore S}.

(** The canonical form of an assertion: the version, the body and the signature, each in
    the only base64 form it has, and the body the only JSON form of its claims. The local
    [gatewayJSONEOF] is the same end-of-input test as in [strictJSON]. *)
Definition decodeAssertion (encoded : string)
    : option (GatewayAssertionClaims * list byte * list byte) :=
  match splitAt x2e (bytes_of encoded) with
  | [version; part1; part2] =>
      if negb (bool_decide (version = bytes_of "v1")) then None
      else match rawURLDecode false part1, rawURLDecode false part2 with
      | Some body, Some signature =>
          if (len body =? 0) || (Z.shiftl 16 10 <? len body)
             || negb (len signature =? SignatureSize)
             || negb (bool_decide (rawURLEncode body = part1))
             || negb (bool_decide (rawURLEncode signature = part2))
          then None
          else match Decode body with
          | Some (claims, rest) =>
              if negb (atEOF rest) || negb (bool_decide (Marshal claims = Some body)) then None
              else Some (claims, body, signature)
          | None => None
          end
      | _, _ => None
      end
  | _ => None
  end.

(** The checks of [Verify] up to the replay store. *)
Definition authenticate (v : GatewayAssertionVerifier) (encoded : string)
    (request : GatewayAssertionRequest) (now : Z) : option GatewayAssertionClaims :=
  if negb (validGatewayRequest request) then None
  else match decodeAssertion encoded with
  | None => None
  | Some (claims, body, signature) =>
      let publicKey := default [] (v.(keys) !! claims.(Claims_KeyID)) in
      if negb (len publicKey =? PublicKeySize) || negb (Verify publicKey body signature)
      then None
      else if negb (validClaims v claims request now) then None
      else Some claims
  end.

(** [Verify] at the instant [now] of the verifier's clock, with the store consulted at
    the instant [t] of its own. *)
Definition GatewayVerify (v : GatewayAssertionVerifier) (encoded : string)
    (request : GatewayAssertionRequest) (now t : Z) (s : S)
    : outcome gateway_error GatewayAssertionClaims * S :=
  match authenticate v encoded request now with
  | None => (Throw ErrGatewayAssertionRejected, s)
  | Some claims =>
      if claims.(Claims_ReplayEligible) then (Ret claims, s)
      else if negb v.(replay) then (Throw ErrGatewayReplayUnavailable, s)
      else match Consume s claims.(Claims_RequestID) (claims.(Claims_ExpiresAt) * second) t with
      | (None, s) => (Throw ErrGatewayReplayUnavailable, s)
      | (Some false, s) => (Throw ErrGatewayAssertionRejected, s)
      | (Some true, s) => (Ret claims, s)
      end
  end.

(** * The middleware *)
Record OriginRequest : Type := mkOriginRequest {
  Origin_Authenticated : bool;
  Origin_Assertions : list string;
  Origin_IdempotencyKeys : list string;
  Origin_Method : string;
  Origin_Path : string;
  Origin_RawQuery : string;
  (** the bytes of the body, or [None] if reading it fails *)
  Origin_Body : option (list byte)
}.

(** What reaches the client or the next handler: the request with the assertion header
    removed and the body restored, and the claims of its context. *)
Inductive gateway_response : Type :=
| GatewayHTTPError (status : Z)
| Next (request : OriginRequest) (claims : GatewayAssertionClaims).

Definition middleware (v : GatewayAssertionVerifier) (maxBodyBytes : Z) (r : OriginRequest)
    (now t : Z) (s : S) : gateway_response * S :=
  if negb r.(Origin_Authenticated) then (GatewayHTTPError 401, s)
  else match r.(Origin_Assertions) with
  | [assertion] =>
      if 1 <? len r.(Origin_IdempotencyKeys) then (GatewayHTTPError 401, s)
      else match r.(Origin_Body) with
      | None => (GatewayHTTPError 413, s)
      | Some body =>
          if maxBodyBytes <? len body then (GatewayHTTPError 413, s)
          else
            let request := mkGatewayRequest r.(Origin_Method) r.(Origin_Path) r.(Origin_RawQuery)
              (default "" (head r.(Origin_IdempotencyKeys))) body in
            match GatewayVerify v assertion request now t s with
            | (Ret claims, s) =>
                (Next (mkOriginRequest true [] r.(Origin_IdempotencyKeys) r.(Origin_Method)
                   r.(Origin_Path) r.(Origin_RawQuery) (Some body)) claims, s)
            | (Throw ErrGatewayReplayUnavailable, s) => (GatewayHTTPError 503, s)
            | (_, s) => (GatewayHTTPError 401, s)
            end
      end
  | _ => (GatewayHTTPError 401, s)
  end.

End Verifier.

(** * Lemmas *)
Lemma toLower_id b : toLower b = b ↔ (byteZ b < 65 ∨ 90 < byteZ b).
Proof.
  unfold toLower. pose proof (byteZ_range b).
  destruct (Z.leb_spec 65 (byteZ b)), (Z.leb_spec (byteZ b) 90); simpl; split; try done; try lia.
  intros Hb. apply (f_equal byteZ) in Hb. rewrite byteZ_to_byte, Z.mod_small in Hb; lia.
Qed.

Lemma fmap_id_iff {A} (f : A → A) l : f <$> l = l ↔ Forall (fun x => f x = x) l.
Proof.
  induction l as [|x l IH]; csimpl; [split; [constructor|done]|]. rewrite Forall_cons, <- IH.
  split; [intros [= Hx Hl]; by split|intros [Hx Hl]; by rewrite Hx, Hl].
Qed.

Lemma string_of_eq b s : string_of b = s ↔ b = bytes_of s.
Proof.
  split; [intros <-; by rewrite bytes_of_string_of|intros ->; apply string_of_bytes_of].
Qed.

Lemma hexDecode_Some s :
  is_Some (hexDecode s) → Forall (fun b => is_Some (unhex b)) s.
Proof.
  assert (Hn : ∀ n s, (length s <= n)%nat → is_Some (hexDecode s) →
    Forall (fun b => is_Some (unhex b)) s).
  { intros n. induction n as [|n IH]; intros l Hl Hs.
    { destruct l; [constructor|simpl in Hl; lia]. }
    destruct l as [|a [|b l]]; [constructor|by destruct Hs|]. simpl in Hl, Hs.
    destruct (unhex a) eqn:Ha; [|by destruct Hs]. destruct (unhex b) eqn:Hb; [|by destruct Hs].
    csimpl in Hs. destruct (hexDecode l) eqn:Hd; [|by destruct Hs].
    apply Forall_cons; split; [by rewrite Ha|]. apply Forall_cons; split; [by rewrite Hb|].
    apply IH; [lia|by rewrite Hd]. }
  by apply (Hn (length s)).
Qed.

Lemma unhex_lower b : is_Some (unhex b) → toLower b = b → lowerHex (byteZ b) = true.
Proof.
  rewrite toLower_id. unfold unhex, lowerHex. intros [x Hx] Hb. apply orb_true_iff.
  rewrite !andb_true_iff, !Z.leb_le.
  destruct ((48 <=? _) && _) eqn:H1; [breflect; lia|].
  destruct ((97 <=? _) && _) eqn:H2; [breflect; lia|].
  destruct ((65 <=? _) && _) eqn:H3; [breflect; lia|done].
Qed.

(** The hash check of the gateway is the digest check of the protocol. *)
Lemma gatewayHash_isDigest value : gatewayHash value = isDigest value.
Proof.
  apply eq_true_iff_eq. rewrite isDigest_bytes. unfold gatewayHash.
  destruct (Z.eqb_spec (slen value) 64) as [Hl|]; simpl; [|naive_solver].
  unfold ToLower. rewrite (bool_decide_ext _ _ (string_of_eq _ _)).
  case_bool_decide as Hlow; simpl.
  - apply fmap_id_iff in Hlow. split.
    + intros Hd. split; [done|]. destruct (hexDecode (bytes_of value)) eqn:He; [|done].
      pose proof (hexDecode_Some (bytes_of value) ltac:(by eexists)) as Hs.
      apply forallb_forall. intros b Hb%list_elem_of_In. rewrite Forall_forall in *.
      by apply unhex_lower; [apply Hs|apply Hlow].
    + intros [_ Hh]. destruct (hexEncode_hexDecode (bytes_of value)) as (b & -> & _); try done.
      exists 32%nat. unfold slen, len in Hl. lia.
  - split; [done|]. intros [_ Hh]. exfalso. apply Hlow, fmap_id_iff, Forall_forall. intros b Hb.
    rewrite forallb_forall in Hh. apply list_elem_of_In, Hh in Hb. apply toLower_id.
    unfold lowerHex in Hb. apply orb_true_iff in Hb as [Hb|Hb]; breflect; lia.
Qed.

(** The time window of accepted claims. *)
Lemma validClaims_window v claims request now :
  validClaims v claims request now = true →
  claims.(Claims_IssuedAt) * second <= now + v.(clockSkew)
  ∧ now < claims.(Claims_ExpiresAt) * second + v.(clockSkew)
  ∧ (is_i64 claims.(Claims_ExpiresAt) →
     claims.(Claims_IssuedAt) < claims.(Claims_ExpiresAt) <= claims.(Claims_IssuedAt) + 30).
Proof.
  unfold validClaims. destruct (negb (bool_decide (_ = authority v))); [done|].
  destruct (_ || negb (_ <? _)) eqn:Ht; [done|]. intros _. breflect.
  repeat split; try lia. all: unfold is_i64 in *; rewrite i64_id in *; unfold is_i64; lia.
Qed.

Lemma safeMethod_spec method : safeMethod method = true ↔ method ∈ ["GET"; "HEAD"; "OPTIONS"].
Proof.
  unfold safeMethod. rewrite !orb_true_iff, !bool_decide_eq_true, !elem_of_cons, elem_of_nil. tauto.
Qed.

(** The binding of accepted claims to the request. *)
Lemma validClaims_request v claims request now :
  validClaims v claims request now = true →
  claimedAuthority claims = v.(authority)
  ∧ claims.(Claims_Method) = request.(Gateway_Method) ∧ claims.(Claims_Path) = request.(Gateway_Path)
  ∧ claims.(Claims_BodySHA256) = Digest request.(Gateway_Body)
  ∧ claims.(Claims_QuerySHA256) = Digest (bytes_of request.(Gateway_RawQuery))
  ∧ claims.(Claims_IdempotencyKeySHA256) =
      (if decide (request.(Gateway_IdempotencyKey) = "") then ""
       else Digest (bytes_of request.(Gateway_IdempotencyKey)))
  ∧ (request.(Gateway_Method) ∈ ["GET"; "HEAD"; "OPTIONS"] →
     claims.(Claims_ReplayEligible) = true)
  ∧ (claims.(Claims_ReplayEligible) = true →
     request.(Gateway_Method) ∈ ["GET"; "HEAD"; "OPTIONS"] ∨ request.(Gateway_IdempotencyKey) ≠ "")
  ∧ (claims.(Claims_Subject) = "" ↔ claims.(Claims_SessionIDHash) = "")
  ∧ 1 <= slen claims.(Claims_RequestID) <= 300.
Proof.
  unfold validClaims, constantGatewayHash. fold Digest.
  destruct (negb (bool_decide (_ = authority v))) eqn:Ha; [done|].
  destruct (_ || negb (_ <? _)); [done|].
  destruct (_ || _ && negb (gatewayHash _)) eqn:Hsub; [done|].
  destruct (_ || negb (bool_decide (_ = gatewaySHA256 (bytes_of _)))) eqn:Hr; [done|].
  destruct (negb (bool_decide (claims.(Claims_IdempotencyKeySHA256) = _))) eqn:Hi; [done|].
  rewrite !orb_false_iff, !negb_false_iff in Hsub. destruct Hsub as [[[[Hid _] _] Hsub] _].
  apply eqb_prop in Hsub. breflect. intros [Helig Hsafe]%andb_true_iff. do 5 (split; [done|]).
  split; [rewrite Hi; case_bool_decide; by case_decide|].
  split; [intros Hm%safeMethod_spec; by rewrite Hm in Helig|]. split; [|split].
  - intros He. destruct (safeMethod _) eqn:Hm; [left; by apply safeMethod_spec|]. right. intros Hk.
    by rewrite Hk, He in Hsafe.
  - by rewrite <- (bool_decide_eq_true (claims.(Claims_Subject) = "")), Hsub, bool_decide_eq_true.
  - unfold gatewayToken in Hid. rewrite !andb_true_iff, negb_true_iff, bool_decide_eq_false in Hid.
    destruct Hid as [[[Hne Hlen%Z.leb_le] _] _]. split; [|done].
    destruct (claims.(Claims_RequestID)); [done|]. unfold slen, len. simpl. lia.
Qed.

Section VerifierLemmas.
Context `{!Ed25519} `{!Json GatewayAssertionClaims}.
Context {S : Type} `{!GatewayAssertionReplayStore S} `{!ReplayStoreLaws S}.

Lemma decodeAssertion_Some encoded claims body signature :
  decodeAssertion encoded = Some (claims, body, signature) →
  Marshal claims = Some body
  ∧ bytes_of encoded = bytes_of "v1." ++ rawURLEncode body ++ x2e :: rawURLEncode signature.
Proof.
  unfold decodeAssertion.
  destruct (splitAt x2e (bytes_of encoded)) as [|version [|part1 [|part2 []]]] eqn:Hs; try done.
  case_bool_decide as Hver; simpl; [|done].
  destruct (rawURLDecode false part1) as [body'|]; [|done].
  destruct (rawURLDecode false part2) as [signature'|]; [|done].
  destruct (_ || _ || _ || _ || _) eqn:Hb; [done|].
  destruct (Decode body') as [[c rest]|]; [|done].
  destruct (negb (atEOF rest) || _) eqn:Hm; [done|]. intros [= <- <- <-]. breflect.
  split; [done|]. apply splitAt_join in Hs. rewrite Hs, Hver. csimpl. rewrite app_nil_r.
  repeat match goal with H : _ = part1 |- _ => rewrite <- H; clear H
                       | H : _ = part2 |- _ => rewrite <- H; clear H end.
  done.
Qed.

Lemma authenticate_Some v encoded request now claims :
  authenticate v encoded request now = Some claims ↔
  validGatewayRequest request = true ∧ validClaims v claims request now = true
  ∧ ∃ body signature key, decodeAssertion encoded = Some (claims, body, signature)
    ∧ v.(keys) !! claims.(Claims_KeyID) = Some key ∧ len key = PublicKeySize
    ∧ Verify key body signature = true.
Proof.
  unfold authenticate. destruct (validGatewayRequest request); simpl; [|by split; [|intros [? _]]].
  destruct (decodeAssertion encoded) as [[[c body] signature]|].
  2:{ split; [done|]. by intros (_ & _ & b & g & k & ? & _). }
  split.
  - destruct (negb (_ =? PublicKeySize) || _) eqn:Hk; [done|].
    destruct (validClaims v c request now) eqn:Hc; simpl; [|done]. intros [= <-]. breflect.
    split; [done|]. split; [done|].
    destruct (keys v !! Claims_KeyID c) as [key|]; simpl in *; [by exists body, signature, key|].
    unfold len, PublicKeySize in *. simpl in *. lia.
  - intros (_ & Hc & b & g & key & [= <- <- <-] & Hk & Hl & Hv).
    rewrite Hk. simpl. by rewrite Hl, Hv, Hc.
Qed.

Lemma GatewayVerify_Ret v encoded request now t (s s' : S) claims :
  GatewayVerify v encoded request now t s = (Ret claims, s') →
  authenticate v encoded request now = Some claims
  ∧ (claims.(Claims_ReplayEligible) = true ∧ s' = s
     ∨ claims.(Claims_ReplayEligible) = false
       ∧ Consume s claims.(Claims_RequestID) (claims.(Claims_ExpiresAt) * second) t
         = (Some true, s')).
Proof.
  unfold GatewayVerify. destruct (authenticate v encoded request now) as [c|]; [|done].
  destruct (Claims_ReplayEligible c) eqn:He; [intros [= <- <-]; auto|].
  destruct (negb (replay v)); [done|].
  destruct (Consume _ _ _ _) as [[[|]|] s1] eqn:Hc; intros [= <- <-]. auto.
Qed.

(** * Properties *)

(** C20: what an accepted assertion proves. Its text is the one canonical encoding of the
    claims and a signature over exactly those bytes by a configured key; the authority is
    the configured one; method, path, query, body and idempotency key (or its absence) are
    those of the request; the claims are at most 30 seconds long and, up to the skew, current;
    they name the session exactly if they name a subject; a request by a safe method may be
    replayed, and any other only if it has an idempotency key. *)
Theorem assertion_bound v encoded request now t (s s' : S) claims :
  GatewayVerify v encoded request now t s = (Ret claims, s') →
  (∃ body signature key, Marshal claims = Some body
    ∧ v.(keys) !! claims.(Claims_KeyID) = Some key ∧ Verify key body signature = true
    ∧ bytes_of encoded = bytes_of "v1." ++ rawURLEncode body ++ x2e :: rawURLEncode signature)
  ∧ claimedAuthority claims = v.(authority)
  ∧ claims.(Claims_Method) = request.(Gateway_Method) ∧ claims.(Claims_Path) = request.(Gateway_Path)
  ∧ claims.(Claims_BodySHA256) = Digest request.(Gateway_Body)
  ∧ claims.(Claims_QuerySHA256) = Digest (bytes_of request.(Gateway_RawQuery))
  ∧ claims.(Claims_IdempotencyKeySHA256) =
      (if decide (request.(Gateway_IdempotencyKey) = "") then ""
       else Digest (bytes_of request.(Gateway_IdempotencyKey)))
  ∧ claims.(Claims_IssuedAt) * second - v.(clockSkew) <= now
      < claims.(Claims_ExpiresAt) * second + v.(clockSkew)
  ∧ (is_i64 claims.(Claims_ExpiresAt) → claims.(Claims_ExpiresAt) <= claims.(Claims_IssuedAt) + 30)
  ∧ (request.(Gateway_Method) ∈ ["GET"; "HEAD"; "OPTIONS"] →
     claims.(Claims_ReplayEligible) = true)
  ∧ (claims.(Claims_ReplayEligible) = true →
     request.(Gateway_Method) ∈ ["GET"; "HEAD"; "OPTIONS"] ∨ request.(Gateway_IdempotencyKey) ≠ "")
  ∧ (claims.(Claims_Subject) = "" ↔ claims.(Claims_SessionIDHash) = "")
  ∧ 1 <= slen claims.(Claims_RequestID) <= 300.
Proof.
  intros [(_ & Hv & body & signature & key & Hd & Hk & _ & Hver)%authenticate_Some _]%GatewayVerify_Ret.
  apply decodeAssertion_Some in Hd as [Hm He].
  destruct (validClaims_window _ _ _ _ Hv) as (Hi & Hx & Hlife).
  destruct (validClaims_request _ _ _ _ Hv) as (Ha & Hme & Hp & Hb & Hq & Hi' & Hr).
  split; [by exists body, signature, key|]. do 6 (split; [done|]). split; [lia|].
  split; [|done]. intros Hx64. apply Hlife in Hx64. lia.
Qed.

(** Consultations of the store by anyone, up to an instant. *)
Definition consumed (until : Z) (s s' : S) : Prop :=
  ∃ id e t answer, t <= until ∧ Consume s id e t = (answer, s').

Lemma remembers_consumed until s s' id e :
  until <= e → rtc (consumed until) s s' → remembers s id e → remembers s' id e.
Proof.
  intros Hu Hr. induction Hr as [|s1 s2 s3 (id' & e' & t & answer & Ht & Hc) _ IH]; [done|].
  intros Hm. apply IH. eapply Consume_keeps; [done| |done]. lia.
Qed.

(** C21: without clock skew an assertion that is not replay eligible is accepted at most
    once. Whatever else consults the shared store in between, presenting the same text
    again (with any request) is rejected. *)
Theorem single_use v encoded request1 request2 now1 t1 now2 (s1 s2 s3 s4 : S) claims answer :
  v.(clockSkew) = 0 →
  GatewayVerify v encoded request1 now1 t1 s1 = (Ret claims, s2) →
  claims.(Claims_ReplayEligible) = false →
  rtc (consumed now2) s2 s3 →
  GatewayVerify v encoded request2 now2 now2 s3 = (answer, s4) → returns answer = false.
Proof.
  intros Hskew [Ha1 Hc1]%GatewayVerify_Ret He Hr Hv2.
  destruct answer as [claims2|e| |]; try done. exfalso.
  apply GatewayVerify_Ret in Hv2 as [Ha2 Hc2].
  apply authenticate_Some in Ha1 as (_ & _ & b1 & g1 & k1 & Hd1 & _).
  apply authenticate_Some in Ha2 as (_ & Hval & b2 & g2 & k2 & Hd2 & _).
  rewrite Hd1 in Hd2. injection Hd2 as <- _ _.
  destruct Hc1 as [[? _]|[_ Hc1]]; [congruence|]. destruct Hc2 as [[? _]|[_ Hc2]]; [congruence|].
  destruct (validClaims_window _ _ _ _ Hval) as (_ & Hx & _). rewrite Hskew in Hx.
  apply Consume_first in Hc1.
  eapply remembers_consumed in Hc1; [|by apply Z.lt_le_incl, (Z.lt_le_trans _ _ _ Hx); lia|done].
  eapply Consume_again in Hc1; [|by apply Z.lt_le_incl, (Z.lt_le_trans _ _ _ Hx); lia|done]. done.
Qed.

(** The middleware calls the next handler only for a request that passed the origin
    check and carried exactly one assertion, which was verified against this request; the
    next handler sees the body whose hash was signed and no assertion. *)
Theorem middleware_gate v maxBodyBytes r now t (s s' : S) r' claims :
  middleware v maxBodyBytes r now t s = (Next r' claims, s') →
  r.(Origin_Authenticated) = true ∧ r'.(Origin_Assertions) = []
  ∧ ∃ assertion body key, r.(Origin_Assertions) = [assertion] ∧ r.(Origin_Body) = Some body
    ∧ r'.(Origin_Body) = Some body ∧ len body <= maxBodyBytes
    ∧ claims.(Claims_BodySHA256) = Digest body
    ∧ (r.(Origin_IdempotencyKeys) = [] ∧ key = "" ∨ r.(Origin_IdempotencyKeys) = [key])
    ∧ GatewayVerify v assertion (mkGatewayRequest r.(Origin_Method) r.(Origin_Path)
        r.(Origin_RawQuery) key body) now t s = (Ret claims, s').
Proof.
  unfold middleware. destruct (Origin_Authenticated r); simpl; [|done].
  destruct (Origin_Assertions r) as [|assertion [|]]; try done.
  destruct (Z.ltb_spec 1 (len r.(Origin_IdempotencyKeys))) as [|Hk]; [done|].
  destruct (Origin_Body r) as [body|]; [|done].
  destruct (Z.ltb_spec maxBodyBytes (len body)); [done|].
  destruct (GatewayVerify _ _ _ _ _ _) as [[c|[]| |] s1] eqn:Hv; intros [= <- <- <-].
  split; [done|]. split; [done|].
  exists assertion, body, (default "" (head r.(Origin_IdempotencyKeys))).
  do 4 (split; [done|]). split.
  - apply GatewayVerify_Ret in Hv as [(_ & Hval & _)%authenticate_Some _].
    by apply validClaims_request in Hval as (_ & _ & _ & Hb & _).
  - split; [|done]. destruct r.(Origin_IdempotencyKeys) as [|k [|]]; simpl; auto.
    unfold len in Hk. simpl in Hk. lia.
Qed.

End VerifierLemmas.

(** * A store that meets the contract

    The expiry of every request ID that was consumed; an entry counts through its
    expiry. *)
Definition consumeEntry (s : gmap string Z) (id : string) (expiresAt t : Z)
    : option bool * gmap string Z :=
  match s !! id with
  | Some e => if t <=? e then (Some false, s) else (Some true, <[id := expiresAt]> s)
  | None => (Some true, <[id := expiresAt]> s)
  end.

#[local] Instance expiringStore : GatewayAssertionReplayStore (gmap string Z) := {
  remembers s id expiresAt := ∃ e, s !! id = Some e ∧ expiresAt <= e;
  Consume := consumeEntry;
}.

Lemma expiringStore_laws : ReplayStoreLaws (gmap string Z).
Proof.
  split; simpl; unfold consumeEntry.
  - intros s id e t s'. destruct (s !! id) as [e'|]; [destruct (t <=? e')|]; intros [= <-];
      exists e; by rewrite lookup_insert_eq.
  - intros s id x e t answer s' (e' & He & Hle) Ht. rewrite He.
    destruct (Z.leb_spec t e'); [|lia]. by intros [= <- <-].
  - intros s id x id' e t answer s' (e' & He & Hle) Ht.
    destruct (decide (id' = id)) as [->|Hne].
    + rewrite He. destruct (Z.leb_spec t e'); [|lia]. intros [= <- <-]. eauto.
    + intros Hc. exists e'. split; [|done].
      destruct (s !! id') as [e2|]; [destruct (t <=? e2)|]; injection Hc as <- <-;
        by rewrite ?lookup_insert_ne.
Qed.

Section Skew.
Context `{!Ed25519} `{!Json GatewayAssertionClaims}.

(** Accepted claims stay acceptable until the skew after their expiry. *)
Lemma validClaims_later v claims request now1 now2 :
  validClaims v claims request now1 = true → 0 <= v.(clockSkew) →
  claims.(Claims_ExpiresAt) * second < now2 < claims.(Claims_ExpiresAt) * second + v.(clockSkew) →
  validClaims v claims request now2 = true.
Proof.
  intros Hv Hs Hn. revert Hv. unfold validClaims.
  destruct (negb (bool_decide (_ = authority v))); [done|].
  destruct (_ || negb (now1 - _ <? _)) eqn:Ht; [done|]. breflect.
  assert (claims.(Claims_IssuedAt) * second <= claims.(Claims_ExpiresAt) * second)
    by (unfold second; lia).
  rewrite (proj2 (Z.ltb_ge _ 1)), (proj2 (Z.leb_gt _ _)), (proj2 (Z.ltb_ge 30 _)),
    (proj2 (Z.ltb_ge (now2 + _) _)), (proj2 (Z.ltb_lt (now2 - _) _)) by lia. done.
Qed.

(** With a clock skew the one-time check leaves a window. [Verify] accepts claims until
    the skew after their expiry but asks the store to remember the request ID only until
    the expiry, so a store that does exactly what its interface promises admits the same
    single-use assertion a second time in between. *)
Theorem replay_within_skew v encoded request now1 now2 claims s :
  v.(replay) = true → 0 <= v.(clockSkew) →
  GatewayVerify v encoded request now1 now1 (∅ : gmap string Z) = (Ret claims, s) →
  claims.(Claims_ReplayEligible) = false →
  claims.(Claims_ExpiresAt) * second < now2 < claims.(Claims_ExpiresAt) * second + v.(clockSkew) →
  GatewayVerify v encoded request now2 now2 s = (Ret claims, s).
Proof.
  intros Hr Hs [Ha Hc]%GatewayVerify_Ret He Hn.
  destruct Hc as [[? _]|[_ Hc]]; [congruence|]. simpl in Hc. unfold consumeEntry in Hc.
  rewrite lookup_empty in Hc. injection Hc as <-.
  assert (Ha2 : authenticate v encoded request now2 = Some claims).
  { apply authenticate_Some in Ha as (Hq & Hv & Hrest). apply authenticate_Some.
    split; [done|]. split; [|done]. by eapply validClaims_later. }
  unfold GatewayVerify. rewrite Ha2, He, Hr. simpl. unfold consumeEntry.
  rewrite lookup_insert_eq, (proj2 (Z.leb_gt _ _)) by lia. by rewrite insert_insert_eq.
Qed.

End Skew.

(** * Witnesses *)
Module GatewaySamples.
Import Protocol.Samples.

#[export] Existing Instance expiringStore.
#[export] Existing Instance expiringStore_laws.

#[export] Instance claims_fields : Fields GatewayAssertionClaims.
Proof.
  refine {|
  toFields c := [[c.(Claims_Issuer); c.(Claims_KeyID); c.(Claims_Audience); c.(Claims_Subject);
    c.(Claims_SessionIDHash); c.(Claims_TenantID); c.(Claims_ApplicationID)];
    [c.(Claims_EnvironmentID); c.(Claims_BindingID); c.(Claims_RouteID); c.(Claims_RoutePin);
    c.(Claims_GatewayPlacementID); ofZ c.(Claims_GatewayOwnershipEpoch);
    c.(Claims_RuntimePlacementID); ofZ c.(Claims_RuntimeOwnershipEpoch)];
    [c.(Claims_Operation); c.(Claims_Method); c.(Claims_Path); c.(Claims_RequestID);
    c.(Claims_BodySHA256); c.(Claims_QuerySHA256); c.(Claims_IdempotencyKeySHA256)];
    [ofZ c.(Claims_IssuedAt); ofZ c.(Claims_ExpiresAt); ofZ c.(Claims_ConfigurationVersion);
    ofZ c.(Claims_BindingActivationEpoch); if c.(Claims_ReplayEligible) then "1" else "0"]];
  ofFields l :=
    match l with
    | [[a1; a2; a3; a4; a5; a6; a7]; [b1; b2; b3; b4; b5; b6; b7; b8]; [c1; c2; c3; c4; c5; c6; c7];
       [d1; d2; d3; d4; d5]] =>
        b6 ← toZ b6; b8 ← toZ b8; d1 ← toZ d1; d2 ← toZ d2; d3 ← toZ d3; d4 ← toZ d4;
        Some (mkClaims a1 a2 a3 a4 a5 a6 a7 b1 b2 b3 b4 b5 b6 b7 b8 c1 c2 c3 c4 c5 c6 c7
                d1 d2 d3 d4 (bool_decide (d5 = "1")))
    | _ => None
    end
  |}.
  intros []; simpl. rewrite !toZ_ofZ. simpl. by destruct Claims_ReplayEligible0.
Defined.

#[export] Instance claims_json : Json GatewayAssertionClaims := fieldsJson _.

Definition authority1 : GatewayAssertionAuthority :=
  mkAuthority "gateway" "upstream" "tenant" "app" "env" "binding" "route" digestA "gw:1" "rt:1" ""
    1 1 1 1.

(** A verifier with a skew of 10 seconds, and one without. *)
Definition verifier (skew : Z) : GatewayAssertionVerifier :=
  mkVerifier {["gateway:1" := Public (NewKeyFromSeed seed)]} true authority1 skew.

Definition orderRequest : GatewayAssertionRequest :=
  mkGatewayRequest "POST" "/orders" "" "" (bytes_of "order").

Definition orderClaims : GatewayAssertionClaims :=
  mkClaims "gateway" "gateway:1" "upstream" "" "" "tenant" "app" "env" "binding" "route" digestA
    "gw:1" 1 "rt:1" 1 "" "POST" "/orders" "request:1" (Digest (bytes_of "order"))
    (Digest []) "" 1000 1020 1 1 false.

Definition orderAssertion : string :=
  let body := default [] (Marshal orderClaims) in
  string_of (bytes_of "v1." ++ rawURLEncode body ++ x2e
    :: rawURLEncode (Sign (NewKeyFromSeed seed) body)).

Definition accepts (v : GatewayAssertionVerifier) (encoded : string)
    (request : GatewayAssertionRequest) (now : Z) (claims : GatewayAssertionClaims) : bool :=
  bool_decide (authenticate v encoded request now = Some claims).

Lemma order_accepted skew :
  skew = 0 ∨ skew = 10 * second →
  authenticate (verifier skew) orderAssertion orderRequest (1010 * second) = Some orderClaims.
Proof.
  assert (H : accepts (verifier 0) orderAssertion orderRequest (1010 * second) orderClaims
    && accepts (verifier (10 * second)) orderAssertion orderRequest (1010 * second) orderClaims = true)
    by (vm_compute; reflexivity).
  apply andb_true_iff in H as [H0 H10].
  intros [->| ->]; [exact (bool_decide_eq_true_1 _ H0)|exact (bool_decide_eq_true_1 _ H10)].
Qed.

(** The store after the order was accepted. *)
Definition store1 : gmap string Z := {["request:1" := 1020 * second]}.

Lemma order_verified skew t :
  skew = 0 ∨ skew = 10 * second →
  GatewayVerify (verifier skew) orderAssertion orderRequest (1010 * second) t (∅ : gmap string Z)
  = (Ret orderClaims, store1).
Proof.
  intros Hs. unfold GatewayVerify. rewrite order_accepted by done. reflexivity.
Qed.

Lemma assertion_bound_witness :
  GatewayVerify (verifier 0) orderAssertion orderRequest (1010 * second) 0 (∅ : gmap string Z)
    = (Ret orderClaims, store1)
  ∧ orderClaims.(Claims_BodySHA256) = Digest orderRequest.(Gateway_Body).
Proof.
  pose proof (order_verified 0 0 (or_introl eq_refl)) as Hv. split; [exact Hv|].
  apply (assertion_bound (verifier 0) orderAssertion orderRequest (1010 * second) 0 ∅ store1
    orderClaims Hv).
Defined.

Lemma single_use_witness :
  returns (GatewayVerify (verifier 0) orderAssertion orderRequest (1011 * second) (1011 * second)
    store1).1 = false.
Proof.
  apply (single_use (verifier 0) orderAssertion orderRequest orderRequest (1010 * second) 0
    (1011 * second) ∅ store1 store1
    (GatewayVerify (verifier 0) orderAssertion orderRequest (1011 * second) (1011 * second) store1).2
    orderClaims).
  - reflexivity.
  - apply order_verified. left. reflexivity.
  - reflexivity.
  - apply rtc_refl.
  - apply surjective_pairing.
Defined.

Lemma replay_within_skew_witness :
  GatewayVerify (verifier (10 * second)) orderAssertion orderRequest (1025 * second)
    (1025 * second) store1 = (Ret orderClaims, store1).
Proof.
  apply (replay_within_skew (verifier (10 * second)) orderAssertion orderRequest (1010 * second)
    (1025 * second) orderClaims store1).
  - reflexivity.
  - unfold second. simpl. lia.
  - apply order_verified. right. reflexivity.
  - reflexivity.
  - unfold second. simpl. lia.
Defined.

Definition orderArrival : OriginRequest :=
  mkOriginRequest true [orderAssertion] [] "POST" "/orders" "" (Some (bytes_of "order")).

Lemma middleware_gate_witness :
  ∃ r' claims, middleware (verifier 0) 1024 orderArrival (1010 * second) 0 (∅ : gmap string Z)
    = (Next r' claims, store1) ∧ r'.(Origin_Assertions) = [].
Proof.
  eexists _, _.
  assert (Hm : middleware (verifier 0) 1024 orderArrival (1010 * second) 0 (∅ : gmap string Z)
    = (Next (mkOriginRequest true [] [] "POST" "/orders" "" (Some (bytes_of "order"))) orderClaims,
       store1)).
  { unfold middleware, orderArrival. cbn [Origin_Authenticated Origin_Assertions negb
      Origin_IdempotencyKeys Origin_Body Origin_Method Origin_Path Origin_RawQuery].
    change (1 <? len []) with false. change (1024 <? len (bytes_of "order")) with false.
    cbv iota. cbn [default head]. fold orderRequest.
    change (mkGatewayRequest "POST" "/orders" "" "" (bytes_of "order")) with orderRequest.
    rewrite order_verified by (by left). reflexivity. }
  split; [exact Hm|].
  apply (middleware_gate (verifier 0) 1024 orderArrival (1010 * second) 0 ∅ store1 _ orderClaims Hm).
Defined.

End GatewaySamples.
