(* ===== verification/Ownership.v ===== *)
(** Runtime discovery: [lotor/ownership.go].

    Signed ownership assertions, the resolver that fetches, verifies and caches them, and
    the retry that follows one authenticated move. [url.Parse], [net.ParseIP], the
    signature scheme and JSON are parameters; an HTTP exchange is its reply. *)
From S2P Require Import Prelude Wire Connection GoStd Sha256 Interfaces Protocol.

(** * Data *)
Definition maxOwnershipResponse : Z := Z.shiftl 64 10.

Record Ownership : Type := mkOwnership {
  Own_TenantID : string;
  Own_ApplicationID : string;
  Own_EnvironmentID : string;
  Own_Endpoint : string;
  Own_OwnerInstanceID : string;
  Own_OwnershipEpoch : Z;
  Own_IssuedAt : Z;
  Own_ExpiresAt : Z;
  Own_Version : Z;
  Own_KeyID : string;
  Own_Signature : string
}.

Definition Ownership_zero : Ownership := mkOwnership "" "" "" "" "" 0 0 0 0 "" "".

#[global] Instance Ownership_eq_dec : EqDecision Ownership.
Proof. solve_decision. Defined.

Record DiscoveryOptions : Type := mkDiscoveryOptions {
  Options_ControlURL : string;
  Options_APIKey : string
}.

Record runtimeSigningKey : Type := mkRuntimeSigningKey {
  SigningKey_KeyID : string;
  SigningKey_Algorithm : string;
  SigningKey_PublicKey : string
}.

(** [runtimeSigningKeySet]: the field [keys]. *)
Record runtimeSigningKeySet : Type := mkKeySet { KeySet_Keys : list runtimeSigningKey }.

Record OwnershipResolver : Type := mkResolver {
  options : DiscoveryOptions;
  keys : gmap string (list byte);
  cached : Ownership
}.

(** An error is a message of the sources, an error of the connection, or the network's. *)
Inductive own_error : Type :=
| OwnError (message : string)
| OwnLWP (err : do_error)
| OwnNetwork.

(** * Addresses *)

(** Case folding of a rune, as [strings.EqualFold] compares it with an ASCII letter. *)
Definition foldRune (r : Z) : Z :=
  if (65 <=? r) && (r <=? 90) then r + 32
  else if r =? 383 then 115 else if r =? 8490 then 107 else r.

Definition EqualFoldLower (s lower : string) : bool :=
  bool_decide (foldRune <$> runes s = runes lower).

(** What the world does in one run of [WithOwnerRetry]: the clock and the control plane at
    the discovery and at the move, the connections, the authentication (of a client, with
    an API key) and the operation, nil or a function, on each of the two clients. *)
Record World (T : Type) : Type := mkWorld {
  World_now : nat → Z;
  World_control : nat → string → option Reply;
  World_dial : nat → bool → string → outcome own_error unit;
  World_auth : nat → string * bool → string → outcome own_error unit;
  World_operation : option (nat → string * bool → outcome own_error T)
}.
Arguments mkWorld {T}.
Arguments World_now {T}.
Arguments World_control {T}.
Arguments World_dial {T}.
Arguments World_auth {T}.
Arguments World_operation {T}.

Section Ownership.
Context `{!Ed25519} `{!Json Ownership} `{!JsonUnmarshal Ownership} `{!Json runtimeSigningKeySet}.
(** [url.Parse], [url.ParseRequestURI], and [net.ParseIP] followed by [IsLoopback]. *)
Context (Parse ParseRequestURI : string → option URL) (loopbackIP : string → bool).

Definition Address (o : Ownership) : outcome own_error (string * bool) :=
  match Parse o.(Own_Endpoint) with
  | None => Throw (OwnError "invalid ownership endpoint")
  | Some parsed =>
      if parsed.(URL_User) || negb (bool_decide (parsed.(URL_Path) = ""))
         || negb (bool_decide (parsed.(URL_RawQuery) = ""))
         || negb (bool_decide (parsed.(URL_Fragment) = ""))
      then Throw (OwnError "invalid ownership endpoint")
      else if negb (bool_decide (parsed.(URL_Scheme) = "lwp"))
              && negb (bool_decide (parsed.(URL_Scheme) = "lwps"))
      then Throw (OwnError "unsupported ownership endpoint scheme")
      else
        let host := parsed.(URL_Hostname) in
        let port := parsed.(URL_Port) in
        if bool_decide (host = "") || bool_decide (port = "")
        then Throw (OwnError "ownership endpoint requires host and port")
        else match Atoi port with
        | None => Throw (OwnError "invalid ownership endpoint port")
        | Some number =>
            if (number <? 1) || (65535 <? number)
            then Throw (OwnError "invalid ownership endpoint port")
            else Ret (JoinHostPort host port, bool_decide (parsed.(URL_Scheme) = "lwps"))
        end
  end.

Definition loopbackHost (host : string) : bool :=
  if EqualFoldLower host "localhost" then true else loopbackIP host.

Definition NewOwnershipResolver (opts : DiscoveryOptions) : outcome own_error OwnershipResolver :=
  let control := TrimRightSlash (TrimSpace opts.(Options_ControlURL)) in
  let apiKey := TrimSpace opts.(Options_APIKey) in
  if bool_decide (control = "") || bool_decide (apiKey = "")
  then Throw (OwnError "control URL and API key are required")
  else match ParseRequestURI control with
  | None => Throw (OwnError "invalid control URL")
  | Some u =>
      if bool_decide (u.(URL_Scheme) = "") || bool_decide (u.(URL_Host) = "") || u.(URL_User)
         || negb (bool_decide (u.(URL_RawQuery) = "")) || negb (bool_decide (u.(URL_Fragment) = ""))
         || negb (bool_decide (u.(URL_Scheme) = "http"))
            && negb (bool_decide (u.(URL_Scheme) = "https"))
      then Throw (OwnError "invalid control URL")
      else if bool_decide (u.(URL_Scheme) = "http") && negb (loopbackHost u.(URL_Hostname))
      then Throw (OwnError "non-loopback control URL must use HTTPS")
      else Ret (mkResolver (mkDiscoveryOptions control apiKey) ∅ Ownership_zero)
  end.

(** * Verification *)

(** The ten fields of the signed payload, separated by NUL. *)
Definition payloadFields (value : Ownership) : list (list byte) :=
  [Itoa value.(Own_Version); bytes_of value.(Own_TenantID); bytes_of value.(Own_ApplicationID);
   bytes_of value.(Own_EnvironmentID); bytes_of value.(Own_Endpoint);
   bytes_of value.(Own_OwnerInstanceID); Itoa value.(Own_OwnershipEpoch);
   Itoa value.(Own_IssuedAt); Itoa value.(Own_ExpiresAt); bytes_of value.(Own_KeyID)].

Fixpoint joinNul (fields : list (list byte)) : list byte :=
  match fields with
  | [] => []
  | [f] => f
  | f :: rest => f ++ x00 :: joinNul rest
  end.

Definition ownershipPayload (value : Ownership) : list byte := joinNul (payloadFields value).

(** The name of a public key: the first eight bytes of its hash. *)
Definition keyFingerprint (publicKey : list byte) : string :=
  EncodeToString (take 8 (Sum256 publicKey)).

Definition minute : Z := 60000000.

(** Times are [int64] microseconds; the sums wrap around. *)
Definition verifyOwnership (value : Ownership) (publicKey : list byte) (now : Z)
    : outcome own_error unit :=
  if negb (value.(Own_Version) =? 1) || (value.(Own_OwnershipEpoch) <? 1)
     || bool_decide (value.(Own_OwnerInstanceID) = "") || bool_decide (value.(Own_TenantID) = "")
     || bool_decide (value.(Own_ApplicationID) = "") || bool_decide (value.(Own_EnvironmentID) = "")
  then Throw (OwnError "ownership assertion has invalid credential scope")
  else if (i64 (now + minute) <? value.(Own_IssuedAt)) || (value.(Own_ExpiresAt) <=? now)
          || (minute <? i64 (value.(Own_ExpiresAt) - value.(Own_IssuedAt)))
  then Throw (OwnError "ownership assertion is expired or outside its validity window")
  else
    _ ← Address value;
    if negb (bool_decide (value.(Own_KeyID) = keyFingerprint publicKey))
    then Throw (OwnError "ownership signing key mismatch")
    else match rawURLDecode false (bytes_of value.(Own_Signature)) with
    | None => Throw (OwnError "invalid ownership signature")
    | Some signature =>
        if negb (len signature =? SignatureSize) then Throw (OwnError "invalid ownership signature")
        else if negb (Verify publicKey (ownershipPayload value) signature)
        then Throw (OwnError "ownership signature verification failed")
        else Ret tt
    end.

(** * Fetching *)
Definition fetchJSON {A} `{!Json A} (reply : option Reply) (operation : string)
    : outcome own_error A :=
  match reply with
  | None => Throw OwnNetwork
  | Some response =>
      if negb (response.(Reply_Status) =? 200) then Throw (OwnError (operation +:+ " returned HTTP"))
      else match response.(Reply_Body) with
      | None => Throw OwnNetwork
      | Some raw =>
          if maxOwnershipResponse <? len raw
          then Throw (OwnError (operation +:+ " response is too large"))
          else match Decode raw with
          | None => Throw (OwnError ("invalid " +:+ operation +:+ " response"))
          | Some (value, rest) =>
              if atEOF rest then Ret value
              else Throw (OwnError ("invalid trailing " +:+ operation +:+ " response"))
          end
      end
  end.

(** The loop of [signingKey] over the published keys. *)
Fixpoint refreshKeys (items : list runtimeSigningKey) (refreshed : gmap string (list byte))
    : outcome own_error (gmap string (list byte)) :=
  match items with
  | [] => Ret refreshed
  | item :: items =>
      if bool_decide (item.(SigningKey_KeyID) = "")
         || negb (bool_decide (item.(SigningKey_Algorithm) = "Ed25519"))
      then Throw (OwnError "invalid runtime signing key metadata")
      else match rawURLDecode false (bytes_of item.(SigningKey_PublicKey)) with
      | None => Throw (OwnError "invalid runtime signing public key")
      | Some publicKey =>
          if negb (len publicKey =? PublicKeySize)
          then Throw (OwnError "invalid runtime signing public key")
          else if negb (bool_decide (item.(SigningKey_KeyID) = keyFingerprint publicKey))
          then Throw (OwnError "runtime signing key ID mismatch")
          else if bool_decide (refreshed !! item.(SigningKey_KeyID) = None)
          then refreshKeys items (<[item.(SigningKey_KeyID) := publicKey]> refreshed)
          else Throw (OwnError "duplicate runtime signing key")
      end
  end.

Definition withKeys (r : OwnershipResolver) (ks : gmap string (list byte)) : OwnershipResolver :=
  mkResolver r.(options) ks r.(cached).
Definition withCached (r : OwnershipResolver) (o : Ownership) : OwnershipResolver :=
  mkResolver r.(options) r.(keys) o.

Definition usableKey (ks : gmap string (list byte)) (keyID : string) : option (list byte) :=
  match ks !! keyID with
  | Some key => if len key =? PublicKeySize then Some key else None
  | None => None
  end.

(** [control] answers a GET of a path of the control plane. *)
Definition signingKey (r : OwnershipResolver) (keyID : string) (control : string → option Reply)
    : outcome own_error (list byte) * OwnershipResolver :=
  match usableKey r.(keys) keyID with
  | Some key => (Ret key, r)
  | None =>
      match fetchJSON (control "/.well-known/lotor-runtime-keys.json") "runtime key discovery" with
      | Ret keySet =>
          match refreshKeys keySet.(KeySet_Keys) ∅ with
          | Ret refreshed =>
              let r := withKeys r refreshed in
              match usableKey r.(keys) keyID with
              | Some key => (Ret key, r)
              | None => (Throw (OwnError "ownership signing key is unavailable"), r)
              end
          | Throw e => (Throw e, r)
          | Panic => (Panic, r)
          | Diverge => (Diverge, r)
          end
      | Throw e => (Throw e, r)
      | Panic => (Panic, r)
      | Diverge => (Diverge, r)
      end
  end.

Definition fetchOwnership (r : OwnershipResolver) (now : Z) (control : string → option Reply)
    : outcome own_error Ownership * OwnershipResolver :=
  match fetchJSON (control "/v1/runtime/ownership") "ownership discovery" with
  | Ret ownership =>
      match signingKey r ownership.(Own_KeyID) control with
      | (Ret publicKey, r) => (_ ← verifyOwnership ownership publicKey now; Ret ownership, r)
      | (Throw e, r) => (Throw e, r)
      | (Panic, r) => (Panic, r)
      | (Diverge, r) => (Diverge, r)
      end
  | Throw e => (Throw e, r)
  | Panic => (Panic, r)
  | Diverge => (Diverge, r)
  end.

(** * The resolver *)
Definition cacheUsable (r : OwnershipResolver) (now : Z) : bool :=
  negb (r.(cached).(Own_Version) =? 0) && (i64 (now + 5000000) <? r.(cached).(Own_ExpiresAt)).

Definition Resolve (r : OwnershipResolver) (now : Z) (control : string → option Reply)
    : outcome own_error Ownership * OwnershipResolver :=
  if cacheUsable r now then (Ret r.(cached), r)
  else match fetchOwnership r now control with
  | (Ret ownership, r) => (Ret ownership, withCached r ownership)
  | (e, r) => (e, r)
  end.

Definition Invalidate (r : OwnershipResolver) : OwnershipResolver := withCached r Ownership_zero.

Definition sameOwnershipScope (a b : Ownership) : bool :=
  bool_decide (a.(Own_TenantID) = b.(Own_TenantID))
  && bool_decide (a.(Own_ApplicationID) = b.(Own_ApplicationID))
  && bool_decide (a.(Own_EnvironmentID) = b.(Own_EnvironmentID)).

Definition acceptMoved (r : OwnershipResolver) (raw : string) (prior : Ownership) (now : Z)
    (control : string → option Reply) : outcome own_error Ownership * OwnershipResolver :=
  if maxOwnershipResponse <? slen raw
  then (Throw (OwnError "MOVED ownership assertion is too large"), r)
  else match Unmarshal (bytes_of raw) with
  | None => (Throw (OwnError "invalid MOVED ownership assertion"), r)
  | Some moved =>
      match signingKey r moved.(Own_KeyID) control with
      | (Ret publicKey, r) =>
          match verifyOwnership moved publicKey now with
          | Ret _ =>
              if negb (sameOwnershipScope moved prior)
              then (Throw (OwnError "MOVED assertion changed credential scope"), r)
              else if (moved.(Own_OwnershipEpoch) <=? prior.(Own_OwnershipEpoch))
                      || bool_decide (moved.(Own_Endpoint) = prior.(Own_Endpoint))
              then (Throw (OwnError "MOVED assertion did not advance ownership"), r)
              else (Ret moved, withCached r moved)
          | Throw e => (Throw e, r)
          | Panic => (Panic, r)
          | Diverge => (Diverge, r)
          end
      | (Throw e, r) => (Throw e, r)
      | (Panic, r) => (Panic, r)
      | (Diverge, r) => (Diverge, r)
      end
  end.

(** * Dialing and the retry *)

(** [dial tls address] is [Dial] or [DialTLS]; a client is its address and whether it
    speaks TLS. [tlsConfigured] is [tlsConfig != nil]. *)
Definition dialOwnership (dial : bool → string → outcome own_error unit) (ownership : Ownership)
    (tlsConfigured : bool) : outcome own_error (string * bool) :=
  endpoint ← Address ownership;
  let address := endpoint.1 in
  let tlsRequired := endpoint.2 in
  if tlsRequired : bool then _ ← dial true address; Ret (address, true)
  else if tlsConfigured
  then Throw (OwnError "ownership endpoint requires plaintext LWP but TLS was configured")
  else _ ← dial false address; Ret (address, false).

(** [DialOwned]: the dialed client and the ownership it was dialed for; a nil resolver is
    refused. *)
Definition DialOwned (resolver : option OwnershipResolver) (now : Z)
    (control : string → option Reply) (dial : bool → string → outcome own_error unit)
    (tlsConfigured : bool)
    : outcome own_error ((string * bool) * Ownership) * option OwnershipResolver :=
  match resolver with
  | None => (Throw (OwnError "ownership resolver is required"), None)
  | Some r =>
      match Resolve r now control with
      | (Ret ownership, r) =>
          match dialOwnership dial ownership tlsConfigured with
          | Ret client => (Ret (client, ownership), Some r)
          | Throw e => (Throw e, Some (Invalidate r))
          | Panic => (Panic, Some r)
          | Diverge => (Diverge, Some r)
          end
      | (Throw e, r) => (Throw e, Some r)
      | (Panic, r) => (Panic, Some r)
      | (Diverge, r) => (Diverge, Some r)
      end
  end.

(** The second half of [WithOwnerRetry]: following the move, at most once. *)
Definition followMoved {T} (w : World T) (operation : nat → string * bool → outcome own_error T)
    (r : OwnershipResolver) (first : Ownership) (message : string) (tlsConfigured : bool)
    : outcome own_error T * OwnershipResolver * list (Ownership * (string * bool)) :=
  match acceptMoved r message first (w.(World_now) 1%nat) (w.(World_control) 1%nat) with
  | (Ret moved, r) =>
      match dialOwnership (w.(World_dial) 1%nat) moved tlsConfigured with
      | Ret client =>
          match w.(World_auth) 1%nat client r.(options).(Options_APIKey) with
          | Ret _ => (operation 1%nat client, r, [(moved, client)])
          | Throw e => (Throw e, r, [])
          | Panic => (Panic, r, [])
          | Diverge => (Diverge, r, [])
          end
      | Throw e => (Throw e, r, [])
      | Panic => (Panic, r, [])
      | Diverge => (Diverge, r, [])
      end
  | (Throw e, r) => (Throw e, r, [])
  | (Panic, r) => (Panic, r, [])
  | (Diverge, r) => (Diverge, r, [])
  end.

(** [WithOwnerRetry]: the result, the resolver and the owners and clients that the
    operation was run on, in order. *)
Definition WithOwnerRetry {T} (w : World T) (resolver : option OwnershipResolver)
    (tlsConfigured : bool)
    : outcome own_error T * option OwnershipResolver * list (Ownership * (string * bool)) :=
  match w.(World_operation) with
  | None => (Throw (OwnError "ownership operation is required"), resolver, [])
  | Some operation =>
      match DialOwned resolver (w.(World_now) 0%nat) (w.(World_control) 0%nat)
              (w.(World_dial) 0%nat) tlsConfigured with
      | (Ret (client, first), Some r) =>
          match w.(World_auth) 0%nat client r.(options).(Options_APIKey) with
          | Ret _ =>
              match operation 0%nat client with
              | Throw (OwnLWP err) =>
                  if negb (IsLWPError err 20) then (Throw (OwnLWP err), Some r, [(first, client)])
                  else match err with
                  | LWPError _ message =>
                      let '(result, r, more) := followMoved w operation r first message tlsConfigured in
                      (result, Some r, (first, client) :: more)
                  | _ => (Throw (OwnLWP err), Some r, [(first, client)])
                  end
              | result => (result, Some r, [(first, client)])
              end
          | Throw e => (Throw e, Some r, [])
          | Panic => (Panic, Some r, [])
          | Diverge => (Diverge, Some r, [])
          end
      | (Ret _, None) => (Panic, None, [])
      | (Throw e, r) => (Throw e, r, [])
      | (Panic, r) => (Panic, r, [])
      | (Diverge, r) => (Diverge, r, [])
      end
  end.

End Ownership.

(** * Lemmas *)
Section OwnershipLemmas.
Context `{!Ed25519} `{!Json Ownership} `{!JsonUnmarshal Ownership} `{!Json runtimeSigningKeySet}.
Context (Parse : string → option URL).

(** [published key]: a public key that the control plane publishes. *)
Context (published : list byte → Prop).

(** What verification under a published key at the instant [now] means. *)
Definition verified (o : Ownership) (now : Z) : Prop :=
  ∃ key, published key ∧ len key = PublicKeySize ∧ verifyOwnership Parse o key now = Ret tt.

(** The control plane answers a request for the keys with published keys only. *)
Definition honest (control : string → option Reply) : Prop :=
  ∀ (keySet : runtimeSigningKeySet) item key,
  fetchJSON (control "/.well-known/lotor-runtime-keys.json") "runtime key discovery" = Ret keySet →
  item ∈ keySet.(KeySet_Keys) → rawURLDecode false (bytes_of item.(SigningKey_PublicKey)) = Some key →
  published key.

(** Instants in the first 73000 years of the epoch: sums with a minute do not wrap. *)
Definition instant (now : Z) : Prop := 0 <= now < 2 ^ 61.

(** The invariant of a resolver: its keys are published and named after their hash, its
    cached assertion is absent or was verified. *)
Definition keysNamed (ks : gmap string (list byte)) : Prop :=
  map_Forall (fun id key => id = keyFingerprint key ∧ published key ∧ len key = PublicKeySize) ks.

Definition resolverInv (r : OwnershipResolver) : Prop :=
  keysNamed r.(keys) ∧ (r.(cached) = Ownership_zero ∨ ∃ t, instant t ∧ verified r.(cached) t).

Lemma verifyOwnership_Ret o key now :
  instant now → verifyOwnership Parse o key now = Ret tt →
  o.(Own_Version) = 1 ∧ 1 <= o.(Own_OwnershipEpoch) ∧ o.(Own_IssuedAt) <= now + minute
  ∧ now < o.(Own_ExpiresAt) ∧ o.(Own_KeyID) = keyFingerprint key
  ∧ returns (Address Parse o) = true
  ∧ ∃ signature, rawURLDecode false (bytes_of o.(Own_Signature)) = Some signature
      ∧ len signature = SignatureSize ∧ Verify key (ownershipPayload o) signature = true.
Proof.
  intros Hn. unfold verifyOwnership.
  destruct (_ || bool_decide (o.(Own_EnvironmentID) = "")) eqn:H1; [done|].
  destruct (_ || (minute <? _)) eqn:H2; [done|]. breflect.
  rewrite i64_id in * by (unfold instant, is_i64, minute in *; lia).
  destruct (Address Parse o); obind; try done.
  destruct (bool_decide (o.(Own_KeyID) = _)) eqn:Hk; simpl; [|done]. breflect.
  destruct (rawURLDecode _ _) as [signature|]; [|done].
  destruct (len signature =? SignatureSize) eqn:Hl; simpl; [|done]. breflect.
  destruct (Verify _ _ _) eqn:Hv; simpl; [|done]. intros _. naive_solver.
Qed.

Lemma usableKey_named ks id key :
  keysNamed ks → usableKey ks id = Some key → published key ∧ len key = PublicKeySize.
Proof.
  intros Hks. unfold usableKey. destruct (ks !! id) as [k|] eqn:Hk; [|done].
  destruct (len k =? PublicKeySize); intros [= <-]. by apply Hks in Hk as (_ & ? & ?).
Qed.

Lemma refreshKeys_named items ks ks' :
  (∀ item key, item ∈ items →
    rawURLDecode false (bytes_of item.(SigningKey_PublicKey)) = Some key → published key) →
  keysNamed ks → refreshKeys items ks = Ret ks' → keysNamed ks'.
Proof.
  revert ks. induction items as [|item items IH]; intros ks Hp Hks; simpl; [by intros [= <-]|].
  destruct (_ || _); [done|].
  destruct (rawURLDecode _ _) as [key|] eqn:Hd; [|done].
  destruct (len key =? PublicKeySize) eqn:Hl; simpl; [|done].
  destruct (bool_decide (item.(SigningKey_KeyID) = _)) eqn:Hid; simpl; [|done].
  destruct (bool_decide (ks !! _ = None)); [|done]. breflect. apply IH.
  - intros i k Hi. apply Hp. by right.
  - apply map_Forall_insert_2; [|done]. split; [done|]. split; [|done].
    apply (Hp item); [by left|done].
Qed.

(** Key lookup keeps the cache and the options and yields a published key. *)
Lemma signingKey_spec r id control res r' :
  honest control → keysNamed r.(keys) → signingKey r id control = (res, r') →
  keysNamed r'.(keys) ∧ r'.(cached) = r.(cached) ∧ r'.(options) = r.(options)
  ∧ ∀ key, res = Ret key → published key ∧ len key = PublicKeySize.
Proof.
  intros Hc Hks. unfold signingKey. destruct (usableKey r.(keys) id) as [key|] eqn:Hu.
  { intros [= <- <-]. do 3 (split; [done|]). intros ? [= <-]. by eapply usableKey_named. }
  destruct (fetchJSON _ _) as [keySet|e| |] eqn:Hf; [|naive_solver..].
  destruct (refreshKeys _ ∅) as [ks|e| |] eqn:Hr; [|naive_solver..].
  assert (Hn : keysNamed ks).
  { eapply refreshKeys_named; [|apply map_Forall_empty|exact Hr].
    intros item key Hi Hd. by eapply Hc. }
  simpl. destruct (usableKey ks id) as [key|] eqn:Hk; intros [= <- <-]; simpl;
    do 3 (split; [done|]); intros ? [=]; subst. by eapply usableKey_named.
Qed.

Lemma fetchOwnership_spec r now control res r' :
  honest control → keysNamed r.(keys) → fetchOwnership Parse r now control = (res, r') →
  keysNamed r'.(keys) ∧ r'.(cached) = r.(cached) ∧ r'.(options) = r.(options)
  ∧ ∀ o, res = Ret o → verified o now.
Proof.
  intros Hc Hks. unfold fetchOwnership.
  destruct (fetchJSON _ "ownership discovery") as [o|e| |]; [|naive_solver..].
  destruct (signingKey r _ control) as [[key|e| |] r1] eqn:Hs;
    apply signingKey_spec in Hs as (Hk & Hca & Ho & Hp); try done; [|naive_solver..].
  intros [= <- <-]. do 3 (split; [done|]). intros o' Hv.
  apply bind_Ret_inv in Hv as ([] & Hv & [= <-]). exists key. by destruct (Hp key eq_refl).
Qed.

Lemma Resolve_spec r now control res r' :
  instant now → honest control → resolverInv r → Resolve Parse r now control = (res, r') →
  resolverInv r' ∧ r'.(options) = r.(options)
  ∧ ∀ o, res = Ret o → r'.(cached) = o ∧ now < o.(Own_ExpiresAt) ∧ ∃ t, instant t ∧ verified o t.
Proof.
  intros Hn Hc [Hks Hca]. unfold Resolve. destruct (cacheUsable r now) eqn:Hu.
  - unfold cacheUsable in Hu. breflect. intros [= <- <-]. split; [done|]. split; [done|].
    intros ? [= <-]. split; [done|].
    rewrite i64_id in * by (unfold instant, is_i64 in *; lia). split; [lia|].
    destruct Hca as [Hz|]; [by rewrite Hz in *|done].
  - destruct (fetchOwnership Parse r now control) as [res1 r1] eqn:Hf.
    apply fetchOwnership_spec in Hf as (Hk & Hc1 & Ho & Hv); try done.
    destruct res1 as [o|e| |]; intros [= <- <-]; unfold resolverInv; simpl; rewrite ?Hc1;
      [|by split_and!..].
    specialize (Hv o eq_refl). split; [by split; [|right; exists now]|]. split; [done|].
    intros ? [= <-]. split; [done|]. split; [|by exists now].
    destruct Hv as (key & _ & _ & Hv). by apply verifyOwnership_Ret in Hv as (_ & _ & _ & ? & _).
Qed.

Lemma acceptMoved_spec r raw prior now control res r' :
  instant now → honest control → resolverInv r →
  acceptMoved Parse r raw prior now control = (res, r') →
  resolverInv r' ∧ r'.(options) = r.(options)
  ∧ ∀ o, res = Ret o →
      Unmarshal (bytes_of raw) = Some o ∧ slen raw <= maxOwnershipResponse
      ∧ r'.(cached) = o ∧ verified o now ∧ sameOwnershipScope o prior = true
      ∧ prior.(Own_OwnershipEpoch) < o.(Own_OwnershipEpoch) ∧ o.(Own_Endpoint) ≠ prior.(Own_Endpoint).
Proof.
  intros Hn Hc [Hks Hca]. unfold acceptMoved.
  destruct (Z.ltb_spec maxOwnershipResponse (slen raw)); [intros [= <- <-]; by split_and!|].
  destruct (Unmarshal _) as [moved|] eqn:Hm; [|intros [= <- <-]; by split_and!].
  destruct (signingKey r _ control) as [[key|e| |] r1] eqn:Hs;
    apply signingKey_spec in Hs as (Hk & Hc1 & Ho & Hp); try done;
    [|intros [= <- <-]; unfold resolverInv; rewrite Hc1; by split_and!..].
  destruct (verifyOwnership Parse moved key now) as [[]|e| |] eqn:Hv;
    [|intros [= <- <-]; unfold resolverInv; rewrite Hc1; by split_and!..].
  destruct (sameOwnershipScope moved prior) eqn:Hsc; simpl;
    [|intros [= <- <-]; unfold resolverInv; rewrite Hc1; by split_and!].
  destruct (_ || _) eqn:Ha; intros [= <- <-]; unfold resolverInv; simpl; rewrite ?Hc1;
    [by split_and!|]. breflect.
  assert (verified moved now) by (exists key; by destruct (Hp key eq_refl)).
  split; [by split; [|right; exists now]|]. split; [done|]. intros ? [= <-]. by split_and!.
Qed.

Lemma Invalidate_inv r : resolverInv r → resolverInv (Invalidate r).
Proof. intros [Hk _]. split; [done|by left]. Qed.

Lemma dialOwnership_Ret dial o tlsConfigured client :
  dialOwnership Parse dial o tlsConfigured = Ret client →
  Address Parse o = Ret client ∧ (tlsConfigured = true → client.2 = true)
  ∧ dial client.2 client.1 = Ret tt.
Proof.
  unfold dialOwnership. intros ([address tls] & Ha & Hd)%bind_Ret_inv. simpl in Hd.
  destruct tls; [|destruct tlsConfigured; [done|]];
    apply bind_Ret_inv in Hd as ([] & Hd & [= <-]); by split_and!.
Qed.

Lemma DialOwned_spec r now control dial tlsConfigured res resolver' :
  instant now → honest control → resolverInv r →
  DialOwned Parse (Some r) now control dial tlsConfigured = (res, resolver') →
  ∃ r', resolver' = Some r' ∧ resolverInv r' ∧ r'.(options) = r.(options)
  ∧ ∀ client o, res = Ret (client, o) →
      Address Parse o = Ret client ∧ (tlsConfigured = true → client.2 = true)
      ∧ now < o.(Own_ExpiresAt) ∧ ∃ t, instant t ∧ verified o t.
Proof.
  intros Hn Hc Hi. unfold DialOwned.
  destruct (Resolve Parse r now control) as [[o|e| |] r1] eqn:Hr;
    apply Resolve_spec in Hr as (Hi1 & Ho & Hv); try done; [|intros [= <- <-]; by exists r1..].
  destruct (dialOwnership Parse dial o tlsConfigured) as [client|e| |] eqn:Hd;
    intros [= <- <-]; [exists r1|exists (Invalidate r1)|exists r1..]; split_and!;
    eauto using Invalidate_inv; try done.
  intros ? ? [= <- <-]. destruct (Hv o eq_refl) as (_ & ? & ?).
  by apply dialOwnership_Ret in Hd as (? & ? & _).
Qed.

(** The operations of a resolver, each with whatever the clock, the control plane and the
    network answer. *)
Inductive resolverStep : OwnershipResolver → OwnershipResolver → Prop :=
| step_Resolve r now control :
    instant now → honest control → resolverStep r (Resolve Parse r now control).2
| step_Invalidate r : resolverStep r (Invalidate r)
| step_acceptMoved r raw prior now control :
    instant now → honest control →
    resolverStep r (acceptMoved Parse r raw prior now control).2
| step_DialOwned r now control dial tlsConfigured r' :
    instant now → honest control →
    (DialOwned Parse (Some r) now control dial tlsConfigured).2 = Some r' → resolverStep r r'.

(** A resolver in use: constructed by [NewOwnershipResolver], then any calls. *)
Definition resolverReachable (ParseRequestURI : string → option URL) (loopbackIP : string → bool)
    (r : OwnershipResolver) : Prop :=
  ∃ opts r0, NewOwnershipResolver ParseRequestURI loopbackIP opts = Ret r0 ∧ rtc resolverStep r0 r.

Lemma NewOwnershipResolver_inv ParseRequestURI loopbackIP opts r :
  NewOwnershipResolver ParseRequestURI loopbackIP opts = Ret r → resolverInv r.
Proof.
  unfold NewOwnershipResolver. destruct (_ || _); [done|].
  destruct (ParseRequestURI _) as [u|]; [|done]. destruct (_ || _ && _); [done|].
  destruct (_ && _); [done|]. intros [= <-]. split; [apply map_Forall_empty|by left].
Qed.

Lemma resolverStep_inv r r' : resolverStep r r' → resolverInv r → resolverInv r'.
Proof.
  intros [r1 now control|r1|r1 raw prior now control|r1 now control dial tls r2] Hi; intros.
  - destruct (Resolve _ _ _ _) eqn:Hr. by apply Resolve_spec in Hr as (? & _).
  - by apply Invalidate_inv.
  - destruct (acceptMoved _ _ _ _ _ _) eqn:Hr. by apply acceptMoved_spec in Hr as (? & _).
  - destruct (DialOwned _ _ _ _ _ _) eqn:Hr. apply DialOwned_spec in Hr as (? & -> & ? & _); try done.
    simpl in *. by simplify_eq.
Qed.

Lemma resolverReachable_inv ParseRequestURI loopbackIP r :
  resolverReachable ParseRequestURI loopbackIP r → resolverInv r.
Proof.
  intros (opts & r0 & Hnew & Hr). apply NewOwnershipResolver_inv in Hnew.
  induction Hr; eauto using resolverStep_inv.
Qed.

(** * Theorems *)

(** C22: whatever was called before, [Resolve] returns only an assertion that was verified
    under a key the control plane publishes, named by the hash of that key, that has not
    expired, and whose endpoint is a valid address; the assertion is what the cache holds
    afterwards. *)
Theorem resolve_verified ParseRequestURI loopbackIP r now control o r' :
  resolverReachable ParseRequestURI loopbackIP r → instant now → honest control →
  Resolve Parse r now control = (Ret o, r') →
  r'.(cached) = o ∧ now < o.(Own_ExpiresAt) ∧ o.(Own_Version) = 1
  ∧ returns (Address Parse o) = true
  ∧ ∃ key signature, published key ∧ len key = PublicKeySize
      ∧ o.(Own_KeyID) = keyFingerprint key
      ∧ rawURLDecode false (bytes_of o.(Own_Signature)) = Some signature
      ∧ Verify key (ownershipPayload o) signature = true.
Proof.
  intros Hi%resolverReachable_inv Hn Hc Hr.
  apply Resolve_spec in Hr as (_ & _ & Hv); [|done..].
  destruct (Hv o eq_refl) as (Hca & He & t & Ht & key & Hp & Hl & Hver).
  apply verifyOwnership_Ret in Hver as (? & _ & _ & _ & ? & ? & signature & ? & _ & ?); [|done].
  do 4 (split; [done|]). by exists key, signature.
Qed.

Lemma followMoved_spec {T} (w : World T) operation r first message tlsConfigured res r' more :
  instant (w.(World_now) 1%nat) → honest (w.(World_control) 1%nat) → resolverInv r →
  followMoved Parse w operation r first message tlsConfigured = (res, r', more) →
  resolverInv r'
  ∧ (more = [] ∧ returns res = false
     ∨ ∃ moved client, more = [(moved, client)] ∧ res = operation 1%nat client
       ∧ Unmarshal (bytes_of message) = Some moved ∧ r'.(cached) = moved
       ∧ verified moved (w.(World_now) 1%nat)
       ∧ sameOwnershipScope moved first = true
       ∧ first.(Own_OwnershipEpoch) < moved.(Own_OwnershipEpoch)
       ∧ moved.(Own_Endpoint) ≠ first.(Own_Endpoint)
       ∧ Address Parse moved = Ret client ∧ (tlsConfigured = true → client.2 = true)).
Proof.
  intros Hn Hc Hi. unfold followMoved.
  destruct (acceptMoved _ _ _ _ _ _) as [[moved|e| |] r1] eqn:Ha;
    apply acceptMoved_spec in Ha as (Hi1 & _ & Hm); try done;
    [|intros [= <- <- <-]; split; [done|by left]..].
  destruct (dialOwnership _ _ _ _) as [client|e| |] eqn:Hd;
    [|intros [= <- <- <-]; split; [done|by left]..].
  destruct (World_auth w _ _ _); intros [= <- <- <-]; (split; [done|]); [|by left..].
  right. exists moved, client. destruct (Hm moved eq_refl) as (? & _ & ? & ? & ? & ? & ?).
  apply dialOwnership_Ret in Hd as (? & ? & _). by split_and!.
Qed.

Lemma WithOwnerRetry_spec {T} (w : World T) operation r tlsConfigured
    res resolver' runs :
  resolverInv r →
  (∀ i, instant (w.(World_now) i)) → (∀ i, honest (w.(World_control) i)) →
  w.(World_operation) = Some operation →
  WithOwnerRetry Parse w (Some r) tlsConfigured = (res, resolver', runs) →
  (∀ o client, (o, client) ∈ runs →
     Address Parse o = Ret client ∧ (tlsConfigured = true → client.2 = true)
     ∧ ∃ t, instant t ∧ verified o t)
  ∧ (runs = [] ∧ returns res = false
     ∨ (∃ first client, runs = [(first, client)]
          ∧ (res = operation 0%nat client
             ∨ returns res = false
               ∧ ∃ message, operation 0%nat client = Throw (OwnLWP (LWPError 20 message))))
     ∨ ∃ first client message moved client2,
         runs = [(first, client); (moved, client2)]
         ∧ operation 0%nat client = Throw (OwnLWP (LWPError 20 message))
         ∧ res = operation 1%nat client2
         ∧ Unmarshal (bytes_of message) = Some moved
         ∧ sameOwnershipScope moved first = true
         ∧ first.(Own_OwnershipEpoch) < moved.(Own_OwnershipEpoch)
         ∧ moved.(Own_Endpoint) ≠ first.(Own_Endpoint)
         ∧ verified moved (w.(World_now) 1%nat)).
Proof.
  intros Hi Hn Hc Hop. unfold WithOwnerRetry. rewrite Hop.
  destruct (DialOwned _ _ _ _ _ _) as [res1 resolver1] eqn:Hd.
  apply DialOwned_spec in Hd as (r1 & -> & Hi1 & _ & Hv); [|done..].
  destruct res1 as [[client first]|e| |];
    [|intros [= <- <- <-]; split; [by intros ?? ?%not_elem_of_nil|by left]..].
  destruct (Hv client first eq_refl) as (Ha & Htls & _ & Hver).
  destruct (World_auth w _ _ _);
    [|intros [= <- <- <-]; split; [by intros ?? ?%not_elem_of_nil|by left]..].
  assert (Hone : ∀ o c, (o, c) ∈ [(first, client)] → Address Parse o = Ret c
    ∧ (tlsConfigured = true → c.2 = true) ∧ ∃ t, instant t ∧ verified o t)
    by (intros o c [= -> ->]%list_elem_of_singleton; done).
  destruct (operation 0%nat client) as [value|[m|err|]| |] eqn:Hrun;
    try (intros [= <- <- <-]; split; [done|right; left; exists first, client; auto]).
  destruct (IsLWPError err 20) eqn:He; simpl;
    [|intros [= <- <- <-]; split; [done|right; left; exists first, client; auto]].
  destruct err as [code message| | | |]; try done. simpl in He. breflect. subst code.
  destruct (followMoved _ _ _ _ _ _ _) as [[res2 r2] more] eqn:Hf.
  apply followMoved_spec in Hf as (_ & Hf); [|done..]. intros [= <- <- <-].
  destruct Hf as [[-> Hres]|(moved & client2 & -> & -> & ? & ? & ? & ? & ? & ? & ? & ?)].
  { split; [done|]. right; left. exists first, client. eauto. }
  split.
  - intros o c [[= -> ->]|Hin]%elem_of_cons; [by split_and!|].
    apply list_elem_of_singleton in Hin as [= -> ->]. split_and!; eauto.
  - right; right. exists first, client, message, moved, client2. by split_and!.
Qed.

(** The first owner is the one that is resolved. *)
Lemma WithOwnerRetry_first {T} (w : World T) r tlsConfigured res resolver' first client more :
  WithOwnerRetry Parse w (Some r) tlsConfigured = (res, resolver', (first, client) :: more) →
  (Resolve Parse r (w.(World_now) 0%nat) (w.(World_control) 0%nat)).1 = Ret first.
Proof.
  unfold WithOwnerRetry, DialOwned. destruct (World_operation w) as [operation|]; [|done].
  destruct (Resolve _ _ _ _) as [[o|e| |] r1]; [|done..].
  destruct (dialOwnership _ _ _ _) as [cl|e| |]; [|done..].
  destruct (World_auth w _ _ _); [|done..].
  destruct (operation 0%nat cl) as [value|[m|err|]| |]; try (by intros [= _ _ <- _ _]).
  destruct (negb _); [by intros [= _ _ <- _ _]|].
  destruct err; try (by intros [= _ _ <- _ _]).
  destruct (followMoved _ _ _ _ _ _ _) as [[? ?] ?]. by intros [= _ _ <- _ _].
Qed.

(** The retry leaves a resolver that satisfies the invariant. *)
Lemma WithOwnerRetry_inv {T} (w : World T) r tlsConfigured res resolver' runs :
  resolverInv r →
  (∀ i, instant (w.(World_now) i)) → (∀ i, honest (w.(World_control) i)) →
  WithOwnerRetry Parse w (Some r) tlsConfigured = (res, resolver', runs) →
  ∃ r', resolver' = Some r' ∧ resolverInv r'.
Proof.
  intros Hi Hn Hc. unfold WithOwnerRetry. destruct (World_operation w) as [operation|];
    [|intros [= <- <- <-]; by exists r].
  destruct (DialOwned _ _ _ _ _ _) as [res1 resolver1] eqn:Hd.
  apply DialOwned_spec in Hd as (r1 & -> & Hi1 & _ & _); [|done..].
  destruct res1 as [[client first]|e| |]; [|intros [= <- <- <-]; by exists r1..].
  destruct (World_auth w _ _ _); [|intros [= <- <- <-]; by exists r1..].
  destruct (operation 0%nat client) as [value|[m|err|]| |]; try (intros [= <- <- <-]; by exists r1).
  destruct (negb _); [intros [= <- <- <-]; by exists r1|].
  destruct err; try (intros [= <- <- <-]; by exists r1).
  destruct (followMoved _ _ _ _ _ _ _) as [[res2 r2] more] eqn:Hf.
  apply followMoved_spec in Hf as (Hi2 & _); [|done..]. intros [= <- <- <-]. by exists r2.
Qed.

(** C23: one call of [WithOwnerRetry] runs the operation at most twice, each time on a client
    dialed at the address of an assertion that was verified under a published key, over
    TLS whenever TLS was configured. A second run happens only after the first failed with
    MOVED and an authenticated successor: same scope, a larger epoch, another endpoint.
    Otherwise the result is what the only run returned. *)
Theorem owner_retry {T} ParseRequestURI loopbackIP (w : World T) operation r tlsConfigured
    res resolver' runs :
  resolverReachable ParseRequestURI loopbackIP r →
  (∀ i, instant (w.(World_now) i)) → (∀ i, honest (w.(World_control) i)) →
  w.(World_operation) = Some operation →
  WithOwnerRetry Parse w (Some r) tlsConfigured = (res, resolver', runs) →
  (∀ o client, (o, client) ∈ runs →
     Address Parse o = Ret client ∧ (tlsConfigured = true → client.2 = true)
     ∧ ∃ t, instant t ∧ verified o t)
  ∧ (runs = [] ∧ returns res = false
     ∨ (∃ first client, runs = [(first, client)]
          ∧ (res = operation 0%nat client
             ∨ returns res = false
               ∧ ∃ message, operation 0%nat client = Throw (OwnLWP (LWPError 20 message))))
     ∨ ∃ first client message moved client2,
         runs = [(first, client); (moved, client2)]
         ∧ operation 0%nat client = Throw (OwnLWP (LWPError 20 message))
         ∧ res = operation 1%nat client2
         ∧ Unmarshal (bytes_of message) = Some moved
         ∧ sameOwnershipScope moved first = true
         ∧ first.(Own_OwnershipEpoch) < moved.(Own_OwnershipEpoch)
         ∧ moved.(Own_Endpoint) ≠ first.(Own_Endpoint)
         ∧ verified moved (w.(World_now) 1%nat)).
Proof. intros Hi%resolverReachable_inv. by apply WithOwnerRetry_spec. Qed.

End OwnershipLemmas.

(** * The signed payload *)

(** The numbers of an assertion are [int64]s and none of its texts contains NUL. *)
Definition plainOwnership (o : Ownership) : Prop :=
  is_i64 o.(Own_Version) ∧ is_i64 o.(Own_OwnershipEpoch) ∧ is_i64 o.(Own_IssuedAt)
  ∧ is_i64 o.(Own_ExpiresAt)
  ∧ Forall (fun s => x00 ∉ bytes_of s)
      [o.(Own_TenantID); o.(Own_ApplicationID); o.(Own_EnvironmentID); o.(Own_Endpoint);
       o.(Own_OwnerInstanceID); o.(Own_KeyID)].

Definition withSignature (o : Ownership) (signature : string) : Ownership :=
  mkOwnership o.(Own_TenantID) o.(Own_ApplicationID) o.(Own_EnvironmentID) o.(Own_Endpoint)
    o.(Own_OwnerInstanceID) o.(Own_OwnershipEpoch) o.(Own_IssuedAt) o.(Own_ExpiresAt)
    o.(Own_Version) o.(Own_KeyID) signature.

(** The same assertion for another tenant and application. *)
Definition withScope (o : Ownership) (tenant application : string) : Ownership :=
  mkOwnership tenant application o.(Own_EnvironmentID) o.(Own_Endpoint)
    o.(Own_OwnerInstanceID) o.(Own_OwnershipEpoch) o.(Own_IssuedAt) o.(Own_ExpiresAt)
    o.(Own_Version) o.(Own_KeyID) o.(Own_Signature).

Lemma joinNul_inj fields fields' :
  length fields = length fields' →
  Forall (fun f => x00 ∉ f) fields → Forall (fun f => x00 ∉ f) fields' →
  joinNul fields = joinNul fields' → fields = fields'.
Proof.
  revert fields'. induction fields as [|f fs IH]; intros [|g gs] Hl Hf Hg Heq; try done.
  apply Forall_cons in Hf as [Hf Hfs]. apply Forall_cons in Hg as [Hg Hgs].
  destruct fs as [|f' fs], gs as [|g' gs]; try done; [simpl in Heq; by subst|].
  destruct (sep_inj x00 f g (joinNul (f' :: fs)) (joinNul (g' :: gs)) Hf Hg Heq) as [-> Hr].
  f_equal. apply IH; [simpl in *; lia|done..].
Qed.

Lemma payloadFields_plain o :
  plainOwnership o → Forall (fun f => x00 ∉ f) (payloadFields o).
Proof.
  intros (_ & _ & _ & _ & Hs). rewrite !Forall_cons in Hs. unfold payloadFields.
  rewrite !Forall_cons. destruct Hs as (? & ? & ? & ? & ? & ? & _).
  split_and!; auto using Itoa_no_nul, Forall_nil_2.
Qed.

(** The bytes that a control plane signs determine the assertion: two assertions whose
    texts contain no NUL and that share a payload agree in every field but the signature,
    so a signature cannot be moved to another scope, endpoint, epoch or validity. *)
Theorem payload_injective o o' :
  plainOwnership o → plainOwnership o' → ownershipPayload o = ownershipPayload o' →
  withSignature o o'.(Own_Signature) = o'.
Proof.
  intros Hp Hp' Heq. apply joinNul_inj in Heq; auto using payloadFields_plain.
  destruct Hp as (? & ? & ? & ? & _), Hp' as (? & ? & ? & ? & _), o, o'.
  unfold payloadFields, withSignature in *. simpl in *. injection Heq as.
  repeat match goal with
  | Hi : Itoa _ = Itoa _ |- _ => apply Itoa_inj in Hi; [|done..]
  | Hb : bytes_of _ = bytes_of _ |- _ => apply bytes_of_inj in Hb
  end.
  by subst.
Qed.

Definition nul : string := string_of [x00].

Lemma nul_ne s t : s +:+ nul +:+ t ≠ "".
Proof.
  intros H%(f_equal bytes_of). rewrite !bytes_of_app in H. by destruct (bytes_of s).
Qed.

(** Without that restriction the payload is ambiguous: an assertion for tenant
    [t NUL a] and application [b] verifies exactly when the one for tenant [t] and
    application [a NUL b] does, with the same signature. *)
Theorem payload_ambiguous `{!Ed25519} Parse o t a b key now :
  t ≠ "" → b ≠ "" →
  verifyOwnership Parse (withScope o (t +:+ nul +:+ a) b) key now
    = verifyOwnership Parse (withScope o t (a +:+ nul +:+ b)) key now
  ∧ withScope o (t +:+ nul +:+ a) b ≠ withScope o t (a +:+ nul +:+ b).
Proof.
  intros Ht Hb. split.
  - unfold verifyOwnership.
    assert (Hp : ownershipPayload (withScope o (t +:+ nul +:+ a) b)
      = ownershipPayload (withScope o t (a +:+ nul +:+ b))).
    { unfold ownershipPayload, payloadFields, withScope. simpl. rewrite !bytes_of_app.
      change (bytes_of nul) with [x00]. rewrite <- !app_assoc. done. }
    rewrite Hp. cbn [withScope Own_TenantID Own_ApplicationID].
    rewrite (bool_decide_eq_false_2 (_ = "") (nul_ne t a)), (bool_decide_eq_false_2 (_ = "") (nul_ne a b)),
      (bool_decide_eq_false_2 _ Ht), (bool_decide_eq_false_2 _ Hb). done.
  - unfold withScope. intros [= Hz _]. apply (f_equal bytes_of), (f_equal length) in Hz.
    rewrite !bytes_of_app, !length_app in Hz. simpl in Hz. lia.
Qed.

(** * Witnesses *)
Module OwnershipSamples.
Import Protocol.Samples.

#[export] Instance ownership_fields : Fields Ownership.
Proof.
  refine {|
  toFields o := [[o.(Own_TenantID); o.(Own_ApplicationID); o.(Own_EnvironmentID);
    o.(Own_Endpoint); o.(Own_OwnerInstanceID); ofZ o.(Own_OwnershipEpoch); ofZ o.(Own_IssuedAt);
    ofZ o.(Own_ExpiresAt); ofZ o.(Own_Version); o.(Own_KeyID); o.(Own_Signature)]];
  ofFields l :=
    match l with
    | [[a; b; c; d; e; f; g; h; i; j; k]] =>
        f ← toZ f; g ← toZ g; h ← toZ h; i ← toZ i; Some (mkOwnership a b c d e f g h i j k)
    | _ => None
    end
  |}.
  intros []; simpl. by rewrite !toZ_ofZ.
Defined.

#[export] Instance keySet_fields : Fields runtimeSigningKeySet.
Proof.
  refine {|
  toFields s := (fun k => [k.(SigningKey_KeyID); k.(SigningKey_Algorithm); k.(SigningKey_PublicKey)])
                <$> s.(KeySet_Keys);
  ofFields l :=
    mkKeySet <$> mapM (fun row => match row with
      | [a; b; c] => Some (mkRuntimeSigningKey a b c) | _ => None end) l
  |}.
  intros [ks]; simpl. induction ks as [|[] ks IH]; [done|]. csimpl.
  destruct (mapM _ _) as [ks'|]; simpl in *; [|done]. by injection IH as ->.
Defined.

#[export] Instance ownership_json : Json Ownership := fieldsJson _.
#[export] Instance ownership_unmarshal : JsonUnmarshal Ownership := fieldsUnmarshal _.
#[export] Instance keySet_json : Json runtimeSigningKeySet := fieldsJson _.

(** Two endpoints and a control plane. *)
Definition parse (s : string) : option URL :=
  if bool_decide (s = "lwps://a:7443") then Some (mkURL "lwps" false "a:7443" "a" "7443" "" "" "" "" false "" s)
  else if bool_decide (s = "lwps://b:7443")
  then Some (mkURL "lwps" false "b:7443" "b" "7443" "" "" "" "" false "" s)
  else if bool_decide (s = "https://control")
  then Some (mkURL "https" false "control" "control" "" "" "" "" "" false "" s)
  else None.

Definition pub : list byte := Public (NewKeyFromSeed seed).

Definition signed (o : Ownership) : Ownership :=
  withSignature o (string_of (rawURLEncode (Sign (NewKeyFromSeed seed) (ownershipPayload o)))).

Definition owner (endpoint instance : string) (epoch : Z) : Ownership :=
  signed (mkOwnership "tenant" "app" "env" endpoint instance epoch 1000000 31000000 1
    (keyFingerprint pub) "").

Definition ownerA : Ownership := owner "lwps://a:7443" "owner-a" 1.
Definition ownerB : Ownership := owner "lwps://b:7443" "owner-b" 2.

Definition keySet1 : runtimeSigningKeySet :=
  mkKeySet [mkRuntimeSigningKey (keyFingerprint pub) "Ed25519" (string_of (rawURLEncode pub))].

Definition controlPlane (path : string) : option Reply :=
  if bool_decide (path = "/v1/runtime/ownership") then Some (mkReply 200 (Marshal ownerA))
  else Some (mkReply 200 (Marshal keySet1)).

Definition published1 (key : list byte) : Prop := key = pub.

Lemma keySet1_decodes :
  fetchJSON (controlPlane "/.well-known/lotor-runtime-keys.json") "runtime key discovery"
  = Ret keySet1.
Proof.
  unfold fetchJSON, controlPlane. rewrite bool_decide_eq_false_2 by done.
  cbn [Reply_Status Reply_Body Marshal keySet_json fieldsJson].
  rewrite (proj2 (Z.ltb_ge _ _)) by (vm_compute; discriminate).
  rewrite (proj2 (Z.eqb_eq _ _)) by done. cbn [negb Decode keySet_json fieldsJson].
  rewrite unmark_table. cbn [rev app mbind option_bind]. rewrite ofFields_toFields. reflexivity.
Qed.

Lemma honest1 : honest published1 controlPlane.
Proof.
  intros keySet item key Hf Hi Hd. rewrite keySet1_decodes in Hf. injection Hf as <-.
  apply list_elem_of_singleton in Hi as ->. cbn [SigningKey_PublicKey] in Hd.
  rewrite bytes_of_string_of, rawURL_roundtrip in Hd. by injection Hd as <-.
Qed.

Definition options1 : DiscoveryOptions := mkDiscoveryOptions " https://control/ " "key".
Definition resolver1 : OwnershipResolver :=
  mkResolver (mkDiscoveryOptions "https://control" "key") ∅ Ownership_zero.

Lemma resolver1_reachable :
  resolverReachable parse published1 parse (fun _ => false) resolver1.
Proof.
  exists options1, resolver1. split; [vm_compute; reflexivity|apply rtc_refl].
Qed.

Lemma instant1 : instant 2000000.
Proof. unfold instant. lia. Qed.

Definition retIs {A} `{!EqDecision A} (m : outcome own_error A) (a : A) : bool :=
  match m with Ret b => bool_decide (b = a) | _ => false end.

Lemma retIs_true {A} `{!EqDecision A} (m : outcome own_error A) a : retIs m a = true → m = Ret a.
Proof. destruct m; simpl; intros Hm; try discriminate. by apply bool_decide_eq_true in Hm as ->. Qed.

Lemma resolve_verified_witness :
  returns (Resolve parse resolver1 2000000 controlPlane).1 = true
  ∧ (Resolve parse resolver1 2000000 controlPlane).2.(cached) = ownerA.
Proof.
  assert (Hr : (Resolve parse resolver1 2000000 controlPlane).1 = Ret ownerA)
    by (apply retIs_true; vm_compute; reflexivity).
  split; [rewrite Hr; reflexivity|].
  apply (resolve_verified parse published1 parse (fun _ => false) resolver1 2000000 controlPlane
    ownerA _ resolver1_reachable instant1 honest1).
  rewrite <- Hr. apply surjective_pairing.
Defined.

(** The first owner has moved; the second one answers 7. *)
Definition movedOperation (i : nat) (client : string * bool) : outcome own_error Z :=
  match i with
  | O => Throw (OwnLWP (LWPError 20 (string_of (default [] (Marshal ownerB)))))
  | S _ => Ret 7
  end.

Definition movingWorld : World Z :=
  mkWorld (fun _ => 2000000) (fun _ => controlPlane) (fun _ _ _ => Ret tt)
    (fun _ _ _ => Ret tt) (Some movedOperation).

Lemma owner_retry_witness :
  ∃ resolver', WithOwnerRetry parse movingWorld (Some resolver1) true
    = (Ret 7, resolver', [(ownerA, ("a:7443", true)); (ownerB, ("b:7443", true))])
  ∧ ∃ t, instant t ∧ verified parse published1 ownerB t.
Proof.
  set (run := WithOwnerRetry parse movingWorld (Some resolver1) true).
  assert (Hrun : retIs run.1.1 7
    && bool_decide (run.2 = [(ownerA, ("a:7443", true)); (ownerB, ("b:7443", true))]) = true)
    by (vm_compute; reflexivity).
  apply andb_true_iff in Hrun as [Hres Hruns].
  apply retIs_true in Hres. apply bool_decide_eq_true in Hruns.
  assert (Heq : run = (Ret 7, run.1.2,
    [(ownerA, ("a:7443", true)); (ownerB, ("b:7443", true))]))
    by (rewrite <- Hres, <- Hruns; destruct run as [[? ?] ?]; reflexivity).
  exists run.1.2. split; [exact Heq|].
  destruct (owner_retry parse published1 parse (fun _ => false) movingWorld movedOperation resolver1
    true _ _ _ resolver1_reachable (fun _ => instant1) (fun _ => honest1) eq_refl Heq) as [Hall _].
  destruct (Hall ownerB ("b:7443", true)) as (_ & _ & Hv); [right; left|exact Hv].
Defined.

Lemma payload_injective_witness : withSignature ownerA ownerA.(Own_Signature) = ownerA.
Proof.
  apply payload_injective; [| |reflexivity].
  all: unfold plainOwnership, is_i64; repeat (split; [vm_compute; split; discriminate || reflexivity|]).
  all: refine (bool_decide_eq_true_1 (Forall _ _) _); vm_compute; reflexivity.
Defined.

Lemma payload_ambiguous_witness :
  ∃ o o', verifyOwnership parse o pub 2000000 = verifyOwnership parse o' pub 2000000 ∧ o ≠ o'
    ∧ o.(Own_TenantID) = "t" +:+ nul +:+ "a" ∧ o'.(Own_TenantID) = "t".
Proof.
  eexists _, _.
  destruct (payload_ambiguous parse ownerA "t" "a" "b" pub 2000000) as [H1 H2];
    [discriminate|discriminate|].
  split; [exact H1|]. split; [exact H2|]. split; reflexivity.
Defined.

End OwnershipSamples.
