(* ===== verification/Control.v ===== *)
(** The runtime's side of the control plane: [bridge/validation.go],
    [bridge/discovery.go], [bridge/workload.go] and [bridge/resource.go].

    Each operation signs a proof of the original grant, posts it, and checks the answer
    against the grant. The network is a function from a URL and a body to an exchange. *)
From S2P Require Import Prelude GoStd Sha256 Interfaces Protocol ExecutionStore Runtime.

(** * Data *)
Record ControlValidatorOptions : Type := mkValidatorOptions {
  Options_BaseURL : string;
  Options_SigningKeyID : string;
  Options_SigningKey : list byte
}.

Record ControlValidator : Type := mkValidator {
  Validator_baseURL : string;
  Validator_keyID : string;
  Validator_key : list byte
}.

Record ControlKeys : Type := mkControlKeys {
  Control_Keys : gmap string (list byte);
  Control_Issuer : string
}.

(** The document of published function keys. *)
Record PublishedKey : Type := mkPublishedKey {
  Published_KeyID : string;
  Published_Algorithm : string;
  Published_PublicKey : string
}.

Record KeyDocument : Type := mkKeyDocument {
  Document_Issuer : string;
  Document_Keys : list PublishedKey
}.

Record WorkloadContext : Type := mkWorkloadContext {
  Workload_InvocationID : string;
  Workload_BindingID : string;
  Workload_Scope : Scope;
  Workload_Principal : string;
  Workload_AuthorityKind : string;
  Workload_AuthorityResource : string
}.

Record ResourcePayloadManifest : Type := mkPayloadManifest {
  Payload_Resource : string;
  Payload_Slot : string;
  Payload_SchemaID : string;
  Payload_Representation : string;
  Payload_ObjectDigest : string;
  Payload_EncryptionSuite : string;
  Payload_KeyBindingRef : string;
  Payload_WrappedPayloadKey : string;
  Payload_AADHash : string;
  Payload_EncryptorSubject : string;
  Payload_EncryptorKeyID : string;
  Payload_State : string;
  Payload_PayloadVersion : Z;
  Payload_ObjectSize : Z;
  Payload_KeyVersion : Z;
  Payload_ResourceRevision : Z;
  Payload_LifecycleGeneration : Z;
  Payload_CommittedAt : Z
}.

Record ResourcePayloadAccessLease : Type := mkLease {
  Lease_Resource : string;
  Lease_Slot : string;
  Lease_Representation : string;
  Lease_ObjectDigest : string;
  Lease_DownloadURL : string;
  Lease_DownloadMethod : string;
  Lease_Audience : string;
  Lease_PayloadVersion : Z;
  Lease_ObjectSize : Z;
  Lease_ExpiresAt : Z;
  Lease_ResourceRevision : Z;
  Lease_LifecycleGeneration : Z
}.

Record ResourcePayloadAccess : Type := mkPayloadAccess {
  Access_CustodyOwner : string;
  Access_Lease : ResourcePayloadAccessLease;
  Access_Manifest : ResourcePayloadManifest
}.

#[global] Instance WorkloadContext_eq_dec : EqDecision WorkloadContext.
Proof. solve_decision. Defined.
#[global] Instance ResourcePayloadManifest_eq_dec : EqDecision ResourcePayloadManifest.
Proof. solve_decision. Defined.
#[global] Instance ResourcePayloadAccessLease_eq_dec : EqDecision ResourcePayloadAccessLease.
Proof. solve_decision. Defined.
#[global] Instance ResourcePayloadAccess_eq_dec : EqDecision ResourcePayloadAccess.
Proof. solve_decision. Defined.

(** What a [context.Context] holds here: the verified invocation, if any, and whether the
    context is done. *)
Record Context : Type := mkContext {
  Context_Invocation : option (Authorization * SignedMessage);
  Context_Done : bool
}.

Definition InvocationFromContext (ctx : Context) : option (Authorization * SignedMessage) :=
  ctx.(Context_Invocation).

(** The members of a JSON object as a token stream yields them: names with raw values, in
    order, [None] unless the text is one object followed by white space. *)
Class JsonObject : Type := { Members : list byte → option (list (string * list byte)) }.

Section Control.
Context `{!Ed25519} `{!Json ValidationRequest} `{!Json ResourceAccessRequest}
  `{!Json SignedMessage} `{!Json WorkloadContext} `{!Json ResourcePayloadAccess}
  `{!Json KeyDocument} `{!JsonObject}.
(** [url.Parse]; [post] sends a request with a body, [get] one without. *)
Context (Parse : string → option URL).

(** * Endpoints *)
Definition controlBaseURL (raw : string) : outcome bridge_error string :=
  match Parse raw with
  | None => Throw ErrInvalid
  | Some endpoint =>
      if negb (bool_decide (endpoint.(URL_Scheme) = "https"))
         || bool_decide (endpoint.(URL_Hostname) = "") || endpoint.(URL_User)
         || negb (bool_decide (endpoint.(URL_RawQuery) = "")) || endpoint.(URL_ForceQuery)
         || negb (bool_decide (endpoint.(URL_Fragment) = "")) || ContainsAny raw [x23]
      then Throw ErrInvalid
      else Ret (TrimRightSlash endpoint.(URL_String))
  end.

Definition NewControlValidator (options : ControlValidatorOptions)
    : outcome bridge_error ControlValidator :=
  match controlBaseURL options.(Options_BaseURL) with
  | Ret base =>
      if negb (identifier options.(Options_SigningKeyID) 256)
         || negb (len options.(Options_SigningKey) =? PrivateKeySize)
         || negb (bool_decide (NewKeyFromSeed (take 32 options.(Options_SigningKey))
                               = options.(Options_SigningKey)))
      then Throw ErrInvalid
      else Ret (mkValidator base options.(Options_SigningKeyID) options.(Options_SigningKey))
  | _ => Throw ErrInvalid
  end.

(** [NewResourceClient]: a resource client is its validator. *)
Definition NewResourceClient (options : ControlValidatorOptions)
    : outcome bridge_error ControlValidator := NewControlValidator options.

(** The URL of an operation on the binding of a grant. *)
Definition bindingURL (validator : ControlValidator) (binding operation : string) : string :=
  validator.(Validator_baseURL) +:+ "/v1/function-bindings/" +:+ PathEscape binding +:+ operation.

(** * validation.go *)
Definition Authorize (validator : ControlValidator) (authorization : Authorization)
    (original : SignedMessage) (post : string → list byte → exchange) : outcome bridge_error unit :=
  if bool_decide (authorization.(Auth_Kind) = "challenge") then Ret tt
  else if negb (bool_decide (authorization.(Auth_Kind) = "invocation"))
          || negb (identifier authorization.(Auth_BindingID) 256)
  then Throw ErrUnauthorized
  else match SignValidation (mkValidationRequest original) validator.(Validator_keyID)
               validator.(Validator_key) with
  | Ret proof =>
      match Marshal proof with
      | None => Throw ErrInvalid
      | Some body =>
          match post (bindingURL validator authorization.(Auth_BindingID)
                        "/authorizations/validate") body with
          | BadRequest => Throw ErrInvalid
          | NoReply => Throw ErrUnavailable
          | Replied response =>
              if response.(Reply_Status) =? 204 then Ret tt
              else if (response.(Reply_Status) =? 403) || (response.(Reply_Status) =? 401)
              then Throw ErrUnauthorized
              else Throw ErrUnavailable
          end
      end
  | _ => Throw ErrUnauthorized
  end.

(** * discovery.go *)

(** The loop over the published keys. *)
Fixpoint collectKeys (values : list PublishedKey) (keys : gmap string (list byte))
    : outcome bridge_error (gmap string (list byte)) :=
  match values with
  | [] => Ret keys
  | value :: values =>
      if negb (identifier value.(Published_KeyID) 256)
         || negb (bool_decide (value.(Published_Algorithm) = "Ed25519"))
         || negb (bool_decide (keys !! value.(Published_KeyID) = None))
      then Throw ErrUnavailable
      else match rawURLDecode true (bytes_of value.(Published_PublicKey)) with
      | None => Throw ErrUnavailable
      | Some public =>
          if negb (len public =? PublicKeySize) then Throw ErrUnavailable
          else collectKeys values (<[value.(Published_KeyID) := public]> keys)
      end
  end.

Definition DiscoverControlKeys (baseURL : string) (get : string → exchange)
    : outcome bridge_error ControlKeys :=
  base ← controlBaseURL baseURL;
  match get (base +:+ "/.well-known/lotor-function-keys.json") with
  | BadRequest => Throw ErrInvalid
  | NoReply => Throw ErrUnavailable
  | Replied response =>
      if negb (response.(Reply_Status) =? 200) then Throw ErrUnavailable
      else match response.(Reply_Body) with
      | None => Throw ErrUnavailable
      | Some body =>
          if 65536 <? len body then Throw ErrUnavailable
          else match strictJSON body with
          | Ret document =>
              if negb (identifier document.(Document_Issuer) 256)
                 || (len document.(Document_Keys) <? 1) || (8 <? len document.(Document_Keys))
              then Throw ErrUnavailable
              else
                keys ← collectKeys document.(Document_Keys) ∅;
                Ret (mkControlKeys keys document.(Document_Issuer))
          | _ => Throw ErrUnavailable
          end
      end
  end.

(** * workload.go *)

(** The loop of [workloadObjectFields] over the members. *)
Fixpoint collectFields (names : list string) (members : list (string * list byte))
    (fields : gmap string (list byte)) : outcome bridge_error (gmap string (list byte)) :=
  match members with
  | [] => Ret fields
  | (name, value) :: members =>
      if negb (bool_decide (fields !! name = None)) || negb (bool_decide (name ∈ names))
      then Throw ErrInvalid
      else collectFields names members (<[name := value]> fields)
  end.

Definition workloadObjectFields (raw : list byte) (names : list string)
    : outcome bridge_error (gmap string (list byte)) :=
  match Members raw with
  | None => Throw ErrInvalid
  | Some members => collectFields names members ∅
  end.

Definition workloadNames : list string :=
  ["invocation_id"; "binding_id"; "scope"; "principal"; "authority_kind"; "authority_resource"].
Definition scopeNames : list string :=
  ["tenant_id"; "application_id"; "environment_id"; "owner_resource"].

(** The checks on the body of a successful answer. *)
Definition readWorkload (grant : Authorization) (raw : list byte)
    : outcome bridge_error WorkloadContext :=
  match workloadObjectFields raw workloadNames with
  | Ret fields =>
      match workloadObjectFields (default [] (fields !! "scope")) scopeNames with
      | Ret _ =>
          match strictJSON raw with
          | Ret result =>
              let hasAuthorityResource := bool_decide (is_Some (fields !! "authority_resource")) in
              if negb (bool_decide (result.(Workload_InvocationID) = grant.(Auth_ID)))
                 || negb (bool_decide (result.(Workload_BindingID) = grant.(Auth_BindingID)))
                 || negb (bool_decide (result.(Workload_Scope) = grant.(Auth_Scope)))
                 || negb (bool_decide (result.(Workload_Principal) = grant.(Auth_Principal)))
                 || negb (validScope result.(Workload_Scope))
                 || negb (identifier result.(Workload_Principal) 256)
                 || negb (bool_decide (result.(Workload_AuthorityKind) = "subject")
                          && negb hasAuthorityResource
                          || bool_decide (result.(Workload_AuthorityKind) = "resource_credential")
                             && identifier result.(Workload_AuthorityResource) 256)
              then Throw ErrUnavailable
              else Ret result
          | _ => Throw ErrUnavailable
          end
      | _ => Throw ErrUnavailable
      end
  | _ => Throw ErrUnavailable
  end.

(** The method [WorkloadContext] of a resource client. *)
Definition currentWorkload (client : ControlValidator) (ctx : Context)
    (post : string → list byte → exchange) : outcome bridge_error WorkloadContext :=
  match InvocationFromContext ctx with
  | None => Throw ErrUnauthorized
  | Some (grant, original) =>
      if negb (bool_decide (grant.(Auth_Kind) = "invocation")) then Throw ErrUnauthorized
      else match SignValidation (mkValidationRequest original) client.(Validator_keyID)
                   client.(Validator_key) with
      | Ret proof =>
          match Marshal proof with
          | None => Throw ErrInvalid
          | Some body =>
              match post (bindingURL client grant.(Auth_BindingID) "/authorizations/context") body with
              | BadRequest => Throw ErrInvalid
              | NoReply => Throw ErrUnavailable
              | Replied response =>
                  if (response.(Reply_Status) =? 403) || (response.(Reply_Status) =? 401)
                  then Throw ErrUnauthorized
                  else if negb (response.(Reply_Status) =? 200) then Throw ErrUnavailable
                  else match response.(Reply_Body) with
                  | None => Throw ErrUnavailable
                  | Some raw =>
                      if Z.shiftl 16 10 <? len raw then Throw ErrUnavailable
                      else readWorkload grant raw
                  end
              end
          end
      | _ => Throw ErrInvalid
      end
  end.

(** * resource.go *)

(** The final check of [accessPayload]; [now] is [time.Now().UnixMicro()]. *)
Definition accessMatches (authorization : Authorization) (resource slot : string)
    (payloadVersion now : Z) (result : ResourcePayloadAccess) : bool :=
  let manifest := result.(Access_Manifest) in
  let lease := result.(Access_Lease) in
  bool_decide (manifest.(Payload_Resource) = resource)
  && bool_decide (lease.(Lease_Resource) = resource)
  && bool_decide (manifest.(Payload_Slot) = slot) && bool_decide (lease.(Lease_Slot) = slot)
  && (manifest.(Payload_PayloadVersion) =? payloadVersion)
  && (lease.(Lease_PayloadVersion) =? payloadVersion)
  && bool_decide (manifest.(Payload_ObjectDigest) = lease.(Lease_ObjectDigest))
  && (manifest.(Payload_ObjectSize) =? lease.(Lease_ObjectSize))
  && bool_decide (manifest.(Payload_Representation) = lease.(Lease_Representation))
  && (manifest.(Payload_ResourceRevision) =? lease.(Lease_ResourceRevision))
  && (manifest.(Payload_LifecycleGeneration) =? lease.(Lease_LifecycleGeneration))
  && bool_decide (lease.(Lease_Audience) = "function:" +:+ authorization.(Auth_BindingID))
  && negb (lease.(Lease_ExpiresAt) <=? now)
  && negb (i64 (authorization.(Auth_ExpiresAt) * 1000000) <? lease.(Lease_ExpiresAt)).

Definition accessPayload (client : ControlValidator) (ctx : Context) (resource slot : string)
    (payloadVersion : Z) (useCustody : bool) (now : Z) (post : string → list byte → exchange)
    : outcome bridge_error ResourcePayloadAccess :=
  match InvocationFromContext ctx with
  | None => Throw ErrUnauthorized
  | Some (authorization, original) =>
      if negb (bool_decide (resource ∈ authorization.(Auth_Resources)))
         || negb (bool_decide ("payload.read" ∈ authorization.(Auth_Capabilities)))
         || useCustody && negb (bool_decide ("custody.use" ∈ authorization.(Auth_Capabilities)))
      then Throw ErrUnauthorized
      else if negb (identifier resource 256) || negb (identifier slot 128) || (payloadVersion <? 1)
      then Throw ErrInvalid
      else match SignResourceAccess
                   (mkResourceAccessRequest original resource slot payloadVersion useCustody)
                   client.(Validator_keyID) client.(Validator_key) with
      | Ret proof =>
          match Marshal proof with
          | None => Throw ErrInvalid
          | Some body =>
              match post (bindingURL client authorization.(Auth_BindingID)
                            "/resource-payload-accesses") body with
              | BadRequest => Throw ErrInvalid
              | NoReply => Throw ErrUnavailable
              | Replied response =>
                  let status := response.(Reply_Status) in
                  if (status =? 403) || (status =? 401) then Throw ErrUnauthorized
                  else if status =? 409 then Throw ErrConflict
                  else if status =? 404 then Throw ErrNotFound
                  else if status =? 400 then Throw ErrInvalid
                  else if negb (status =? 200) then Throw ErrUnavailable
                  else match response.(Reply_Body) with
                  | None => Throw ErrUnavailable
                  | Some raw =>
                      if MaximumBodyBytes <? len raw then Throw ErrUnavailable
                      else match strictJSON raw with
                      | Ret result =>
                          if accessMatches authorization resource slot payloadVersion now result
                          then Ret result else Throw ErrUnauthorized
                      | _ => Throw ErrUnavailable
                      end
                  end
              end
          end
      | _ => Throw ErrInvalid
      end
  end.

Definition AccessPayload (client : ControlValidator) (ctx : Context) (resource slot : string)
    (payloadVersion now : Z) (post : string → list byte → exchange)
    : outcome bridge_error ResourcePayloadAccess :=
  accessPayload client ctx resource slot payloadVersion false now post.

End Control.

(** * Lemmas: proofs of the original grant *)
Lemma rawURLEncode_clean b : cleanString (string_of (rawURLEncode b)).
Proof.
  apply ValidString_ascii. rewrite bytes_of_string_of. unfold rawURLEncode.
  apply forallb_forall. intros c Hc%list_elem_of_In.
  apply list_elem_of_fmap in Hc as (z & -> & Hz). pose proof (sextets_range b) as Hr.
  rewrite Forall_forall in Hr. apply Hr in Hz. apply Z.ltb_lt. unfold enc6.
  repeat case_match; rewrite byteZ_to_byte; Z.to_euclidean_division_equations; breflect; lia.
Qed.

Section Proofs.
Context `{!Ed25519} `{!Ed25519Laws} `{!Json SignedMessage} `{!JsonLaws SignedMessage cleanMessage}.

(** A signed value travels as JSON and verifies at the other end. *)
Lemma signed_travels {A} `{!Json A} (clean : A → Prop) `{!JsonLaws A clean} (value : A) purpose keyID
    seed proof body :
  len seed = SeedSize → clean value → sign value purpose keyID (NewKeyFromSeed seed) = Ret proof →
  Marshal proof = Some body →
  strictJSON body = Ret proof
  ∧ ∃ raw, verifyInto proof purpose (Public (NewKeyFromSeed seed)) = Ret (value, raw).
Proof.
  intros Hseed Hc Hs Hm. split.
  - eapply strictJSON_Marshal; [done| |exact Hm].
    apply sign_Ret in Hs as (Hid & _ & raw & _ & _ & ->).
    split; [by eapply identifier_ValidString|]. split; apply rawURLEncode_clean.
  - destruct (verifyInto_sign clean _ _ _ _ _ Hseed Hc Hs) as (raw & _ & Hv). by exists raw.
Qed.

Lemma NewControlValidator_Ret Parse options validator :
  NewControlValidator Parse options = Ret validator →
  identifier validator.(Validator_keyID) 256 = true
  ∧ ∃ seed, len seed = SeedSize ∧ validator.(Validator_key) = NewKeyFromSeed seed.
Proof.
  unfold NewControlValidator. destruct (controlBaseURL _ _); try done.
  destruct (_ || negb (bool_decide _)) eqn:Hbad; [done|]. breflect. intros [= <-]. simpl.
  split; [done|]. exists (take 32 options.(Options_SigningKey)). split; [|done].
  unfold len, SeedSize, PrivateKeySize in *. rewrite length_take. lia.
Qed.

End Proofs.

(** * Theorems *)
Section ControlTheorems.
Context `{!Ed25519} `{!Ed25519Laws} `{!Json ValidationRequest} `{!Json ResourceAccessRequest}
  `{!Json SignedMessage} `{!Json WorkloadContext} `{!Json ResourcePayloadAccess}
  `{!Json KeyDocument} `{!JsonObject} `{!JsonLaws SignedMessage cleanMessage}
  `{!JsonLaws ValidationRequest cleanValidation} `{!JsonLaws ResourceAccessRequest cleanAccess}.
Context (Parse : string → option URL).

(** [body] is a proof, which verifies under the runtime's public key, of the grant. *)
Definition provesGrant (validator : ControlValidator) (original : SignedMessage)
    (body : list byte) : Prop :=
  ∃ proof, strictJSON body = Ret proof
  ∧ VerifyValidation proof (Public validator.(Validator_key)) = Ret (mkValidationRequest original).

Lemma SignValidation_proves options validator original proof body :
  NewControlValidator Parse options = Ret validator → cleanMessage original →
  SignValidation (mkValidationRequest original) validator.(Validator_keyID)
    validator.(Validator_key) = Ret proof →
  Marshal proof = Some body → provesGrant validator original body.
Proof.
  intros (_ & seed & Hl & Hk)%NewControlValidator_Ret Hc Hs Hm. unfold provesGrant.
  rewrite Hk in *. destruct (signed_travels cleanValidation (mkValidationRequest original) _ _ _ _ _ Hl Hc Hs Hm)
    as (Hj & raw & Hv). exists proof. split; [done|]. unfold VerifyValidation. by rewrite Hv.
Qed.

(** Requests for different bindings go to different paths: the escaped binding has no
    slash and can be read back. *)
Lemma bindingURL_inj validator b b' operation :
  bindingURL validator b operation = bindingURL validator b' operation → b = b'.
Proof.
  unfold bindingURL. intros Hu%(f_equal bytes_of). rewrite !bytes_of_app in Hu.
  apply app_inv_head, app_inv_head, app_inv_tail, bytes_of_inj, PathEscape_inj in Hu. done.
Qed.

(** The validator authorizes an invocation only when Control, asked at the path of this
    very binding with a proof of the original grant that verifies under the runtime's
    registered key, answered 204. Every other answer, and silence, denies. *)
Theorem authorize_fresh options validator authorization original post :
  NewControlValidator Parse options = Ret validator → cleanMessage original →
  Authorize validator authorization original post = Ret tt →
  authorization.(Auth_Kind) = "challenge"
  ∨ authorization.(Auth_Kind) = "invocation" ∧ identifier authorization.(Auth_BindingID) 256 = true
    ∧ ∃ body response, provesGrant validator original body
      ∧ post (bindingURL validator authorization.(Auth_BindingID) "/authorizations/validate") body
        = Replied response
      ∧ response.(Reply_Status) = 204.
Proof.
  intros Hnew Hc. unfold Authorize.
  destruct (bool_decide (_ = "challenge")) eqn:Hk; [intros _; left; by breflect|].
  destruct (_ || _) eqn:Hbad; [done|]. breflect.
  destruct (SignValidation _ _ _) as [proof|e| |] eqn:Hs; try done.
  destruct (Marshal proof) as [body|] eqn:Hm; [|done].
  destruct (post _ body) as [| |response] eqn:Hp; try done.
  destruct (Z.eqb_spec response.(Reply_Status) 204);
    [|by destruct (_ || _)].
  intros _. right. split; [done|]. split; [done|]. exists body, response.
  split; [by eapply SignValidation_proves|done].
Qed.

(** * Object members *)
Lemma collectFields_Ret names members fields fields' :
  collectFields names members fields = Ret fields' →
  NoDup members.*1 ∧ Forall (fun n => n ∈ names ∧ fields !! n = None) members.*1
  ∧ fields' = list_to_map members ∪ fields.
Proof.
  revert fields. induction members as [|[name value] members IH]; intros fields; simpl.
  { intros [= <-]. split; [constructor|]. split; [constructor|]. by rewrite map_empty_union. }
  destruct (_ || _) eqn:Hbad; [done|]. breflect. intros (Hn & Hf & ->)%IH. csimpl.
  rewrite Forall_forall in Hf. split.
  - apply NoDup_cons. split; [|done]. intros Hin%Hf. rewrite lookup_insert_eq in Hin. naive_solver.
  - split.
    + constructor; [done|]. apply Forall_forall. intros n Hin.
      destruct (Hf n Hin) as [? Hl]. split; [done|].
      destruct (decide (n = name)) as [->|]; [by rewrite lookup_insert_eq in Hl|].
      by rewrite lookup_insert_ne in Hl.
    + rewrite <- insert_union_r; [by rewrite insert_union_l|].
      apply not_elem_of_list_to_map_1. intros Hin%Hf. rewrite lookup_insert_eq in Hin. naive_solver.
Qed.

Lemma workloadObjectFields_Ret raw names fields :
  workloadObjectFields raw names = Ret fields →
  ∃ members, Members raw = Some members ∧ NoDup members.*1 ∧ members.*1 ⊆ names
    ∧ fields = list_to_map members.
Proof.
  unfold workloadObjectFields. destruct (Members raw) as [members|]; [|done].
  intros (Hn & Hf & ->)%collectFields_Ret. exists members. split; [done|]. split; [done|].
  split; [|by rewrite map_union_empty]. rewrite Forall_forall in Hf. intros n Hin%Hf. naive_solver.
Qed.

(** C26: the workload identity that a handler obtains is the one of its own grant. Control
    was asked, at the path of the grant's binding, with a verifiable proof of the original
    grant; the answer names no member twice and none outside the contract; identity,
    scope and principal are those of the grant; and an authority resource is present only
    for a resource credential. *)
Theorem workload_bound options client ctx post result :
  NewControlValidator Parse options = Ret client →
  (∀ grant original, ctx.(Context_Invocation) = Some (grant, original) → cleanMessage original) →
  currentWorkload client ctx post = Ret result →
  ∃ grant original body raw members,
    ctx.(Context_Invocation) = Some (grant, original) ∧ grant.(Auth_Kind) = "invocation"
    ∧ provesGrant client original body
    ∧ post (bindingURL client grant.(Auth_BindingID) "/authorizations/context") body
      = Replied (mkReply 200 (Some raw))
    ∧ Members raw = Some members ∧ NoDup members.*1 ∧ members.*1 ⊆ workloadNames
    ∧ result.(Workload_InvocationID) = grant.(Auth_ID)
    ∧ result.(Workload_BindingID) = grant.(Auth_BindingID)
    ∧ result.(Workload_Scope) = grant.(Auth_Scope) ∧ validScope grant.(Auth_Scope) = true
    ∧ result.(Workload_Principal) = grant.(Auth_Principal)
    ∧ (result.(Workload_AuthorityKind) = "subject" ∧ "authority_resource" ∉ members.*1
       ∨ result.(Workload_AuthorityKind) = "resource_credential"
         ∧ identifier result.(Workload_AuthorityResource) 256 = true).
Proof.
  intros Hnew Hclean. unfold currentWorkload, InvocationFromContext.
  destruct (Context_Invocation ctx) as [[grant original]|]; [|done].
  destruct (bool_decide (_ = "invocation")) eqn:Hkind; simpl; [|done].
  destruct (SignValidation _ _ _) as [proof|e| |] eqn:Hs; try done.
  destruct (Marshal proof) as [body|] eqn:Hm; [|done].
  destruct (post _ body) as [| |[status [raw|]]] eqn:Hp; try done; simpl;
    destruct (_ || _); try done; destruct (Z.eqb_spec status 200) as [->|]; try done; simpl.
  destruct (_ <? _); [done|]. unfold readWorkload.
  destruct (workloadObjectFields raw workloadNames) as [fields|e| |] eqn:Hf; try done.
  apply workloadObjectFields_Ret in Hf as (members & Hmem & Hnd & Hsub & ->).
  destruct (workloadObjectFields _ scopeNames); try done.
  destruct (strictJSON raw) as [r|e| |]; try done.
  destruct (_ || negb (_ || _)) eqn:Hbad; [done|]. intros [= <-].
  apply orb_false_iff in Hbad as [Hbad Hauth]. breflect.
  exists grant, original, body, raw, members.
  do 2 (split; [done|]). split; [by eapply SignValidation_proves; eauto|].
  do 7 (split; [done|]). split; [congruence|]. split; [done|].
  apply orb_true_iff in Hauth as [Hauth|Hauth]; breflect; [left|by right]. split; [done|].
  apply (not_elem_of_list_to_map_2 (M := gmap string)). by apply eq_None_not_Some.
Qed.

(** A payload lease belongs to the grant that asked for it. The grant lists the resource
    and the capability, Control was sent a verifiable request for exactly this resource,
    slot and version, manifest and lease describe the same object, the lease names this
    function's binding, is still valid and does not outlive the grant. *)
Theorem access_bound options client ctx resource slot version useCustody now post result :
  NewControlValidator Parse options = Ret client → is_i64 version →
  (∀ grant original, ctx.(Context_Invocation) = Some (grant, original) → cleanMessage original) →
  accessPayload client ctx resource slot version useCustody now post = Ret result →
  ∃ grant original body proof response,
    ctx.(Context_Invocation) = Some (grant, original)
    ∧ resource ∈ grant.(Auth_Resources) ∧ "payload.read" ∈ grant.(Auth_Capabilities)
    ∧ (useCustody = true → "custody.use" ∈ grant.(Auth_Capabilities))
    ∧ post (bindingURL client grant.(Auth_BindingID) "/resource-payload-accesses") body
      = Replied response ∧ response.(Reply_Status) = 200
    ∧ strictJSON body = Ret proof
    ∧ VerifyResourceAccess proof (Public client.(Validator_key))
      = Ret (mkResourceAccessRequest original resource slot version useCustody)
    ∧ result.(Access_Manifest).(Payload_Resource) = resource
    ∧ result.(Access_Manifest).(Payload_Slot) = slot
    ∧ result.(Access_Manifest).(Payload_PayloadVersion) = version
    ∧ result.(Access_Manifest).(Payload_ObjectDigest) = result.(Access_Lease).(Lease_ObjectDigest)
    ∧ result.(Access_Lease).(Lease_Audience) = "function:" +:+ grant.(Auth_BindingID)
    ∧ now < result.(Access_Lease).(Lease_ExpiresAt)
    ∧ (0 <= grant.(Auth_ExpiresAt) < 2 ^ 43 →
       result.(Access_Lease).(Lease_ExpiresAt) <= grant.(Auth_ExpiresAt) * 1000000).
Proof.
  intros (_ & seed & Hl & Hk)%NewControlValidator_Ret Hver Hclean.
  unfold accessPayload, InvocationFromContext.
  destruct (Context_Invocation ctx) as [[grant original]|]; [|done].
  destruct (_ || useCustody && _) eqn:Hcap; [done|].
  destruct (_ || (version <? 1)) eqn:Hargs; [done|].
  apply orb_false_iff in Hcap as [Hcap Huse]. breflect.
  destruct (SignResourceAccess _ _ _) as [proof|e| |] eqn:Hs; try done.
  destruct (Marshal proof) as [body|] eqn:Hm; [|done].
  destruct (post _ body) as [| |[status [raw|]]] eqn:Hp; try done; simpl;
    repeat (case_match; try done); breflect.
  destruct (strictJSON raw) as [r|e| |]; try done.
  destruct (accessMatches _ _ _ _ _ _) eqn:Hmatch; [|done]. intros [= <-].
  unfold accessMatches in Hmatch. breflect. rewrite Hk in *.
  destruct (signed_travels cleanAccess
    (mkResourceAccessRequest original resource slot version useCustody) _ _ _ _ _ Hl
    ltac:(split_and!; [by eapply Hclean|by eapply identifier_ValidString..|done]) Hs Hm)
    as (Hj & raw' & Hv).
  eexists grant, original, body, proof, _. do 3 (split; [done|]).
  split; [intros ->; simpl in Huse; by breflect|]. split; [exact Hp|]. do 2 (split; [done|]).
  split; [unfold VerifyResourceAccess; by rewrite Hv|]. do 6 (split; [done|]).
  intros He. rewrite i64_id in * by (unfold is_i64; lia). lia.
Qed.

(** * Key discovery *)
Definition acceptableKey (value : PublishedKey) (key : list byte) : Prop :=
  identifier value.(Published_KeyID) 256 = true ∧ value.(Published_Algorithm) = "Ed25519"
  ∧ rawURLDecode true (bytes_of value.(Published_PublicKey)) = Some key
  ∧ len key = PublicKeySize.

Lemma list_to_map_zip_insert {A} (ids : list string) (xs : list A) id x (m : gmap string A) :
  length xs = length ids → id ∉ ids →
  list_to_map (zip ids xs) ∪ <[id := x]> m = list_to_map (zip (id :: ids) (x :: xs)) ∪ m.
Proof.
  intros Hl Hid. simpl. rewrite <- insert_union_r; [by rewrite insert_union_l|].
  apply not_elem_of_list_to_map_1. rewrite fst_zip; [done|]. lia.
Qed.

Lemma collectKeys_Ret values keys keys' :
  collectKeys values keys = Ret keys' ↔
  ∃ publics, Forall2 acceptableKey values publics ∧ NoDup (Published_KeyID <$> values)
    ∧ (∀ id, id ∈ Published_KeyID <$> values → keys !! id = None)
    ∧ keys' = list_to_map (zip (Published_KeyID <$> values) publics) ∪ keys.
Proof.
  revert keys. induction values as [|value values IH]; intros keys; simpl.
  { split.
    - intros [= <-]. exists []. split; [constructor|]. split; [constructor|].
      split; [by intros id ?%not_elem_of_nil|]. by rewrite map_empty_union.
    - intros (publics & Hf & _ & _ & ->). apply Forall2_nil_inv_l in Hf as ->.
      by rewrite map_empty_union. }
  destruct (_ || negb (bool_decide (keys !! _ = None))) eqn:Hbad.
  { split; [done|]. intros (publics & Hf & _ & Hn & _). exfalso.
    apply Forall2_cons_inv_l in Hf as (key & publics' & (Hid & Halg & _) & _).
    rewrite Hid, (bool_decide_eq_true_2 _ Halg) in Hbad. simpl in Hbad.
    rewrite bool_decide_eq_true_2 in Hbad; [done|]. apply Hn. left. }
  breflect. destruct (rawURLDecode _ _) as [key|] eqn:Hd.
  2:{ split; [done|]. intros (publics & Hf & _). exfalso.
      apply Forall2_cons_inv_l in Hf as (key & publics' & (_ & _ & Hd' & _) & _). congruence. }
  destruct (Z.eqb_spec (len key) PublicKeySize); simpl.
  2:{ split; [done|]. intros (publics & Hf & _). exfalso.
      apply Forall2_cons_inv_l in Hf as (key' & publics' & (_ & _ & Hd' & Hl) & _). congruence. }
  rewrite IH. clear IH. set (id := value.(Published_KeyID)) in *. split.
  - intros (publics & Hf & Hnd & Hn & ->). exists (key :: publics).
    assert (Hid : id ∉ Published_KeyID <$> values).
    { intros Hin%Hn. by rewrite lookup_insert_eq in Hin. }
    split; [by constructor|]. split; [by constructor|]. split.
    + intros id' [->|Hin]%elem_of_cons; [done|]. specialize (Hn _ Hin).
      rewrite lookup_insert_ne in Hn; [done|]. by intros <-.
    + apply list_to_map_zip_insert; [|done]. rewrite length_fmap. by apply Forall2_length in Hf.
  - intros (publics & Hf & Hnd & Hn & ->).
    apply Forall2_cons_inv_l in Hf as (key' & publics' & (_ & _ & Hd' & _) & Hf & ->).
    rewrite Hd in Hd'. injection Hd' as <-. apply NoDup_cons in Hnd as [Hid Hnd].
    exists publics'. split; [done|]. split; [done|]. split.
    + intros id' Hin. rewrite lookup_insert_ne; [apply Hn; by right|]. by intros <-.
    + symmetry. apply list_to_map_zip_insert; [|done]. rewrite length_fmap.
      by apply Forall2_length in Hf.
Qed.

(** Discovery returns exactly the published keys. It succeeds if and only if the
    configured HTTPS origin answers 200 with a document of one to eight Ed25519 keys whose
    names are distinct identifiers and whose 32 bytes are in strict base64, and then the
    trusted keys are those of the document, nothing dropped or merged. *)
Theorem discover_exact baseURL get ck :
  DiscoverControlKeys Parse baseURL get = Ret ck ↔
  ∃ base body document publics, controlBaseURL Parse baseURL = Ret base
    ∧ get (base +:+ "/.well-known/lotor-function-keys.json") = Replied (mkReply 200 (Some body))
    ∧ len body <= 65536 ∧ strictJSON body = Ret document
    ∧ identifier document.(Document_Issuer) 256 = true
    ∧ 1 <= len document.(Document_Keys) <= 8
    ∧ Forall2 acceptableKey document.(Document_Keys) publics
    ∧ NoDup (Published_KeyID <$> document.(Document_Keys))
    ∧ ck = mkControlKeys (list_to_map (zip (Published_KeyID <$> document.(Document_Keys)) publics))
             document.(Document_Issuer).
Proof.
  unfold DiscoverControlKeys. rewrite bind_Ret_inv. split.
  - intros (base & Hb & Hd).
    destruct (get _) as [| |[status [body|]]] eqn:Hg; try done; simpl in Hd;
      destruct (Z.eqb_spec status 200) as [->|]; try done; simpl in Hd.
    destruct (Z.ltb_spec 65536 (len body)); [done|].
    destruct (strictJSON body) as [document|e| |] eqn:Hj; try done.
    destruct (_ || _) eqn:Hbad; [done|]. breflect.
    apply bind_Ret_inv in Hd as (keys & Hk & [= <-]).
    apply collectKeys_Ret in Hk as (publics & Hf & Hnd & _ & ->).
    exists base, body, document, publics. rewrite map_union_empty. by split_and!.
  - intros (base & body & document & publics & Hb & Hg & Hl & Hj & Hi & Hn & Hf & Hnd & ->).
    exists base. split; [done|]. rewrite Hg. simpl. rewrite (proj2 (Z.ltb_ge _ _)), Hj, Hi by done.
    rewrite (proj2 (Z.ltb_ge _ 1)), (proj2 (Z.ltb_ge 8 _)) by lia. simpl.
    apply bind_Ret_inv. eexists. split; [|done]. apply collectKeys_Ret. exists publics.
    do 2 (split; [done|]). split; [done|]. by rewrite map_union_empty.
Qed.

End ControlTheorems.

(** * Witnesses *)
Module ControlSamples.
Import Protocol.Samples.

#[export] Instance validation_fields : Fields ValidationRequest.
Proof.
  refine {|
  toFields v := toFields v.(Validation_Authorization);
  ofFields l := mkValidationRequest <$> ofFields l
  |}.
  intros []. by rewrite ofFields_toFields.
Defined.

#[export] Instance access_fields : Fields ResourceAccessRequest.
Proof.
  refine {|
  toFields v := [v.(Access_Resource); v.(Access_Slot); ofZ v.(Access_PayloadVersion);
    if v.(Access_UseCustody) then "1" else "0"] :: toFields v.(Access_Authorization);
  ofFields l :=
    match l with
    | [r; s; p; u] :: l =>
        m ← ofFields l; p ← toZ p; Some (mkResourceAccessRequest m r s p (bool_decide (u = "1")))
    | _ => None
    end
  |}.
  intros [m r sl p u]. cbn [toFields]. rewrite ofFields_toFields. simpl. rewrite toZ_ofZ. by destruct u.
Defined.

#[export] Instance workload_fields : Fields WorkloadContext.
Proof.
  refine {|
  toFields w := [[w.(Workload_InvocationID); w.(Workload_BindingID);
    w.(Workload_Scope).(Scope_TenantID); w.(Workload_Scope).(Scope_ApplicationID);
    w.(Workload_Scope).(Scope_EnvironmentID); w.(Workload_Scope).(Scope_OwnerResource);
    w.(Workload_Principal); w.(Workload_AuthorityKind); w.(Workload_AuthorityResource)]];
  ofFields l :=
    match l with
    | [[a; b; c; d; e; f; g; h; i]] => Some (mkWorkloadContext a b (mkScope c d e f) g h i)
    | _ => None
    end
  |}.
  by intros [? ? []].
Defined.

#[export] Instance payload_fields : Fields ResourcePayloadAccess.
Proof.
  refine {|
  toFields p := [[p.(Access_CustodyOwner)];
    (let m := p.(Access_Manifest) in
     [m.(Payload_Resource); m.(Payload_Slot); m.(Payload_SchemaID); m.(Payload_Representation);
      m.(Payload_ObjectDigest); m.(Payload_EncryptionSuite); m.(Payload_KeyBindingRef);
      m.(Payload_WrappedPayloadKey); m.(Payload_AADHash); m.(Payload_EncryptorSubject);
      m.(Payload_EncryptorKeyID); m.(Payload_State); ofZ m.(Payload_PayloadVersion);
      ofZ m.(Payload_ObjectSize); ofZ m.(Payload_KeyVersion); ofZ m.(Payload_ResourceRevision);
      ofZ m.(Payload_LifecycleGeneration); ofZ m.(Payload_CommittedAt)]);
    (let l := p.(Access_Lease) in
     [l.(Lease_Resource); l.(Lease_Slot); l.(Lease_Representation); l.(Lease_ObjectDigest);
      l.(Lease_DownloadURL); l.(Lease_DownloadMethod); l.(Lease_Audience);
      ofZ l.(Lease_PayloadVersion); ofZ l.(Lease_ObjectSize); ofZ l.(Lease_ExpiresAt);
      ofZ l.(Lease_ResourceRevision); ofZ l.(Lease_LifecycleGeneration)])];
  ofFields l :=
    match l with
    | [[o]; [a; b; c; d; e; f; g; h; i; j; k; q; z1; z2; z3; z4; z5; z6];
       [la; lb; lc; ld; le; lf; lg; y1; y2; y3; y4; y5]] =>
        z1 ← toZ z1; z2 ← toZ z2; z3 ← toZ z3; z4 ← toZ z4; z5 ← toZ z5; z6 ← toZ z6;
        y1 ← toZ y1; y2 ← toZ y2; y3 ← toZ y3; y4 ← toZ y4; y5 ← toZ y5;
        Some (mkPayloadAccess o (mkLease la lb lc ld le lf lg y1 y2 y3 y4 y5)
                (mkPayloadManifest a b c d e f g h i j k q z1 z2 z3 z4 z5 z6))
    | _ => None
    end
  |}.
  intros [o [] []]. simpl. by rewrite !toZ_ofZ.
Defined.

#[export] Instance validation_json : Json ValidationRequest := fieldsJson _.
#[export] Instance access_json : Json ResourceAccessRequest := fieldsJson _.
#[export] Instance workload_json : Json WorkloadContext := fieldsJson _.
#[export] Instance payload_json : Json ResourcePayloadAccess := fieldsJson _.
#[export] Instance validation_json_laws : JsonLaws ValidationRequest cleanValidation :=
  fieldsJson_laws _ _.
#[export] Instance access_json_laws : JsonLaws ResourceAccessRequest cleanAccess :=
  fieldsJson_laws _ _.

(** An identity object with a scope object inside. *)
Definition scopeText : list byte := bytes_of "scope".
#[export] Instance sampleObject : JsonObject := {
  Members raw :=
    if bool_decide (raw = scopeText) then Some ((fun n => (n, [])) <$> scopeNames)
    else if bool_decide (raw = []) then None
    else Some [("invocation_id", []); ("binding_id", []); ("scope", scopeText); ("principal", []);
               ("authority_kind", [])]
}.

Definition sampleParse (s : string) : option URL :=
  if bool_decide (s = "https://control/") then
    Some (mkURL "https" false "control" "control" "" "/" "" "" "" false "" s)
  else None.

Definition validatorOptions : ControlValidatorOptions :=
  mkValidatorOptions "https://control/" "runtime:1" (NewKeyFromSeed seed).
Definition validator1 : ControlValidator :=
  mkValidator "https://control" "runtime:1" (NewKeyFromSeed seed).

Lemma validator1_new : NewControlValidator sampleParse validatorOptions = Ret validator1.
Proof. vm_compute. reflexivity. Qed.

Definition original1 : SignedMessage := mkSignedMessage "control:1" "payload" "signature".

Lemma original1_clean : cleanMessage original1.
Proof. split_and!; reflexivity. Qed.

Lemma authorize_fresh_witness :
  ∃ body response, provesGrant validator1 original1 body
    ∧ (fun _ _ => Replied (mkReply 204 None)) (bindingURL validator1 "binding"
        "/authorizations/validate") body = Replied response.
Proof.
  assert (Ha : Authorize validator1 grant original1 (fun _ _ => Replied (mkReply 204 None)) = Ret tt)
    by (vm_compute; reflexivity).
  destruct (authorize_fresh sampleParse validatorOptions validator1 grant original1
    (fun _ _ => Replied (mkReply 204 None)) validator1_new original1_clean Ha)
    as [Hk|(_ & _ & body & response & Hp & Hr & _)]; [discriminate Hk|].
  exists body, response. split; [exact Hp|exact Hr].
Defined.

Definition context1 : Context := mkContext (Some (grant, original1)) false.

Lemma context1_clean a m : context1.(Context_Invocation) = Some (a, m) → cleanMessage m.
Proof. intros [= <- <-]. apply original1_clean. Qed.

Definition workload1 : WorkloadContext :=
  mkWorkloadContext "invocation:1" "binding" scope "user:1" "subject" "".

Definition answers {A} `{!Json A} (value : A) (_ : string) (_ : list byte) : exchange :=
  Replied (mkReply 200 (Marshal value)).

Lemma workload_bound_witness :
  currentWorkload validator1 context1 (answers workload1) = Ret workload1
  ∧ workload1.(Workload_Principal) = grant.(Auth_Principal).
Proof.
  assert (Hw : currentWorkload validator1 context1 (answers workload1) = Ret workload1)
    by (vm_compute; reflexivity).
  split; [exact Hw|].
  destruct (workload_bound sampleParse validatorOptions validator1 context1 (answers workload1)
    workload1 validator1_new context1_clean Hw)
    as (g & o & body & raw & members & Hc & _ & _ & _ & _ & _ & _ & _ & _ & _ & _ & Hp & _).
  injection Hc as <- _. exact Hp.
Defined.

Definition readGrant : Authorization :=
  mkAuthorization (Some (echo "1")) scope "invocation" "control" "runtime" "binding" digestA digestA
    (Digest (bytes_of "[1]")) "invocation:1" "" "user:1" ["doc:1"] ["payload.read"; "custody.use"]
    (bytes_of "[1]") 1300 1000 1 1.

Definition context2 : Context := mkContext (Some (readGrant, original1)) false.

Lemma context2_clean a m : context2.(Context_Invocation) = Some (a, m) → cleanMessage m.
Proof. intros [= <- <-]. apply original1_clean. Qed.

Definition manifest1 : ResourcePayloadManifest :=
  mkPayloadManifest "doc:1" "body" "schema" "plain" digestA "" "" "" "" "" "" "committed" 3 10 0 1 1 0.
Definition access1 : ResourcePayloadAccess :=
  mkPayloadAccess "" (mkLease "doc:1" "body" "plain" digestA "https://store" "GET" "function:binding"
    3 10 1200000000 1 1) manifest1.

Lemma access_bound_witness :
  accessPayload validator1 context2 "doc:1" "body" 3 false 1100000000 (answers access1) = Ret access1
  ∧ 1200000000 <= readGrant.(Auth_ExpiresAt) * 1000000.
Proof.
  assert (Ha : accessPayload validator1 context2 "doc:1" "body" 3 false 1100000000 (answers access1)
    = Ret access1) by (vm_compute; reflexivity).
  split; [exact Ha|].
  destruct (access_bound sampleParse validatorOptions validator1 context2 "doc:1" "body" 3 false
    1100000000 (answers access1) access1 validator1_new ltac:(unfold is_i64; lia) context2_clean Ha)
    as (g & o & body & proof & response & Hc & _ & _ & _ & _ & _ & _ & _ & _ & _ & _ & _ & _ & _ & He).
  injection Hc as <- _. apply He. simpl. lia.
Defined.

End ControlSamples.
