(* ===== verification/Custody.v ===== *)
(** Resource-key custody: [bridge/custody.go].

    The key of a cipher lives in a shared cell that every copy of the cipher points to;
    the cells form a heap that the operations thread through. AES-GCM and JSON are
    interfaces. *)
From S2P Require Import Prelude GoStd Sha256 Interfaces Protocol ExecutionStore Runtime Control.

(** * AES-256-GCM *)

(** [Seal] and [Open] of the AEAD of a 32-byte key, with a 12-byte nonce. *)
Class AEAD : Type := {
  Seal : list byte → list byte → list byte → list byte → list byte;
  Open : list byte → list byte → list byte → list byte → option (list byte);
}.

(** [Open] accepts exactly the outputs of [Seal], which are 16 bytes longer than the
    plaintext. *)
Class AEADLaws `{AEAD} : Prop := {
  Open_Seal key nonce plaintext aad :
    len key = 32 → len nonce = 12 →
    Open key nonce (Seal key nonce plaintext aad) aad = Some plaintext;
  Seal_Open key nonce ciphertext aad plaintext :
    len key = 32 → len nonce = 12 →
    Open key nonce ciphertext aad = Some plaintext → ciphertext = Seal key nonce plaintext aad;
  Seal_length key nonce plaintext aad :
    len key = 32 → len nonce = 12 → len (Seal key nonce plaintext aad) = len plaintext + 16;
}.

(** [json.Encoder] with HTML escaping off: the bytes written, which end in a line feed. *)
Class JsonEncoder (A : Type) : Type := { Encode : A → option (list byte) }.

(** * Data *)
Definition ResourceValueFormat : string := "lotor.resource-value.v1".
Definition NonceSize : Z := 12.

Record ResourceKeyBinding : Type := mkKeyBinding {
  Binding_Scope : Scope;
  Binding_ClientID : string;
  Binding_Resource : string;
  Binding_Slot : string;
  Binding_KeyResource : string;
  Binding_CustodyOwner : string;
  Binding_KeyVersion : Z;
  Binding_ResourceRevision : Z;
  Binding_LifecycleGeneration : Z;
  Binding_PayloadVersion : Z;
  Binding_ObjectDigest : string;
  Binding_InvocationID : string;
  Binding_BindingID : string;
  Binding_BindingRevision : Z;
  Binding_Principal : string;
  Binding_PolicyDigest : string;
  Binding_ExpiresAt : Z
}.

Record ResourceValueContext : Type := mkValueContext {
  ValueContext_Binding : ResourceKeyBinding;
  ValueContext_Path : string
}.

Record ResourceValue : Type := mkResourceValue {
  Value_Format : string;
  Value_Context : ResourceValueContext;
  Value_Nonce : string;
  Value_Ciphertext : string
}.

(** The structs whose JSON is the additional data of the two formats. *)
Record ValueAAD : Type := mkValueAAD {
  ValueAAD_Format : string;
  ValueAAD_Context : ResourceValueContext
}.

Record PayloadAAD : Type := mkPayloadAAD {
  PayloadAAD_ClientID : string;
  PayloadAAD_Resource : string;
  PayloadAAD_Slot : string;
  PayloadAAD_SchemaID : string;
  PayloadAAD_ResourceRevision : Z;
  PayloadAAD_LifecycleGeneration : Z
}.

#[global] Instance ResourceKeyBinding_eq_dec : EqDecision ResourceKeyBinding.
Proof. solve_decision. Defined.
#[global] Instance ResourceValueContext_eq_dec : EqDecision ResourceValueContext.
Proof. solve_decision. Defined.
#[global] Instance ResourceValue_eq_dec : EqDecision ResourceValue.
Proof. solve_decision. Defined.

(** [resourceCipherState] cells by address; a cipher points to one, or is zero. *)
Abbreviation Heap := (gmap nat (list byte)).

Record ResourceCipher : Type := mkCipher {
  Cipher_state : option nat;
  Cipher_binding : ResourceKeyBinding
}.

(** [String] and [GoString]. *)
Definition cipherString (c : ResourceCipher) : string := "ResourceCipher([redacted])".

(** * Bindings *)
Definition maxSafeInteger : Z := Z.shiftl 1 53 - 1.

(** [now] is [time.Now().Unix()]. *)
Definition matchesInvocation (binding : ResourceKeyBinding) (ctx : Context) (now : Z) : bool :=
  match InvocationFromContext ctx with
  | None => false
  | Some (grant, _) =>
      negb ctx.(Context_Done) && bool_decide (grant.(Auth_Kind) = "invocation")
      && bool_decide (grant.(Auth_Scope) = binding.(Binding_Scope))
      && bool_decide (grant.(Auth_ID) = binding.(Binding_InvocationID))
      && bool_decide (grant.(Auth_BindingID) = binding.(Binding_BindingID))
      && (grant.(Auth_BindingRevision) =? binding.(Binding_BindingRevision))
      && bool_decide (grant.(Auth_Principal) = binding.(Binding_Principal))
      && bool_decide (grant.(Auth_PolicyDigest) = binding.(Binding_PolicyDigest))
      && (grant.(Auth_ExpiresAt) =? binding.(Binding_ExpiresAt))
      && (now <? grant.(Auth_ExpiresAt))
      && bool_decide (binding.(Binding_Resource) ∈ grant.(Auth_Resources))
      && bool_decide ("payload.read" ∈ grant.(Auth_Capabilities))
      && bool_decide ("custody.use" ∈ grant.(Auth_Capabilities))
  end.

Definition validResourceKeyBinding (b : ResourceKeyBinding) : bool :=
  validScope b.(Binding_Scope) && identifier b.(Binding_ClientID) 256
  && identifier b.(Binding_Resource) 256 && identifier b.(Binding_Slot) 128
  && identifier b.(Binding_KeyResource) 256 && isDigest b.(Binding_CustodyOwner)
  && identifier b.(Binding_InvocationID) 256 && identifier b.(Binding_BindingID) 256
  && identifier b.(Binding_Principal) 256 && (0 <? b.(Binding_KeyVersion))
  && (0 <? b.(Binding_ResourceRevision)) && (0 <? b.(Binding_LifecycleGeneration))
  && (0 <? b.(Binding_PayloadVersion)) && (0 <? b.(Binding_BindingRevision))
  && isDigest b.(Binding_ObjectDigest)
  && (bool_decide (b.(Binding_PolicyDigest) = "") || isDigest b.(Binding_PolicyDigest))
  && (b.(Binding_KeyVersion) <=? maxSafeInteger) && (b.(Binding_ResourceRevision) <=? maxSafeInteger)
  && (b.(Binding_LifecycleGeneration) <=? maxSafeInteger)
  && (b.(Binding_PayloadVersion) <=? maxSafeInteger)
  && (b.(Binding_BindingRevision) <=? maxSafeInteger)
  && (0 <? b.(Binding_ExpiresAt)) && (b.(Binding_ExpiresAt) <=? maxSafeInteger).

Definition validResourceValueContext (context : ResourceValueContext) : bool :=
  validResourceKeyBinding context.(ValueContext_Binding)
  && isDigest context.(ValueContext_Binding).(Binding_PolicyDigest)
  && (0 <? slen context.(ValueContext_Path)) && (slen context.(ValueContext_Path) <=? 1024)
  && ValidString context.(ValueContext_Path)
  && negb (ContainsAny context.(ValueContext_Path) [x00; x0d; x0a]).

(** * Base64 *)
Definition urlAlphabet (b : byte) : bool :=
  let z := byteZ b in
  (65 <=? z) && (z <=? 90) || (97 <=? z) && (z <=? 122) || (48 <=? z) && (z <=? 57)
  || (z =? 45) || (z =? 95).

Definition decodeResourceBase64 (value : string) : outcome bridge_error (list byte) :=
  if negb (forallb urlAlphabet (bytes_of value)) then Throw ErrInvalid
  else match rawURLDecode true (bytes_of value) with
  | Some decoded => Ret decoded
  | None => Throw ErrInvalid
  end.

Section Custody.
Context `{!Ed25519} `{!AEAD} `{!JsonEncoder ValueAAD} `{!Json PayloadAAD} `{!Json (list string)}
  `{!Json ValidationRequest} `{!Json ResourceAccessRequest} `{!Json SignedMessage}
  `{!Json WorkloadContext} `{!Json ResourcePayloadAccess} `{!JsonObject}.

Definition CustodyOwnerFingerprint (subject keyID : string) (publicKey : list byte) : string :=
  if negb (identifier subject 256) || negb (identifier keyID 256) || negb (len publicKey =? 32)
  then ""
  else
    let wire := default [] (Marshal ["lotor-resource-custody-owner-v1"; subject; keyID;
                                     string_of (rawURLEncode publicKey)]) in
    Digest wire.

(** [bytes.TrimSuffix] of a line feed. *)
Definition trimNewline (b : list byte) : list byte :=
  match last b with
  | Some c => if Byte.eqb c x0a then take (length b - 1) b else b
  | None => b
  end.

Definition resourceValueAAD (context : ResourceValueContext) : outcome bridge_error (list byte) :=
  if negb (validResourceValueContext context) then Throw ErrInvalid
  else match Encode (mkValueAAD ResourceValueFormat context) with
  | None => Throw ErrInvalid
  | Some out => Ret (trimNewline out)
  end.

(** [resourceAEAD]: the AEAD of a key is the key; a 32-byte key never fails. *)
Definition resourceAEAD (key : list byte) : outcome bridge_error (list byte) :=
  if negb (len key =? 32) then Throw ErrInvalid else Ret key.

(** * The cipher *)
Definition stateKey (h : Heap) (c : ResourceCipher) : option (list byte) :=
  l ← c.(Cipher_state); Some (default [] (h !! l)).

(** [WithResourceKey]: the cell is allocated for the call and cleared when the callback
    is left in any way. *)
Definition WithResourceKey (ctx : Context) (now : Z) (binding : ResourceKeyBinding)
    (key : list byte)
    (use : option (ResourceCipher → Heap → outcome bridge_error unit * Heap)) (h : Heap)
    : outcome bridge_error unit * Heap :=
  match use with
  | None => (Throw ErrUnauthorized, h)
  | Some use =>
      if negb (len key =? 32) || negb (validResourceKeyBinding binding)
         || negb (matchesInvocation binding ctx now)
      then (Throw ErrUnauthorized, h)
      else
        let state := fresh (dom h) in
        let '(result, h) := use (mkCipher (Some state) binding) (<[state := key]> h) in
        (result, <[state := []]> h)
  end.

(** [random] is what [rand.Read] yields. *)
Definition EncryptValue (c : option ResourceCipher) (ctx : Context) (now : Z) (path : string)
    (plaintext : list byte) (random : option (list byte)) (h : Heap)
    : outcome bridge_error ResourceValue :=
  match c with
  | None => Throw ErrUnauthorized
  | Some c =>
      match stateKey h c with
      | None => Throw ErrUnauthorized
      | Some key =>
          if negb (len key =? 32) || negb (matchesInvocation c.(Cipher_binding) ctx now)
          then Throw ErrUnauthorized
          else
            let context := mkValueContext c.(Cipher_binding) path in
            match resourceValueAAD context with
            | Ret aad =>
                if MaximumInputBytes <? len plaintext then Throw ErrInvalid
                else
                  aead ← resourceAEAD key;
                  match random with
                  | None => Throw ErrUnavailable
                  | Some nonce =>
                      Ret (mkResourceValue ResourceValueFormat context
                             (string_of (rawURLEncode nonce))
                             (string_of (rawURLEncode (Seal aead nonce plaintext aad))))
                  end
            | _ => Throw ErrInvalid
            end
      end
  end.

Definition DecryptResourceValue (key : list byte) (value : ResourceValue)
    (expected : ResourceValueContext) : outcome bridge_error (list byte) :=
  if negb (bool_decide (value.(Value_Format) = ResourceValueFormat))
     || negb (bool_decide (value.(Value_Context) = expected))
     || negb (slen value.(Value_Nonce) =? EncodedLen 12)
     || (EncodedLen (MaximumInputBytes + 16) <? slen value.(Value_Ciphertext))
  then Throw ErrInvalid
  else match resourceValueAAD expected with
  | Ret aad =>
      match resourceAEAD key with
      | Ret aead =>
          match decodeResourceBase64 value.(Value_Nonce) with
          | Ret nonce =>
              if negb (len nonce =? NonceSize) then Throw ErrInvalid
              else match decodeResourceBase64 value.(Value_Ciphertext) with
              | Ret ciphertext =>
                  match Open aead nonce ciphertext aad with
                  | Some plaintext => Ret plaintext
                  | None => Throw ErrInvalid
                  end
              | _ => Throw ErrInvalid
              end
          | _ => Throw ErrInvalid
          end
      | _ => Throw ErrInvalid
      end
  | _ => Throw ErrInvalid
  end.

(** * OpenPayload *)

(** The comparison of manifest, binding and object. *)
Definition manifestMatches (b : ResourceKeyBinding) (manifest : ResourcePayloadManifest)
    (ciphertext : list byte) : bool :=
  (slen manifest.(Payload_WrappedPayloadKey) =? EncodedLen 61)
  && bool_decide (manifest.(Payload_Resource) = b.(Binding_Resource))
  && bool_decide (manifest.(Payload_Slot) = b.(Binding_Slot))
  && bool_decide (manifest.(Payload_KeyBindingRef) = b.(Binding_KeyResource))
  && (manifest.(Payload_KeyVersion) =? b.(Binding_KeyVersion))
  && (manifest.(Payload_ResourceRevision) =? b.(Binding_ResourceRevision))
  && (manifest.(Payload_LifecycleGeneration) =? b.(Binding_LifecycleGeneration))
  && (manifest.(Payload_PayloadVersion) =? b.(Binding_PayloadVersion))
  && bool_decide (manifest.(Payload_ObjectDigest) = b.(Binding_ObjectDigest))
  && bool_decide (manifest.(Payload_State) = "committed")
  && bool_decide (manifest.(Payload_Representation) = "encrypted-envelope-v1")
  && bool_decide (manifest.(Payload_EncryptionSuite) = "AES-256-GCM")
  && (manifest.(Payload_ObjectSize) =? len ciphertext)
  && negb (len ciphertext <? 29) && negb (MaximumInputBytes <? len ciphertext)
  && bool_decide (head ciphertext = Some x01)
  && bool_decide (Digest ciphertext = b.(Binding_ObjectDigest)).

Definition payloadHash (b : ResourceKeyBinding) (manifest : ResourcePayloadManifest) : list byte :=
  Sum256 (default [] (Marshal (mkPayloadAAD b.(Binding_ClientID) b.(Binding_Resource)
    manifest.(Payload_Slot) manifest.(Payload_SchemaID) b.(Binding_ResourceRevision)
    b.(Binding_LifecycleGeneration)))).

(** [b[lo:hi]] of a slice that is long enough, and a panic otherwise. *)
Definition slice (b : list byte) (lo hi : nat) : outcome bridge_error (list byte) :=
  if (Nat.leb lo hi && Nat.leb hi (length b))%bool then Ret (take (hi - lo) (drop lo b)) else Panic.

(** [aead.Open(nil, b[1:13], b[13:], hash)]. *)
Definition openEnvelope (aead b hash : list byte) : outcome bridge_error (option (list byte)) :=
  nonce ← slice b 1 13; rest ← slice b 13 (length b); Ret (Open aead nonce rest hash).

Definition OpenPayload (c : option ResourceCipher) (ctx : Context) (now : Z)
    (manifest : ResourcePayloadManifest) (ciphertext : list byte) (h : Heap)
    : outcome bridge_error (list byte) :=
  match c with
  | None => Throw ErrUnauthorized
  | Some c =>
      match stateKey h c with
      | None => Throw ErrUnauthorized
      | Some key =>
          let b := c.(Cipher_binding) in
          if negb (len key =? 32) || negb (matchesInvocation b ctx now)
             || negb (isDigest b.(Binding_PolicyDigest))
          then Throw ErrUnauthorized
          else if negb (manifestMatches b manifest ciphertext) then Throw ErrInvalid
          else
            let hash := payloadHash b manifest in
            if negb (identifier manifest.(Payload_Slot) 128)
               || negb (identifier manifest.(Payload_SchemaID) 256)
               || negb (bool_decide (manifest.(Payload_AADHash) = string_of (rawURLEncode hash)))
            then Throw ErrInvalid
            else match decodeResourceBase64 manifest.(Payload_WrappedPayloadKey) with
            | Ret wrapped =>
                if negb (len wrapped =? 61) || negb (bool_decide (head wrapped = Some x01))
                then Throw ErrInvalid
                else match resourceAEAD key with
                | Ret aead =>
                    opened ← openEnvelope aead wrapped hash;
                    match opened with
                    | None => Throw ErrInvalid
                    | Some dataKey =>
                        if negb (len dataKey =? 32) then Throw ErrInvalid
                        else match resourceAEAD dataKey with
                        | Ret aead =>
                            opened ← openEnvelope aead ciphertext hash;
                            match opened with
                            | None => Throw ErrInvalid
                            | Some plaintext => Ret plaintext
                            end
                        | _ => Throw ErrInvalid
                        end
                    end
                | _ => Throw ErrInvalid
                end
            | _ => Throw ErrInvalid
            end
      end
  end.

(** * WithPayloadCustody *)

(** [PayloadCustodian.UseResourceKey]: receives a binding and a callback. *)
Definition PayloadCustodian : Type :=
  ResourceKeyBinding → (option ResourceCipher → Heap → outcome bridge_error unit * Heap) →
  Heap → outcome bridge_error unit * Heap.

Definition custodyBinding (identity : WorkloadContext) (clientID resource slot : string)
    (access : ResourcePayloadAccess) (grant : Authorization) : ResourceKeyBinding :=
  let manifest := access.(Access_Manifest) in
  mkKeyBinding identity.(Workload_Scope) clientID resource slot manifest.(Payload_KeyBindingRef)
    access.(Access_CustodyOwner) manifest.(Payload_KeyVersion) manifest.(Payload_ResourceRevision)
    manifest.(Payload_LifecycleGeneration) manifest.(Payload_PayloadVersion)
    manifest.(Payload_ObjectDigest) grant.(Auth_ID) grant.(Auth_BindingID)
    grant.(Auth_BindingRevision) identity.(Workload_Principal) grant.(Auth_PolicyDigest)
    grant.(Auth_ExpiresAt).

(** The callback given to the custodian: it refuses a cipher for another binding. *)
Definition guardedUse (binding : ResourceKeyBinding) (manifest : ResourcePayloadManifest)
    (use : ResourceCipher → ResourcePayloadManifest → Heap → outcome bridge_error unit * Heap)
    (cipher : option ResourceCipher) (h : Heap) : outcome bridge_error unit * Heap :=
  match cipher with
  | None => (Throw ErrUnauthorized, h)
  | Some c =>
      if negb (bool_decide (c.(Cipher_binding) = binding)) then (Throw ErrUnauthorized, h)
      else use c manifest h
  end.

(** [micro] and [now] are the clock in microseconds at the access and in seconds at the
    final check. *)
Definition WithPayloadCustody (client : ControlValidator) (ctx : Context)
    (clientID resource slot : string) (version micro now : Z) (provider : option PayloadCustodian)
    (use : option (ResourceCipher → ResourcePayloadManifest → Heap → outcome bridge_error unit * Heap))
    (post : string → list byte → exchange) (h : Heap) : outcome bridge_error unit * Heap :=
  match provider, use with
  | Some provider, Some use =>
      if negb (identifier clientID 256) then (Throw ErrInvalid, h)
      else match currentWorkload client ctx post with
      | Ret identity =>
          match accessPayload client ctx resource slot version true micro post with
          | Ret access =>
              let manifest := access.(Access_Manifest) in
              match InvocationFromContext ctx with
              | None => (Throw ErrUnauthorized, h)
              | Some (grant, _) =>
                  if negb (bool_decide (manifest.(Payload_State) = "committed"))
                     || negb (bool_decide (manifest.(Payload_Representation) = "encrypted-envelope-v1"))
                     || negb (bool_decide (manifest.(Payload_EncryptionSuite) = "AES-256-GCM"))
                  then (Throw ErrUnauthorized, h)
                  else
                    let binding := custodyBinding identity clientID resource slot access grant in
                    if negb (validResourceKeyBinding binding)
                       || negb (matchesInvocation binding ctx now)
                    then (Throw ErrUnauthorized, h)
                    else provider binding (guardedUse binding manifest use) h
              end
          | Throw e => (Throw e, h)
          | Panic => (Panic, h)
          | Diverge => (Diverge, h)
          end
      | Throw e => (Throw e, h)
      | Panic => (Panic, h)
      | Diverge => (Diverge, h)
      end
  | _, _ => (Throw ErrInvalid, h)
  end.

End Custody.

(** * Lemmas *)
Lemma urlAlphabet_enc6 b : urlAlphabet b = match dec6 b with Some _ => true | None => false end.
Proof.
  apply Bool.eqb_prop. revert b. apply byte_forall. vm_compute. reflexivity.
Qed.

Lemma EncodedLen_lt a b : 0 <= a → a < b → EncodedLen a < EncodedLen b.
Proof. unfold EncodedLen. intros Ha Hb. Z.to_euclidean_division_equations. lia. Qed.

(** The decoder accepts exactly the encoder's output. *)
Lemma decodeResourceBase64_iff value b :
  decodeResourceBase64 value = Ret b ↔ value = string_of (rawURLEncode b).
Proof.
  unfold decodeResourceBase64. split.
  - destruct (forallb urlAlphabet (bytes_of value)) eqn:Ha; simpl; [|done].
    destruct (rawURLDecode true (bytes_of value)) as [d|] eqn:Hd; [|done]. intros [= ->].
    apply rawURLDecode_strict in Hd; [by rewrite <- Hd, string_of_bytes_of|].
    apply Forall_forall. intros c Hc. rewrite forallb_forall in Ha.
    apply list_elem_of_In, Ha in Hc. rewrite urlAlphabet_enc6 in Hc.
    destruct (dec6 c) as [z|] eqn:Hz; [|done]. by apply enc6_dec6 in Hz as (_ & _ & ?).
  - intros ->. rewrite bytes_of_string_of, rawURL_roundtrip.
    replace (forallb urlAlphabet (rawURLEncode b)) with true; [done|]. symmetry.
    apply forallb_forall. intros c Hc%list_elem_of_In. unfold rawURLEncode in Hc.
    apply list_elem_of_fmap in Hc as (z & -> & Hz). pose proof (sextets_range b) as Hr.
    rewrite Forall_forall in Hr. apply Hr in Hz. by rewrite urlAlphabet_enc6, dec6_enc6.
Qed.

Lemma resourceAEAD_Ret key aead : resourceAEAD key = Ret aead ↔ aead = key ∧ len key = 32.
Proof.
  unfold resourceAEAD. destruct (Z.eqb_spec (len key) 32); simpl; [|naive_solver].
  split; [by intros [= <-]|]. by intros [-> _].
Qed.

Section CustodyLemmas.
Context `{!AEAD} `{!AEADLaws} `{!JsonEncoder ValueAAD} `{!Json PayloadAAD}.

Lemma DecryptResourceValue_iff key value expected plaintext :
  DecryptResourceValue key value expected = Ret plaintext ↔
  len key = 32 ∧ len plaintext <= MaximumInputBytes
  ∧ ∃ nonce aad, len nonce = 12 ∧ resourceValueAAD expected = Ret aad
    ∧ value = mkResourceValue ResourceValueFormat expected (string_of (rawURLEncode nonce))
                (string_of (rawURLEncode (Seal key nonce plaintext aad))).
Proof.
  assert (Hmax : 0 <= MaximumInputBytes) by (vm_compute; discriminate).
  unfold DecryptResourceValue. split.
  - destruct (_ || (EncodedLen _ <? _)) eqn:Hbad; [done|]. breflect.
    destruct (resourceValueAAD expected) as [aad|e| |] eqn:Haad; try done.
    destruct (resourceAEAD key) as [aead|e| |] eqn:Hkey; try done.
    apply resourceAEAD_Ret in Hkey as [-> Hkey].
    destruct (decodeResourceBase64 (Value_Nonce value)) as [nonce|e| |] eqn:Hn; try done.
    destruct (Z.eqb_spec (len nonce) NonceSize) as [Hnl|]; simpl; [|done].
    destruct (decodeResourceBase64 (Value_Ciphertext value)) as [ct|e| |] eqn:Hc; try done.
    destruct (Open key nonce ct aad) as [p|] eqn:Ho; [|done]. intros [= ->].
    apply decodeResourceBase64_iff in Hn, Hc. apply Seal_Open in Ho; [|done..].
    split; [done|]. split.
    + destruct (Z.le_gt_cases (len plaintext) MaximumInputBytes) as [|Hlong]; [done|].
      assert (len ct = len plaintext + 16) by (subst ct; by apply Seal_length).
      assert (slen value.(Value_Ciphertext) = EncodedLen (len ct))
        by (rewrite Hc; unfold slen; by rewrite bytes_of_string_of, length_rawURLEncode).
      pose proof (EncodedLen_lt (MaximumInputBytes + 16) (len ct) ltac:(lia) ltac:(lia)). lia.
    + exists nonce, aad. split; [done|]. split; [done|]. destruct value. simpl in *. congruence.
  - intros (Hkey & Hp & nonce & aad & Hnl & Haad & ->).
    cbn [Value_Format Value_Context Value_Nonce Value_Ciphertext].
    rewrite (bool_decide_eq_true_2 (_ = ResourceValueFormat)), (bool_decide_eq_true_2 (expected = _))
      by reflexivity. unfold slen. rewrite !bytes_of_string_of, !length_rawURLEncode, Hnl.
    rewrite (Seal_length _ _ _ _ Hkey Hnl), Z.eqb_refl. cbn [negb orb].
    rewrite (proj2 (Z.ltb_ge _ _)) by (apply EncodedLen_mono; unfold len in *; lia).
    rewrite Haad, (proj2 (resourceAEAD_Ret key key)) by (split; [reflexivity|exact Hkey]).
    rewrite (proj2 (decodeResourceBase64_iff _ nonce) eq_refl), Hnl. cbn [negb Z.eqb NonceSize].
    rewrite (proj2 (decodeResourceBase64_iff _ (Seal key nonce plaintext aad)) eq_refl).
    rewrite (Open_Seal _ _ _ _ Hkey Hnl). reflexivity.
Qed.

Lemma EncryptValue_Ret c ctx now path plaintext random h value :
  EncryptValue (Some c) ctx now path plaintext random h = Ret value →
  ∃ key nonce aad, stateKey h c = Some key ∧ len key = 32 ∧ random = Some nonce
  ∧ len plaintext <= MaximumInputBytes ∧ matchesInvocation c.(Cipher_binding) ctx now = true
  ∧ resourceValueAAD (mkValueContext c.(Cipher_binding) path) = Ret aad
  ∧ value = mkResourceValue ResourceValueFormat (mkValueContext c.(Cipher_binding) path)
      (string_of (rawURLEncode nonce)) (string_of (rawURLEncode (Seal key nonce plaintext aad))).
Proof.
  unfold EncryptValue. destruct (stateKey h c) as [key|]; [|done].
  destruct (_ || _) eqn:Hbad; [done|]. breflect.
  destruct (resourceValueAAD _) as [aad|e| |] eqn:Haad; try done.
  destruct (Z.ltb_spec MaximumInputBytes (len plaintext)); [done|].
  intros (aead & Hkey & Hv)%bind_Ret_inv. apply resourceAEAD_Ret in Hkey as [-> Hkey].
  destruct random as [nonce|]; [|done]. injection Hv as <-. by exists key, nonce, aad.
Qed.

Lemma slice_Ret b lo hi : (lo <= hi <= length b)%nat → slice b lo hi = Ret (take (hi - lo) (drop lo b)).
Proof.
  intros [H1 H2]. unfold slice. by rewrite (proj2 (Nat.leb_le lo hi) H1), (proj2 (Nat.leb_le hi _) H2).
Qed.

Lemma openEnvelope_Ret aead b hash :
  13 <= len b → openEnvelope aead b hash = Ret (Open aead (take 12 (drop 1 b)) (drop 13 b) hash).
Proof.
  intros Hl. unfold openEnvelope, len in *. rewrite !slice_Ret by lia. obind.
  by rewrite (take_ge (drop 13 b)) by (rewrite length_drop; lia).
Qed.

(** The envelope format: a version byte, the nonce, the sealed text. *)
Lemma openEnvelope_Some aead b hash p :
  len aead = 32 → 13 <= len b → head b = Some x01 →
  openEnvelope aead b hash = Ret (Some p) ↔
  ∃ nonce, len nonce = 12 ∧ b = x01 :: nonce ++ Seal aead nonce p hash.
Proof.
  intros Ha Hl Hh. rewrite openEnvelope_Ret by done. destruct b as [|c b]; [done|].
  injection Hh as ->. simpl drop. rewrite drop_0. unfold len in Hl. simpl length in Hl. split.
  - intros [= Ho]. exists (take 12 b).
    assert (Hn : len (take 12 b) = 12) by (unfold len; rewrite length_take; lia).
    split; [done|]. apply Seal_Open in Ho; [|done..]. by rewrite <- Ho, take_drop.
  - intros (nonce & Hn & [= ->]). assert (H12 : 12%nat = length nonce) by (unfold len in Hn; lia).
    rewrite (take_app_length' _ _ _ H12), (drop_app_length' _ _ _ H12). by rewrite Open_Seal.
Qed.

Lemma manifestMatches_object b manifest ciphertext :
  manifestMatches b manifest ciphertext = true → 13 <= len ciphertext ∧ head ciphertext = Some x01.
Proof. unfold manifestMatches. intros Hm. breflect. split; [lia|done]. Qed.

Lemma openEnvelope_total aead b hash :
  13 <= len b → ∃ o, openEnvelope aead b hash = Ret o.
Proof. intros Hl. eexists. by apply openEnvelope_Ret. Qed.

Lemma OpenPayload_no_panic c ctx now manifest ciphertext h :
  panics (OpenPayload c ctx now manifest ciphertext h) = false.
Proof.
  unfold OpenPayload. destruct c as [c|]; [|done]. destruct (stateKey h c) as [key|]; [|done].
  destruct (_ || _); [done|]. destruct (manifestMatches _ _ _) eqn:Hm; [|done]. simpl.
  apply manifestMatches_object in Hm as [Hl _].
  destruct (_ || _); [done|]. destruct (decodeResourceBase64 _) as [wrapped|e| |]; try done.
  destruct (_ || _) eqn:Hw; [done|]. breflect.
  destruct (resourceAEAD key) as [aead|e| |]; try done.
  destruct (openEnvelope_total aead wrapped (payloadHash c.(Cipher_binding) manifest)) as [o ->];
    [lia|]. obind.
  destruct o as [dataKey|]; [|done]. destruct (negb _); [done|].
  destruct (resourceAEAD dataKey) as [aead'|e| |]; try done.
  destruct (openEnvelope_total aead' ciphertext (payloadHash c.(Cipher_binding) manifest) Hl)
    as [[p|] ->]; done.
Qed.

(** * Theorems *)

(** C25: decryption accepts exactly the values that encryption makes for the expected
    context: the canonical text of a 12-byte nonce and of the sealed plaintext, nothing
    else. In particular two different values never decrypt under the same nonce, and a
    value made for another binding or path is refused. *)
Theorem decrypt_exact key value expected plaintext :
  DecryptResourceValue key value expected = Ret plaintext ↔
  len key = 32 ∧ len plaintext <= MaximumInputBytes
  ∧ ∃ nonce aad, len nonce = 12 ∧ resourceValueAAD expected = Ret aad
    ∧ value = mkResourceValue ResourceValueFormat expected (string_of (rawURLEncode nonce))
                (string_of (rawURLEncode (Seal key nonce plaintext aad))).
Proof. apply DecryptResourceValue_iff. Qed.

(** What a cipher encrypts during a live invocation, the holder of the key decrypts for
    the cipher's own binding and path, and for no other context. *)
Theorem resource_value_roundtrip c ctx now path plaintext nonce h value :
  len nonce = 12 → EncryptValue (Some c) ctx now path plaintext (Some nonce) h = Ret value →
  matchesInvocation c.(Cipher_binding) ctx now = true
  ∧ ∃ key, stateKey h c = Some key
    ∧ DecryptResourceValue key value (mkValueContext c.(Cipher_binding) path) = Ret plaintext
    ∧ ∀ other expected, expected ≠ mkValueContext c.(Cipher_binding) path →
        DecryptResourceValue other value expected = Throw ErrInvalid.
Proof.
  intros Hn (key & n & aad & Hs & Hk & [= <-] & Hp & Hm & Haad & ->)%EncryptValue_Ret.
  split; [done|]. exists key. split; [done|]. split.
  - apply DecryptResourceValue_iff. split; [done|]. split; [done|]. by exists nonce, aad.
  - intros other expected Hne. unfold DecryptResourceValue.
    cbn [Value_Format Value_Context Value_Nonce Value_Ciphertext].
    rewrite (bool_decide_eq_false_2 (_ = expected)) by congruence. by rewrite orb_true_r.
Qed.

(** An encrypted payload opens exactly when it is an envelope for the manifest: the
    wrapped key is the canonical text of the data key sealed under the resource key, the
    object is the plaintext sealed under the data key, both bound to the hash of client,
    resource, slot, schema, revision and generation, and the object has the size and
    digest that manifest and binding name. Opening never panics. *)
Theorem open_payload_exact c ctx now manifest ciphertext h plaintext :
  let b := c.(Cipher_binding) in
  let hash := payloadHash b manifest in
  panics (OpenPayload (Some c) ctx now manifest ciphertext h) = false
  ∧ (OpenPayload (Some c) ctx now manifest ciphertext h = Ret plaintext ↔
     ∃ key dataKey nonce1 nonce2, stateKey h c = Some key ∧ len key = 32
     ∧ matchesInvocation b ctx now = true ∧ isDigest b.(Binding_PolicyDigest) = true
     ∧ manifestMatches b manifest ciphertext = true
     ∧ identifier manifest.(Payload_Slot) 128 = true
     ∧ identifier manifest.(Payload_SchemaID) 256 = true
     ∧ manifest.(Payload_AADHash) = string_of (rawURLEncode hash)
     ∧ len dataKey = 32 ∧ len nonce1 = 12 ∧ len nonce2 = 12
     ∧ manifest.(Payload_WrappedPayloadKey)
       = string_of (rawURLEncode (x01 :: nonce1 ++ Seal key nonce1 dataKey hash))
     ∧ ciphertext = x01 :: nonce2 ++ Seal dataKey nonce2 plaintext hash).
Proof.
  intros b hash. split; [apply OpenPayload_no_panic|]. split.
  - intros Ho. unfold OpenPayload in Ho. destruct (stateKey h c) as [key|]; [|done].
    fold b hash in Ho. destruct (_ || _) eqn:Hg in Ho; [done|]. breflect.
    destruct (manifestMatches b manifest ciphertext) eqn:Hm; [|done]. simpl in Ho.
    destruct (_ || _) eqn:Hi in Ho; [done|]. breflect.
    destruct (manifestMatches_object _ _ _ Hm) as [Hcl Hch].
    destruct (decodeResourceBase64 _) as [wrapped|e| |] eqn:Hw; try done.
    destruct (_ || _) eqn:Hwl in Ho; [done|]. breflect. apply decodeResourceBase64_iff in Hw.
    rewrite (proj2 (resourceAEAD_Ret key key)) in Ho by done.
    apply bind_Ret_inv in Ho as ([dataKey|] & Ho1 & Ho); [|done].
    destruct (Z.eqb_spec (len dataKey) 32) as [Hdl|]; simpl in Ho; [|done].
    rewrite (proj2 (resourceAEAD_Ret dataKey dataKey)) in Ho by done.
    apply bind_Ret_inv in Ho as ([p|] & Ho2 & [= ->]).
    apply openEnvelope_Some in Ho1 as (n1 & Hn1 & ->); [|done|lia|done].
    apply openEnvelope_Some in Ho2 as (n2 & Hn2 & ->); [|done|lia|done].
    by exists key, dataKey, n1, n2.
  - intros (key & dataKey & n1 & n2 & Hs & Hk & Hinv & Hpd & Hm & Hsl & Hsc & Haad & Hdl & Hn1 & Hn2
      & Hw & Hc).
    destruct (manifestMatches_object _ _ _ Hm) as [Hcl Hch].
    unfold OpenPayload. rewrite Hs. fold b hash. rewrite Hinv, Hpd, Hm, Hsl, Hsc.
    rewrite (proj2 (Z.eqb_eq (len key) 32) Hk), (bool_decide_eq_true_2 _ Haad). cbn [negb orb].
    apply decodeResourceBase64_iff in Hw. rewrite Hw.
    set (wrapped := x01 :: n1 ++ Seal key n1 dataKey hash) in *.
    assert (Hwl : len wrapped = 61).
    { unfold wrapped, len in *. simpl. rewrite length_app.
      pose proof (Seal_length key n1 dataKey hash Hk Hn1). unfold len in *. lia. }
    rewrite Hwl, (bool_decide_eq_true_2 (head wrapped = Some x01)) by reflexivity.
    cbn [negb orb Z.eqb Pos.eqb]. rewrite (proj2 (resourceAEAD_Ret key key)) by done.
    rewrite (proj2 (openEnvelope_Some key wrapped hash dataKey Hk ltac:(lia) eq_refl)) by (by exists n1).
    obind. rewrite (proj2 (Z.eqb_eq (len dataKey) 32) Hdl). cbn [negb].
    rewrite (proj2 (resourceAEAD_Ret dataKey dataKey)) by done.
    rewrite (proj2 (openEnvelope_Some dataKey ciphertext hash plaintext Hdl ltac:(lia) Hch))
      by (by exists n2). done.
Qed.

End CustodyLemmas.

(** * The life of a key *)

(** What a program can do to the cells, through this package: enter [WithResourceKey],
    which allocates a new cell, and leave it, which clears one. *)
Inductive heapStep : Heap → Heap → Prop :=
| heap_enter h l key : h !! l = None → heapStep h (<[l := key]> h)
| heap_leave h l : is_Some (h !! l) → heapStep h (<[l := []]> h).

Lemma heapStep_cleared h h' l : rtc heapStep h h' → h !! l = Some [] → h' !! l = Some [].
Proof.
  induction 1 as [|h1 h2 h3 Hstep _ IH]; [done|]. intros Hl. apply IH. revert Hl.
  destruct Hstep as [h l' key Hn|h l' Hs]; destruct (decide (l = l')) as [->|]; intros Hl;
    rewrite ?lookup_insert_eq, ?lookup_insert_ne; congruence.
Qed.

Lemma heapStep_dom h h' l : rtc heapStep h h' → is_Some (h !! l) → is_Some (h' !! l).
Proof.
  induction 1 as [|h1 h2 h3 Hstep _ IH]; [done|]. intros Hl. apply IH. revert Hl.
  destruct Hstep as [h l' key Hn|h l' Hs]; destruct (decide (l = l')) as [->|]; intros Hl;
    rewrite ?lookup_insert_eq, ?lookup_insert_ne; done.
Qed.

Section KeyLife.
Context `{!AEAD} `{!JsonEncoder ValueAAD} `{!Json PayloadAAD}.

(** A cipher whose cell is cleared can do nothing. *)
Lemma cleared_refuses h c l :
  c.(Cipher_state) = Some l → h !! l = Some [] →
  (∀ ctx now path plaintext random,
     EncryptValue (Some c) ctx now path plaintext random h = Throw ErrUnauthorized)
  ∧ (∀ ctx now manifest ciphertext,
     OpenPayload (Some c) ctx now manifest ciphertext h = Throw ErrUnauthorized).
Proof.
  intros Hc Hl. assert (Hs : stateKey h c = Some []) by (unfold stateKey; by rewrite Hc; simpl; rewrite Hl).
  split; intros; unfold EncryptValue, OpenPayload; by rewrite Hs.
Qed.

(** C24: a resource key does not outlive its callback. Whatever the callback does with the
    package, nested and interleaved uses included, and however it ends, after
    [WithResourceKey] returns the cell is cleared for good: every cipher that points to it,
    copies kept by the callback included, refuses to encrypt and to open from then on. The
    callback runs only with a 32-byte key for a valid binding of the live invocation. *)
Theorem key_cleared ctx now binding key use h res h' :
  (∀ c h1 r h2, use c h1 = (r, h2) → rtc heapStep h1 h2) →
  WithResourceKey ctx now binding key (Some use) h = (res, h') →
  res = Throw ErrUnauthorized ∧ h' = h
  ∨ ∃ l, h !! l = None ∧ len key = 32 ∧ validResourceKeyBinding binding = true
    ∧ matchesInvocation binding ctx now = true
    ∧ res = (use (mkCipher (Some l) binding) (<[l := key]> h)).1
    ∧ rtc heapStep h h'
    ∧ ∀ h'' c, rtc heapStep h' h'' → c.(Cipher_state) = Some l →
        (∀ ctx now path plaintext random,
           EncryptValue (Some c) ctx now path plaintext random h'' = Throw ErrUnauthorized)
        ∧ (∀ ctx now manifest ciphertext,
           OpenPayload (Some c) ctx now manifest ciphertext h'' = Throw ErrUnauthorized).
Proof.
  intros Huse. unfold WithResourceKey.
  destruct (_ || _) eqn:Hbad; [intros [= <- <-]; by left|]. breflect.
  set (l := fresh (dom h)).
  assert (Hl : h !! l = None) by (apply not_elem_of_dom, is_fresh).
  destruct (use _ _) as [r h2] eqn:Hu. intros [= <- <-]. right. exists l.
  do 4 (split; [done|]). split; [by rewrite Hu|].
  assert (Hl2 : is_Some (h2 !! l)).
  { eapply heapStep_dom; [by eapply Huse|]. by rewrite lookup_insert_eq. }
  split.
  - eapply rtc_l; [by apply heap_enter|]. transitivity h2; [by eapply Huse|].
    by apply rtc_once, heap_leave.
  - intros h'' c Hr Hc. eapply cleared_refuses; [done|]. eapply heapStep_cleared; [done|].
    by rewrite lookup_insert_eq.
Qed.

End KeyLife.

Section Gate.
Context `{!Ed25519} `{!Json ValidationRequest} `{!Json ResourceAccessRequest}
  `{!Json SignedMessage} `{!Json WorkloadContext} `{!Json ResourcePayloadAccess} `{!JsonObject}.

(** Local custody is touched only after two fresh answers of Control. Either
    [WithPayloadCustody] fails without calling the custodian, or the workload identity and
    the payload access of this very grant were confirmed, and the custodian is called once
    with a valid binding for them that matches the live invocation; the application's
    callback then runs only on a cipher for exactly that binding, with the manifest that
    Control returned. *)
Theorem custody_gate client ctx clientID resource slot version micro now provider use post h :
  (∃ e, WithPayloadCustody client ctx clientID resource slot version micro now (Some provider)
     (Some use) post h = (e, h) ∧ returns e = false)
  ∨ ∃ identity access grant original,
    currentWorkload client ctx post = Ret identity
    ∧ accessPayload client ctx resource slot version true micro post = Ret access
    ∧ ctx.(Context_Invocation) = Some (grant, original)
    ∧ access.(Access_Manifest).(Payload_State) = "committed"
    ∧ let binding := custodyBinding identity clientID resource slot access grant in
      validResourceKeyBinding binding = true ∧ matchesInvocation binding ctx now = true
      ∧ WithPayloadCustody client ctx clientID resource slot version micro now (Some provider)
          (Some use) post h
        = provider binding (guardedUse binding access.(Access_Manifest) use) h
      ∧ ∀ c h1, guardedUse binding access.(Access_Manifest) use c h1 = (Throw ErrUnauthorized, h1)
          ∨ ∃ cipher, c = Some cipher ∧ cipher.(Cipher_binding) = binding
            ∧ guardedUse binding access.(Access_Manifest) use c h1
              = use cipher access.(Access_Manifest) h1.
Proof.
  unfold WithPayloadCustody. destruct (identifier clientID 256); cbn [negb];
    [|left; by eexists].
  destruct (currentWorkload _ _ _) as [identity|e| |] eqn:Hw; [|left; by eexists..].
  destruct (accessPayload _ _ _ _ _ _ _ _) as [access|e| |] eqn:Ha; [|left; by eexists..].
  unfold InvocationFromContext.
  destruct (Context_Invocation ctx) as [[grant original]|] eqn:Hc; [|left; by eexists].
  destruct (_ || _) eqn:Hm; [left; by eexists|].
  destruct (negb (validResourceKeyBinding _) || _) eqn:Hb; [left; by eexists|]. breflect.
  right. exists identity, access, grant, original. do 4 (split; [assumption || reflexivity|]).
  cbv zeta. split; [assumption|]. split; [assumption|]. split; [reflexivity|].
  intros [c|] h1; unfold guardedUse; [|by left]. case_bool_decide; [|by left]. right. by exists c.
Qed.

End Gate.

(** * A cipher with the laws

    The tag is a hash of key, nonce, additional data and text. *)
Definition hashTag (key nonce text aad : list byte) : list byte :=
  take 16 (Sum256 (key ++ nonce ++ aad ++ text)).

#[local] Instance hashAEAD : AEAD := {
  Seal key nonce text aad := hashTag key nonce text aad ++ text;
  Open key nonce c aad :=
    let text := drop 16 c in
    if bool_decide (take 16 c = hashTag key nonce text aad) then Some text else None;
}.

Lemma length_hashTag key nonce text aad : length (hashTag key nonce text aad) = 16%nat.
Proof. unfold hashTag. rewrite length_take, length_Sum256. done. Qed.

Lemma hashAEAD_laws : AEADLaws.
Proof.
  split; simpl.
  - intros key nonce text aad _ _. pose proof (length_hashTag key nonce text aad) as Ht.
    rewrite (take_app_length' _ _ _ (eq_sym Ht)), (drop_app_length' _ _ _ (eq_sym Ht)).
    by rewrite bool_decide_eq_true_2.
  - intros key nonce c aad text _ _. case_bool_decide as Hc; [|done]. intros [= <-].
    by rewrite <- Hc, take_drop.
  - intros key nonce text aad _ _. unfold len. rewrite length_app, length_hashTag. lia.
Qed.

(** * Witnesses *)
Module CustodySamples.
Import Protocol.Samples ControlSamples.

#[export] Existing Instances hashAEAD hashAEAD_laws.
#[export] Instance aadEncoder : JsonEncoder ValueAAD := {
  Encode v := Some (bytes_of v.(ValueAAD_Context).(ValueContext_Path) ++ [x0a])
}.
#[export] Instance aadFields : Fields PayloadAAD.
Proof.
  refine {|
  toFields p := [[p.(PayloadAAD_ClientID); p.(PayloadAAD_Resource); p.(PayloadAAD_Slot);
    p.(PayloadAAD_SchemaID); ofZ p.(PayloadAAD_ResourceRevision);
    ofZ p.(PayloadAAD_LifecycleGeneration)]];
  ofFields l :=
    match l with
    | [[a; b; c; d; e; f]] => e ← toZ e; f ← toZ f; Some (mkPayloadAAD a b c d e f)
    | _ => None
    end
  |}.
  intros []. simpl. by rewrite !toZ_ofZ.
Defined.
#[export] Instance aadJson : Json PayloadAAD := fieldsJson _.

Definition binding1 : ResourceKeyBinding :=
  mkKeyBinding scope "client:1" "doc:1" "body" "key:1" digestA 1 1 1 3 digestA "invocation:1"
    "binding" 1 "user:1" digestA 1300.
Definition resourceKey : list byte := replicate 32 x09.
Definition cipher1 : ResourceCipher := mkCipher (Some 0%nat) binding1.
Definition heap1 : Heap := {[ 0%nat := resourceKey ]}.
Definition nonce1 : list byte := replicate 12 x05.

Definition value1 : ResourceValue :=
  mkResourceValue ResourceValueFormat (mkValueContext binding1 "title")
    (string_of (rawURLEncode nonce1))
    (string_of (rawURLEncode (Seal resourceKey nonce1 (bytes_of "hello") (bytes_of "title")))).

Lemma value1_encrypted :
  EncryptValue (Some cipher1) context2 1100 "title" (bytes_of "hello") (Some nonce1) heap1
  = Ret value1.
Proof. vm_compute. reflexivity. Qed.

Lemma decrypt_exact_witness :
  DecryptResourceValue resourceKey value1 (mkValueContext binding1 "title") = Ret (bytes_of "hello").
Proof.
  apply (decrypt_exact resourceKey value1 (mkValueContext binding1 "title") (bytes_of "hello")).
  split; [reflexivity|]. split; [vm_compute; discriminate|].
  exists nonce1, (bytes_of "title"). split; [reflexivity|]. split; [vm_compute; reflexivity|].
  reflexivity.
Defined.

Lemma resource_value_roundtrip_witness :
  ∃ key, stateKey heap1 cipher1 = Some key
  ∧ DecryptResourceValue key value1 (mkValueContext binding1 "title") = Ret (bytes_of "hello").
Proof.
  destruct (resource_value_roundtrip cipher1 context2 1100 "title" (bytes_of "hello") nonce1 heap1 value1
    eq_refl value1_encrypted) as (_ & key & Hs & Hd & _).
  exists key. split; [exact Hs|exact Hd].
Defined.

(** An envelope and its manifest. *)
Definition dataKey1 : list byte := replicate 32 x0b.
Definition shell (object wrapped hash : string) (size : Z) : ResourcePayloadManifest :=
  mkPayloadManifest "doc:1" "body" "schema" "encrypted-envelope-v1" object "AES-256-GCM" "key:1"
    wrapped hash "" "" "committed" 3 size 1 1 1 0.
Definition hash1 : list byte := payloadHash binding1 (shell "" "" "" 0).
Definition object1 : list byte := x01 :: nonce1 ++ Seal dataKey1 nonce1 (bytes_of "hello") hash1.
Definition wrapped1 : list byte := x01 :: nonce1 ++ Seal resourceKey nonce1 dataKey1 hash1.
Definition manifest2 : ResourcePayloadManifest :=
  shell (Digest object1) (string_of (rawURLEncode wrapped1)) (string_of (rawURLEncode hash1)) 34.
Definition binding2 : ResourceKeyBinding :=
  mkKeyBinding scope "client:1" "doc:1" "body" "key:1" digestA 1 1 1 3 (Digest object1)
    "invocation:1" "binding" 1 "user:1" digestA 1300.
Definition cipher2 : ResourceCipher := mkCipher (Some 0%nat) binding2.

Lemma open_payload_exact_witness :
  OpenPayload (Some cipher2) context2 1100 manifest2 object1 heap1 = Ret (bytes_of "hello").
Proof.
  apply (open_payload_exact cipher2 context2 1100 manifest2 object1 heap1 (bytes_of "hello")).
  exists resourceKey, dataKey1, nonce1, nonce1.
  split; [reflexivity|]. split; [reflexivity|].
  split; [vm_compute; reflexivity|]. split; [vm_compute; reflexivity|].
  split; [vm_compute; reflexivity|]. split; [vm_compute; reflexivity|].
  split; [vm_compute; reflexivity|]. split; [vm_compute; reflexivity|].
  do 3 (split; [reflexivity|]). split; [vm_compute; reflexivity|]. vm_compute; reflexivity.
Defined.

(** A callback that uses the key and leaves. *)
Definition useOnce (c : ResourceCipher) (h : Heap) : outcome bridge_error unit * Heap :=
  match EncryptValue (Some c) context2 1100 "title" (bytes_of "hello") (Some nonce1) h with
  | Ret _ => (Ret tt, h)
  | _ => (Throw ErrInvalid, h)
  end.

Lemma useOnce_steps c h1 r h2 : useOnce c h1 = (r, h2) → rtc heapStep h1 h2.
Proof. unfold useOnce. case_match; intros [= <- <-]; apply rtc_refl. Qed.

Lemma key_cleared_witness :
  ∃ l h', WithResourceKey context2 1100 binding1 resourceKey (Some useOnce) ∅ = (Ret tt, h')
  ∧ EncryptValue (Some (mkCipher (Some l) binding1)) context2 1100 "title" (bytes_of "hello")
      (Some nonce1) h' = Throw ErrUnauthorized.
Proof.
  assert (Hw : WithResourceKey context2 1100 binding1 resourceKey (Some useOnce) ∅
    = (Ret tt, <[0%nat := []]> {[0%nat := resourceKey]})) by (vm_compute; reflexivity).
  destruct (key_cleared context2 1100 binding1 resourceKey useOnce ∅ _ _ useOnce_steps Hw)
    as [[He _]|(l & _ & _ & _ & _ & _ & _ & Hc)]; [discriminate He|].
  exists l, (<[0%nat := []]> {[0%nat := resourceKey]}). split; [exact Hw|].
  apply (Hc _ (mkCipher (Some l) binding1) (rtc_refl _ _) eq_refl).
Defined.

End CustodySamples.
