(* ===== verification/Transport.v ===== *)
(** Direct HTTPS dispatch of signed messages: [bridge/transport/https.go].

    Addresses of [net/netip] are numbers of 32 or 128 bits and the predicates on them are
    written out. [url.Parse], [netip.ParseAddr], [net.SplitHostPort], name resolution and
    the sockets are parameters, and so are the steps of a TLS handshake; the rule that a client
    certificate must be presented is modelled. *)
From S2P Require Import Prelude GoStd Sha256 Interfaces Protocol.

(** * net/netip *)
Inductive Addr : Type :=
| AddrInvalid
| V4 (z : Z)
| V6 (z : Z) (zone : string).

#[global] Instance Addr_eq_dec : EqDecision Addr.
Proof. solve_decision. Defined.

Definition Is4In6 (a : Addr) : bool :=
  match a with V6 z _ => Z.shiftr z 32 =? 65535 | _ => false end.

(** [Unmap]: an IPv4-mapped IPv6 address becomes the IPv4 address. *)
Definition Unmap (a : Addr) : Addr :=
  match a with V6 z _ => if Is4In6 a then V4 (z mod 2 ^ 32) else a | _ => a end.

Definition IsValid (a : Addr) : bool := match a with AddrInvalid => false | _ => true end.

(** The first byte of an IPv4 address, the first 16 bits of an IPv6 address. *)
Definition v4first (z : Z) : Z := Z.shiftr z 24.
Definition v6first (z : Z) : Z := Z.shiftr z 112.

Definition IsLoopback (a : Addr) : bool :=
  match Unmap a with
  | V4 z => v4first z =? 127
  | V6 z _ => z =? 1
  | AddrInvalid => false
  end.

Definition IsMulticast (a : Addr) : bool :=
  match Unmap a with
  | V4 z => Z.land (v4first z) 240 =? 224
  | V6 z _ => Z.shiftr z 120 =? 255
  | AddrInvalid => false
  end.

Definition IsLinkLocalUnicast (a : Addr) : bool :=
  match Unmap a with
  | V4 z => Z.shiftr z 16 =? 169 * 256 + 254
  | V6 z _ => Z.land (v6first z) 65472 =? 65152
  | AddrInvalid => false
  end.

Definition IsPrivate (a : Addr) : bool :=
  match Unmap a with
  | V4 z => (v4first z =? 10)
            || (v4first z =? 172) && (Z.land (Z.shiftr z 16 mod 256) 240 =? 16)
            || (Z.shiftr z 16 =? 192 * 256 + 168)
  | V6 z _ => Z.land (Z.shiftr z 120) 254 =? 252
  | AddrInvalid => false
  end.

Definition IsGlobalUnicast (a : Addr) : bool :=
  match a with
  | AddrInvalid => false
  | V4 z => if (z =? 0) || (z =? 2 ^ 32 - 1) then false
            else negb (IsLoopback a) && negb (IsMulticast a) && negb (IsLinkLocalUnicast a)
  | V6 _ _ => negb (bool_decide (a = V6 0 "")) && negb (IsLoopback a) && negb (IsMulticast a)
              && negb (IsLinkLocalUnicast a)
  end.

(** [netip.Prefix] with its [Contains], which refuses addresses with a zone. *)
Record Prefix : Type := mkPrefix { Prefix_Addr : Addr; Prefix_Bits : Z }.

Definition prefixContains (p : Prefix) (a : Addr) : bool :=
  match p.(Prefix_Addr), a with
  | V4 n, V4 z => Z.shiftr z (32 - p.(Prefix_Bits)) =? Z.shiftr n (32 - p.(Prefix_Bits))
  | V6 n _, V6 z zone =>
      bool_decide (zone = "")
      && (Z.shiftr z (128 - p.(Prefix_Bits)) =? Z.shiftr n (128 - p.(Prefix_Bits)))
  | _, _ => false
  end.

(** * Public destinations *)
Definition ip4 (a b c d : Z) : Z := ((a * 256 + b) * 256 + c) * 256 + d.

(** An IPv6 address from its first three groups of 16 bits. *)
Definition ip6 (a b c : Z) : Z := ((a * 2 ^ 16 + b) * 2 ^ 16 + c) * 2 ^ 80.

Definition v4Prefix (a b c d bits : Z) : Prefix := mkPrefix (V4 (ip4 a b c d)) bits.
Definition v6Prefix (a b c bits : Z) : Prefix := mkPrefix (V6 (ip6 a b c) "") bits.

(** 8193 is 2001 in hexadecimal, 3512 is db8, 8194 is 2002, 100 is 64, 65435 is ff9b,
    65216 is fec0. *)
Definition blockedPrefixes : list Prefix :=
  [v4Prefix 0 0 0 0 8; v4Prefix 100 64 0 0 10; v4Prefix 192 0 0 0 24; v4Prefix 192 0 2 0 24;
   v4Prefix 198 18 0 0 15; v4Prefix 198 51 100 0 24; v4Prefix 203 0 113 0 24;
   v4Prefix 240 0 0 0 4; v6Prefix 8193 3512 0 32; v6Prefix 8194 0 0 16; v6Prefix 100 65435 0 96;
   v6Prefix 100 65435 1 48; v6Prefix 0 0 0 96; v6Prefix 8193 0 0 32; v6Prefix 65216 0 0 10].

Definition publicAddress (address : Addr) : bool :=
  let address := Unmap address in
  if negb (IsValid address) || negb (IsGlobalUnicast address) || IsPrivate address
     || IsLoopback address || IsLinkLocalUnicast address
  then false
  else negb (existsb (fun prefix => prefixContains prefix address) blockedPrefixes).

(** * Data *)
Record TLSConfig : Type := mkTLSConfig {
  TLS_InsecureSkipVerify : bool;
  TLS_ServerName : string;
  TLS_MinVersion : Z;
  TLS_MaxVersion : Z;
  TLS_Certificates : Z;
  TLS_GetClientCertificate : bool
}.

Definition VersionTLS12 : Z := 771.

(** The dispatcher: its TLS configuration and whether it has client certificates. *)
Record HTTPSDispatcher : Type := mkDispatcher {
  Dispatcher_TLS : TLSConfig;
  Dispatcher_mutualTLS : bool
}.

(** A reply of a function endpoint: the media type of its [Content-Type], if it parses. *)
Record FunctionReply : Type := mkFunctionReply {
  FunctionReply_Status : Z;
  FunctionReply_MediaType : option string;
  FunctionReply_ContentEncoding : string;
  FunctionReply_Body : option (list byte)
}.

(** What comes of posting a message. *)
Inductive dispatch : Type :=
| DispatchBadRequest
| DispatchFails
| DispatchReplies (reply : FunctionReply).

Definition withMinVersion (c : TLSConfig) (v : Z) : TLSConfig :=
  mkTLSConfig c.(TLS_InsecureSkipVerify) c.(TLS_ServerName) v c.(TLS_MaxVersion)
    c.(TLS_Certificates) c.(TLS_GetClientCertificate).

Definition New (options : option TLSConfig) : outcome bridge_error HTTPSDispatcher :=
  let finish (c : TLSConfig) :=
    Ret (mkDispatcher c ((0 <? c.(TLS_Certificates)) || c.(TLS_GetClientCertificate))) in
  match options with
  | None => finish (mkTLSConfig false "" VersionTLS12 0 0 false)
  | Some c =>
      if c.(TLS_InsecureSkipVerify) || negb (bool_decide (c.(TLS_ServerName) = ""))
      then Throw ErrInvalid
      else
        let c := if c.(TLS_MinVersion) <? VersionTLS12 then withMinVersion c VersionTLS12 else c in
        if negb (c.(TLS_MaxVersion) =? 0) && (c.(TLS_MaxVersion) <? c.(TLS_MinVersion))
        then Throw ErrInvalid
        else finish c
  end.

Definition setPath (u : URL) (path : string) : URL :=
  mkURL u.(URL_Scheme) u.(URL_User) u.(URL_Host) u.(URL_Hostname) u.(URL_Port) path
    u.(URL_RawPath) u.(URL_Opaque) u.(URL_RawQuery) u.(URL_ForceQuery) u.(URL_Fragment)
    u.(URL_String).

Section Transport.
Context `{!Json SignedMessage}.
(** [url.Parse], [URL.String], [netip.ParseAddr], [Addr.String] and [net.SplitHostPort]. *)
Context (Parse : string → option URL) (String : URL → string).
Context (ParseAddr : string → option Addr) (AddrString : Addr → string).
Context (SplitHostPort : string → option (string * string)).

(** * Endpoints *)

(** [ValidateEndpoint]. Lowering a host matters for the letters of [localhost] and
    [.local] only, which no letter outside ASCII lowers to. *)
Definition ValidateEndpoint (endpoint : string) : outcome bridge_error URL :=
  if negb (bool_decide (endpoint = TrimSpace endpoint)) || (2048 <? slen endpoint)
     || Contains endpoint "#"
  then Throw ErrInvalid
  else match Parse endpoint with
  | None => Throw ErrInvalid
  | Some parsed =>
      if negb (bool_decide (parsed.(URL_Scheme) = "https"))
         || bool_decide (parsed.(URL_Hostname) = "") || parsed.(URL_User)
         || negb (bool_decide (parsed.(URL_RawQuery) = "")) || parsed.(URL_ForceQuery)
         || negb (bool_decide (parsed.(URL_Fragment) = ""))
         || negb (bool_decide (parsed.(URL_Opaque) = ""))
         || negb (bool_decide (parsed.(URL_RawPath) = ""))
      then Throw ErrInvalid
      else if Contains parsed.(URL_Path) "\" || Contains parsed.(URL_Path) "//"
      then Throw ErrInvalid
      else if existsb (fun segment => bool_decide (segment = bytes_of ".")
                                      || bool_decide (segment = bytes_of ".."))
                (splitAt x2f (bytes_of parsed.(URL_Path)))
      then Throw ErrInvalid
      else
        let host := TrimSuffix (ToLower parsed.(URL_Hostname)) "." in
        if bool_decide (host = "localhost") || HasSuffix host ".localhost"
           || HasSuffix host ".local" || Contains host "%"
        then Throw ErrInvalid
        else if HasSuffix parsed.(URL_Host) ":" then Throw ErrInvalid
        else if negb (bool_decide (parsed.(URL_Port) = ""))
                && match Atoi parsed.(URL_Port) with
                   | None => true
                   | Some number => (number <? 1) || (65535 <? number)
                   end
        then Throw ErrInvalid
        else if match ParseAddr host with
                | Some address => negb (publicAddress address)
                | None => false
                end
        then Throw ErrInvalid
        else Ret parsed
  end.

(** * Dialing *)

(** The loop over the checked addresses: the address that answered, as it was handed to [dial],
    and everything that was handed to [dial]. *)
Fixpoint dialFirst (dial : string → bool) (port : string) (addresses : list Addr)
    : option string * list string :=
  match addresses with
  | [] => (None, [])
  | ip :: rest =>
      let address := JoinHostPort (AddrString (Unmap ip)) port in
      if dial address then (Some address, [address])
      else let '(answer, tried) := dialFirst dial port rest in (answer, address :: tried)
  end.

(** [publicDialer]: the connection, as the address that was dialed for it, and every address
    that was dialed. *)
Definition publicDialer (lookup : string → option (list Addr)) (dial : string → bool)
    (network address : string) : outcome bridge_error string * list string :=
  if negb (bool_decide (network = "tcp")) then (Throw ErrUnavailable, [])
  else match SplitHostPort address with
  | None => (Throw ErrUnavailable, [])
  | Some (host, port) =>
      match match ParseAddr host with
            | Some literal => Some [literal]
            | None => lookup host
            end with
      | None => (Throw ErrUnavailable, [])
      | Some addresses =>
          if (len addresses <? 1) || (16 <? len addresses) then (Throw ErrUnavailable, [])
          else if negb (forallb publicAddress addresses) then (Throw ErrUnavailable, [])
          else match dialFirst dial port addresses with
          | (Some connection, tried) => (Ret connection, tried)
          | (None, tried) => (Throw ErrUnavailable, tried)
          end
      end
  end.

(** * Mutual TLS *)

(** [tls.Certificate]: the length of its chain. *)
Record Certificate : Type := mkCertificate { Certificate_chain : Z }.

(** The [GetClientCertificate] that [requiredMTLSDial] installs: what it returns to the
    handshake, and [presented]. [original] is the configured callback, [supports] says which
    of the configured certificates the request of the server supports. *)
Definition clientCertificate (original : option (outcome bridge_error (option Certificate)))
    (certificates : list Certificate) (supports : Certificate → bool)
    : outcome bridge_error Certificate * bool :=
  match match original with
        | Some answer => answer
        | None => Ret (List.find supports certificates)
        end with
  | Ret None => (Ret (mkCertificate 0), false)
  | Ret (Some certificate) => (Ret certificate, 0 <? certificate.(Certificate_chain))
  | Throw e => (Throw e, false)
  | _ => (Throw ErrOther, false)
  end.

(** [requiredMTLSDial] over a dialed connection. [asked] says whether the server asks for a
    certificate, [handshake] whether it completes for the host with the answer it got. *)
Definition requiredMTLSDial (dialed : outcome bridge_error string) (address : string) (asked : bool)
    (original : option (outcome bridge_error (option Certificate)))
    (certificates : list Certificate) (supports : Certificate → bool)
    (handshake : string → option (outcome bridge_error Certificate) → bool)
    : outcome bridge_error string :=
  match dialed with
  | Ret connection =>
      match SplitHostPort address with
      | None => Throw ErrUnavailable
      | Some (host, _) =>
          let '(answer, presented) :=
            if asked then
              let '(answer, presented) := clientCertificate original certificates supports in
              (Some answer, presented)
            else (None, false) in
          if negb (handshake host answer) || negb presented then Throw ErrUnavailable
          else Ret connection
      end
  | _ => Throw ErrUnavailable
  end.

(** * Sending *)
Definition functionURL (parsed : URL) (operation : string) : string :=
  String (setPath parsed (TrimRightSlash parsed.(URL_Path) +:+ "/v1/functions/" +:+ operation)).

Definition send (post : string → list byte → dispatch) (endpoint operation : string)
    (message : SignedMessage) : outcome bridge_error SignedMessage :=
  match ValidateEndpoint endpoint with
  | Ret parsed =>
      if negb (bool_decide (operation = "challenge")) && negb (bool_decide (operation = "invoke"))
      then Throw ErrInvalid
      else match Marshal message with
      | None => Throw ErrInvalid
      | Some body =>
          if MaximumBodyBytes <? len body then Throw ErrInvalid
          else match post (functionURL parsed operation) body with
          | DispatchBadRequest => Throw ErrInvalid
          | DispatchFails => Throw ErrUnavailable
          | DispatchReplies response =>
              if negb (bool_decide (response.(FunctionReply_MediaType) = Some "application/json"))
                 || negb (response.(FunctionReply_Status) =? 200)
                 || negb (bool_decide (response.(FunctionReply_ContentEncoding) = ""))
              then Throw ErrUnavailable
              else match response.(FunctionReply_Body) with
              | None => Throw ErrUnavailable
              | Some raw =>
                  if MaximumBodyBytes <? len raw then Throw ErrUnavailable
                  else match Decode raw with
                  | None => Throw ErrUnavailable
                  | Some (result, rest) =>
                      if negb (atEOF rest) || bool_decide (result.(KeyID) = "")
                         || bool_decide (result.(Payload) = "")
                         || bool_decide (result.(Signature) = "")
                      then Throw ErrUnavailable
                      else Ret result
                  end
              end
          end
      end
  | _ => Throw ErrInvalid
  end.

Definition SendMutualTLS (dispatcher : HTTPSDispatcher) (post : string → list byte → dispatch)
    (endpoint operation : string) (message : SignedMessage) : outcome bridge_error SignedMessage :=
  if negb dispatcher.(Dispatcher_mutualTLS) then Throw ErrUnavailable
  else send post endpoint operation message.

Definition Send (dispatcher : HTTPSDispatcher) (post : string → list byte → dispatch)
    (endpoint operation : string) (message : SignedMessage) : outcome bridge_error SignedMessage :=
  send post endpoint operation message.

End Transport.

(** * Lemmas: addresses as numbers *)
Lemma shiftr_eqb z k c : 0 <= k → (Z.shiftr z k =? c) = (c * 2 ^ k <=? z) && (z <? (c + 1) * 2 ^ k).
Proof.
  intros Hk. rewrite Z.shiftr_div_pow2 by done. pose proof (Z.pow_pos_nonneg 2 k ltac:(lia) Hk).
  apply eq_true_iff_eq. rewrite andb_true_iff, Z.eqb_eq, Z.leb_le, Z.ltb_lt. split.
  - intros <-. pose proof (Z.div_mod z (2 ^ k) ltac:(lia)).
    pose proof (Z.mod_pos_bound z (2 ^ k) ltac:(lia)). nia.
  - intros [H1 H2]. symmetry. apply (Z.div_unique z (2 ^ k) c (z - c * 2 ^ k)); lia.
Qed.

(** Masking the low bits away. *)
Lemma land_high x a b :
  0 <= b <= a → 0 <= x < 2 ^ a → Z.land x (2 ^ a - 2 ^ b) = Z.shiftl (Z.shiftr x b) b.
Proof.
  intros Hab Hx.
  replace (2 ^ a - 2 ^ b) with (Z.shiftl (Z.ones (a - b)) b).
  2:{ rewrite Z.shiftl_mul_pow2, Z.ones_equiv by lia. rewrite <- Z.sub_1_r, Z.mul_sub_distr_r.
      rewrite <- Z.pow_add_r by lia. f_equal; [f_equal; lia|lia]. }
  apply Z.bits_inj'. intros n Hn. rewrite Z.land_spec, !Z.shiftl_spec by done.
  destruct (Z.ltb_spec n b).
  { by rewrite (Z.testbit_neg_r (Z.ones _)), (Z.testbit_neg_r (Z.shiftr _ _)), andb_false_r by lia. }
  rewrite Z.shiftr_spec by lia. replace (n - b + b) with n by lia.
  destruct (Z.ltb_spec n a).
  - rewrite Z.ones_spec_low by lia. apply andb_true_r.
  - rewrite Z.ones_spec_high, andb_false_r by lia. symmetry.
    rewrite <- (Z.mod_small x (2 ^ a)) by done. apply Z.mod_pow2_bits_high. lia.
Qed.

Lemma land_high_eqb x a b m c d :
  0 <= b <= a → 0 <= x < 2 ^ a → m = 2 ^ a - 2 ^ b → d = c * 2 ^ b →
  (Z.land x m =? d) = (d <=? x) && (x <? d + 2 ^ b).
Proof.
  intros Hab Hx -> ->. replace (c * 2 ^ b + 2 ^ b) with ((c + 1) * 2 ^ b) by lia. rewrite land_high by done. rewrite <- (shiftr_eqb x b c) by lia.
  rewrite Z.shiftl_mul_pow2 by lia. pose proof (Z.pow_pos_nonneg 2 b ltac:(lia) ltac:(lia)).
  apply eq_true_iff_eq. rewrite !Z.eqb_eq. split; [|by intros ->]. intros He. nia.
Qed.

(** Tests on leading bits as intervals. *)
Lemma div_eqb z k c : 0 <= k → (z / 2 ^ k =? c) = (c * 2 ^ k <=? z) && (z <? (c + 1) * 2 ^ k).
Proof. intros Hk. rewrite <- shiftr_eqb, Z.shiftr_div_pow2 by done. done. Qed.

Lemma leb_div z k c : 0 <= k → (c <=? z / 2 ^ k) = (c * 2 ^ k <=? z).
Proof.
  intros Hk. pose proof (Z.pow_pos_nonneg 2 k ltac:(lia) Hk).
  apply eq_true_iff_eq. rewrite !Z.leb_le. split; intros He.
  - pose proof (Z.mul_div_le z (2 ^ k) ltac:(lia)). nia.
  - apply Z.div_le_lower_bound; lia.
Qed.

Lemma ltb_div z k c : 0 <= k → (z / 2 ^ k <? c) = (z <? c * 2 ^ k).
Proof. intros Hk. rewrite !Z.ltb_antisym. by rewrite leb_div. Qed.

Lemma if_false (a b : bool) : (if a then false else b) = negb a && b.
Proof. by destruct a. Qed.

(** Evaluates the quotients of constants. *)
Ltac constants := repeat match goal with
  | |- context [?a / 2 ^ ?k] => let v := eval vm_compute in (a / 2 ^ k) in change (a / 2 ^ k) with v
  end.

(** * Reserved address blocks *)
Definition inRanges (ranges : list (Z * Z)) (z : Z) : bool :=
  existsb (fun r => (r.1 <=? z) && (z <=? r.2)) ranges.

(** The IPv4 blocks that are not public: this network, private, shared, loopback,
    link-local, protocol assignments, documentation, benchmarking, multicast, reserved. *)
Definition reservedV4 : list (Z * Z) :=
  [(ip4 0 0 0 0, ip4 0 255 255 255); (ip4 10 0 0 0, ip4 10 255 255 255);
   (ip4 100 64 0 0, ip4 100 127 255 255); (ip4 127 0 0 0, ip4 127 255 255 255);
   (ip4 169 254 0 0, ip4 169 254 255 255); (ip4 172 16 0 0, ip4 172 31 255 255);
   (ip4 192 0 0 0, ip4 192 0 0 255); (ip4 192 0 2 0, ip4 192 0 2 255);
   (ip4 192 168 0 0, ip4 192 168 255 255); (ip4 198 18 0 0, ip4 198 19 255 255);
   (ip4 198 51 100 0, ip4 198 51 100 255); (ip4 203 0 113 0, ip4 203 0 113 255);
   (ip4 224 0 0 0, ip4 239 255 255 255); (ip4 240 0 0 0, ip4 255 255 255 255)].

(** The IPv6 blocks: unspecified, loopback and IPv4-compatible, the two translation
    prefixes, Teredo, documentation, 6to4, unique local, link-local, site-local,
    multicast. *)
Definition reservedV6 : list (Z * Z) :=
  [(0, 2 ^ 32 - 1); (ip6 100 65435 0, ip6 100 65435 0 + 2 ^ 32 - 1);
   (ip6 100 65435 1, ip6 100 65435 2 - 1); (ip6 8193 0 0, ip6 8193 1 0 - 1);
   (ip6 8193 3512 0, ip6 8193 3513 0 - 1); (ip6 8194 0 0, ip6 8195 0 0 - 1);
   (ip6 64512 0 0, ip6 65024 0 0 - 1); (ip6 65152 0 0, ip6 65216 0 0 - 1);
   (ip6 65216 0 0, ip6 65280 0 0 - 1); (ip6 65280 0 0, ip6 65536 0 0 - 1)].

Lemma publicAddress_V4 z :
  0 <= z < 2 ^ 32 → publicAddress (V4 z) = negb (inRanges reservedV4 z).
Proof.
  intros Hz. unfold publicAddress, IsGlobalUnicast, IsPrivate, IsLoopback, IsMulticast,
    IsLinkLocalUnicast, inRanges, reservedV4, blockedPrefixes, v4first.
  cbn [Unmap IsValid existsb prefixContains v4Prefix v6Prefix Prefix_Addr Prefix_Bits fst snd].
  rewrite !Z.shiftr_div_pow2 by lia.
  assert (H24 : 0 <= z / 2 ^ 24 < 2 ^ 8) by (Z.to_euclidean_division_equations; lia).
  rewrite (land_high_eqb (z / 2 ^ 24) 8 4 240 14 224) by (done || lia).
  rewrite (land_high_eqb ((z / 2 ^ 16) mod 256) 8 4 240 1 16)
    by (done || (pose proof (Z.mod_pos_bound (z / 2 ^ 16) 256); lia) || lia).
  assert (H172 : (z / 2 ^ 24 =? 172) && ((16 <=? (z / 2 ^ 16) mod 256) && ((z / 2 ^ 16) mod 256 <? 16 + 2 ^ 4))
    = (ip4 172 16 0 0 <=? z) && (z <? ip4 172 32 0 0)).
  { unfold ip4. apply eq_true_iff_eq. rewrite !andb_true_iff, Z.eqb_eq, !Z.leb_le, !Z.ltb_lt.
    Z.to_euclidean_division_equations. lia. }
  rewrite H172. rewrite !leb_div, !ltb_div, !div_eqb by lia. unfold ip4. clear -Hz.
  rewrite !if_false. constants. lia.
Qed.

Lemma publicAddress_V6 z :
  0 <= z < 2 ^ 128 → Z.shiftr z 32 ≠ 65535 →
  publicAddress (V6 z "") = negb (inRanges reservedV6 z).
Proof.
  intros Hz H46%Z.eqb_neq. unfold publicAddress, IsGlobalUnicast, IsPrivate, IsLoopback, IsMulticast,
    IsLinkLocalUnicast, inRanges, reservedV6, blockedPrefixes, v6first, Unmap, Is4In6.
  rewrite H46.
  cbn [IsValid existsb prefixContains v4Prefix v6Prefix Prefix_Addr Prefix_Bits fst snd].
  rewrite H46. rewrite !(bool_decide_eq_true_2 ("" = "")) by done.
  assert (Hb : bool_decide (V6 z "" = V6 0 "") = (z =? 0)).
  { destruct (Z.eqb_spec z 0) as [->|Hne]; [by apply bool_decide_eq_true|].
    apply bool_decide_eq_false. congruence. }
  rewrite Hb. rewrite !Z.shiftr_div_pow2 by lia.
  assert (H112 : 0 <= z / 2 ^ 112 < 2 ^ 16).
  { split; [apply Z.div_pos; lia|]. apply Z.div_lt_upper_bound; lia. }
  assert (H120 : 0 <= z / 2 ^ 120 < 2 ^ 8).
  { split; [apply Z.div_pos; lia|]. apply Z.div_lt_upper_bound; lia. }
  rewrite (land_high_eqb (z / 2 ^ 112) 16 6 65472 1018 65152) by (done || lia).
  rewrite (land_high_eqb (z / 2 ^ 120) 8 1 254 126 252) by (done || lia).
  rewrite !leb_div, !ltb_div, !div_eqb by lia. unfold ip6. clear -Hz.
  rewrite !if_false. constants. lia.
Qed.

(** With a zone, the blocks that the predicates of [net/netip] know themselves: loopback,
    unique local, link-local, multicast. *)
Definition reservedZoned : list (Z * Z) :=
  [(1, 1); (ip6 64512 0 0, ip6 65024 0 0 - 1); (ip6 65152 0 0, ip6 65216 0 0 - 1);
   (ip6 65280 0 0, ip6 65536 0 0 - 1)].

Lemma publicAddress_zoned z zone :
  0 <= z < 2 ^ 128 → Z.shiftr z 32 ≠ 65535 → zone ≠ "" →
  publicAddress (V6 z zone) = negb (inRanges reservedZoned z).
Proof.
  intros Hz H46%Z.eqb_neq Hzone. unfold publicAddress, IsGlobalUnicast, IsPrivate, IsLoopback,
    IsMulticast, IsLinkLocalUnicast, inRanges, reservedZoned, blockedPrefixes, v6first, Unmap, Is4In6.
  rewrite H46.
  cbn [IsValid existsb prefixContains v4Prefix v6Prefix Prefix_Addr Prefix_Bits fst snd].
  rewrite H46, !(bool_decide_eq_false_2 (zone = "")) by done.
  rewrite (bool_decide_eq_false_2 (V6 z zone = V6 0 "")) by congruence.
  rewrite !Z.shiftr_div_pow2 by lia.
  assert (H112 : 0 <= z / 2 ^ 112 < 2 ^ 16).
  { split; [apply Z.div_pos; lia|]. apply Z.div_lt_upper_bound; lia. }
  assert (H120 : 0 <= z / 2 ^ 120 < 2 ^ 8).
  { split; [apply Z.div_pos; lia|]. apply Z.div_lt_upper_bound; lia. }
  rewrite (land_high_eqb (z / 2 ^ 112) 16 6 65472 1018 65152) by (done || lia).
  rewrite (land_high_eqb (z / 2 ^ 120) 8 1 254 126 252) by (done || lia).
  rewrite !leb_div, !ltb_div, !div_eqb by lia. unfold ip6. clear -Hz. rewrite !if_false. constants. lia.
Qed.

(** The width of an address. *)
Definition wfAddr (a : Addr) : Prop :=
  match a with
  | AddrInvalid => True
  | V4 z => 0 <= z < 2 ^ 32
  | V6 z _ => 0 <= z < 2 ^ 128
  end.

(** An address outside the tables of reserved blocks. *)
Definition outside (ranges : list (Z * Z)) (z : Z) : Prop :=
  ∀ lo hi, (lo, hi) ∈ ranges → z < lo ∨ hi < z.
Definition unreserved (a : Addr) : Prop :=
  match a with
  | AddrInvalid => False
  | V4 z => outside reservedV4 z
  | V6 z zone => outside (if bool_decide (zone = "") then reservedV6 else reservedZoned) z
  end.

Lemma inRanges_outside ranges z : inRanges ranges z = false → outside ranges z.
Proof.
  unfold inRanges. intros Hf lo hi Hin.
  assert (Hx : ¬ ((lo <=? z) && (z <=? hi) = true)).
  { intros Ht. assert (existsb (fun r => (r.1 <=? z) && (z <=? r.2)) ranges = true); [|congruence].
    apply existsb_exists. exists (lo, hi). split; [by apply list_elem_of_In|done]. }
  rewrite andb_true_iff, !Z.leb_le in Hx. lia.
Qed.

Lemma publicAddress_unreserved a : wfAddr a → publicAddress a = true → unreserved (Unmap a).
Proof.
  destruct a as [|z|z zone]; [done|..]; intros Hwf.
  - intros Hp. rewrite publicAddress_V4 in Hp by done. by apply inRanges_outside, negb_true_iff.
  - unfold Unmap, Is4In6. destruct (Z.eqb_spec (Z.shiftr z 32) 65535) as [He|Hne].
    + assert (Hu : publicAddress (V6 z zone) = publicAddress (V4 (z mod 2 ^ 32))).
      { unfold publicAddress, Unmap, Is4In6. by rewrite He. }
      rewrite Hu, publicAddress_V4 by (apply Z.mod_pos_bound; lia).
      intros Hp. by apply inRanges_outside, negb_true_iff.
    + intros Hp. unfold unreserved. case_bool_decide as Hzone; apply inRanges_outside, negb_true_iff.
      * subst zone. by rewrite <- publicAddress_V6.
      * by rewrite <- (publicAddress_zoned z zone).
Qed.

(** An address is public as the IPv4 address it maps, if it maps one. *)
Lemma publicAddress_Unmap a : publicAddress a = publicAddress (Unmap a).
Proof.
  unfold publicAddress. replace (Unmap (Unmap a)) with (Unmap a); [done|].
  destruct a as [|z|z zone]; [done..|]. unfold Unmap.
  destruct (Is4In6 (V6 z zone)) eqn:He; [done|]. by rewrite He.
Qed.

(** An accepted endpoint is what its text parses to, and uses TLS. *)
Lemma endpoint_Parse Parse ParseAddr endpoint url :
  ValidateEndpoint Parse ParseAddr endpoint = Ret url →
  Parse endpoint = Some url ∧ url.(URL_Scheme) = "https".
Proof.
  unfold ValidateEndpoint. destruct (_ || _); [done|]. destruct (Parse endpoint) as [parsed|]; [|done].
  destruct (_ || _) eqn:Hg; [done|].
  do 7 apply orb_false_iff in Hg as [Hg _]. apply negb_false_iff, bool_decide_eq_true in Hg.
  repeat case_match; try done; by intros [= <-].
Qed.

Section Dialing.
Context (ParseAddr : string → option Addr) (AddrString : Addr → string).
Context (SplitHostPort : string → option (string * string)).

(** The text of a literal address with a port. *)
Definition dialText (port : string) (ip : Addr) : string := JoinHostPort (AddrString (Unmap ip)) port.

Lemma dialFirst_tried dial port addresses answer tried :
  dialFirst AddrString dial port addresses = (answer, tried) →
  (∃ rest, dialText port <$> addresses = tried ++ rest)
  ∧ match answer with
    | Some connection => last tried = Some connection ∧ dial connection = true
    | None => tried = dialText port <$> addresses
    end.
Proof.
  revert answer tried. induction addresses as [|ip rest IH]; intros answer tried; simpl.
  { intros [= <- <-]. split; [by exists []|done]. }
  destruct (dial _) eqn:Hd; [intros [= <- <-]; split; [by exists (dialText port <$> rest)|done]|].
  destruct (dialFirst _ _ _ rest) as [answer' tried']. destruct (IH _ _ eq_refl) as [[r Hr] Ha].
  intros [= <- <-]. split; [exists r; csimpl; by rewrite Hr|].
  destruct answer' as [ip'|]; [|by rewrite Ha].
  destruct Ha as [Hl ?]. split; [|done]. destruct tried'; [done|]. exact Hl.
Qed.

(** * Theorems *)

(** What counts as a public destination, as a table. An IPv4 address is public exactly
    when it lies in none of the fourteen reserved blocks, an IPv6 address without a zone
    exactly when it lies in none of the ten, and an IPv6 address that maps an IPv4 address
    is judged as that address. *)
Theorem public_address_table z :
  (0 <= z < 2 ^ 32 →
     publicAddress (V4 z) = negb (inRanges reservedV4 z)
     ∧ ∀ zone, publicAddress (V6 (65535 * 2 ^ 32 + z) zone) = publicAddress (V4 z))
  ∧ (0 <= z < 2 ^ 128 → Z.shiftr z 32 ≠ 65535 →
     publicAddress (V6 z "") = negb (inRanges reservedV6 z)).
Proof.
  split; [|apply publicAddress_V6]. intros Hz. split; [by apply publicAddress_V4|]. intros zone.
  rewrite publicAddress_Unmap. f_equal. unfold Unmap, Is4In6.
  rewrite Z.shiftr_div_pow2, Z.add_comm, Z.div_add, Z.div_small by lia. simpl Z.eqb. cbv iota.
  by rewrite Z.add_comm, Z.add_comm, Z.mod_add, Z.mod_small by lia.
Qed.

(** C37: the dispatcher dials literal public addresses only. What is handed to [dial] is, in
    order, the texts of a prefix of the literal or resolved addresses of the host, never its
    name; all of these addresses, not just the dialed ones, lie outside the reserved blocks
    (for an IPv6 address with a zone: outside those that [net/netip] knows itself), there
    are between one and sixteen of them, and the connection is the last one dialed. *)
Theorem dialer_public lookup dial network address answer tried :
  publicDialer ParseAddr AddrString SplitHostPort lookup dial network address = (answer, tried) →
  (tried ≠ [] → ∃ host port addresses, SplitHostPort address = Some (host, port)
     ∧ network = "tcp"
     ∧ (ParseAddr host = None ∧ lookup host = Some addresses
        ∨ ∃ literal, ParseAddr host = Some literal ∧ addresses = [literal])
     ∧ 1 <= len addresses <= 16
     ∧ Forall (fun a => wfAddr a → unreserved (Unmap a)) addresses
     ∧ ∃ rest, (fun ip => JoinHostPort (AddrString (Unmap ip)) port) <$> addresses = tried ++ rest)
  ∧ (∀ connection, answer = Ret connection →
     last tried = Some connection ∧ dial connection = true).
Proof.
  unfold publicDialer.
  destruct (bool_decide (network = "tcp")) eqn:Hn; simpl; [|intros [= <- <-]; split; done].
  destruct (SplitHostPort address) as [[host port]|] eqn:Hs; [|intros [= <- <-]; split; done].
  destruct (match ParseAddr host with Some _ => _ | None => _ end) as [addresses|] eqn:Ha;
    [|intros [= <- <-]; split; done].
  destruct (_ || _) eqn:Hl; [intros [= <- <-]; split; done|].
  destruct (forallb publicAddress addresses) eqn:Hp; simpl; [|intros [= <- <-]; split; done].
  destruct (dialFirst _ _ _ _) as [answer' tried'] eqn:Hd.
  apply dialFirst_tried in Hd as [[rest Hrest] Hans]. breflect.
  intros Heq. assert (Ht : tried = tried') by (destruct answer'; by injection Heq). subst tried'.
  split.
  - intros _. exists host, port, addresses. do 2 (split; [done|]). split.
    + destruct (ParseAddr host) as [literal|]; [right; exists literal; split; congruence|by left].
    + split; [lia|]. split; [|by exists rest]. apply Forall_forall. intros a Hin Hwf.
      rewrite forallb_forall in Hp. apply publicAddress_unreserved; [done|].
      by apply Hp, list_elem_of_In.
  - intros connection ->. destruct answer' as [c|]; [|done]. by injection Heq as ->.
Qed.

(** A connection over mutual TLS goes to a public address, and its handshake completed for
    the host of the address with a client certificate whose chain is not empty. *)
Theorem mtls_presented lookup dial network address asked original certificates supports handshake
    connection answer tried :
  publicDialer ParseAddr AddrString SplitHostPort lookup dial network address = (answer, tried) →
  requiredMTLSDial SplitHostPort answer address asked original certificates supports handshake
    = Ret connection →
  answer = Ret connection ∧ asked = true
  ∧ ∃ host port certificate, SplitHostPort address = Some (host, port)
    ∧ 0 < certificate.(Certificate_chain) ∧ handshake host (Some (Ret certificate)) = true
    ∧ (original = None → In certificate certificates ∧ supports certificate = true).
Proof.
  intros _. unfold requiredMTLSDial. destruct answer as [ip| | |]; try done.
  destruct (SplitHostPort address) as [[host port]|]; [|done].
  destruct asked; [|by rewrite orb_true_r]. unfold clientCertificate.
  destruct (match original with Some _ => _ | None => _ end) as [[certificate|]| | |] eqn:Hc;
    try by rewrite orb_true_r.
  destruct (_ || _) eqn:Hg; [done|]. intros [= ->]. breflect. split; [done|]. split; [done|].
  exists host, port, certificate. do 3 (split; [done|]). intros ->. injection Hc as Hc.
  apply find_some in Hc. done.
Qed.

End Dialing.

(** * Examples *)
Module TransportSamples.

(** A network in which one name has a public and a loopback address. *)
Definition parseAddr (s : string) : option Addr :=
  if bool_decide (s = "127.0.0.1") then Some (V4 (ip4 127 0 0 1)) else None.

Definition addrString (a : Addr) : string :=
  match a with V4 z => string_of (Itoa z) | V6 z _ => string_of (Itoa z) | AddrInvalid => "invalid" end.

Definition splitHostPort (s : string) : option (string * string) :=
  if HasSuffix s ":443" then Some (TrimSuffix s ":443", "443") else None.

Definition lookup1 (host : string) : option (list Addr) :=
  if bool_decide (host = "functions.example") then Some [V4 (ip4 93 184 216 34); V4 (ip4 1 1 1 1)]
  else if bool_decide (host = "rebind.example") then Some [V4 (ip4 93 184 216 34); V4 (ip4 127 0 0 1)]
  else None.

(** The first address does not answer. *)
Definition dial1 (address : string) : bool := negb (bool_decide (address = "1572395042:443")).

Definition dialed (address : string) : outcome bridge_error string * list string :=
  publicDialer parseAddr addrString splitHostPort lookup1 dial1 "tcp" address.

(** A name is resolved and the second address answers; a name that resolves to a loopback
    address as well, and a literal loopback address, are refused before any attempt. *)
Example dialed_second :
  dialed "functions.example:443" = (Ret "16843009:443", ["1572395042:443"; "16843009:443"])
  ∧ dialed "rebind.example:443" = (Throw ErrUnavailable, [])
  ∧ dialed "127.0.0.1:443" = (Throw ErrUnavailable, []).
Proof. vm_compute. auto. Qed.

Lemma dialer_public_witness :
  last ["1572395042:443"; "16843009:443"] = Some "16843009:443"
  ∧ ∃ addresses, lookup1 "functions.example" = Some addresses
      ∧ Forall (fun a => wfAddr a → unreserved (Unmap a)) addresses.
Proof.
  destruct (dialer_public parseAddr addrString splitHostPort lookup1 dial1 "tcp"
    "functions.example:443" (Ret "16843009:443") ["1572395042:443"; "16843009:443"])
    as (Htried & Hlast); [vm_compute; reflexivity|].
  split; [apply Hlast; reflexivity|].
  destruct (Htried ltac:(discriminate)) as (host & port & addresses & Hs & _ & Hor & _ & Hall & _).
  injection Hs as <- <-. destruct Hor as [[_ Hlookup]|(literal & Hlit & _)]; [|discriminate Hlit].
  exists addresses. split; [exact Hlookup|exact Hall].
Defined.

Lemma public_address_table_witness :
  publicAddress (V4 (ip4 172 32 0 1)) = true
  ∧ publicAddress (V6 (65535 * 2 ^ 32 + ip4 172 16 0 1) "") = false
  ∧ publicAddress (V6 (ip6 8193 3512 7) "") = false.
Proof.
  split; [|split].
  - destruct (public_address_table (ip4 172 32 0 1)) as [H4 _].
    destruct H4 as [He _]; [vm_compute; split; [discriminate|reflexivity]|].
    rewrite He. reflexivity.
  - destruct (public_address_table (ip4 172 16 0 1)) as [H4 _].
    destruct H4 as [He Hm]; [vm_compute; split; [discriminate|reflexivity]|].
    rewrite Hm, He. reflexivity.
  - destruct (public_address_table (ip6 8193 3512 7)) as [_ H6].
    rewrite H6; [reflexivity|vm_compute; split; [discriminate|reflexivity]|vm_compute; discriminate].
Defined.

End TransportSamples.
