(* ===== verification/BridgeClient.v ===== *)
(** The caller of a function runtime: [bridge/client/client.go].

    A client checks a signed grant, dispatches it once and checks the signed answer. The
    dispatcher is a record of operations, as in the source; the one of [bridge/transport] is
    an instance. The clock readings and the error of the context are arguments. *)
From S2P Require Import Prelude GoStd Sha256 Interfaces Protocol ExecutionStore Runtime Transport.

(** * Data *)

(** [Dispatcher]; the first argument of the send operations is the deadline of the context,
    as an instant in seconds. *)
Record Dispatcher : Type := mkDispatcherOps {
  Dispatcher_Send : Z → string → string → SignedMessage → outcome bridge_error SignedMessage;
  Dispatcher_SendMutualTLS :
    Z → string → string → SignedMessage → outcome bridge_error SignedMessage;
  Dispatcher_MutualTLSConfigured : bool
}.

Record Options : Type := mkOptions {
  Options_TransportOptions : option Transport.TLSConfig;
  Options_Dispatcher : option Dispatcher;
  Options_TrustedKeys : gmap string (list byte);
  Options_Scope : Scope;
  Options_ManifestDigest : string;
  Options_EndpointURL : string;
  Options_Issuer : string;
  Options_SigningKeyID : string;
  Options_Audience : string;
  Options_BindingID : string;
  Options_AuthenticationMode : string;
  Options_SigningPublicKey : list byte;
  Options_BindingRevision : Z
}.

Record Client : Type := mkClient {
  Client_dispatcher : Dispatcher;
  Client_options : Options
}.

(** What is handed to the dispatcher: by mutual TLS or not, the deadline, the endpoint, the
    operation, the message. *)
Record Dispatched : Type := mkDispatched {
  Dispatched_mutual : bool;
  Dispatched_deadline : Z;
  Dispatched_endpoint : string;
  Dispatched_operation : string;
  Dispatched_message : SignedMessage
}.

Definition Result_zero : Result := mkResult "" "" "" "" "" "" "" [] 0 0 0.

(** * Predicates on strings *)
Definition clientIdentifier (value : string) (maximum : Z) : bool :=
  negb (bool_decide (value = "")) && (slen value <=? maximum)
  && negb (existsb (fun c => (c <=? 32) || (127 <=? c)) (runes value)).

Definition digest (value : string) : bool :=
  match hexDecode (bytes_of value) with
  | Some decoded => (len decoded =? 32) && bool_decide (EncodeToString decoded = value)
  | None => false
  end.

Section Client.
Context `{!Ed25519} `{!RawJson} `{!Json Authorization} `{!Json Result} `{!Json SignedMessage}.
(** The parameters of the transport, and what its HTTP client does with a request. *)
Context (Parse : string → option URL) (String : URL → string).
Context (ParseAddr : string → option Transport.Addr).
Context (post : Transport.HTTPSDispatcher → Z → string → list byte → Transport.dispatch).

(** [transport.HTTPSDispatcher] as a [Dispatcher]. *)
Definition httpsDispatcher (d : Transport.HTTPSDispatcher) : Dispatcher :=
  mkDispatcherOps
    (fun deadline => Transport.Send Parse String ParseAddr d (post d deadline))
    (fun deadline => Transport.SendMutualTLS Parse String ParseAddr d (post d deadline))
    d.(Transport.Dispatcher_mutualTLS).

Definition New (options : Options) : outcome bridge_error Client :=
  match Transport.ValidateEndpoint Parse ParseAddr options.(Options_EndpointURL) with
  | Ret _ =>
      if negb (forallb (fun value => clientIdentifier value 256)
           [options.(Options_BindingID); options.(Options_Audience); options.(Options_Issuer);
            options.(Options_SigningKeyID); options.(Options_Scope).(Scope_TenantID);
            options.(Options_Scope).(Scope_ApplicationID);
            options.(Options_Scope).(Scope_EnvironmentID);
            options.(Options_Scope).(Scope_OwnerResource)])
      then Throw ErrInvalid
      else if (options.(Options_BindingRevision) <? 1)
              || negb (digest options.(Options_ManifestDigest))
              || negb (len options.(Options_SigningPublicKey) =? PublicKeySize)
              || bool_decide (options.(Options_TrustedKeys) = ∅)
              || negb (bool_decide (options.(Options_AuthenticationMode) = "signed_https"))
                 && negb (bool_decide (options.(Options_AuthenticationMode) = "mtls"))
      then Throw ErrInvalid
      else if negb (bool_decide (map_Forall (fun keyID key =>
                clientIdentifier keyID 256 = true ∧ len key = PublicKeySize)
                options.(Options_TrustedKeys)))
      then Throw ErrInvalid
      else
        dispatcher ← match options.(Options_Dispatcher) with
          | Some dispatcher => Ret dispatcher
          | None => d ← Transport.New options.(Options_TransportOptions); Ret (httpsDispatcher d)
          end;
        if bool_decide (options.(Options_AuthenticationMode) = "mtls")
           && negb dispatcher.(Dispatcher_MutualTLSConfigured)
        then Throw ErrInvalid
        else Ret (mkClient dispatcher options)
  | _ => Throw ErrInvalid
  end.

(** [validGrant]; [now] is [options.Now().Unix()], the difference of the two times is taken
    in [int64]. *)
Definition validGrant (options : Options) (authorization : Authorization) (now : Z) : bool :=
  if MaximumInputBytes <? len authorization.(Auth_Input) then false
  else if negb (authorization.(Auth_ProtocolVersion) =? ProtocolVersion)
     || negb (bool_decide (authorization.(Auth_Kind) = "invocation"))
     || negb (bool_decide (authorization.(Auth_Scope) = options.(Options_Scope)))
     || negb (bool_decide (authorization.(Auth_BindingID) = options.(Options_BindingID)))
     || negb (authorization.(Auth_BindingRevision) =? options.(Options_BindingRevision))
     || negb (bool_decide (authorization.(Auth_Audience) = options.(Options_Audience)))
     || negb (bool_decide (authorization.(Auth_ManifestDigest) = options.(Options_ManifestDigest)))
     || negb (bool_decide (authorization.(Auth_Issuer) = options.(Options_Issuer)))
     || negb (clientIdentifier authorization.(Auth_ID) 256)
     || negb (clientIdentifier authorization.(Auth_Principal) 256)
     || negb (bool_decide (authorization.(Auth_Nonce) = ""))
     || bool_decide (authorization.(Auth_Function) = None)
     || (authorization.(Auth_IssuedAt) <=? 0) || (now <? authorization.(Auth_IssuedAt))
     || (authorization.(Auth_ExpiresAt) <=? now)
     || (authorization.(Auth_ExpiresAt) <=? authorization.(Auth_IssuedAt))
     || (300 <? i64 (authorization.(Auth_ExpiresAt) - authorization.(Auth_IssuedAt)))
     || negb (Valid authorization.(Auth_Input))
     || negb (bool_decide (authorization.(Auth_InputDigest) = Digest authorization.(Auth_Input)))
     || negb (bool_decide (authorization.(Auth_PolicyDigest) = ""))
        && negb (digest authorization.(Auth_PolicyDigest))
  then false
  else match authorization.(Auth_Function) with
  | None => false
  | Some function =>
      if negb (clientIdentifier function.(Function_Name) 128)
         || negb (clientIdentifier function.(Function_Version) 128)
         || negb (digest function.(Function_InputSchemaDigest))
         || negb (digest function.(Function_OutputSchemaDigest))
         || (128 <? len authorization.(Auth_Resources))
         || (64 <? len authorization.(Auth_Capabilities))
      then false
      else forallb (fun value => clientIdentifier value 256)
             (authorization.(Auth_Resources) ++ authorization.(Auth_Capabilities))
  end.

(** The single dispatch of a grant. *)
Definition dispatchOnce (client : Client) (call : Dispatched) : outcome bridge_error SignedMessage :=
  (if call.(Dispatched_mutual) then client.(Client_dispatcher).(Dispatcher_SendMutualTLS)
   else client.(Client_dispatcher).(Dispatcher_Send))
    call.(Dispatched_deadline) call.(Dispatched_endpoint) call.(Dispatched_operation)
    call.(Dispatched_message).

(** [Invoke]: the result, the error, and what was dispatched. [cancelled] is the error of
    the context before the dispatch, [now] and [later] are the readings of the clock. *)
Definition Invoke (client : Client) (cancelled : bool) (now later : Z) (message : SignedMessage)
    : Result * option bridge_error * list Dispatched :=
  let options := client.(Client_options) in
  match options.(Options_TrustedKeys) !! message.(KeyID) with
  | None => (Result_zero, Some ErrUnauthorized, [])
  | Some key =>
      match VerifyAuthorization message key with
      | Ret (authorization, raw) =>
          if negb (validGrant options authorization (Unix now))
          then (Result_zero, Some ErrUnauthorized, [])
          else if cancelled then (Result_zero, Some ErrUnavailable, [])
          else
            let call := mkDispatched (bool_decide (options.(Options_AuthenticationMode) = "mtls"))
              authorization.(Auth_ExpiresAt) options.(Options_EndpointURL) "invoke" message in
            match dispatchOnce client call with
            | Ret response =>
                if negb (bool_decide (response.(KeyID) = options.(Options_SigningKeyID)))
                then (Result_zero, Some ErrOutcomeUnknown, [call])
                else match VerifyResult response options.(Options_SigningPublicKey)
                             authorization raw with
                | Ret result =>
                    if (result.(Result_CompletedAt) <=? 0)
                       || (i64 (Unix later + 5) <? result.(Result_CompletedAt))
                    then (Result_zero, Some ErrOutcomeUnknown, [call])
                    else if negb (bool_decide (result.(Result_ErrorCode) = ""))
                            || negb (Valid result.(Result_Output))
                    then (result, Some ErrOutcomeUnknown, [call])
                    else (result, None, [call])
                | _ => (Result_zero, Some ErrOutcomeUnknown, [call])
                end
            | _ => (Result_zero, Some ErrOutcomeUnknown, [call])
            end
      | _ => (Result_zero, Some ErrUnauthorized, [])
      end
  end.

End Client.

(** * Lemmas *)
Lemma clientIdentifier_identifier value maximum :
  clientIdentifier value maximum = identifier value maximum.
Proof. symmetry. apply identifier_existsb. Qed.

Lemma digest_isDigest value : digest value = isDigest value.
Proof. symmetry. apply isDigest_hexDecode. Qed.

Section Lemmas.
Context `{!Ed25519} `{!RawJson} `{!RawJsonLaws} `{!Json (list Function)} `{!Json Authorization}
  `{!Json Result} `{!Json SignedMessage}.

Lemma register_functions registrations fs hs fs' hs' :
  register registrations fs hs = Ret (fs', hs') →
  (∀ f, is_Some (hs !! f) → f ∈ fs) → ∀ f, is_Some (hs' !! f) → f ∈ fs'.
Proof.
  revert fs hs. induction registrations as [|r rest IH]; intros fs hs; simpl.
  { by intros [= <- <-]. }
  destruct (Registration_Handler r) as [h|]; [|done]. intros Hr Hin. apply (IH _ _ Hr).
  intros f. rewrite elem_of_app, list_elem_of_singleton.
  destruct (decide (f = Registration_Function r)) as [->|Hne]; [auto|].
  rewrite lookup_insert_ne by done. auto.
Qed.

Lemma ManifestDigest_valid fs version d :
  ManifestDigest (mkManifest fs version) = Ret d → ∀ f, f ∈ fs → validFunction f = true.
Proof.
  unfold ManifestDigest, manifestDigestSorted. destruct (_ || _); [done|].
  destruct (checkFunctions _ _) eqn:Hc; simpl; [|done]. intros _ f Hf.
  apply checkFunctions_None in Hc as [Hv _]; [|apply Sorted_merge_sort; apply _].
  rewrite Forall_forall in Hv. apply Hv. by rewrite merge_sort_Permutation.
Qed.

(** Every function a runtime registered passed the checks of the manifest. *)
Lemma registered_valid c rt f h :
  NewRuntime c = Ret rt → rt.(functions) !! f = Some h → validFunction f = true.
Proof.
  unfold NewRuntime. destruct (_ || negb c.(Config_Authorize)); [done|].
  destruct (negb (bool_decide (map_Forall _ _))); [done|].
  intros ([fs hs] & Hr & Hc)%bind_Ret_inv. apply bind_Ret_inv in Hc as (d & Hd & Hc).
  cbv zeta in Hc. destruct ((_ <? 0) || _); [done|]. injection Hc as <-. simpl. intros Hf.
  apply (ManifestDigest_valid _ _ _ Hd), (register_functions _ _ _ _ _ Hr); [|by eexists].
  intros g [? Hg]. by rewrite lookup_empty in Hg.
Qed.

(** A client configured for the binding that a runtime serves. *)
Definition serves (rt : Runtime) (o : Options) : Prop :=
  o.(Options_Scope) = rt.(config).(Config_Scope)
  ∧ o.(Options_BindingID) = rt.(config).(Config_BindingID)
  ∧ o.(Options_BindingRevision) = rt.(config).(Config_BindingRevision)
  ∧ o.(Options_Audience) = rt.(config).(Config_Audience)
  ∧ o.(Options_Issuer) = rt.(config).(Config_Issuer)
  ∧ o.(Options_ManifestDigest) = rt.(manifestDigest).

(** The caller and the callee judge grants alike. For a client configured for the binding
    of a runtime, the grants that the runtime accepts for an invocation at some time are
    exactly those that the client accepts at that time and whose function the runtime has
    registered. The two routines are written independently in the two packages. *)
Theorem grant_agreement c rt o a now :
  NewRuntime c = Ret rt → serves rt o →
  validAuthorization rt a "/v1/functions/invoke" now =
  validGrant o a now && bool_decide (is_Some (a.(Auth_Function) ≫= fun f => rt.(functions) !! f)).
Proof.
  intros Hrt (Hs & Hb & Hr & Ha & Hi & Hm). unfold validAuthorization, validGrant.
  rewrite !clientIdentifier_identifier, !digest_isDigest, Hs, Hb, Hr, Ha, Hi, Hm, !if_false,
    (bool_decide_eq_false_2 ("/v1/functions/invoke" = "/v1/functions/challenge")) by done.
  destruct (Auth_Function a) as [f|]; simpl option_bind; simpl mbind;
    [|by rewrite !andb_false_r].
  rewrite !clientIdentifier_identifier, !digest_isDigest, !if_false, forallb_app.
  rewrite (bool_decide_eq_false_2 (Some f = None)) by done.
  rewrite !(forallb_ext (fun value => clientIdentifier value 256) (fun value => identifier value 256))
    by (intros; apply clientIdentifier_identifier).
  assert (Hin : len a.(Auth_Input) = 0 → Valid a.(Auth_Input) = false).
  { intros Hl. destruct a.(Auth_Input); [apply Valid_nil|unfold len in Hl; simpl in Hl; lia]. }
  assert (Hf : bool_decide (rt.(functions) !! f = None) = false → validFunction f = true).
  { intros [h Hh]%bool_decide_eq_false%not_eq_None_Some. by eapply registered_valid. }
  assert (Hreg : bool_decide (is_Some (rt.(functions) !! f)) =
      negb (bool_decide (rt.(functions) !! f = None))).
  { rewrite <- bool_decide_not. apply bool_decide_ext. by rewrite not_eq_None_Some. }
  rewrite Hreg.
  unfold validFunction in Hf. rewrite !andb_true_iff in Hf.
  apply eq_true_iff_eq.
  rewrite !andb_true_iff, !negb_true_iff, !orb_false_iff, !andb_false_iff, !negb_false_iff.
  destruct (Z.eqb_spec (len a.(Auth_Input)) 0) as [Hz|Hz].
  { rewrite (Hin Hz). clear. naive_solver. }
  clear -Hf. naive_solver.
Qed.

(** C8: one dispatch and no false certainty. [Invoke] reports that nothing happened
    ([ErrUnauthorized], [ErrUnavailable]) only if it dispatched nothing; once it has
    dispatched, which it does once, with the message unchanged, until the expiry of the grant
    and by mutual TLS exactly in that mode, it returns [ErrOutcomeUnknown] or a result that
    the configured key signed for this grant, completed no later than five seconds from now,
    without an error and with valid JSON. *)
Theorem invoke_contract client cancelled now later message r err calls :
  Invoke client cancelled now later message = (r, err, calls) →
  (calls = [] ∧ r = Result_zero ∧ (err = Some ErrUnauthorized ∨ err = Some ErrUnavailable))
  ∨ ∃ key a raw call, client.(Client_options).(Options_TrustedKeys) !! message.(KeyID) = Some key
    ∧ VerifyAuthorization message key = Ret (a, raw)
    ∧ validGrant client.(Client_options) a (Unix now) = true ∧ cancelled = false
    ∧ call = mkDispatched
        (bool_decide (client.(Client_options).(Options_AuthenticationMode) = "mtls"))
        a.(Auth_ExpiresAt) client.(Client_options).(Options_EndpointURL) "invoke" message
    ∧ calls = [call]
    ∧ (err = Some ErrOutcomeUnknown
       ∨ err = None ∧ ∃ response, dispatchOnce client call = Ret response
         ∧ response.(KeyID) = client.(Client_options).(Options_SigningKeyID)
         ∧ VerifyResult response client.(Client_options).(Options_SigningPublicKey) a raw = Ret r
         ∧ 0 < r.(Result_CompletedAt) <= i64 (Unix later + 5)
         ∧ r.(Result_ErrorCode) = "" ∧ Valid r.(Result_Output) = true).
Proof.
  unfold Invoke. destruct (_ !! KeyID message) as [key|]; [|intros [= <- <- <-]; auto].
  destruct (VerifyAuthorization message key) as [[a raw]| | |] eqn:Hv;
    try (intros [= <- <- <-]; auto).
  destruct (validGrant _ a _) eqn:Hg; simpl; [|intros [= <- <- <-]; auto].
  destruct cancelled; [intros [= <- <- <-]; auto|].
  intros Hi. right. exists key, a, raw. eexists. do 5 (split; [done|]).
  destruct (dispatchOnce _ _) as [response| | |] eqn:Hd; try by injection Hi as <- <- <-; auto.
  case_bool_decide as Hk; simpl in Hi; [|by injection Hi as <- <- <-; auto].
  destruct (VerifyResult response _ a raw) as [result| | |] eqn:Hr;
    try by injection Hi as <- <- <-; auto.
  destruct ((Result_CompletedAt result <=? 0) || _) eqn:Ht; [by injection Hi as <- <- <-; auto|].
  destruct (negb (bool_decide (Result_ErrorCode result = "")) || _) eqn:He;
    injection Hi as <- <- <-; [by auto|]. split; [done|]. right. split; [done|].
  breflect. eauto 10 with lia.
Qed.

Context `{!Ed25519Laws} `{!JsonLaws Result cleanResult} (ParseMediaType : string → option string).
Context {S : Type} `{!ExecutionStore S} `{!ExecutionStoreLaws S}.

(** What [Invoke] makes of an answer that verifies as a result with valid output. *)
Lemma Invoke_verified client key message a raw now later m r :
  let o := client.(Client_options) in
  let call := mkDispatched (bool_decide (o.(Options_AuthenticationMode) = "mtls"))
    a.(Auth_ExpiresAt) o.(Options_EndpointURL) "invoke" message in
  o.(Options_TrustedKeys) !! message.(KeyID) = Some key →
  VerifyAuthorization message key = Ret (a, raw) → validGrant o a (Unix now) = true →
  dispatchOnce client call = Ret m → m.(KeyID) = o.(Options_SigningKeyID) →
  VerifyResult m o.(Options_SigningPublicKey) a raw = Ret r →
  (r.(Result_ErrorCode) = "" → Valid r.(Result_Output) = true) →
  Invoke client false now later message =
    (if (0 <? r.(Result_CompletedAt)) && (r.(Result_CompletedAt) <=? i64 (Unix later + 5))
     then (r, if bool_decide (r.(Result_ErrorCode) = "") then None else Some ErrOutcomeUnknown)
     else (Result_zero, Some ErrOutcomeUnknown), [call]).
Proof.
  cbv zeta. intros Hok Hva Hg Hd Hkid Hvr Hvalid. unfold Invoke. rewrite Hok, Hva, Hg, Hd.
  simpl negb. cbv iota. rewrite Hkid, Hvr, bool_decide_eq_true_2 by done. simpl negb. cbv iota.
  rewrite (Z.leb_antisym 0), (Z.leb_antisym (i64 _)).
  destruct (0 <? _), (_ <? r.(Result_CompletedAt)); try done. simpl.
  destruct (bool_decide_reflect (r.(Result_ErrorCode) = "")) as [Hcode|]; simpl; [|done].
  by rewrite Hvalid.
Qed.

(** C6: caller and callee together. A client sends a grant that it accepts, the dispatcher
    delivers it as the body of a request to a runtime of the same binding, which serves it
    among any other requests and restarts since its journal was empty, and the dispatcher
    returns the signed answer. Then the answer verifies as the result [r] for this
    very grant, whether its handler ran or [r] was stored. If [r] was completed at a
    positive time, no more than five seconds after the client's clock, [Invoke] returns [r],
    without an error exactly if [r] has no error code; otherwise it reports that the outcome
    is unknown and returns no result. *)
Theorem invoke_end_to_end rt client seed key message a raw now later s y i request body tr y' m :
  let o := client.(Client_options) in
  let call := mkDispatched (bool_decide (o.(Options_AuthenticationMode) = "mtls"))
    a.(Auth_ExpiresAt) o.(Options_EndpointURL) "invoke" message in
  built rt → rt.(config).(Config_SigningKey) = NewKeyFromSeed seed → len seed = SeedSize →
  o.(Options_SigningPublicKey) = Public (NewKeyFromSeed seed) →
  o.(Options_SigningKeyID) = rt.(config).(Config_SigningKeyID) →
  o.(Options_TrustedKeys) !! message.(KeyID) = Some key →
  rt.(config).(Config_TrustedKeys) !! message.(KeyID) = Some key →
  VerifyAuthorization message key = Ret (a, raw) → validGrant o a (Unix now) = true →
  request.(Request_Body) = Some body → strictJSON body = Ret message →
  store_ok s → journal s = ∅ →
  rtc (sys_step (requestOf ParseMediaType rt)) (mkSystem s [] []) y →
  y.(sys_requests) !! i = Some (ServeHTTP ParseMediaType rt request) →
  follow (requestOf ParseMediaType rt) i y tr y' →
  y'.(sys_requests) !! i = Some (Done (mkHttpResponse 200 headers (BodyMessage m))) →
  dispatchOnce client call = Ret m →
  ∃ r, VerifyResult m (Public (NewKeyFromSeed seed)) a raw = Ret r
    ∧ r.(Result_ID) = a.(Auth_ID) ∧ r.(Result_AuthorizationDigest) = Digest raw
    ∧ Invoke client false now later message =
      (if (0 <? r.(Result_CompletedAt)) && (r.(Result_CompletedAt) <=? i64 (Unix later + 5))
       then (r, if bool_decide (r.(Result_ErrorCode) = "") then None else Some ErrOutcomeUnknown)
       else (Result_zero, Some ErrOutcomeUnknown), [call]).
Proof.
  cbv zeta. intros Hb Hkey Hseed Hpub Hid Hok Hrk Hva Hg Hbody Hjson Hsok He Hr Hi Hf Hdone Hd.
  destruct (follow_path _ _ _ _ _ _ Hf Hi) as (q & Hq & Hp). rewrite Hdone in Hq. injection Hq as <-.
  destruct (signed_answer ParseMediaType rt request tr _ Hb Hp eq_refl
    (follow_owned _ _ _ _ _ _ _ Hb Hsok He Hr Hf))
    as (message' & a' & raw' & r & Hv & Hs & Hres & Hdig & Hcanon).
  assert (Hver : verified rt request message a raw) by (by exists body, key).
  destruct (verified_unique _ _ _ _ _ _ _ _ Hv Hver) as (-> & -> & ->).
  destruct (sent_verifies _ _ _ _ _ _ Hkey Hseed Hres Hdig Hs) as (m' & out & [= <-] & Hkid & Hout & Hvr).
  exists (withOutput r out). split; [done|]. split; [apply Hres|]. split; [done|].
  apply (Invoke_verified client key message a raw now later m); try congruence.
  intros Hcode. eapply canonical_valid; [|exact Hout]. apply Hcanon; [|done].
  intros Hch. revert Hg. unfold validGrant. rewrite Hch. destruct (_ <? _); [done|].
  rewrite (bool_decide_eq_false_2 ("challenge" = "invocation")) by done.
  simpl negb. rewrite orb_true_r. done.
Qed.

End Lemmas.

(** * Examples *)
Module ClientSamples.
Import Protocol.Samples RuntimeSamples.

(** A client of the binding that [runtime1] serves, over a given dispatcher. *)
Definition options1 (d : Dispatcher) : Options :=
  mkOptions None (Some d) {["control:1" := Public (NewKeyFromSeed seed)]} scope
    runtime1.(manifestDigest) "https://functions.example" "control" "runtime:1" "runtime" "binding"
    "signed_https" (Public (NewKeyFromSeed seed)) 1.

Definition offline : Dispatcher :=
  mkDispatcherOps (fun _ _ _ _ => Throw ErrUnavailable) (fun _ _ _ _ => Throw ErrUnavailable) false.

(** A dispatcher that brings back a given answer. *)
Definition answering (m : SignedMessage) : Dispatcher :=
  mkDispatcherOps (fun _ _ _ _ => Ret m) (fun _ _ _ _ => Throw ErrUnavailable) false.

Definition url1 (s : string) : option URL :=
  Some (mkURL "https" false "functions.example" "functions.example" "" "" "" "" "" false "" s).

(** The options are accepted; in mutual TLS mode they are not, since the dispatcher has no
    certificate. *)
Example options1_accepted :
  returns (New url1 URL_String (fun _ => None) (fun _ _ _ _ => DispatchFails) (options1 offline)) = true.
Proof. vm_compute. reflexivity. Qed.

Lemma runtime1_config : runtime1.(config) = withTimeout configuration (30 * Second).
Proof. vm_compute. reflexivity. Qed.

Lemma serves1 d : serves runtime1 (options1 d).
Proof. unfold serves. rewrite runtime1_config. repeat split. Qed.

Lemma grant_agreement_witness :
  validAuthorization runtime1 grant1 "/v1/functions/invoke" 1100 =
  validGrant (options1 offline) grant1 1100
  && bool_decide (is_Some (grant1.(Auth_Function) ≫= fun f => runtime1.(functions) !! f)).
Proof.
  exact (grant_agreement configuration runtime1 (options1 offline) grant1 1100 runtime1_new
    (serves1 offline)).
Defined.

Lemma grant1_valid d : validGrant (options1 d) grant1 (Unix t1100) = true.
Proof. vm_compute. reflexivity. Qed.

Definition call1 : Dispatched :=
  mkDispatched false 1300 "https://functions.example" "invoke" message1.

Definition key1 : list byte := Public (NewKeyFromSeed seed).

(** What the end-to-end example needs of the sample message, as one computation. *)
Definition checks (message : SignedMessage) (key : list byte) (a : Authorization) (raw : list byte)
    (request : HttpRequest) : bool :=
  match VerifyAuthorization message key with
  | Ret (a', raw') => bool_decide (a' = a ∧ raw' = raw)
  | _ => false
  end
  && match request.(Request_Body) with
     | Some body => match strictJSON body with Ret m => bool_decide (m = message) | _ => false end
     | None => false
     end.

Lemma checks_facts message key a raw request :
  checks message key a raw request = true →
  VerifyAuthorization message key = Ret (a, raw)
  ∧ ∃ body, request.(Request_Body) = Some body ∧ strictJSON body = Ret message.
Proof.
  intros [Hv Hb]%andb_true_iff. split.
  - destruct (VerifyAuthorization message key) as [[a' raw']| | |]; try discriminate Hv.
    by apply bool_decide_eq_true in Hv as [-> ->].
  - destruct (Request_Body request) as [body|]; [|done]. exists body. split; [done|].
    destruct (strictJSON body); try done. by apply bool_decide_eq_true in Hb as ->.
Qed.

Lemma message1_checks : checks message1 key1 grant1 raw1 request1 = true.
Proof. vm_compute. reflexivity. Qed.

Lemma invoke_contract_witness :
  Invoke (mkClient offline (options1 offline)) false t1100 t1100 message1
    = (Result_zero, Some ErrOutcomeUnknown, [call1])
  ∧ validGrant (options1 offline) grant1 (Unix t1100) = true.
Proof.
  assert (Hi : Invoke (mkClient offline (options1 offline)) false t1100 t1100 message1
    = (Result_zero, Some ErrOutcomeUnknown, [call1])) by (vm_compute; reflexivity).
  split; [exact Hi|].
  destruct (invoke_contract _ _ _ _ _ _ _ _ Hi)
    as [(Hcalls & _)|(key & a & raw & call & _ & _ & _ & _ & _ & _ & _)].
  - discriminate Hcalls.
  - apply grant1_valid.
Defined.

Lemma message2_checks : checks message2 key1 grant2 raw2 request2 = true.
Proof. vm_compute. reflexivity. Qed.

Lemma runtime1_keys : runtime1.(config).(Config_SigningKeyID) = "runtime:1"
  ∧ runtime1.(config).(Config_TrustedKeys) !! message2.(KeyID) = Some key1
  ∧ (options1 offline).(Options_TrustedKeys) !! message2.(KeyID) = Some key1.
Proof. vm_compute. repeat split. Qed.

Lemma grant2_valid d : validGrant (options1 d) grant2 (Unix t1400) = true.
Proof. vm_compute. reflexivity. Qed.

(** The client asks again with the renewed grant and gets the stored result. *)
Lemma invoke_end_to_end_witness :
  ∃ m r calls, Invoke (mkClient (answering m) (options1 (answering m))) false t1400 t1400 message2
      = (if (0 <? r.(Result_CompletedAt)) && (r.(Result_CompletedAt) <=? i64 (Unix t1400 + 5))
         then (r, if bool_decide (r.(Result_ErrorCode) = "") then None else Some ErrOutcomeUnknown)
         else (Result_zero, Some ErrOutcomeUnknown), calls)
    ∧ r.(Result_ID) = "invocation:1".
Proof.
  destruct request2_replayed as (_ & Hr & m & Hf).
  destruct (checks_facts _ _ _ _ _ message2_checks) as (Hv & body & Hb & Hj).
  destruct runtime1_keys as (Hid & Hk & Ho). exists m.
  destruct (invoke_end_to_end mime runtime1 (mkClient (answering m) (options1 (answering m))) seed
    key1 message2 grant2 raw2 t1400 t1400 empty1 _ 0 request2 body labels3 _ m runtime1_built
    runtime1_key eq_refl eq_refl (eq_sym Hid) Ho Hk Hv (grant2_valid _) Hb Hj empty1_ok eq_refl Hr
    eq_refl Hf eq_refl eq_refl) as (r & _ & Hri & _ & Hi).
  exists r. eexists. split; [exact Hi|exact Hri].
Defined.

End ClientSamples.
