(* ===== verification/Lambda.v ===== *)
(** The Lambda entry point of a runtime: [bridge/lambda/handler.go].

    An API Gateway event is translated to a request of the function runtime. The constructor
    [http.NewRequestWithContext] is a parameter; base64 with the standard alphabet and
    padding is written out. *)
From S2P Require Import Prelude GoStd Sha256 Interfaces Protocol ExecutionStore Runtime.

(** * encoding/base64, the standard alphabet *)

(** It differs from the URL alphabet in the last two characters. *)
Definition stdEnc6 (z : Z) : byte :=
  if z =? 62 then x2b else if z =? 63 then x2f else enc6 z.

Definition stdDec6 (b : byte) : option Z :=
  if Byte.eqb b x2b then Some 62 else if Byte.eqb b x2f then Some 63
  else if Byte.eqb b x2d || Byte.eqb b x5f then None else dec6 b.

Definition padding (n : Z) : Z := (3 - n mod 3) mod 3.

Definition stdEncode (b : list byte) : list byte :=
  (stdEnc6 <$> sextets b) ++ replicate (Z.to_nat (padding (len b))) x3d.

(** Without the padding at the end, which the decoder requires. *)
Definition unpad (s : list byte) : list byte := rev (dropWhile (Byte.eqb x3d) (rev s)).

(** [StdEncoding.Strict().DecodeString]. *)
Definition stdDecode (s : list byte) : option (list byte) :=
  let s := filter (fun b => newline b = false) s in
  if negb (len s mod 4 =? 0) || (2 <? len s - len (unpad s)) then None
  else l ← mapM stdDec6 (unpad s); unsextets true l.

(** [StdEncoding.EncodedLen]. *)
Definition stdEncodedLen (n : Z) : Z := (n + 2) / 3 * 4.

(** * Data *)

(** The headers are in the order in which [range] visits the map. *)
Record Event : Type := mkEvent {
  Event_Headers : list (string * string);
  Event_Version : string;
  Event_RawPath : string;
  Event_RawQueryString : string;
  Event_Body : string;
  Event_Method : string;
  Event_IsBase64Encoded : bool
}.

(** The text of a body: a constant of the adapter, or what the runtime wrote. *)
Inductive event_body : Type :=
| TextBody (text : list byte)
| RecordedBody (body : response_body).

Record EventResponse : Type := mkEventResponse {
  EventResponse_Headers : gmap string string;
  EventResponse_Body : event_body;
  EventResponse_StatusCode : Z;
  EventResponse_IsBase64Encoded : bool
}.

(** The object with the member [code]. *)
Definition invalidText : list byte :=
  x7b :: x22 :: bytes_of "code" ++ [x22; x3a; x22] ++ bytes_of "invalid_request" ++ [x22; x7d].

Definition invalidResponse : EventResponse :=
  mkEventResponse {["Content-Type" := "application/json"; "Cache-Control" := "no-store"]}
    (TextBody invalidText) 400 false.

(** The response of the recorder. *)
Definition recorded (response : HttpResponse) : EventResponse :=
  mkEventResponse response.(Response_Headers) (RecordedBody response.(Response_Body))
    response.(Response_Status) false.

(** [Header.Add] for each header and [Header.Get] of the content type: header names are
    compared without regard to case, the first one wins. *)
Definition contentType (headers : list (string * string)) : string :=
  match List.find (fun h => bool_decide (ToLower h.1 = "content-type")) headers with
  | Some h => h.2
  | None => ""
  end.

Section Handler.
Context `{!Ed25519} `{!RawJson} `{!Json Authorization} `{!Json Result} `{!Json SignedMessage}.
Context (ParseMediaType : string → option string).
(** [http.NewRequestWithContext] for a method and a URL: the method, the path and the query of
    the request, or [None] on an error. *)
Context (NewRequest : string → string → option (string * string * string)).

(** The body of an event. *)
Definition eventBody (event : Event) : option (list byte) :=
  if event.(Event_IsBase64Encoded) then stdDecode (bytes_of event.(Event_Body))
  else Some (bytes_of event.(Event_Body)).

Definition eventURL (event : Event) : string :=
  let path := "https://function.invalid" +:+ event.(Event_RawPath) in
  if bool_decide (event.(Event_RawQueryString) = "") then path
  else path +:+ "?" +:+ event.(Event_RawQueryString).

(** [NewHandler]: the response at once, or the request program whose recorded response is
    returned. *)
Definition NewHandler (runtime : option Runtime) (event : Event) : EventResponse + prog :=
  match runtime with
  | None => inl invalidResponse
  | Some runtime =>
      if negb (bool_decide (event.(Event_Version) = "2.0"))
         || (stdEncodedLen MaximumBodyBytes <? slen event.(Event_Body))
         || negb (HasPrefix event.(Event_RawPath) "/")
         || ContainsAny event.(Event_RawPath) [x3f; x23; x0d; x0a]
      then inl invalidResponse
      else match eventBody event with
      | None => inl invalidResponse
      | Some body =>
          if MaximumBodyBytes <? len body then inl invalidResponse
          else match NewRequest event.(Event_Method) (eventURL event) with
          | None => inl invalidResponse
          | Some (method, path, query) =>
              inr (ServeHTTP ParseMediaType runtime
                     (mkHttpRequest method path query (contentType event.(Event_Headers)) (Some body)))
          end
      end
  end.

End Handler.

(** * Lemmas: base64 *)
Lemma stdDec6_stdEnc6 z : 0 <= z < 64 → stdDec6 (stdEnc6 z) = Some z ∧ stdEnc6 z ≠ x3d
  ∧ newline (stdEnc6 z) = false.
Proof.
  intros Hz.
  assert (Hall : forallb (fun n => let z := Z.of_nat n in
    bool_decide (stdDec6 (stdEnc6 z) = Some z) && negb (Byte.eqb (stdEnc6 z) x3d)
    && negb (newline (stdEnc6 z))) (seq 0 64) = true) by (vm_compute; reflexivity).
  rewrite forallb_forall in Hall. specialize (Hall (Z.to_nat z)).
  rewrite in_seq in Hall. specialize (Hall ltac:(lia)). cbv zeta in Hall.
  rewrite Z2Nat.id in Hall by lia. breflect. split; [done|]. split; [|done].
  intros He. by rewrite He in *.
Qed.

Lemma stdEnc6_stdDec6 b z :
  stdDec6 b = Some z → 0 <= z < 64 ∧ stdEnc6 z = b ∧ newline b = false.
Proof.
  intros Hb.
  pose proof (byte_forall (fun b => match stdDec6 b with
    | Some z => (0 <=? z) && (z <? 64) && Byte.eqb (stdEnc6 z) b && negb (newline b)
    | None => true end) ltac:(vm_compute; reflexivity) b) as Hall.
  simpl in Hall. rewrite Hb in Hall. breflect. split; [lia|]. split; [by apply Byte.byte_dec_bl|done].
Qed.

Lemma dropWhile_replicate {A} (p : A → bool) x n l :
  p x = true → dropWhile p (replicate n x ++ l) = dropWhile p l.
Proof. intros Hp. induction n as [|n IH]; simpl; [done|]. by rewrite Hp. Qed.

Lemma rev_replicate {A} n (x : A) : rev (replicate n x) = replicate n x.
Proof. rewrite rev_alt. change (rev_append (replicate n x) []) with (reverse (replicate n x)). apply reverse_replicate. Qed.

Lemma unpad_padded chars n :
  Forall (fun c => c ≠ x3d) chars → unpad (chars ++ replicate n x3d) = chars.
Proof.
  intros Hc. unfold unpad. rewrite rev_app_distr, rev_replicate, dropWhile_replicate by done.
  rewrite dropWhile_id; [apply rev_involutive|]. apply Forall_rev in Hc.
  destruct Hc as [|c l Hne _]; [done|]. destruct (Byte.eqb x3d c) eqn:He; [|done].
  apply Byte.byte_dec_bl in He. by rewrite He in Hne.
Qed.

Lemma unpad_split s : ∃ n, s = unpad s ++ replicate n x3d.
Proof.
  destruct (dropWhile_split (Byte.eqb x3d) (rev s)) as (k & Hs & Hk & _). exists (length k).
  rewrite <- (rev_involutive s) at 1. rewrite Hs, rev_app_distr. unfold unpad. f_equal.
  rewrite <- (rev_replicate (length k)). f_equal. clear Hs.
  induction Hk as [|c k Hc _ IH]; simpl; [done|]. apply Byte.byte_dec_bl in Hc as <-. by f_equal.
Qed.

Lemma filter_id {A} (P : A → Prop) `{∀ x, Decision (P x)} l : Forall P l → filter P l = l.
Proof. induction 1 as [|x l Hx _ IH]; [done|]. by rewrite filter_cons_True, IH. Qed.

Lemma length_sextets b : len (sextets b) = EncodedLen (len b).
Proof. rewrite <- length_rawURLEncode. unfold rawURLEncode, len. by rewrite length_fmap. Qed.

Lemma length_stdEncode b : len (stdEncode b) = stdEncodedLen (len b).
Proof.
  unfold stdEncode, stdEncodedLen, len. rewrite length_app, length_fmap, length_replicate.
  pose proof (length_sextets b) as Hs. unfold len, EncodedLen, padding in *. dm.
Qed.

Lemma mapM_stdDec6 l : Forall (fun z => 0 <= z < 64) l → mapM stdDec6 (stdEnc6 <$> l) = Some l.
Proof.
  intros Hl. apply mapM_fmap_Forall_Some. apply (Forall_impl _ _ _ Hl). intros z Hz.
  by apply stdDec6_stdEnc6.
Qed.

Lemma mapM_stdDec6_inv s l :
  mapM stdDec6 s = Some l → Forall (fun z => 0 <= z < 64) l ∧ stdEnc6 <$> l = s.
Proof.
  revert l. induction s as [|c s IH]; intros l; csimpl; [by intros [= <-]|].
  destruct (stdDec6 c) as [z|] eqn:Hc; simpl; [|done].
  destruct (mapM stdDec6 s) as [l'|]; simpl; [|done]. intros [= <-].
  destruct (IH l' eq_refl) as [Hr He]. apply stdEnc6_stdDec6 in Hc as (Hz & Hec & _).
  split; [by constructor|]. csimpl. by rewrite He, Hec.
Qed.

Lemma stdDecode_stdEncode b : stdDecode (stdEncode b) = Some b.
Proof.
  pose proof (sextets_range b) as Hr. unfold stdDecode.
  assert (Hf : filter (fun c => newline c = false) (stdEncode b) = stdEncode b).
  { apply filter_id. unfold stdEncode. apply Forall_app. split; [|by apply Forall_replicate].
    apply Forall_fmap. apply (Forall_impl _ _ _ Hr). intros z Hz. by apply stdDec6_stdEnc6. }
  assert (Hu : unpad (stdEncode b) = stdEnc6 <$> sextets b).
  { apply unpad_padded, Forall_fmap. apply (Forall_impl _ _ _ Hr). intros z Hz.
    by apply stdDec6_stdEnc6. }
  cbv zeta. rewrite Hf, Hu, length_stdEncode.
  destruct (negb _ || _) eqn:Hc; [exfalso|].
  - apply orb_true_iff in Hc. rewrite negb_true_iff, Z.eqb_neq, Z.ltb_lt in Hc.
    revert Hc. unfold stdEncodedLen. pose proof (length_sextets b) as Hs.
    unfold EncodedLen, len in *. rewrite length_fmap. dm.
  - rewrite mapM_stdDec6 by done. apply unsextets_sextets.
Qed.

(** Without line breaks, strict decoding is exactly the inverse of encoding. *)
Lemma stdDecode_strict s b :
  Forall (fun c => newline c = false) s → stdDecode s = Some b → s = stdEncode b.
Proof.
  intros Hs. unfold stdDecode. cbv zeta. rewrite filter_id by done.
  destruct (negb _ || _) eqn:Hc; [done|]. apply orb_false_iff in Hc as [Hfour Htwo].
  rewrite negb_false_iff, Z.eqb_eq in Hfour. rewrite Z.ltb_ge in Htwo.
  destruct (mapM stdDec6 (unpad s)) as [l|] eqn:Hm; simpl; [|done]. intros Hu.
  apply mapM_stdDec6_inv in Hm as [Hr He]. apply (sextets_unsextets l b Hr) in Hu as <-.
  destruct (unpad_split s) as [n Hn]. unfold stdEncode. rewrite He, Hn at 1. do 2 f_equal.
  assert (Hlen : len s = len (unpad s) + Z.of_nat n).
  { rewrite Hn at 1. unfold len. rewrite length_app, length_replicate. lia. }
  pose proof (length_sextets b) as Hl. rewrite <- He in Htwo, Hlen.
  unfold EncodedLen, padding, len in *. rewrite length_fmap in Htwo, Hlen. clear -Hfour Htwo Hlen Hl.
  dm.
Qed.

(** * Theorems *)
Section Theorems.
Context `{!Ed25519} `{!RawJson} `{!Json Authorization} `{!Json Result} `{!Json SignedMessage}.
Context (ParseMediaType : string → option string).
Context (NewRequest : string → string → option (string * string * string)).

(** An event with another body. *)
Definition withBody (event : Event) (base64 : bool) (body : string) : Event :=
  mkEvent event.(Event_Headers) event.(Event_Version) event.(Event_RawPath)
    event.(Event_RawQueryString) body event.(Event_Method) base64.

(** The Lambda entry point adds nothing to the runtime. What it runs is a request program
    of the runtime, so the guarantees for interleaved requests cover service and Lambda
    deployments over one store; the body of that request is the body of the event, or the
    one byte sequence that it encodes if it is encoded without line breaks; and encoding the
    body of an event does not change the request. *)
Theorem lambda_faithful rt event :
  (∀ p, NewHandler ParseMediaType NewRequest (Some rt) event = inr p →
     ∃ request body, p = ServeHTTP ParseMediaType rt request ∧ request.(Request_Body) = Some body
       ∧ len body <= MaximumBodyBytes ∧ requestOf ParseMediaType rt p
       ∧ (if event.(Event_IsBase64Encoded)
          then Forall (fun c => newline c = false) (bytes_of event.(Event_Body)) →
               event.(Event_Body) = string_of (stdEncode body)
          else event.(Event_Body) = string_of body))
  ∧ ∀ body, len body <= MaximumBodyBytes →
     NewHandler ParseMediaType NewRequest (Some rt)
       (withBody event true (string_of (stdEncode body))) =
     NewHandler ParseMediaType NewRequest (Some rt) (withBody event false (string_of body)).
Proof.
  split.
  - intros p. unfold NewHandler. destruct (_ || ContainsAny _ _); [done|].
    destruct (eventBody event) as [body|] eqn:Hb; [|done].
    destruct (Z.ltb_spec MaximumBodyBytes (len body)); [done|].
    destruct (NewRequest _ _) as [[[method path] query]|]; [|done]. intros [= <-].
    eexists _, body. do 3 (split; [done|]). split; [by eexists|].
    unfold eventBody in Hb. destruct (Event_IsBase64Encoded event).
    + intros Hn. apply bytes_of_inj. rewrite bytes_of_string_of. by apply stdDecode_strict.
    + injection Hb as <-. by rewrite string_of_bytes_of.
  - intros body Hlen. unfold NewHandler, withBody, eventBody, eventURL. cbn [Event_Version Event_Body
      Event_RawPath Event_IsBase64Encoded Event_Method Event_Headers Event_RawQueryString].
    rewrite !bytes_of_string_of, stdDecode_stdEncode. unfold slen. rewrite !bytes_of_string_of.
    rewrite !(proj2 (Z.ltb_ge (stdEncodedLen MaximumBodyBytes) _)); [done|..].
    + change MaximumBodyBytes with 16777216 in *. unfold stdEncodedLen. dm.
    + rewrite length_stdEncode. change MaximumBodyBytes with 16777216 in *. unfold stdEncodedLen. dm.
Qed.

End Theorems.

(** * Examples *)
Module LambdaSamples.
Import Protocol.Samples RuntimeSamples.

Definition newRequest (method url : string) : option (string * string * string) :=
  Some (method, TrimPrefix url "https://function.invalid", "").

(** The sample request of the runtime as an event. *)
Definition event1 : Event :=
  mkEvent [("x-request-id", "1"); ("content-type", "application/json")] "2.0"
    "/v1/functions/invoke" "" (string_of (stdEncode (bytes_of "[1]"))) "POST" true.

Definition program1 : prog :=
  ServeHTTP mime runtime1 (mkHttpRequest "POST" "/v1/functions/invoke" "" "application/json"
    (Some (bytes_of "[1]"))).

Lemma event1_served : NewHandler mime newRequest (Some runtime1) event1 = inr program1.
Proof. reflexivity. Qed.

Lemma lambda_faithful_witness :
  NewHandler mime newRequest (Some runtime1) event1 = inr program1
  ∧ requestOf mime runtime1 program1
  ∧ NewHandler mime newRequest (Some runtime1) event1
    = NewHandler mime newRequest (Some runtime1) (withBody event1 false "[1]").
Proof.
  destruct (lambda_faithful mime newRequest runtime1 event1) as [Hserve Hsame].
  split; [exact event1_served|]. split.
  - destruct (Hserve program1 event1_served) as (request & body & _ & _ & _ & Hr & _). exact Hr.
  - apply (Hsame (bytes_of "[1]")). vm_compute. discriminate.
Defined.

End LambdaSamples.
