(* ===== verification/Development.v ===== *)
(** Development connections, the messages: [bridge/development/protocol.go] and [proof.go].

    The frames of the tunnel with their decoder, the session of a connector, and the signed
    connection proof that obtains one. *)
From S2P Require Import Prelude GoStd Sha256 Interfaces Protocol Runtime Transport.

(** * Constants and data *)
Definition FrameVersion : Z := 1.
Definition MaxBodyBytes : Z := MaximumBodyBytes.
Definition MaxFrameBytes : Z := MaxBodyBytes + 4096.
Definition Subprotocol : string := "lotor-development-v1".
Definition connectionPurpose : string := "lotor-development-connect-v1" +:+ newlineString.

Record Session : Type := mkSession {
  Session_ConnectionID : string;
  Session_ConnectorURL : string;
  Session_Credential : string;
  Session_ExpiresAt : Z
}.

Record Frame : Type := mkFrame {
  Frame_Kind : string;
  Frame_ID : string;
  Frame_Operation : string;
  Frame_Credential : string;
  Frame_Body : list byte;
  Frame_Version : Z;
  Frame_Deadline : Z;
  Frame_Status : Z
}.

Record ConnectionProof : Type := mkConnectionProof {
  Proof_Scope : Scope;
  Proof_ConnectionID : string;
  Proof_BindingID : string;
  Proof_Nonce : string;
  Proof_IssuedAt : Z;
  Proof_ExpiresAt : Z
}.

#[global] Instance Frame_eq_dec : EqDecision Frame.
Proof. solve_decision. Defined.
#[global] Instance Session_eq_dec : EqDecision Session.
Proof. solve_decision. Defined.
#[global] Instance ConnectionProof_eq_dec : EqDecision ConnectionProof.
Proof. solve_decision. Defined.

(** * Frames *)
Section Frames.
Context `{!RawJson} `{!Json Frame}.

(** The loop over the runes of a frame's identifier. *)
Definition frameID (id : string) : bool :=
  forallb (fun c => (97 <=? c) && (c <=? 122) || (48 <=? c) && (c <=? 57) || (c =? 95)) (runes id).

(** The [switch] over the kinds. *)
Definition frameFields (frame : Frame) : bool :=
  let kind := frame.(Frame_Kind) in
  if bool_decide (kind = "authenticate") then
    negb (negb (bool_decide (frame.(Frame_ID) = "")) || negb (bool_decide (frame.(Frame_Operation) = ""))
          || negb (frame.(Frame_Deadline) =? 0) || negb (frame.(Frame_Status) =? 0)
          || negb (len frame.(Frame_Body) =? 0) || bool_decide (frame.(Frame_Credential) = "")
          || (8192 <? slen frame.(Frame_Credential)))
  else if bool_decide (kind = "ready") then
    negb (negb (bool_decide (frame.(Frame_ID) = "")) || negb (bool_decide (frame.(Frame_Operation) = ""))
          || negb (frame.(Frame_Deadline) =? 0) || negb (frame.(Frame_Status) =? 0)
          || negb (len frame.(Frame_Body) =? 0))
  else if bool_decide (kind = "request") then
    negb (bool_decide (frame.(Frame_ID) = "")
          || negb (bool_decide (frame.(Frame_Operation) = "challenge"))
             && negb (bool_decide (frame.(Frame_Operation) = "invoke"))
          || (frame.(Frame_Deadline) <=? 0) || negb (frame.(Frame_Status) =? 0)
          || negb (Valid frame.(Frame_Body)))
  else if bool_decide (kind = "response") then
    negb (bool_decide (frame.(Frame_ID) = "") || negb (bool_decide (frame.(Frame_Operation) = ""))
          || negb (frame.(Frame_Deadline) =? 0) || (frame.(Frame_Status) <? 200)
          || (599 <? frame.(Frame_Status)) || negb (Valid frame.(Frame_Body)))
  else if bool_decide (kind = "cancel") then
    negb (bool_decide (frame.(Frame_ID) = "") || negb (bool_decide (frame.(Frame_Operation) = ""))
          || negb (frame.(Frame_Deadline) =? 0) || negb (frame.(Frame_Status) =? 0)
          || negb (len frame.(Frame_Body) =? 0))
  else false.

(** The checks of [DecodeFrame] on a decoded frame. *)
Definition checkFrame (frame : Frame) : bool :=
  if negb (frame.(Frame_Version) =? FrameVersion) || (64 <? slen frame.(Frame_ID))
     || (MaxBodyBytes <? len frame.(Frame_Body))
  then false
  else if negb (frameID frame.(Frame_ID)) then false
  else if negb (bool_decide (frame.(Frame_Kind) = "authenticate"))
          && negb (bool_decide (frame.(Frame_Credential) = ""))
  then false
  else frameFields frame.

Definition DecodeFrame (raw : list byte) : outcome bridge_error Frame :=
  if MaxFrameBytes <? len raw then Throw ErrInvalid
  else match strictJSON raw with
  | Ret frame => if checkFrame frame then Ret frame else Throw ErrInvalid
  | _ => Throw ErrInvalid
  end.

End Frames.

(** * Connection proofs *)

(** The loop over [value[4:]] takes the runes of the rest of the string. *)
Definition connectionIdentifier (value : string) : bool :=
  if negb (HasPrefix value "dvc_") || (slen value <=? 4) || (256 <? slen value) then false
  else forallb (fun c => (97 <=? c) && (c <=? 122) || (48 <=? c) && (c <=? 57))
         (runes (string_of (drop 4 (bytes_of value)))).

(** [ExpiresAt-IssuedAt] is a difference of [int64]. *)
Definition validProof (proof : ConnectionProof) : bool :=
  if negb (connectionIdentifier proof.(Proof_ConnectionID)) then false
  else if existsb (fun value =>
         bool_decide (value = "") || (256 <? slen value)
         || existsb (fun c => (c <=? 32) || (127 <=? c)) (runes value))
       [proof.(Proof_Scope).(Scope_TenantID); proof.(Proof_Scope).(Scope_ApplicationID);
        proof.(Proof_Scope).(Scope_EnvironmentID); proof.(Proof_Scope).(Scope_OwnerResource);
        proof.(Proof_ConnectionID); proof.(Proof_BindingID); proof.(Proof_Nonce)]
  then false
  else (0 <? proof.(Proof_IssuedAt)) && (proof.(Proof_IssuedAt) <? proof.(Proof_ExpiresAt))
       && (i64 (proof.(Proof_ExpiresAt) - proof.(Proof_IssuedAt)) <=? 30).

Section Proofs.
Context `{!Ed25519} `{!Json ConnectionProof}.

Definition SignConnectionProof (proof : ConnectionProof) (keyID : string) (key : list byte)
    : outcome bridge_error SignedMessage :=
  if negb (len key =? PrivateKeySize) || negb (validProof proof) || bool_decide (keyID = "")
     || (256 <? slen keyID)
  then Throw ErrInvalid
  else match Marshal proof with
  | None => Throw ErrInvalid
  | Some raw =>
      Ret (mkSignedMessage keyID (string_of (rawURLEncode raw))
             (string_of (rawURLEncode (Sign key (bytes_of connectionPurpose ++ raw)))))
  end.

Definition UnverifiedConnectionProof (message : SignedMessage)
    : outcome bridge_error ConnectionProof :=
  if 8192 <? slen message.(Payload) then Throw ErrUnauthorized
  else match rawURLDecode true (bytes_of message.(Payload)) with
  | None => Throw ErrUnauthorized
  | Some raw =>
      match strictJSON raw with
      | Ret proof => if validProof proof then Ret proof else Throw ErrUnauthorized
      | _ => Throw ErrUnauthorized
      end
  end.

(** [ed25519.Verify] refuses a signature of another length; [now] is in seconds. *)
Definition VerifyConnectionProof (message : SignedMessage) (keyID : string) (key : list byte)
    (now : Z) : outcome bridge_error ConnectionProof :=
  match UnverifiedConnectionProof message with
  | Ret proof =>
      if negb (len key =? PublicKeySize) || negb (bool_decide (message.(KeyID) = keyID))
         || (now <? proof.(Proof_IssuedAt)) || (proof.(Proof_ExpiresAt) <=? now)
      then Throw ErrUnauthorized
      else match rawURLDecode true (bytes_of message.(Payload)) with
      | None => Throw ErrUnauthorized
      | Some raw =>
          match rawURLDecode true (bytes_of message.(Signature)) with
          | None => Throw ErrUnauthorized
          | Some signature =>
              if Verify key (bytes_of connectionPurpose ++ raw) signature then Ret proof
              else Throw ErrUnauthorized
          end
      end
  | _ => Throw ErrUnauthorized
  end.

End Proofs.

(** * Sessions *)
Section Sessions.
Context (Parse : string → option URL) (ParseAddr : string → option Addr).

Definition Microsecond : Z := 1000.
Definition Minute : Z := 60 * Second.

(** [time.Time.UnixMicro] and [time.UnixMicro], for times in nanoseconds. *)
Definition UnixMicro (t : Z) : Z := i64 (t / Microsecond).
Definition ofUnixMicro (t : Z) : Z := t * Microsecond.

(** [validSession] with its two readings of the clock. *)
Definition validSession (session : Session) (now later : Z) : bool :=
  if negb (connectionIdentifier session.(Session_ConnectionID))
     || bool_decide (session.(Session_Credential) = "")
     || (8192 <? slen session.(Session_Credential))
     || ContainsAny session.(Session_Credential) [x20; x0d; x0a; x09]
     || negb (HasPrefix session.(Session_ConnectorURL) "wss://")
     || (session.(Session_ExpiresAt) <=? UnixMicro now)
     || (UnixMicro (later + 5 * Minute) <? session.(Session_ExpiresAt))
  then false
  else match ValidateEndpoint Parse ParseAddr
               ("https://" +:+ TrimPrefix session.(Session_ConnectorURL) "wss://") with
  | Ret parsed =>
      negb (bool_decide (session.(Session_ConnectionID) = ""))
      && bool_decide (parsed.(URL_Path) =
           "/v1/development-connections/" +:+ session.(Session_ConnectionID) +:+ "/connect")
  | _ => false
  end.

(** [sessionRefreshAt]: halfway to the expiry, at most a minute from now. The division of
    durations truncates. *)
Definition sessionRefreshAt (session : Session) (now : Z) : Z :=
  now + Z.min Minute (Z.quot (ofUnixMicro session.(Session_ExpiresAt) - now) 2).

End Sessions.

(** * The type of frames *)
Definition frameByte (b : byte) : bool :=
  (97 <=? byteZ b) && (byteZ b <=? 122) || (48 <=? byteZ b) && (byteZ b <=? 57) || (byteZ b =? 95).

(** An identifier of a frame: 1 to 64 lower-case letters, digits or underscores. *)
Definition frame_id (id : string) : Prop :=
  1 <= slen id <= 64 ∧ forallb frameByte (bytes_of id) = true.

Section FrameType.
Context `{!RawJson}.

Definition frame_body (body : list byte) : Prop := Valid body = true ∧ len body <= MaxBodyBytes.

(** The frames of the protocol, one constructor per kind, with the fields that kind has. *)
Inductive frame_ok : Frame → Prop :=
| ok_authenticate credential :
    1 <= slen credential <= 8192 →
    frame_ok (mkFrame "authenticate" "" "" credential [] 1 0 0)
| ok_ready : frame_ok (mkFrame "ready" "" "" "" [] 1 0 0)
| ok_request id operation body deadline :
    frame_id id → operation = "challenge" ∨ operation = "invoke" → frame_body body → 0 < deadline →
    frame_ok (mkFrame "request" id operation "" body 1 deadline 0)
| ok_response id body status :
    frame_id id → frame_body body → 200 <= status <= 599 →
    frame_ok (mkFrame "response" id "" "" body 1 0 status)
| ok_cancel id : frame_id id → frame_ok (mkFrame "cancel" id "" "" [] 1 0 0).

Lemma frameID_bytes id : frameID id = forallb frameByte (bytes_of id).
Proof.
  unfold frameID. apply (runes_forallb (fun c =>
    (97 <=? c) && (c <=? 122) || (48 <=? c) && (c <=? 57) || (c =? 95))). intros z Hz. lia.
Qed.

Lemma len_nil {A} (l : list A) : len l = 0 → l = [].
Proof. destruct l; [done|]. unfold len. simpl. lia. Qed.

Lemma slen_pos s : s ≠ "" ↔ 1 <= slen s.
Proof. rewrite slen_empty. unfold slen, len. lia. Qed.

(** The checks of the decoder are the type. *)
Lemma checkFrame_ok frame : checkFrame frame = true ↔ frame_ok frame.
Proof.
  destruct frame as [kind id op cred body version deadline status].
  unfold checkFrame, frameFields. cbn [Frame_Kind Frame_ID Frame_Operation Frame_Credential
    Frame_Body Frame_Version Frame_Deadline Frame_Status]. rewrite frameID_bytes. split.
  - destruct (_ || (MaxBodyBytes <? _)) eqn:Hg; [done|].
    destruct (forallb frameByte (bytes_of id)) eqn:Hid; simpl; [|done].
    destruct (negb (bool_decide (kind = "authenticate")) && _) eqn:Hc; [done|].
    intros Hf. breflect. unfold FrameVersion in *.
    assert (Hcred : kind ≠ "authenticate" → cred = "").
    { intros Hk. rewrite bool_decide_eq_false_2 in Hc by done. simpl in Hc. by breflect. }
    repeat case_bool_decide; try done; simpl in Hf; breflect; subst;
      try rewrite Hcred by done;
      repeat match goal with H : len _ = 0 |- _ => apply len_nil in H end; subst;
      repeat match goal with H : _ ≠ "" |- _ => apply slen_pos in H end; simplify_eq;
      constructor; unfold frame_id, frame_body; try done; try lia.
    all: auto.
  - assert (Hmax : 0 <= MaxBodyBytes) by (vm_compute; discriminate).
    inversion 1; subst; unfold frame_id, frame_body, FrameVersion in *; simpl Z.eqb; simpl negb;
      repeat match goal with
      | H : _ ∧ _ |- _ => destruct H
      | H : 1 <= slen _ |- _ => apply slen_pos in H
      | H : ?x = true |- context [?x] => rewrite H
      | H : _ ∨ _ |- _ => destruct H as [->| ->]
      | |- context [bool_decide ?P] => first [rewrite (bool_decide_eq_true_2 P) by done
                                             |rewrite (bool_decide_eq_false_2 P) by done]
      | |- context [?a <? ?b] => rewrite (proj2 (Z.ltb_ge a b)) by (done || lia)
      | |- context [?a <=? ?b] => rewrite (proj2 (Z.leb_gt a b)) by lia
      | _ => progress simpl negb
      end; done.
Qed.

Context `{!Json Frame}.

(** Frames whose strings and body survive encoding. *)
Definition cleanFrame (frame : Frame) : Prop :=
  Forall cleanString [frame.(Frame_Kind); frame.(Frame_ID); frame.(Frame_Operation);
                      frame.(Frame_Credential)]
  ∧ Forall is_i64 [frame.(Frame_Version); frame.(Frame_Deadline); frame.(Frame_Status)]
  ∧ cleanRaw frame.(Frame_Body).

(** C38: the frames of a development connection are typed. [DecodeFrame] returns only frames
    of one of the five kinds, with exactly the fields of that kind and each within its
    bounds, and it returns every such frame from its encoding, provided that fits the frame
    limit. *)
Theorem frame_type `{!JsonLaws Frame cleanFrame} :
  (∀ raw frame, DecodeFrame raw = Ret frame → frame_ok frame ∧ len raw <= MaxFrameBytes)
  ∧ ∀ raw frame, frame_ok frame → cleanFrame frame → Marshal frame = Some raw →
      len raw <= MaxFrameBytes → DecodeFrame raw = Ret frame.
Proof.
  unfold DecodeFrame. split.
  - intros raw frame. destruct (Z.ltb_spec MaxFrameBytes (len raw)); [done|].
    destruct (strictJSON raw) as [f| | |]; try done. destruct (checkFrame f) eqn:Hc; [|done].
    intros [= <-]. by apply checkFrame_ok in Hc.
  - intros raw frame Hok%checkFrame_ok Hclean Hm Hl. rewrite (proj2 (Z.ltb_ge _ _)) by done.
    by rewrite (strictJSON_Marshal cleanFrame frame raw Hclean Hm), Hok.
Qed.

End FrameType.

(** * Connection proofs *)
Section ProofLemmas.
Context `{!Ed25519} `{!Ed25519Laws} `{!Json ConnectionProof}.

Definition cleanProof (proof : ConnectionProof) : Prop :=
  cleanScope proof.(Proof_Scope)
  ∧ Forall cleanString [proof.(Proof_ConnectionID); proof.(Proof_BindingID); proof.(Proof_Nonce)]
  ∧ is_i64 proof.(Proof_IssuedAt) ∧ is_i64 proof.(Proof_ExpiresAt).

(** What [validProof] says, with the identifiers of the protocol. *)
Lemma validProof_facts proof :
  validProof proof = true →
  connectionIdentifier proof.(Proof_ConnectionID) = true
  ∧ validScope proof.(Proof_Scope) = true
  ∧ identifier proof.(Proof_ConnectionID) 256 = true ∧ identifier proof.(Proof_BindingID) 256 = true
  ∧ identifier proof.(Proof_Nonce) 256 = true
  ∧ 0 < proof.(Proof_IssuedAt) < proof.(Proof_ExpiresAt)
  ∧ i64 (proof.(Proof_ExpiresAt) - proof.(Proof_IssuedAt)) <= 30.
Proof.
  unfold validProof. destruct (connectionIdentifier _); simpl negb; [|done]. cbv iota.
  assert (Hid : ∀ value, bool_decide (value = "") || (256 <? slen value)
      || existsb (fun c => (c <=? 32) || (127 <=? c)) (runes value) = negb (identifier value 256)).
  { intros value. rewrite identifier_existsb, !negb_andb, !negb_involutive, Z.leb_antisym.
    by rewrite negb_involutive. }
  cbn [existsb]. rewrite !Hid, orb_false_r.
  destruct (negb (identifier (Scope_TenantID _) 256) || _) eqn:Hv; [done|].
  intros Ht. breflect. unfold validScope.
  repeat match goal with H : identifier _ _ = true |- _ => rewrite H; clear H end.
  repeat split; try done; lia.
Qed.

Lemma validProof_clean proof :
  validProof proof = true → is_i64 proof.(Proof_IssuedAt) → is_i64 proof.(Proof_ExpiresAt) →
  cleanProof proof.
Proof.
  intros (_ & Hs & H1 & H2 & H3 & _)%validProof_facts Hi He. unfold validScope in Hs. breflect.
  split; [|split; [|done]].
  - repeat split; by eapply cleanString_identifier.
  - repeat apply Forall_cons_2; eauto using cleanString_identifier, Forall_nil_2.
Qed.

Lemma VerifyConnectionProof_Sign `{!JsonLaws ConnectionProof cleanProof} proof keyID seed message now :
  len seed = SeedSize → is_i64 proof.(Proof_IssuedAt) → is_i64 proof.(Proof_ExpiresAt) →
  SignConnectionProof proof keyID (NewKeyFromSeed seed) = Ret message →
  slen message.(Payload) <= 8192 →
  VerifyConnectionProof message keyID (Public (NewKeyFromSeed seed)) now =
  if (proof.(Proof_IssuedAt) <=? now) && (now <? proof.(Proof_ExpiresAt)) then Ret proof
  else Throw ErrUnauthorized.
Proof.
  intros Hseed Hi He. unfold SignConnectionProof.
  destruct (_ || _) eqn:Hg; [done|]. apply orb_false_iff in Hg as [Hg _].
  apply orb_false_iff in Hg as [Hg _]. apply orb_false_iff in Hg as [_ Hv].
  apply negb_false_iff in Hv. destruct (Marshal proof) as [raw|] eqn:Hm; [|done].
  intros [= <-]. cbn [Payload]. intros Hlen.
  unfold VerifyConnectionProof, UnverifiedConnectionProof. cbn [Payload Signature KeyID].
  rewrite (proj2 (Z.ltb_ge _ _)) by done. rewrite !bytes_of_string_of, !rawURL_roundtrip.
  rewrite (strictJSON_Marshal cleanProof proof raw (validProof_clean _ Hv Hi He) Hm), Hv.
  rewrite Public_length, Z.eqb_refl, bool_decide_eq_true_2, Verify_Sign by done. simpl negb.
  rewrite !orb_false_l.
  destruct (Z.ltb_spec now (Proof_IssuedAt proof)), (Z.leb_spec (Proof_IssuedAt proof) now),
    (Z.leb_spec (Proof_ExpiresAt proof) now), (Z.ltb_spec now (Proof_ExpiresAt proof));
    done || lia.
Qed.

(** Connection proofs. A proof that [SignConnectionProof] signs, whose payload fits the
    limit of the verifier, verifies under its key exactly within its window of at most thirty
    seconds and is read back unchanged. Whatever [VerifyConnectionProof] accepts is a valid
    proof with the given key id and a signature under the key on the connection purpose, and
    the signed bytes are the bytes of no message of the function protocol. *)
Theorem proof_exact `{!JsonLaws ConnectionProof cleanProof} :
  (∀ proof keyID seed message now, len seed = SeedSize →
     is_i64 proof.(Proof_IssuedAt) → is_i64 proof.(Proof_ExpiresAt) →
     SignConnectionProof proof keyID (NewKeyFromSeed seed) = Ret message →
     slen message.(Payload) <= 8192 →
     VerifyConnectionProof message keyID (Public (NewKeyFromSeed seed)) now =
     if (proof.(Proof_IssuedAt) <=? now) && (now <? proof.(Proof_ExpiresAt)) then Ret proof
     else Throw ErrUnauthorized)
  ∧ ∀ message keyID key now proof, VerifyConnectionProof message keyID key now = Ret proof →
     message.(KeyID) = keyID ∧ validProof proof = true
     ∧ proof.(Proof_IssuedAt) <= now < proof.(Proof_ExpiresAt)
     ∧ ∃ raw signature, strictJSON raw = Ret proof
       ∧ rawURLDecode true (bytes_of message.(Payload)) = Some raw
       ∧ rawURLDecode true (bytes_of message.(Signature)) = Some signature
       ∧ Verify key (bytes_of connectionPurpose ++ raw) signature = true
       ∧ ∀ purpose raw', purpose ∈ purposes →
           bytes_of connectionPurpose ++ raw ≠ bytes_of purpose ++ raw'.
Proof.
  split.
  - intros proof keyID seed message now. apply VerifyConnectionProof_Sign.
  - intros message keyID key now proof. unfold VerifyConnectionProof, UnverifiedConnectionProof.
    destruct (8192 <? _); [done|].
    destruct (rawURLDecode true (bytes_of (Payload message))) as [raw|]; [|done].
    destruct (strictJSON raw) as [p| | |] eqn:Hj; try done.
    destruct (validProof p) eqn:Hv; [|done].
    destruct (_ || _) eqn:Hg; [done|].
    destruct (rawURLDecode true (bytes_of (Signature message))) as [signature|]; [|done].
    destruct (Verify _ _ _) eqn:Hs; [|done]. intros [= ->]. breflect.
    do 2 (split; [done|]). split; [lia|]. exists raw, signature. do 4 (split; [done|]).
    intros purpose raw' Hp Heq.
    repeat (apply elem_of_cons in Hp as [->|Hp]; [discriminate Heq|]).
    by apply not_elem_of_nil in Hp.
Qed.

End ProofLemmas.

(** Renewal is due within a minute and strictly before the lease ends. *)
Lemma refresh_within session now :
  now < ofUnixMicro session.(Session_ExpiresAt) →
  now <= sessionRefreshAt session now <= now + Minute
  ∧ sessionRefreshAt session now < ofUnixMicro session.(Session_ExpiresAt).
Proof.
  intros Hn. unfold sessionRefreshAt, Minute, Second.
  rewrite Z.quot_div_nonneg by lia. split; [|]; Z.to_euclidean_division_equations; lia.
Qed.

(** * Examples *)
Module DevelopmentSamples.
Import Protocol.Samples.

#[export] Instance Frame_fields : Fields Frame.
Proof.
  refine {|
  toFields f := [[f.(Frame_Kind); f.(Frame_ID); f.(Frame_Operation); f.(Frame_Credential);
      string_of f.(Frame_Body); ofZ f.(Frame_Version); ofZ f.(Frame_Deadline); ofZ f.(Frame_Status)]];
  ofFields l :=
    match l with
    | [[a; b; c; d; e; v; t; s]] =>
        v ← toZ v; t ← toZ t; s ← toZ s; Some (mkFrame a b c d (bytes_of e) v t s)
    | _ => None
    end
  |}.
 intros []; simpl. rewrite !toZ_ofZ. simpl. by rewrite bytes_of_string_of.
Defined.

#[export] Instance ConnectionProof_fields : Fields ConnectionProof.
Proof.
  refine {|
  toFields p := [[p.(Proof_Scope).(Scope_TenantID); p.(Proof_Scope).(Scope_ApplicationID);
      p.(Proof_Scope).(Scope_EnvironmentID); p.(Proof_Scope).(Scope_OwnerResource);
      p.(Proof_ConnectionID); p.(Proof_BindingID); p.(Proof_Nonce); ofZ p.(Proof_IssuedAt);
      ofZ p.(Proof_ExpiresAt)]];
  ofFields l :=
    match l with
    | [[t; a; e; o; c; b; n; i; x]] =>
        i ← toZ i; x ← toZ x; Some (mkConnectionProof (mkScope t a e o) c b n i x)
    | _ => None
    end
  |}.
 intros [[] c b n i x]; simpl. by rewrite !toZ_ofZ.
Defined.

#[export] Instance frame_json : Json Frame := fieldsJson _.
#[export] Instance frame_json_laws : JsonLaws Frame cleanFrame := fieldsJson_laws _ _.
#[export] Instance proof_json : Json ConnectionProof := fieldsJson _.
#[export] Instance proof_json_laws : JsonLaws ConnectionProof cleanProof := fieldsJson_laws _ _.

Definition request1 : Frame :=
  mkFrame "request" "r_1" "invoke" "" (bytes_of "[1]") 1 5000000 0.

Definition raw1 : list byte := markTable (toFields request1).

Lemma frame_type_witness : frame_ok request1 ∧ DecodeFrame raw1 = Ret request1.
Proof.
  assert (Hok : frame_ok request1).
  { apply ok_request; [split; [split; vm_compute; discriminate|reflexivity]|auto| |lia].
    split; [reflexivity|vm_compute; discriminate]. }
  split; [exact Hok|]. apply (proj2 frame_type raw1 request1 Hok).
  - unfold cleanFrame, request1. simpl. clean. right. reflexivity.
  - reflexivity.
  - vm_compute. discriminate.
Defined.

Definition proof1 : ConnectionProof :=
  mkConnectionProof scope "dvc_abc1" "binding" "nonce" 1000 1030.

Definition message1 : SignedMessage :=
  match SignConnectionProof proof1 "bridge:1" (NewKeyFromSeed seed) with
  | Ret m => m
  | _ => mkSignedMessage "" "" ""
  end.

Lemma message1_signed : SignConnectionProof proof1 "bridge:1" (NewKeyFromSeed seed) = Ret message1.
Proof.
  assert (Hs : returns (SignConnectionProof proof1 "bridge:1" (NewKeyFromSeed seed)) = true)
    by (vm_compute; reflexivity).
  unfold message1. apply returns_Ret in Hs as [m ->]. reflexivity.
Qed.

Lemma proof_exact_witness :
  VerifyConnectionProof message1 "bridge:1" (Public (NewKeyFromSeed seed)) 1029 = Ret proof1
  ∧ VerifyConnectionProof message1 "bridge:1" (Public (NewKeyFromSeed seed)) 1030 =
    Throw ErrUnauthorized.
Proof.
  assert (Hlen : slen message1.(Payload) <= 8192) by (vm_compute; discriminate).
  split.
  - apply (proj1 proof_exact proof1 "bridge:1" seed message1 1029);
      [reflexivity|unfold is_i64; simpl; lia..|exact message1_signed|exact Hlen].
  - apply (proj1 proof_exact proof1 "bridge:1" seed message1 1030);
      [reflexivity|unfold is_i64; simpl; lia..|exact message1_signed|exact Hlen].
Defined.

End DevelopmentSamples.
