(* ===== verification/Connector.v ===== *)
(** Development connections, the connector: [bridge/development/connector.go], [provider.go]
    and [local.go].

    The connector keeps one tunnel at a time and runs the requests that arrive on it, up to a
    bound, on its handler. The reader of the tunnel, the handlers and the ends of connections
    interleave over one state. The websocket, the HTTP client and the application's handler
    are parameters; times are nanoseconds. *)
From S2P Require Import Prelude GoStd Sha256 Interfaces Protocol Runtime Transport Development.

(** * Options *)
Definition Millisecond : Z := 1000000.

Record ConnectorOptions : Type := mkConnectorOptions {
  Options_Handler : bool;
  Options_Session : bool;
  MaxConcurrent : Z;
  ReconnectMin : Z;
  ReconnectMax : Z
}.

Definition NewConnector (options : ConnectorOptions) : outcome bridge_error ConnectorOptions :=
  if negb options.(Options_Session) || negb options.(Options_Handler) then Throw ErrInvalid
  else
    let concurrent := if options.(MaxConcurrent) =? 0 then 4 else options.(MaxConcurrent) in
    let reconnectMin :=
      if options.(ReconnectMin) =? 0 then 250 * Millisecond else options.(ReconnectMin) in
    let reconnectMax := if options.(ReconnectMax) =? 0 then 30 * Second else options.(ReconnectMax) in
    if (concurrent <? 1) || (64 <? concurrent) || (reconnectMin <=? 0)
       || (reconnectMax <? reconnectMin) || (Minute <? reconnectMax)
    then Throw ErrInvalid
    else Ret (mkConnectorOptions true true concurrent reconnectMin reconnectMax).

(** * Running a request on the handler *)
Record boundedResponse : Type := mkBounded {
  bounded_status : Z;
  bounded_body : list byte;
  bounded_overflow : bool
}.

Definition WriteHeader (r : boundedResponse) (status : Z) : boundedResponse :=
  if r.(bounded_status) =? 0 then mkBounded status r.(bounded_body) r.(bounded_overflow) else r.

(** [Write]: the response and the number of bytes, or an error. *)
Definition Write (r : boundedResponse) (body : list byte)
    : boundedResponse * outcome bridge_error Z :=
  let status := if r.(bounded_status) =? 0 then 200 else r.(bounded_status) in
  if MaxBodyBytes - len r.(bounded_body) <? len body
  then (mkBounded status r.(bounded_body) true, Throw ErrInvalid)
  else (mkBounded status (r.(bounded_body) ++ body) r.(bounded_overflow), Ret (len body)).

(** What a handler does with its response writer. *)
Inductive response_op : Type :=
| OpWriteHeader (status : Z)
| OpWrite (body : list byte).

Definition applyOp (r : boundedResponse) (op : response_op) : boundedResponse :=
  match op with
  | OpWriteHeader status => WriteHeader r status
  | OpWrite body => (Write r body).1
  end.

(** The object with the code [development_handler_unavailable]. *)
Definition unavailableBody : list byte :=
  x7b :: x22 :: bytes_of "code" ++ [x22; x3a; x22] ++ bytes_of "development_handler_unavailable"
  ++ [x22; x7d].

Definition unavailable (frame : Frame) : Frame :=
  mkFrame "response" frame.(Frame_ID) "" "" unavailableBody 1 0 502.

Section Handle.
Context `{!RawJson}.

(** [handle]: [newRequest] says whether the URL makes a request; the handler answers it with
    operations on the writer, or panics. *)
Definition handle (newRequest : string → bool) (serve : string → list byte → option (list response_op))
    (frame : Frame) : Frame :=
  let url := "http://local-bridge/v1/functions/" +:+ frame.(Frame_Operation) in
  if negb (newRequest url) then unavailable frame
  else match serve url frame.(Frame_Body) with
  | None => unavailable frame
  | Some ops =>
      let response := fold_left applyOp ops (mkBounded 0 [] false) in
      let status := if response.(bounded_status) =? 0 then 200 else response.(bounded_status) in
      if response.(bounded_overflow) || (status <? 200) || (599 <? status)
         || negb (Valid response.(bounded_body))
      then unavailable frame
      else mkFrame "response" frame.(Frame_ID) "" "" response.(bounded_body) 1 0 status
  end.

End Handle.

(** * One connection *)

(** A handler goroutine: serving its request, its answer handed to [write], or its slot given
    back and only the entry in [active] left. *)
Inductive phase : Type := Serving | Answered | Released.

#[global] Instance phase_eq_dec : EqDecision phase.
Proof. solve_decision. Defined.

Record Flight : Type := mkFlight {
  Flight_generation : nat;
  Flight_frame : Frame;
  Flight_cancelled : bool;
  Flight_phase : phase
}.

(** The state of a connector: the connection it is on, [slots] in use, the requests in
    [active] by connection, the goroutines, and the history of the requests taken and of
    the responses handed to [write]. *)
Record State : Type := mkState {
  generation : nat;
  connected : bool;
  slots : Z;
  active : gset (nat * string);
  flights : list Flight;
  taken : list (nat * string);
  responses : list (nat * Frame)
}.

Definition initialState : State := mkState 0 false 0 ∅ [] [] [].

Definition cancelFlight (f : Flight) : Flight :=
  mkFlight f.(Flight_generation) f.(Flight_frame) true f.(Flight_phase).

(** The end of a connection: its context is cancelled, and with it every handler's. *)
Definition disconnect (st : State) : State :=
  mkState st.(generation) false st.(slots) st.(active) (cancelFlight <$> st.(flights))
    st.(taken) st.(responses).

(** A [cancel] frame: the stop function of the entry of [active]. *)
Definition cancelRequest (st : State) (id : string) : State :=
  mkState st.(generation) st.(connected) st.(slots) st.(active)
    ((fun f => if bool_decide (f.(Flight_generation) = st.(generation)
                               ∧ f.(Flight_frame).(Frame_ID) = id)
               then cancelFlight f else f) <$> st.(flights))
    st.(taken) st.(responses).

Definition takeRequest (st : State) (frame : Frame) : State :=
  let key := (st.(generation), frame.(Frame_ID)) in
  mkState st.(generation) st.(connected) (st.(slots) + 1) ({[key]} ∪ st.(active))
    (st.(flights) ++ [mkFlight st.(generation) frame false Serving])
    (key :: st.(taken)) st.(responses).

Section Connect.
Context `{!RawJson} `{!Json Frame}.

(** One round of the reading loop of [Connect]; an error ends the connection. [now] and
    [later] are the two readings of the clock. *)
Definition receive (options : ConnectorOptions) (now later : Z) (text : bool) (raw : list byte)
    (st : State) : State * option bridge_error :=
  if negb text then (disconnect st, Some ErrInvalid)
  else match DecodeFrame raw with
  | Ret frame =>
      if bool_decide (frame.(Frame_Kind) = "cancel")
      then (cancelRequest st frame.(Frame_ID), None)
      else if bool_decide (frame.(Frame_Kind) = "request") then
        if bool_decide ((st.(generation), frame.(Frame_ID)) ∈ st.(active))
           || (frame.(Frame_Deadline) <=? UnixMicro now)
           || (UnixMicro (later + Minute) <? frame.(Frame_Deadline))
        then (disconnect st, Some ErrInvalid)
        else if options.(MaxConcurrent) <=? st.(slots) then (disconnect st, Some ErrUnavailable)
        else (takeRequest st frame, None)
      else (disconnect st, Some ErrInvalid)
  | Throw e => (disconnect st, Some e)
  | _ => (disconnect st, Some ErrInvalid)
  end.

End Connect.

(** The phases of a handler goroutine. *)
Definition setPhase (f : Flight) (p : phase) : Flight :=
  mkFlight f.(Flight_generation) f.(Flight_frame) f.(Flight_cancelled) p.

Definition answer (st : State) (i : nat) (f : Flight) (response : Frame) (written : bool) : State :=
  let st := mkState st.(generation) st.(connected) st.(slots) st.(active)
    (<[i := setPhase f Answered]> st.(flights)) st.(taken)
    ((f.(Flight_generation), response) :: st.(responses)) in
  (* a failed write closes its own connection *)
  if negb written && bool_decide (f.(Flight_generation) = st.(generation))
  then disconnect st else st.

Definition releaseSlot (st : State) (i : nat) (f : Flight) : State :=
  mkState st.(generation) st.(connected) (st.(slots) - 1) st.(active)
    (<[i := setPhase f Released]> st.(flights)) st.(taken) st.(responses).

Definition forget (st : State) (i : nat) (f : Flight) : State :=
  mkState st.(generation) st.(connected) st.(slots)
    (st.(active) ∖ {[(f.(Flight_generation), f.(Flight_frame).(Frame_ID))]})
    (delete i st.(flights)) st.(taken) st.(responses).

(** The steps of a connector: [Run] opens connections one after another, the reader handles
    what arrives, the connection ends from outside (a read error, the heartbeat, the
    caller), and the goroutines go through their phases. *)
Section Steps.
Context `{!RawJson} `{!Json Frame} (options : ConnectorOptions).
Context (newRequest : string → bool).

Inductive connector_step : State → State → Prop :=
| step_connect st :
    st.(connected) = false →
    connector_step st (mkState (S st.(generation)) true st.(slots) st.(active) st.(flights)
                         st.(taken) st.(responses))
| step_receive st now later text raw st' err :
    st.(connected) = true → receive options now later text raw st = (st', err) →
    connector_step st st'
| step_end st : st.(connected) = true → connector_step st (disconnect st)
| step_answer st i f serve written :
    st.(flights) !! i = Some f → f.(Flight_phase) = Serving →
    connector_step st (answer st i f (handle newRequest serve f.(Flight_frame)) written)
| step_release st i f :
    st.(flights) !! i = Some f → f.(Flight_phase) = Answered →
    connector_step st (releaseSlot st i f)
| step_forget st i f :
    st.(flights) !! i = Some f → f.(Flight_phase) = Released →
    connector_step st (forget st i f).

End Steps.

(** * Reconnecting *)

(** What happens in one round of [Run]: how long [Connect] ran, its error, whether the context
    ended meanwhile, the randomness, and whether the context ends during the wait. *)
Record Round : Type := mkRound {
  Round_took : Z;
  Round_error : bridge_error;
  Round_cancelled : bool;
  Round_entropy : option Z;
  Round_stopped : bool
}.

(** [rand.Int]: any number from 0 up to its bound. *)
Definition randInt (entropy bound : Z) : Z := entropy mod bound.

(** How [Run] ends. *)
Inductive run_end : Type :=
| RunCancelled
| RunFails (e : bridge_error).

(** One round: the end of [Run], or the wait and the next delay. The quotients are of
    [int64] durations. *)
Definition runRound (options : ConnectorOptions) (delay : Z) (round : Round)
    : run_end + Z * Z :=
  if round.(Round_cancelled) then inl RunCancelled
  else if bool_decide (round.(Round_error) = ErrInvalid)
          || bool_decide (round.(Round_error) = ErrUnauthorized)
  then inl (RunFails round.(Round_error))
  else
    let delay := if 10 * Second <? round.(Round_took) then options.(ReconnectMin) else delay in
    match round.(Round_entropy) with
    | None => inl (RunFails ErrUnavailable)
    | Some entropy =>
        let jitter := randInt entropy (Z.max 1 (Z.quot delay 2)) in
        let wait := Z.max 1 (Z.quot delay 2 + jitter) in
        if round.(Round_stopped) then inl RunCancelled
        else inr (wait, if delay <? Z.quot options.(ReconnectMax) 2 then i64 (delay * 2)
                        else options.(ReconnectMax))
    end.

(** [Run] over the rounds that happen: the waits between them and the end, if it ends. *)
Fixpoint runFrom (options : ConnectorOptions) (delay : Z) (rounds : list Round)
    : list Z * option run_end :=
  match rounds with
  | [] => ([], None)
  | round :: rest =>
      match runRound options delay round with
      | inl e => ([], Some e)
      | inr (wait, delay) =>
          let '(waits, e) := runFrom options delay rest in (wait :: waits, e)
      end
  end.

Definition Run (options : ConnectorOptions) (rounds : list Round) : list Z * option run_end :=
  runFrom options options.(ReconnectMin) rounds.

(** * Admission and renewal of a connection *)
Section Admission.
Context `{!RawJson} `{!Json Frame}.
Context (Parse : string → option URL) (ParseAddr : string → option Addr).

(** What [websocket.Dial] and the first read bring. *)
Inductive dialed : Type :=
| DialFails (status : option Z)
| Dialed (subprotocol : string) (first : option (bool * list byte)).

(** [Connect] up to its [ready] frame. *)
Definition admission (session : outcome bridge_error Session) (now later : Z) (dial : Session → dialed)
    : outcome bridge_error Session :=
  s ← session;
  if negb (validSession Parse ParseAddr s now later) then Throw ErrInvalid
  else match dial s with
  | DialFails (Some status) =>
      if (status =? 401) || (status =? 403) then Throw ErrUnauthorized else Throw ErrUnavailable
  | DialFails None => Throw ErrUnavailable
  | Dialed subprotocol first =>
      if negb (bool_decide (subprotocol = Subprotocol)) then Throw ErrInvalid
      else match first with
      | Some (true, raw) =>
          match DecodeFrame raw with
          | Ret frame =>
              if bool_decide (frame.(Frame_Kind) = "ready") then Ret s else Throw ErrInvalid
          | _ => Throw ErrInvalid
          end
      | _ => Throw ErrUnavailable
      end
  end.

(** The heartbeat goroutine: the session it holds and when it renews it. *)
Record Lease : Type := mkLease {
  Lease_session : Session;
  Lease_nextRefresh : Z
}.

Definition heartbeat (lease : Lease) (now : Z) : Z :=
  Z.min (15 * Second) (lease.(Lease_nextRefresh) - now).

(** One round when the timer fires: [None] ends the connection, otherwise the lease, the next
    timer and the frame that was written. The clock is read at [now] and, after the session
    was asked for, at [later]. *)
Definition renew (lease : Lease) (now later : Z) (ping : bool)
    (fetched : outcome bridge_error Session) (write : Frame → bool)
    : option (Lease * Z * option Frame) :=
  let session := lease.(Lease_session) in
  if negb ping then None
  else if now <? lease.(Lease_nextRefresh) then Some (lease, heartbeat lease now, None)
  else match fetched with
  | Ret next =>
      if negb (validSession Parse ParseAddr next later later)
         || negb (bool_decide (next.(Session_ConnectionID) = session.(Session_ConnectionID)))
         || negb (bool_decide (next.(Session_ConnectorURL) = session.(Session_ConnectorURL)))
      then None
      else
        let frame := mkFrame "authenticate" "" "" next.(Session_Credential) [] 1 0 0 in
        if negb (write frame) then None
        else
          let lease := mkLease next (sessionRefreshAt next later) in
          Some (lease, heartbeat lease later, Some frame)
  | Throw e =>
      if (session.(Session_ExpiresAt) <=? UnixMicro (later + 15 * Second))
         || bool_decide (e = ErrInvalid) || bool_decide (e = ErrUnauthorized)
      then None
      else Some (mkLease session (later + 15 * Second), 15 * Second, None)
  | _ => None
  end.

End Admission.

(** * The session provider *)
Record ProofSessionOptions : Type := mkProofOptions {
  ProofOptions_Scope : Scope;
  ProofOptions_ControlURL : string;
  ProofOptions_EndpointURL : string;
  ProofOptions_ConnectionID : string;
  ProofOptions_BindingID : string;
  ProofOptions_SigningKeyID : string;
  ProofOptions_SigningKey : list byte
}.

(** What the returned function captures. *)
Record Provider : Type := mkProvider {
  Provider_options : ProofSessionOptions;
  Provider_requestURL : string;
  Provider_expectedConnector : string
}.

Section Provider.
Context `{!Ed25519} `{!Json ConnectionProof} `{!Json SignedMessage} `{!Json Session}.
Context (Parse : string → option URL) (ParseAddr : string → option Addr).

Definition connectionProof (options : ProofSessionOptions) (nonce : string) (issued expires : Z)
    : ConnectionProof :=
  mkConnectionProof options.(ProofOptions_Scope) options.(ProofOptions_ConnectionID)
    options.(ProofOptions_BindingID) nonce issued expires.

Definition NewProofSessionProvider (options : ProofSessionOptions) : outcome bridge_error Provider :=
  match ValidateEndpoint Parse ParseAddr options.(ProofOptions_ControlURL) with
  | Ret control =>
      match ValidateEndpoint Parse ParseAddr options.(ProofOptions_EndpointURL) with
      | Ret endpoint =>
          if bool_decide (options.(ProofOptions_ConnectionID) = "")
             || negb (bool_decide (endpoint.(URL_Path) = "/t/" +:+ options.(ProofOptions_ConnectionID)))
             || negb (len options.(ProofOptions_SigningKey) =? PrivateKeySize)
          then Throw ErrInvalid
          else if negb (validProof (connectionProof options "validate" 1 2))
                  || bool_decide (options.(ProofOptions_SigningKeyID) = "")
          then Throw ErrInvalid
          else Ret (mkProvider options
            (TrimRightSlash control.(URL_String) +:+ "/v1/development-connections/"
             +:+ options.(ProofOptions_ConnectionID) +:+ "/sessions")
            ("wss://" +:+ endpoint.(URL_Host) +:+ "/v1/development-connections/"
             +:+ options.(ProofOptions_ConnectionID) +:+ "/connect"))
      | _ => Throw ErrInvalid
      end
  | _ => Throw ErrInvalid
  end.

(** The returned function: [nonce] are the random bytes, [now] is the clock when the proof is
    made, [later] when the answer is checked. *)
Definition provide (p : Provider) (nonce : option (list byte)) (now later : Z)
    (post : string → list byte → exchange) : outcome bridge_error Session :=
  let options := p.(Provider_options) in
  match nonce with
  | None => Throw ErrUnavailable
  | Some nonce =>
      signed ← SignConnectionProof
        (connectionProof options (EncodeToString nonce) (Unix now) (Unix (now + 30 * Second)))
        options.(ProofOptions_SigningKeyID) options.(ProofOptions_SigningKey);
      match Marshal signed with
      | None => Throw ErrInvalid
      | Some raw =>
          match post p.(Provider_requestURL) raw with
          | BadRequest => Throw ErrInvalid
          | NoReply => Throw ErrUnavailable
          | Replied response =>
              if (response.(Reply_Status) =? 401) || (response.(Reply_Status) =? 403)
              then Throw ErrUnauthorized
              else if negb (response.(Reply_Status) =? 201) then Throw ErrUnavailable
              else match response.(Reply_Body) with
              | None => Throw ErrUnavailable
              | Some body =>
                  if 65536 <? len body then Throw ErrUnavailable
                  else match strictJSON body with
                  | Ret session =>
                      if negb (bool_decide (session.(Session_ConnectionID) =
                                            options.(ProofOptions_ConnectionID)))
                         || negb (bool_decide (session.(Session_ConnectorURL) =
                                               p.(Provider_expectedConnector)))
                         || negb (validSession Parse ParseAddr session later later)
                      then Throw ErrUnauthorized
                      else Ret session
                  | _ => Throw ErrUnauthorized
                  end
              end
          end
      end
  end.

End Provider.

(** * The local handler *)

(** The request as the local handler sees it. *)
Record LocalRequest : Type := mkLocalRequest {
  Local_Method : string;
  Local_Path : string;
  Local_RawPath : string;
  Local_RawQuery : string;
  Local_ForceQuery : bool;
  Local_Body : list byte
}.

(** What it writes: a fixed text with a status, or the status and body of the bridge. *)
Inductive local_response : Type :=
| LocalError (status : Z)
| LocalReply (status : Z) (body : list byte).

Section Local.
Context (Parse : string → option URL) (String : URL → string).

Definition NewLocalHandler (origin : string) : outcome bridge_error URL :=
  match Parse origin with
  | None => Throw ErrInvalid
  | Some parsed =>
      if negb (bool_decide (origin = TrimSpace origin)) || bool_decide (parsed.(URL_Hostname) = "")
         || parsed.(URL_User) || negb (bool_decide (parsed.(URL_Opaque) = ""))
         || negb (bool_decide (parsed.(URL_RawQuery) = "")) || parsed.(URL_ForceQuery)
         || negb (bool_decide (parsed.(URL_Fragment) = "")) || Contains origin "#"
         || negb (bool_decide (parsed.(URL_RawPath) = ""))
         || negb (bool_decide (parsed.(URL_Path) = "")) && negb (bool_decide (parsed.(URL_Path) = "/"))
         || negb (bool_decide (parsed.(URL_Scheme) = "http"))
            && negb (bool_decide (parsed.(URL_Scheme) = "https"))
      then Throw ErrInvalid
      else Ret (setPath parsed "")
  end.

(** The returned handler: what it writes, and what it forwarded to which URL. Reading a body
    beyond the limit fails, and with it the request that is being forwarded. *)
Definition serveLocal (origin : URL) (send : string → list byte → exchange) (r : LocalRequest)
    : local_response * list (string * list byte) :=
  if negb (bool_decide (r.(Local_Method) = "POST")) || negb (bool_decide (r.(Local_RawQuery) = ""))
     || r.(Local_ForceQuery) || negb (bool_decide (r.(Local_RawPath) = ""))
     || negb (bool_decide (r.(Local_Path) = "/v1/functions/challenge"))
        && negb (bool_decide (r.(Local_Path) = "/v1/functions/invoke"))
  then (LocalError 404, [])
  else
    let url := String origin +:+ r.(Local_Path) in
    if MaxBodyBytes <? len r.(Local_Body)
    then (LocalError 502, [(url, take (Z.to_nat MaxBodyBytes) r.(Local_Body))])
    else match send url r.(Local_Body) with
    | BadRequest => (LocalError 502, [])
    | NoReply => (LocalError 502, [(url, r.(Local_Body))])
    | Replied response =>
        match response.(Reply_Body) with
        | None => (LocalError 502, [(url, r.(Local_Body))])
        | Some body =>
            if (MaxBodyBytes <? len body)
               || (300 <=? response.(Reply_Status)) && (response.(Reply_Status) <? 400)
            then (LocalError 502, [(url, r.(Local_Body))])
            else (LocalReply response.(Reply_Status) body, [(url, r.(Local_Body))])
        end
    end.

End Local.

(** * Lemmas *)
Lemma lookup_split {A} (l : list A) i x :
  l !! i = Some x →
  ∃ l1 l2, l = l1 ++ x :: l2 ∧ (∀ y, <[i := y]> l = l1 ++ y :: l2) ∧ delete i l = l1 ++ l2.
Proof.
  intros Hi. exists (take i l), (drop (S i) l). split; [by rewrite take_drop_middle|]. split.
  - intros y. apply insert_take_drop. by eapply lookup_lt_Some.
  - apply delete_take_drop.
Qed.

Lemma NewConnector_bounds given options :
  NewConnector given = Ret options →
  1 <= options.(MaxConcurrent) <= 64
  ∧ 0 < options.(ReconnectMin) <= options.(ReconnectMax) ∧ options.(ReconnectMax) <= Minute.
Proof.
  unfold NewConnector. destruct (_ || _); [done|]. cbv zeta.
  generalize (if MaxConcurrent given =? 0 then 4 else MaxConcurrent given) as c.
  generalize (if ReconnectMin given =? 0 then 250 * Millisecond else ReconnectMin given) as lo.
  generalize (if ReconnectMax given =? 0 then 30 * Second else ReconnectMax given) as hi.
  intros hi lo c. destruct (_ || _) eqn:Hg; [done|]. intros [= <-]. breflect. simpl. lia.
Qed.

(** A round of [Run] that goes on. *)
Lemma runRound_inr options delay round wait delay' :
  0 < options.(ReconnectMin) <= options.(ReconnectMax) → options.(ReconnectMax) <= Minute →
  options.(ReconnectMin) <= delay <= options.(ReconnectMax) →
  runRound options delay round = inr (wait, delay') →
  let base := if 10 * Second <? round.(Round_took) then options.(ReconnectMin) else delay in
  Z.quot base 2 <= wait <= options.(ReconnectMax)
  ∧ options.(ReconnectMin) <= base ∧ base <= delay
  ∧ options.(ReconnectMin) <= delay' <= options.(ReconnectMax)
  ∧ (delay' = 2 * base ∨ delay' = options.(ReconnectMax)).
Proof.
  intros Hmin Hmax Hd. unfold runRound. destruct (Round_cancelled round); [done|].
  destruct (_ || _); [done|]. cbv zeta. set (base := if 10 * Second <? _ then _ else _).
  assert (Hb : options.(ReconnectMin) <= base <= delay) by (unfold base; destruct (_ <? _); lia).
  destruct (Round_entropy round) as [entropy|]; [|done]. destruct (Round_stopped round); [done|].
  unfold randInt. pose proof (Z.mod_pos_bound entropy (Z.max 1 (Z.quot base 2)) ltac:(lia)) as Hj.
  intros [= <- <-]. unfold Minute, Second in Hmax.
  rewrite !Z.quot_div_nonneg in * by lia.
  destruct (Z.ltb_spec base (options.(ReconnectMax) / 2)).
  - rewrite i64_id by (unfold is_i64; lia). Z.to_euclidean_division_equations. lia.
  - Z.to_euclidean_division_equations. lia.
Qed.

Lemma runFrom_bounds options delay rounds :
  0 < options.(ReconnectMin) <= options.(ReconnectMax) → options.(ReconnectMax) <= Minute →
  options.(ReconnectMin) <= delay <= options.(ReconnectMax) →
  Forall (fun wait => Z.quot options.(ReconnectMin) 2 <= wait <= options.(ReconnectMax))
    (runFrom options delay rounds).1.
Proof.
  intros Hmin Hmax. revert delay. induction rounds as [|round rest IH]; intros delay Hd; simpl.
  { constructor. }
  destruct (runRound options delay round) as [e|[wait delay']] eqn:Hr; [constructor|].
  apply runRound_inr in Hr as (Hw & Hb & _ & Hd' & _); [|done..].
  specialize (IH delay' Hd'). destruct (runFrom options delay' rest) as [waits e]. simpl in *.
  constructor; [|done]. split; [|lia]. etransitivity; [|apply Hw].
  apply Z.quot_le_mono; lia.
Qed.

Lemma runFrom_doubles options delay rounds n k wait :
  0 < options.(ReconnectMin) <= options.(ReconnectMax) → options.(ReconnectMax) <= Minute →
  options.(ReconnectMin) <= delay <= options.(ReconnectMax) →
  Z.min (options.(ReconnectMin) * 2 ^ Z.of_nat n) options.(ReconnectMax) <= delay →
  Forall (fun r => r.(Round_took) <= 10 * Second) rounds →
  (runFrom options delay rounds).1 !! k = Some wait →
  Z.quot (Z.min (options.(ReconnectMin) * 2 ^ (Z.of_nat n + Z.of_nat k)) options.(ReconnectMax)) 2
    <= wait.
Proof.
  intros Hmin Hmax. revert delay n k. induction rounds as [|round rest IH];
    intros delay n k Hd Hn Hq; simpl; [done|].
  apply Forall_cons in Hq as [Hquick Hq].
  destruct (runRound options delay round) as [e|[wait' delay']] eqn:Hr; [done|].
  apply runRound_inr in Hr as (Hw & _ & _ & Hd' & Hnext); [|done..].
  rewrite (proj2 (Z.ltb_ge _ _)) in Hw, Hnext by done.
  specialize (IH delay' (S n)). destruct (runFrom options delay' rest) as [waits e]. simpl in *.
  destruct k as [|k]; simpl.
  - intros [= <-]. rewrite Z.add_0_r. etransitivity; [|apply Hw].
    apply Z.quot_le_mono; [lia|done].
  - intros Hk. replace (Z.of_nat n + Z.of_nat (S k)) with (Z.of_nat (S n) + Z.of_nat k) by lia.
    apply (IH k Hd'); [|done|done]. rewrite Nat2Z.inj_succ, Z.pow_succ_r by lia. lia.
Qed.

Lemma runFrom_end options delay rounds e :
  (runFrom options delay rounds).2 = Some (RunFails e) →
  e = ErrInvalid ∨ e = ErrUnauthorized ∨ e = ErrUnavailable.
Proof.
  revert delay. induction rounds as [|round rest IH]; intros delay; simpl; [done|].
  destruct (runRound options delay round) as [e'|[wait delay']] eqn:Hr.
  - intros [= ->]. revert Hr. unfold runRound. destruct (Round_cancelled round); [done|].
    destruct (_ || _) eqn:He; [|destruct (Round_entropy round); [destruct (Round_stopped round)|];
      naive_solver]. intros [= <-]. apply orb_true_iff in He. rewrite !bool_decide_eq_true in He.
    tauto.
  - specialize (IH delay'). by destruct (runFrom options delay' rest).
Qed.

(** * Lemmas: leases *)

(** A clock reading whose microseconds fit [int64]. *)
Definition clock (t : Z) : Prop := 0 <= t < 2 ^ 62.

Lemma clock_UnixMicro t : 0 <= t < 2 ^ 63 → UnixMicro t = t / 1000.
Proof.
  intros Ht. unfold UnixMicro, Microsecond. apply i64_id. unfold is_i64.
  Z.to_euclidean_division_equations. lia.
Qed.

Section Leases.
Context `{!RawJson} (Parse : string → option URL) (ParseAddr : string → option Addr).

Lemma validSession_facts session now later :
  validSession Parse ParseAddr session now later = true →
  1 <= slen session.(Session_Credential) <= 8192
  ∧ UnixMicro now < session.(Session_ExpiresAt) <= UnixMicro (later + 5 * Minute).
Proof.
  unfold validSession. destruct (_ || _) eqn:Hg; [done|]. intros _. breflect.
  split; [|lia]. split; [by apply slen_pos|lia].
Qed.

Lemma session_refresh session now later :
  clock now → validSession Parse ParseAddr session now later = true →
  sessionRefreshAt session now < ofUnixMicro session.(Session_ExpiresAt).
Proof.
  intros Hn (_ & He & _)%validSession_facts. apply refresh_within.
  unfold clock in Hn. rewrite clock_UnixMicro in He by lia. unfold ofUnixMicro, Microsecond.
  Z.to_euclidean_division_equations. lia.
Qed.

(** A lease of the connection of [session] whose renewal is due in time. *)
Definition leaseOK (session : Session) (lease : Lease) : Prop :=
  lease.(Lease_session).(Session_ConnectionID) = session.(Session_ConnectionID)
  ∧ lease.(Lease_session).(Session_ConnectorURL) = session.(Session_ConnectorURL)
  ∧ lease.(Lease_nextRefresh) < ofUnixMicro lease.(Lease_session).(Session_ExpiresAt).

Lemma renew_ok session lease now later ping fetched write lease' timer written :
  clock now → clock later → now <= later → leaseOK session lease →
  renew Parse ParseAddr lease now later ping fetched write = Some (lease', timer, written) →
  leaseOK session lease' ∧ timer <= 15 * Second
  ∧ ∀ frame, written = Some frame → frame_ok frame
      ∧ frame.(Frame_Credential) = lease'.(Lease_session).(Session_Credential).
Proof.
  intros Hn Hl Hle (Hid & Hurl & Hexp). unfold renew. destruct (negb ping); [done|].
  destruct (now <? _).
  { intros [= <- <- <-]. unfold heartbeat. split; [done|]. split; [lia|done]. }
  destruct fetched as [next|e| |]; try done.
  - destruct (_ || _) eqn:Hg; [done|]. destruct (negb (write _)); [done|]. intros [= <- <- <-].
    apply orb_false_iff in Hg as [Hg Hu]. apply orb_false_iff in Hg as [Hv Hi].
    rewrite negb_false_iff in Hv, Hi, Hu. rewrite bool_decide_eq_true in Hi, Hu.
    split; [|split; [unfold heartbeat; lia|]].
    + split; [by rewrite <- Hid|]. split; [by rewrite <- Hurl|]. simpl. by eapply session_refresh.
    + intros frame [= <-]. split; [|done]. apply ok_authenticate.
      by apply validSession_facts in Hv as [? _].
  - destruct (_ || _) eqn:Hg; [done|]. intros [= <- <- <-]. apply orb_false_iff in Hg as [Hg _].
    apply orb_false_iff in Hg as [Hg _]. apply Z.leb_gt in Hg.
    split; [|split; [lia|done]]. split; [done|]. split; [done|]. simpl.
    unfold clock, Second, Minute in *. rewrite clock_UnixMicro in Hg by lia.
    unfold ofUnixMicro, Microsecond. Z.to_euclidean_division_equations. lia.
Qed.

End Leases.

Section Lemmas.
Context `{!RawJson} `{!Json Frame}.

Lemma applyOp_bounded r op :
  len r.(bounded_body) <= MaxBodyBytes → len (applyOp r op).(bounded_body) <= MaxBodyBytes.
Proof.
  intros Hr. destruct op as [status|body]; simpl.
  - unfold WriteHeader. by destruct (_ =? 0).
  - unfold Write. destruct (Z.ltb_spec (MaxBodyBytes - len r.(bounded_body)) (len body)); simpl; [done|].
    unfold len in *. rewrite length_app. lia.
Qed.

Lemma applyOps_bounded ops r :
  len r.(bounded_body) <= MaxBodyBytes →
  len (fold_left applyOp ops r).(bounded_body) <= MaxBodyBytes.
Proof. revert r. induction ops as [|op ops IH]; intros r Hr; simpl; auto using applyOp_bounded. Qed.

(** The object of [unavailable] is valid JSON. *)
Context (Valid_unavailable : Valid unavailableBody = true).

(** Whatever the handler does, the answer to a request is a response frame with its
    identifier. *)
Lemma handle_ok newRequest serve frame :
  frame_id frame.(Frame_ID) →
  frame_ok (handle newRequest serve frame)
  ∧ (handle newRequest serve frame).(Frame_ID) = frame.(Frame_ID)
  ∧ (handle newRequest serve frame).(Frame_Kind) = "response".
Proof.
  intros Hid.
  assert (Hu : frame_ok (unavailable frame)).
  { apply ok_response; [done| |lia]. split; [done|]. vm_compute. discriminate. }
  unfold handle. destruct (negb (newRequest _)); [done|].
  destruct (serve _ _) as [ops|]; [|done].
  pose proof (applyOps_bounded ops (mkBounded 0 [] false)) as Hb.
  destruct (fold_left applyOp ops _) as [status body overflow].
  cbn [bounded_status bounded_body bounded_overflow] in *.
  set (code := if status =? 0 then 200 else status). destruct (_ || _) eqn:Hg; [done|]. breflect.
  split; [|done]. apply ok_response; [done| |lia]. split; [done|]. apply Hb. vm_compute. discriminate.
Qed.

(** * The invariant *)
Definition key (f : Flight) : nat * string := (f.(Flight_generation), f.(Flight_frame).(Frame_ID)).

Definition inPhase (p : phase) (f : Flight) : Prop := f.(Flight_phase) = p.

#[global] Instance inPhase_dec p f : Decision (inPhase p f).
Proof. unfold inPhase. apply _. Defined.

Record connector_inv (options : ConnectorOptions) (st : State) : Prop := {
  inv_slots : st.(slots) = len (filter (fun f => ¬ inPhase Released f) st.(flights));
  inv_bound : st.(slots) <= options.(MaxConcurrent);
  inv_active : ∀ k, k ∈ st.(active) ↔ k ∈ key <$> st.(flights);
  inv_unique : NoDup (key <$> st.(flights));
  inv_taken : st.(taken) ≡ₚ
    ((fun r => (r.1, r.2.(Frame_ID))) <$> st.(responses))
    ++ (key <$> filter (inPhase Serving) st.(flights));
  inv_responses : Forall (fun r => frame_ok r.2 ∧ r.2.(Frame_Kind) = "response") st.(responses);
  inv_flights : Forall (fun f => frame_id f.(Flight_frame).(Frame_ID)
    ∧ (f.(Flight_generation) <= st.(generation))%nat
    ∧ (st.(connected) = false ∨ f.(Flight_generation) ≠ st.(generation) →
       f.(Flight_cancelled) = true)) st.(flights)
}.

(** Cancelling changes neither identifiers nor phases. *)
Definition keeps (g : Flight → Flight) : Prop :=
  ∀ f, (g f).(Flight_generation) = f.(Flight_generation)
    ∧ (g f).(Flight_frame) = f.(Flight_frame) ∧ (g f).(Flight_phase) = f.(Flight_phase).

Lemma keeps_filter g (P : Flight → Prop) `{∀ f, Decision (P f)} (l : list Flight) :
  (∀ f, P (g f) ↔ P f) → filter P (g <$> l) = g <$> filter P l.
Proof.
  intros Hg. induction l as [|f l IH]; [done|]. csimpl. destruct (decide (P f)) as [Hp|Hp].
  - rewrite !filter_cons_True by (done || by apply Hg). csimpl. by rewrite IH.
  - by rewrite !filter_cons_False by (done || by rewrite Hg).
Qed.

Lemma keeps_key g (l : list Flight) : keeps g → key <$> (g <$> l) = key <$> l.
Proof.
  intros Hg. rewrite <- list_fmap_compose. apply list_fmap_ext. intros _ f _. unfold key. simpl.
  by destruct (Hg f) as (-> & -> & _).
Qed.

(** The parts of the invariant that a change of the flights that keeps their keys and phases
    does not touch. *)
Lemma inv_cancel options st g connected' :
  keeps g → connector_inv options st →
  Forall (fun f => connected' = false ∨ f.(Flight_generation) ≠ st.(generation) →
    (g f).(Flight_cancelled) = true) st.(flights) →
  connector_inv options (mkState st.(generation) connected' st.(slots) st.(active)
    (g <$> st.(flights)) st.(taken) st.(responses)).
Proof.
  intros Hg [Hs Hb Ha Hu Ht Hr Hf] Hc.
  assert (Hphase : ∀ p f, inPhase p (g f) ↔ inPhase p f).
  { intros p f. unfold inPhase. by destruct (Hg f) as (_ & _ & ->). }
  split; cbn [slots active flights taken responses generation connected]; try done.
  - rewrite keeps_filter by (intros f; by rewrite Hphase). unfold len. by rewrite length_fmap.
  - intros k. by rewrite keeps_key.
  - by rewrite keeps_key.
  - rewrite keeps_filter by (intros f; apply Hphase). by rewrite keeps_key.
  - apply Forall_fmap. rewrite Forall_forall in *. intros f Hin. simpl.
    destruct (Hg f) as (-> & -> & _). destruct (Hf f Hin) as (Hid & Hgen & _). auto.
Qed.

Lemma keeps_cancel : keeps cancelFlight.
Proof. by intros []. Qed.

Lemma inv_disconnect options st : connector_inv options st → connector_inv options (disconnect st).
Proof.
  intros Hi. apply (inv_cancel options st cancelFlight false); [apply keeps_cancel|done|].
  by apply Forall_true.
Qed.

Lemma inv_cancelRequest options st id :
  connector_inv options st → connector_inv options (cancelRequest st id).
Proof.
  intros Hi. apply inv_cancel; [|done|].
  - intros f. by case_bool_decide.
  - apply (Forall_impl _ _ _ (inv_flights _ _ Hi)). intros f (_ & _ & Hc) Hd.
    case_bool_decide; [done|]. auto.
Qed.

Lemma inv_take options st frame :
  connector_inv options st → st.(connected) = true → frame_id frame.(Frame_ID) →
  (st.(generation), frame.(Frame_ID)) ∉ st.(active) → st.(slots) < options.(MaxConcurrent) →
  connector_inv options (takeRequest st frame).
Proof.
  intros [Hs Hb Ha Hu Ht Hr Hf] Hc Hid Hnew Hlt. unfold takeRequest.
  split; cbn [slots active flights taken responses generation connected]; try done.
  - rewrite filter_app. rewrite filter_cons_True by done. unfold len in *.
    rewrite length_app. simpl. lia.
  - lia.
  - intros k. rewrite elem_of_union, elem_of_singleton, fmap_app, elem_of_app, Ha.
    csimpl. rewrite list_elem_of_singleton. unfold key at 2. simpl. tauto.
  - rewrite fmap_app. apply NoDup_app. split; [done|]. split; [|apply NoDup_singleton].
    intros k Hk Hin%list_elem_of_singleton. subst k. by apply Ha in Hk.
  - rewrite filter_app, filter_cons_True by done. rewrite fmap_app, Ht.
    csimpl. by rewrite (assoc_L (++)), <- Permutation_cons_append.
  - rewrite Forall_app. split; [done|]. apply Forall_singleton. simpl. split; [done|]. split; [lia|].
    rewrite Hc. by intros [?|?].
Qed.

(** Changing one flight in place: what the invariant needs of the old and the new one. *)
Lemma filter_replace (P : Flight → Prop) `{∀ f, Decision (P f)} l1 f l2 :
  filter P (l1 ++ f :: l2) ≡ₚ (if decide (P f) then [f] else []) ++ filter P (l1 ++ l2).
Proof.
  rewrite !filter_app. destruct (decide (P f)) as [Hp|Hp]; simpl.
  - rewrite filter_cons_True by done. symmetry. apply Permutation_middle.
  - by rewrite filter_cons_False.
Qed.

(** Counts a flight that is singled out by its phase. *)
Ltac phases := rewrite !filter_replace; repeat case_decide; unfold inPhase, setPhase in *; simpl in *;
  try (exfalso; congruence).

Lemma inv_answer options st i f response :
  connector_inv options st → st.(flights) !! i = Some f → f.(Flight_phase) = Serving →
  frame_ok response → response.(Frame_ID) = f.(Flight_frame).(Frame_ID) →
  response.(Frame_Kind) = "response" →
  connector_inv options (mkState st.(generation) st.(connected) st.(slots) st.(active)
    (<[i := setPhase f Answered]> st.(flights)) st.(taken)
    ((f.(Flight_generation), response) :: st.(responses))).
Proof.
  intros [Hs Hb Ha Hu Ht Hr Hf] (l1 & l2 & Hl & Hins & _)%lookup_split Hp Hok Hid Hkind.
  rewrite Hins. rewrite Hl in *.
  assert (Hk : key <$> l1 ++ setPhase f Answered :: l2 = key <$> l1 ++ f :: l2).
  { rewrite !fmap_app. by csimpl. }
  split; cbn [slots active flights taken responses generation connected]; try done.
  - rewrite Hs. unfold len. f_equal. by phases.
  - intros k. by rewrite Hk.
  - by rewrite Hk.
  - rewrite Ht. phases. csimpl. rewrite <- Permutation_middle. by rewrite Hid.
  - by constructor.
  - rewrite Forall_app, Forall_cons in *. done.
Qed.

Lemma inv_release options st i f :
  connector_inv options st → st.(flights) !! i = Some f → f.(Flight_phase) = Answered →
  connector_inv options (releaseSlot st i f).
Proof.
  intros [Hs Hb Ha Hu Ht Hr Hf] (l1 & l2 & Hl & Hins & _)%lookup_split Hp.
  unfold releaseSlot. rewrite Hins. rewrite Hl in *.
  assert (Hk : key <$> l1 ++ setPhase f Released :: l2 = key <$> l1 ++ f :: l2).
  { rewrite !fmap_app. by csimpl. }
  split; cbn [slots active flights taken responses generation connected]; try done.
  - rewrite Hs. unfold len. phases. lia.
  - lia.
  - intros k. by rewrite Hk.
  - by rewrite Hk.
  - rewrite Ht. by phases.
  - rewrite Forall_app, Forall_cons in *. done.
Qed.

Lemma inv_forget options st i f :
  connector_inv options st → st.(flights) !! i = Some f → f.(Flight_phase) = Released →
  connector_inv options (forget st i f).
Proof.
  intros [Hs Hb Ha Hu Ht Hr Hf] (l1 & l2 & Hl & _ & Hdel)%lookup_split Hp.
  unfold forget. rewrite Hdel. rewrite Hl in *.
  assert (Hnd : NoDup (key f :: (key <$> l1 ++ l2))).
  { rewrite fmap_app, fmap_cons, <- Permutation_middle in Hu. by rewrite fmap_app. }
  apply NoDup_cons in Hnd as [Hnot Hnd].
  split; cbn [slots active flights taken responses generation connected]; try done.
  - rewrite Hs. unfold len. by phases.
  - intros k. rewrite elem_of_difference, elem_of_singleton, Ha. fold (key f).
    rewrite !fmap_app in *. csimpl. rewrite !elem_of_app, elem_of_cons in *.
    split; [tauto|]. intros Hin. split; [tauto|]. intros ->. tauto.
  - rewrite Ht. by phases.
  - rewrite Forall_app, Forall_cons in Hf. destruct Hf as (? & _ & ?). by apply Forall_app.
Qed.

Lemma request_id frame raw : DecodeFrame raw = Ret frame → frame.(Frame_Kind) = "request" →
  frame_id frame.(Frame_ID).
Proof.
  unfold DecodeFrame. destruct (_ <? _); [done|]. destruct (strictJSON raw) as [f| | |]; try done.
  destruct (checkFrame f) eqn:Hc; [|done]. intros [= <-]. apply checkFrame_ok in Hc.
  by destruct Hc.
Qed.

Lemma inv_receive options now later text raw st st' err :
  connector_inv options st → st.(connected) = true →
  receive options now later text raw st = (st', err) → connector_inv options st'.
Proof.
  intros Hi Hc. unfold receive. destruct (negb text); [intros [= <- <-]; by apply inv_disconnect|].
  destruct (DecodeFrame raw) as [frame| | |] eqn:Hd;
    try (intros [= <- <-]; by apply inv_disconnect).
  case_bool_decide as Hk; [intros [= <- <-]; by apply inv_cancelRequest|].
  case_bool_decide as Hreq; [|intros [= <- <-]; by apply inv_disconnect].
  destruct (_ || _) eqn:Hg; [intros [= <- <-]; by apply inv_disconnect|].
  destruct (Z.leb_spec options.(MaxConcurrent) st.(slots)); intros [= <- <-];
    [by apply inv_disconnect|]. breflect.
  apply inv_take; eauto using request_id.
Qed.

Lemma connector_inv_step options newRequest st st' :
  connector_inv options st → connector_step options newRequest st st' → connector_inv options st'.
Proof.
  intros Hi Hstep. destruct Hstep as [st Hc|st now later text raw st' err Hc Hr|st Hc
    |st i f serve written Hl Hp|st i f Hl Hp|st i f Hl Hp].
  - destruct Hi as [Hs Hb Ha Hu Ht Hr Hf]. split; try done. simpl.
    apply (Forall_impl _ _ _ Hf). intros f (Hid & Hg & Hcan). split; [done|]. split; [lia|auto].
  - by eapply inv_receive.
  - by apply inv_disconnect.
  - assert (Hid : frame_id f.(Flight_frame).(Frame_ID)).
    { pose proof (inv_flights _ _ Hi) as Hf. rewrite Forall_forall in Hf.
      apply Hf. by eapply list_elem_of_lookup_2. }
    destruct (handle_ok newRequest serve f.(Flight_frame) Hid) as (Hok & Hsame & Hkind).
    pose proof (inv_answer options st i f _ Hi Hl Hp Hok Hsame Hkind) as Hi'.
    unfold answer. destruct (negb written && _); [by apply inv_disconnect|done].
  - by apply inv_release.
  - by apply inv_forget.
Qed.

Lemma inv_initial options : 0 <= options.(MaxConcurrent) → connector_inv options initialState.
Proof.
  intros Hm. split; simpl; try done.
  - intros k. split; [set_solver|]. by intros ?%not_elem_of_nil.
  - constructor.
Qed.

Lemma reachable_inv options newRequest st :
  0 <= options.(MaxConcurrent) →
  rtc (connector_step options newRequest) initialState st → connector_inv options st.
Proof.
  intros Hm Hr. apply (inv_initial options) in Hm. revert Hm. generalize initialState, st, Hr.
  clear st Hr. intros st0 st Hr. induction Hr as [st|st st' st'' Hs Hr IH]; [done|].
  intros Hi. by eapply IH, connector_inv_step.
Qed.

End Lemmas.

(** * Theorems *)
Section Theorems.
Context `{!RawJson} `{!Json Frame}.

(** C11: the connector over all interleavings of its reader, its handlers and the ends and
    restarts of its connections. At most [MaxConcurrent] (itself at most 64) handlers hold a
    slot, and [slots] counts them; no two live requests of one connection share an
    identifier; every request taken has been answered once or is still being served, so none
    is run or answered twice and no answer is without a request; every answer is a
    well-formed response frame, whatever the handler did; and the handlers of a connection
    that ended are cancelled. *)
Theorem connector_safe given options newRequest st :
  Valid unavailableBody = true → NewConnector given = Ret options →
  rtc (connector_step options newRequest) initialState st →
  st.(slots) = len (filter (fun f => ¬ inPhase Released f) st.(flights))
  ∧ st.(slots) <= options.(MaxConcurrent) <= 64
  ∧ NoDup (key <$> st.(flights))
  ∧ st.(taken) ≡ₚ ((fun r => (r.1, r.2.(Frame_ID))) <$> st.(responses))
                  ++ (key <$> filter (inPhase Serving) st.(flights))
  ∧ Forall (fun r => frame_ok r.2 ∧ r.2.(Frame_Kind) = "response") st.(responses)
  ∧ Forall (fun f => st.(connected) = false ∨ f.(Flight_generation) ≠ st.(generation) →
      f.(Flight_cancelled) = true) st.(flights).
Proof.
  intros Hv Hn Hr. apply NewConnector_bounds in Hn as (Hm & _).
  destruct (reachable_inv Hv options newRequest st ltac:(lia) Hr) as [Hs Hb Ha Hu Ht Hres Hf].
  split; [done|]. split; [lia|]. do 3 (split; [done|]).
  apply (Forall_impl _ _ _ Hf). tauto.
Qed.

(** Reconnecting backs off within its bounds. As long as [Run] goes on, every wait lies
    between half of [ReconnectMin] and [ReconnectMax]; while connections keep failing within
    ten seconds, the wait after the k-th failure is at least half of [ReconnectMin]
    doubled k times or of [ReconnectMax]; and it ends only when the context does, on a refusal
    (invalid or unauthorized) or without randomness. *)
Theorem reconnect_bounds given options rounds :
  NewConnector given = Ret options →
  Forall (fun wait => Z.quot options.(ReconnectMin) 2 <= wait <= options.(ReconnectMax))
    (Run options rounds).1
  ∧ (Forall (fun r => r.(Round_took) <= 10 * Second) rounds →
     ∀ k wait, (Run options rounds).1 !! k = Some wait →
       Z.quot (Z.min (options.(ReconnectMin) * 2 ^ Z.of_nat k) options.(ReconnectMax)) 2 <= wait)
  ∧ ∀ e, (Run options rounds).2 = Some (RunFails e) →
     e = ErrInvalid ∨ e = ErrUnauthorized ∨ e = ErrUnavailable.
Proof.
  intros Hn. apply NewConnector_bounds in Hn as (_ & Hmin & Hmax). unfold Run.
  split; [|split].
  - apply runFrom_bounds; lia.
  - intros Hq k wait. rewrite <- (Z.add_0_l (Z.of_nat k)), (Nat2Z.inj_0 : 0 = Z.of_nat 0).
    apply runFrom_doubles; try lia; done.
  - intros e. apply runFrom_end.
Qed.

Context (Parse : string → option URL) (ParseAddr : string → option Addr).

(** A round of the heartbeat that goes on, with what it did. *)
Definition renews (lease : Lease) (timer : Z) (written : option Frame) (lease' : Lease) : Prop :=
  ∃ now later ping fetched write, clock now ∧ clock later ∧ now <= later
    ∧ renew Parse ParseAddr lease now later ping fetched write = Some (lease', timer, written).

(** The lease of a connection. From a valid session, over any rounds of the heartbeat that
    keep the connection, the session held is always for the same connection at the same
    address and its renewal is due before it expires; a round sets the next timer to at
    most fifteen seconds, and the only frame it writes is a well-formed [authenticate] frame
    with the credential of the session it then holds. *)
Theorem lease_renewed_in_time session now later lease timer written lease' :
  clock now → clock later → validSession Parse ParseAddr session now later = true →
  rtc (fun a b => ∃ t w, renews a t w b) (mkLease session (sessionRefreshAt session now)) lease →
  renews lease timer written lease' →
  lease'.(Lease_session).(Session_ConnectionID) = session.(Session_ConnectionID)
  ∧ lease'.(Lease_session).(Session_ConnectorURL) = session.(Session_ConnectorURL)
  ∧ lease'.(Lease_nextRefresh) < ofUnixMicro lease'.(Lease_session).(Session_ExpiresAt)
  ∧ timer <= 15 * Second
  ∧ (∀ frame, written = Some frame → frame_ok frame
       ∧ frame.(Frame_Credential) = lease'.(Lease_session).(Session_Credential)).
Proof.
  intros Hn Hl Hv Hr Hlast.
  assert (Hstart : leaseOK session (mkLease session (sessionRefreshAt session now))).
  { split; [done|]. split; [done|]. simpl. by apply (session_refresh Parse ParseAddr session now later). }
  assert (Hlease : leaseOK session lease).
  { remember (mkLease session (sessionRefreshAt session now)) as start eqn:Heq. clear Heq Hv Hlast.
    induction Hr as [a|a b c (t & w & Hab) Hbc IH]; [done|].
    destruct Hab as (n & l & ping & fetched & write & Hn' & Hl' & Hle & Hren).
    apply IH. exact (proj1 (renew_ok _ _ _ _ _ _ _ _ _ _ _ _ Hn' Hl' Hle Hstart Hren)). }
  destruct Hlast as (n & l & ping & fetched & write & Hn' & Hl' & Hle & Hren).
  destruct (renew_ok _ _ _ _ _ _ _ _ _ _ _ _ Hn' Hl' Hle Hlease Hren) as ((H1 & H2 & H3) & Ht & Hw).
  done.
Qed.

End Theorems.

Section ProviderTheorems.
Context `{!Ed25519} `{!Ed25519Laws} `{!Json ConnectionProof} `{!JsonLaws ConnectionProof cleanProof}.
Context `{!Json SignedMessage} `{!Json Session}.
Context (Parse : string → option URL) (ParseAddr : string → option Addr).

Lemma clock_Unix t : 0 <= t < 2 ^ 63 → Unix t = t / Second.
Proof.
  intros Ht. unfold Unix, Second. apply i64_id. unfold is_i64. Z.to_euclidean_division_equations. lia.
Qed.

(** How a connector obtains its session. The provider posts, to the sessions of its own
    connection under the configured Control URL and nowhere else, a fresh proof under the
    registered key that verifies at that time; it returns only a valid session of that
    connection whose address is the connect path on the host of the configured endpoint. *)
Theorem session_obtained options p nonce now later post session seed :
  NewProofSessionProvider Parse ParseAddr options = Ret p → clock now →
  options.(ProofOptions_SigningKey) = NewKeyFromSeed seed → len seed = SeedSize →
  provide Parse ParseAddr p (Some nonce) now later post = Ret session →
  validSession Parse ParseAddr session later later = true
  ∧ session.(Session_ConnectionID) = options.(ProofOptions_ConnectionID)
  ∧ (∃ control endpoint, Parse options.(ProofOptions_ControlURL) = Some control
      ∧ Parse options.(ProofOptions_EndpointURL) = Some endpoint
      ∧ endpoint.(URL_Scheme) = "https"
      ∧ session.(Session_ConnectorURL) = "wss://" +:+ endpoint.(URL_Host)
          +:+ "/v1/development-connections/" +:+ options.(ProofOptions_ConnectionID) +:+ "/connect"
      ∧ ∃ signed raw reply, Marshal signed = Some raw
          ∧ post (TrimRightSlash control.(URL_String) +:+ "/v1/development-connections/"
                  +:+ options.(ProofOptions_ConnectionID) +:+ "/sessions") raw = Replied reply
          ∧ reply.(Reply_Status) = 201
          ∧ (slen signed.(Payload) <= 8192 →
             VerifyConnectionProof signed options.(ProofOptions_SigningKeyID)
               (Public (NewKeyFromSeed seed)) (Unix now) =
             Ret (connectionProof options (EncodeToString nonce) (Unix now)
                    (Unix (now + 30 * Second))))).
Proof.
  intros Hp Hn Hkey Hseed. revert Hp. unfold NewProofSessionProvider.
  destruct (ValidateEndpoint _ _ (ProofOptions_ControlURL _)) as [control| | |] eqn:Hc; try done.
  destruct (ValidateEndpoint _ _ (ProofOptions_EndpointURL _)) as [endpoint| | |] eqn:He; try done.
  destruct (_ || _); [done|]. destruct (_ || _); [done|]. intros [= <-].
  unfold provide. cbn [Provider_options Provider_requestURL Provider_expectedConnector].
  intros (signed & Hs & Hrest)%bind_Ret_inv.
  destruct (Marshal signed) as [raw|] eqn:Hm; [|done].
  destruct (post _ raw) as [| |response] eqn:Hpost; try done.
  destruct (_ || _); [done|]. destruct (Z.eqb_spec response.(Reply_Status) 201); [|done].
  simpl negb in Hrest. cbv iota in Hrest. destruct (Reply_Body response) as [body|]; [|done].
  destruct (_ <? _); [done|]. destruct (strictJSON body) as [sess| | |]; try done.
  destruct (_ || _) eqn:Hg; [done|]. injection Hrest as <-. breflect.
  split; [done|]. split; [done|]. exists control, endpoint.
  apply endpoint_Parse in Hc as [Hc _]. apply endpoint_Parse in He as [He Hscheme].
  do 4 (split; [done|]). exists signed, raw, response. do 3 (split; [done|]). intros Hlen.
  rewrite Hkey in Hs. unfold clock, Second in *.
  erewrite (VerifyConnectionProof_Sign (connectionProof options (EncodeToString nonce) (Unix now)
    (Unix (now + 30 * 1000000000)))); [|done|apply i64_range..|exact Hs|done].
  unfold connectionProof. cbn [Proof_IssuedAt Proof_ExpiresAt]. rewrite Z.leb_refl.
  rewrite !clock_Unix by lia. unfold Second.
  rewrite (proj2 (Z.ltb_lt _ _)); [done|]. Z.to_euclidean_division_equations. lia.
Qed.

End ProviderTheorems.

(** The local handler forwards to two paths of the configured origin, with the body as it
    came, and never passes on a redirect. *)
Theorem local_routes (String : URL → string) origin send r response forwarded :
  serveLocal String origin send r = (response, forwarded) →
  (∀ url body, (url, body) ∈ forwarded → body `prefix_of` r.(Local_Body)
     ∧ (url = String origin +:+ "/v1/functions/challenge"
        ∨ url = String origin +:+ "/v1/functions/invoke")
     ∧ r.(Local_Method) = "POST")
  ∧ ∀ status body, response = LocalReply status body →
      forwarded = [(String origin +:+ r.(Local_Path), r.(Local_Body))]
      ∧ ¬ 300 <= status < 400 ∧ len body <= MaxBodyBytes.
Proof.
  unfold serveLocal. destruct (_ || _) eqn:Hg.
  { intros [= <- <-]. split; [|done]. by intros ? ? ?%not_elem_of_nil. }
  apply orb_false_iff in Hg as [Hg Hp]. do 3 apply orb_false_iff in Hg as [Hg _].
  apply negb_false_iff, bool_decide_eq_true in Hg.
  assert (Hpath : Local_Path r = "/v1/functions/challenge" ∨ Local_Path r = "/v1/functions/invoke").
  { apply andb_false_iff in Hp as [Hp|Hp]; apply negb_false_iff, bool_decide_eq_true in Hp; auto. }
  assert (Hone : ∀ b, b `prefix_of` r.(Local_Body) → ∀ url body,
    (url, body) ∈ [(String origin +:+ Local_Path r, b)] → body `prefix_of` r.(Local_Body)
     ∧ (url = String origin +:+ "/v1/functions/challenge"
        ∨ url = String origin +:+ "/v1/functions/invoke") ∧ r.(Local_Method) = "POST").
  { intros b Hb url body [= -> ->]%list_elem_of_singleton. split; [done|]. split; [|done].
    destruct Hpath as [->| ->]; auto. }
  destruct (_ <? _); [intros [= <- <-]; split; [apply Hone, prefix_take|done]|].
  destruct (send _ _) as [| |reply].
  { intros [= <- <-]. split; [|done]. by intros ? ? ?%not_elem_of_nil. }
  { intros [= <- <-]. split; [by apply Hone|done]. }
  destruct (Reply_Body reply) as [body|]; [|intros [= <- <-]; split; [by apply Hone|done]].
  destruct (_ || _) eqn:Hr; intros [= <- <-]; (split; [by apply Hone|]); [done|].
  intros status b [= <- <-]. split; [done|]. breflect. lia.
Qed.

(** * Examples *)
Module ConnectorSamples.
Import Protocol.Samples DevelopmentSamples.

Definition given1 : ConnectorOptions := mkConnectorOptions true true 1 0 0.
Definition options1 : ConnectorOptions :=
  mkConnectorOptions true true 1 (250 * Millisecond) (30 * Second).

Lemma options1_new : NewConnector given1 = Ret options1.
Proof. reflexivity. Qed.

(** A request arrives and is taken; a second one finds no slot and ends the connection. *)
Definition connected1 : State := mkState 1 true 0 ∅ [] [] [].
Definition state1 : State := (receive options1 0 0 true raw1 connected1).1.

Example receive1 :
  (receive options1 0 0 true raw1 connected1).2 = None
  ∧ state1.(slots) = 1 ∧ state1.(taken) = [(1%nat, "r_1")]
  ∧ (receive options1 0 0 true
       (markTable (toFields (mkFrame "request" "r_2" "invoke" "" (bytes_of "[1]") 1 5000000 0)))
       state1).2 = Some ErrUnavailable
  ∧ (receive options1 0 0 true raw1 state1).2 = Some ErrInvalid.
Proof. vm_compute. auto 10. Qed.

(** The handler writes a body without a status; the answer is written. *)
Definition echoing (url : string) (body : list byte) : option (list response_op) :=
  Some [OpWrite body].

Example handle1 :
  handle (fun _ => true) echoing request1 = mkFrame "response" "r_1" "" "" (bytes_of "[1]") 1 0 200
  ∧ handle (fun _ => true) (fun _ _ => None) request1 = unavailable request1.
Proof. vm_compute. auto. Qed.

Definition flight1 : Flight := mkFlight 1 request1 false Serving.
Definition state2 : State :=
  answer state1 0 flight1 (handle (fun _ => true) echoing request1) true.

Lemma reach2 : rtc (connector_step options1 (fun _ => true)) initialState state2.
Proof.
  eapply rtc_l; [apply step_connect; reflexivity|].
  eapply rtc_l.
  - eapply (step_receive _ _ _ 0 0 true raw1 state1 None); [reflexivity|]. vm_compute. reflexivity.
  - eapply rtc_l; [|apply rtc_refl].
    apply (step_answer _ _ state1 0 flight1 echoing true); vm_compute; reflexivity.
Qed.

Lemma connector_safe_witness :
  state2.(slots) = 1 ∧ state2.(slots) <= options1.(MaxConcurrent) <= 64
  ∧ length state2.(responses) = 1%nat.
Proof.
  destruct (connector_safe given1 options1 (fun _ => true) state2) as (_ & Hb & _).
  - reflexivity.
  - exact options1_new.
  - exact reach2.
  - split; [vm_compute; reflexivity|]. split; [exact Hb|vm_compute; reflexivity].
Defined.

Definition round1 : Round := mkRound 5 ErrUnavailable false (Some 77) false.

Lemma reconnect_bounds_witness :
  (Run options1 (replicate 9 round1)).1 !! 8%nat = Some (15000000077)
  ∧ Z.quot (Z.min (250 * Millisecond * 2 ^ 8) (30 * Second)) 2 <= 15000000077.
Proof.
  assert (Hw : (Run options1 (replicate 9 round1)).1 !! 8%nat = Some 15000000077)
    by (vm_compute; reflexivity).
  split; [exact Hw|].
  destruct (reconnect_bounds given1 options1 (replicate 9 round1) options1_new) as (_ & Hd & _).
  apply (Hd ltac:(by apply Forall_replicate; vm_compute) 8%nat 15000000077 Hw).
Defined.

Definition urlOf (s : string) : option URL :=
  let path := TrimPrefix s "https://functions.example" in
  Some (mkURL "https" false "functions.example" "functions.example" "" path "" "" "" false "" s).

Definition noAddr (s : string) : option Addr := None.

Definition session1 (expires : Z) : Session :=
  mkSession "dvc_abc1" "wss://functions.example/v1/development-connections/dvc_abc1/connect" "token"
    expires.

Lemma session1_valid : validSession urlOf noAddr (session1 240000000) 0 0 = true.
Proof. vm_compute. reflexivity. Qed.

Definition t70 : Z := 70 * Second.

Lemma lease_renewed_in_time_witness :
  ∃ lease timer written, renews urlOf noAddr
      (mkLease (session1 240000000) (sessionRefreshAt (session1 240000000) 0)) timer written lease
    ∧ lease.(Lease_session) = session1 300000000
    ∧ lease.(Lease_nextRefresh) < ofUnixMicro 300000000.
Proof.
  set (next := session1 300000000).
  exists (mkLease next (sessionRefreshAt next t70)), (15 * Second),
    (Some (mkFrame "authenticate" "" "" "token" [] 1 0 0)).
  assert (Hr : renews urlOf noAddr
      (mkLease (session1 240000000) (sessionRefreshAt (session1 240000000) 0)) (15 * Second)
      (Some (mkFrame "authenticate" "" "" "token" [] 1 0 0)) (mkLease next (sessionRefreshAt next t70))).
  { exists t70, t70, true, (Ret next), (fun _ => true).
    unfold clock, t70, Second. split; [lia|]. split; [lia|]. split; [lia|]. vm_compute. reflexivity. }
  split; [exact Hr|]. split; [reflexivity|].
  destruct (lease_renewed_in_time urlOf noAddr (session1 240000000) 0 0 _ _ _ _
    ltac:(unfold clock; lia) ltac:(unfold clock; lia) session1_valid (rtc_refl _ _) Hr)
    as (_ & _ & Hnext & _).
  exact Hnext.
Defined.

#[export] Instance Session_fields : Fields Session.
Proof.
  refine {|
  toFields s := [[s.(Session_ConnectionID); s.(Session_ConnectorURL); s.(Session_Credential);
      ofZ s.(Session_ExpiresAt)]];
  ofFields l :=
    match l with [[a; b; c; e]] => e ← toZ e; Some (mkSession a b c e) | _ => None end
  |}.
 intros []; simpl. by rewrite !toZ_ofZ.
Defined.

#[export] Instance session_json : Json Session := fieldsJson _.

Definition proofOptions1 : ProofSessionOptions :=
  mkProofOptions scope "https://functions.example/" "https://functions.example/t/dvc_abc1" "dvc_abc1"
    "binding" "bridge:1" (NewKeyFromSeed seed).

Definition provider1 : Provider :=
  mkProvider proofOptions1 "https://functions.example/v1/development-connections/dvc_abc1/sessions"
    "wss://functions.example/v1/development-connections/dvc_abc1/connect".

(** A Control that admits every proof. *)
Definition admitting (url : string) (raw : list byte) : exchange :=
  Replied (mkReply 201 (Some (markTable (toFields (session1 240000000))))).

Lemma session_obtained_witness :
  provide urlOf noAddr provider1 (Some (replicate 16 x01)) t70 t70 admitting
    = Ret (session1 240000000)
  ∧ validSession urlOf noAddr (session1 240000000) t70 t70 = true.
Proof.
  assert (Hp : NewProofSessionProvider urlOf noAddr proofOptions1 = Ret provider1)
    by (vm_compute; reflexivity).
  assert (Hs : provide urlOf noAddr provider1 (Some (replicate 16 x01)) t70 t70 admitting
    = Ret (session1 240000000)) by (vm_compute; reflexivity).
  split; [exact Hs|].
  exact (proj1 (session_obtained urlOf noAddr proofOptions1 provider1 (replicate 16 x01) t70 t70
    admitting (session1 240000000) seed Hp ltac:(unfold clock, t70, Second; lia) eq_refl eq_refl Hs)).
Defined.

End ConnectorSamples.
