(* ===== verification/ConnectorCommand.v ===== *)
(** The development connector's program: [cmd/lotor-development-connector/main.go].

    The private configuration file is checked, read and decoded, and the connector of
    [Connector] is built from it and run. The file system, the clock and the network are
    parameters; that buffers with secrets are cleared on return is not modelled. *)
From S2P Require Import Prelude GoStd Sha256 Interfaces Protocol ExecutionStore Runtime Transport.
From S2P Require Import Development Connector.

#[local] Open Scope bool_scope.

(** * Data *)
Record configuration : Type := mkConfiguration {
  Config_ControlURL : string;
  Config_EndpointURL : string;
  Config_ConnectionID : string;
  Config_BindingID : string;
  Config_KeyID : string;
  Config_SigningPrivateKey : string;
  Config_Scope : Scope;
  Config_LocalOrigin : string
}.

(** [os.FileInfo]; [os.SameFile] compares the identities. *)
Record FileInfo : Type := mkFileInfo {
  Info_Regular : bool;
  Info_Perm : Z;
  Info_Size : Z;
  Info_File : Z
}.

(** An opened file: what [Stat] says of it, the bytes that reading yields, and whether reading
    fails after them. *)
Record OpenedFile : Type := mkOpenedFile {
  Opened_Stat : option FileInfo;
  Opened_Bytes : list byte;
  Opened_Broken : bool
}.

Record FileSystem : Type := mkFileSystem {
  Lstat : string → option FileInfo;
  Open : string → option OpenedFile
}.

Definition maximumConfiguration : Z := Z.shiftl 64 10.

(** A regular file that only its owner may use. *)
Definition privateFile (info : FileInfo) : bool :=
  info.(Info_Regular) && (Z.land info.(Info_Perm) 0x3f =? 0).

Definition readConfiguration (fs : FileSystem) (file : string) : outcome bridge_error (list byte) :=
  match fs.(Lstat) file with
  | None => Throw ErrInvalid
  | Some info =>
      if negb (privateFile info) || (maximumConfiguration <? info.(Info_Size)) then Throw ErrInvalid
      else match fs.(Open) file with
      | None => Throw ErrInvalid
      | Some opened =>
          match opened.(Opened_Stat) with
          | None => Throw ErrInvalid
          | Some actual =>
              if negb (info.(Info_File) =? actual.(Info_File)) || negb (privateFile actual)
              then Throw ErrInvalid
              else
                let raw := opened.(Opened_Bytes) in
                if (maximumConfiguration <? len raw) || opened.(Opened_Broken) then Throw ErrInvalid
                else Ret raw
          end
      end
  end.

Section Command.
Context `{!Ed25519} `{!Json configuration}.
Context (Parse : string → option URL) (ParseAddr : string → option Addr).

(** The signing key of the configuration: a seed, or a key that its seed gives. *)
Definition commandSigningKey (encoded : string) : outcome bridge_error (list byte) :=
  match rawURLDecode true (bytes_of encoded) with
  | None => Throw ErrInvalid
  | Some private =>
      let private := if len private =? SeedSize then NewKeyFromSeed private else private in
      if negb (len private =? PrivateKeySize)
         || negb (bool_decide (NewKeyFromSeed (take (Z.to_nat SeedSize) private) = private))
      then Throw ErrInvalid
      else Ret private
  end.

Definition decodeConfiguration (raw : list byte) : outcome bridge_error configuration :=
  match Decode raw with
  | None => Throw ErrInvalid
  | Some (config, rest) => if atEOF rest then Ret config else Throw ErrInvalid
  end.

Definition providerOptions (config : configuration) (private : list byte) : ProofSessionOptions :=
  mkProofOptions config.(Config_Scope) config.(Config_ControlURL) config.(Config_EndpointURL)
    config.(Config_ConnectionID) config.(Config_BindingID) config.(Config_KeyID) private.

(** [run] up to the start of the connector. *)
Definition prepare (fs : FileSystem) (file : string)
    : outcome bridge_error (Provider * URL * ConnectorOptions) :=
  raw ← readConfiguration fs file;
  config ← decodeConfiguration raw;
  private ← commandSigningKey config.(Config_SigningPrivateKey);
  provider ← NewProofSessionProvider Parse ParseAddr (providerOptions config private);
  handler ← NewLocalHandler Parse config.(Config_LocalOrigin);
  connector ← NewConnector (mkConnectorOptions true true 0 0 0);
  Ret (provider, handler, connector).

Definition connectedLine : string := "development bridge connected".
Definition failedLine : string :=
  "development connector could not run; check private configuration and bridge registration".

(** [main]: the lines on the standard error, the exit code, or neither while it runs. [rounds]
    is what the network brings, [announced] how often a connection was announced. *)
Definition main (fs : FileSystem) (file : string) (rounds : list Round) (announced : nat)
    : list string * option Z :=
  match prepare fs file with
  | Ret (_, _, connector) =>
      let lines := replicate announced connectedLine in
      match (Run connector rounds).2 with
      | None => (lines, None)
      | Some (RunFails _) => (lines ++ [failedLine], Some 1)
      | Some RunCancelled => (lines, Some 0)
      end
  | _ => ([failedLine], Some 1)
  end.
End Command.

(** * Theorems *)

(** The test of an early return did not hold. *)
#[local] Ltac passes H :=
  match goal with |- (if ?b then _ else _) = _ → _ => destruct b eqn:H; [done|] end.

Section CommandTheorems.
Context `{!Ed25519} `{!Json configuration}.
Context (Parse : string → option URL) (ParseAddr : string → option Addr).

Lemma readConfiguration_Ret fs file raw :
  readConfiguration fs file = Ret raw →
  ∃ info opened actual,
    fs.(Lstat) file = Some info ∧ fs.(Open) file = Some opened ∧ opened.(Opened_Stat) = Some actual
    ∧ info.(Info_File) = actual.(Info_File) ∧ privateFile info = true ∧ privateFile actual = true
    ∧ raw = opened.(Opened_Bytes) ∧ len raw <= maximumConfiguration.
Proof.
  unfold readConfiguration. destruct (Lstat fs file) as [info|]; [|done].
  passes Hi. destruct (Open fs file) as [opened|]; [|done].
  destruct (Opened_Stat opened) as [actual|] eqn:Hs; [|done]. passes Ha.
  cbv zeta. passes Hr. intros [= <-].
  apply orb_false_iff in Hi as [Hi%negb_false_iff _], Hr as [Hl%Z.ltb_ge _].
  apply orb_false_iff in Ha as [Hf%negb_false_iff%Z.eqb_eq Ha%negb_false_iff].
  by exists info, opened, actual.
Qed.

Lemma commandSigningKey_Ret encoded private :
  commandSigningKey encoded = Ret private →
  len private = PrivateKeySize ∧ NewKeyFromSeed (take (Z.to_nat SeedSize) private) = private.
Proof.
  unfold commandSigningKey. destruct (rawURLDecode _ _) as [bytes|]; [|done]. cbv zeta.
  passes Hb. intros [= <-].
  by rewrite orb_false_iff, !negb_false_iff, Z.eqb_eq, bool_decide_eq_true in Hb.
Qed.

(** The connector runs only on a configuration that nobody but its owner can read or replace:
    the file that is read is the regular file that was checked, closed to group and others
    before and after it was opened. It signs with a key whose halves belong together, for a
    connection whose endpoint is its own, and forwards to a local origin that was
    checked. *)
Theorem configuration_private fs file provider handler connector :
  prepare Parse ParseAddr fs file = Ret (provider, handler, connector) →
  ∃ info opened actual config private endpoint,
    fs.(Lstat) file = Some info ∧ fs.(Open) file = Some opened ∧ opened.(Opened_Stat) = Some actual
    ∧ info.(Info_File) = actual.(Info_File) ∧ privateFile info = true ∧ privateFile actual = true
    ∧ decodeConfiguration opened.(Opened_Bytes) = Ret config
    ∧ provider.(Provider_options) = providerOptions config private
    ∧ len private = PrivateKeySize ∧ NewKeyFromSeed (take (Z.to_nat SeedSize) private) = private
    ∧ ValidateEndpoint Parse ParseAddr config.(Config_EndpointURL) = Ret endpoint
    ∧ endpoint.(URL_Path) = "/t/" +:+ config.(Config_ConnectionID)
    ∧ NewLocalHandler Parse config.(Config_LocalOrigin) = Ret handler
    ∧ connector = mkConnectorOptions true true 4 (250 * Millisecond) (30 * Second).
Proof.
  unfold prepare. intros (raw & Hraw & Hrest)%bind_Ret_inv.
  apply bind_Ret_inv in Hrest as (config & Hconfig & Hrest).
  apply bind_Ret_inv in Hrest as (private & Hkey & Hrest).
  apply bind_Ret_inv in Hrest as (p & Hp & Hrest).
  apply bind_Ret_inv in Hrest as (h & Hh & Hrest).
  apply bind_Ret_inv in Hrest as (o & Ho & Hrest). injection Hrest as -> -> ->.
  apply readConfiguration_Ret in Hraw as (info & opened & actual & ? & ? & ? & ? & ? & ? & -> & _).
  apply commandSigningKey_Ret in Hkey as [? ?]. vm_compute in Ho. injection Ho as <-.
  revert Hp. unfold NewProofSessionProvider.
  destruct (ValidateEndpoint _ _ _) as [control| | |]; [|done..].
  destruct (ValidateEndpoint _ _ _) as [endpoint| | |] eqn:He; [|done..].
  passes Hpath. passes Hproof. intros [= <-].
  rewrite !orb_false_iff, !negb_false_iff, bool_decide_eq_true in Hpath. destruct Hpath as [[_ Hpath] _].
  by exists info, opened, actual, config, private, endpoint.
Qed.

(** The program prints constant texts only, whatever its configuration. *)
Theorem main_silent fs file rounds announced :
  Forall (fun line => line = connectedLine ∨ line = failedLine)
    (main Parse ParseAddr fs file rounds announced).1.
Proof.
  assert (Hc : Forall (fun line => line = connectedLine ∨ line = failedLine)
                 (replicate announced connectedLine))
    by (apply Forall_forall; intros x [-> _]%elem_of_replicate; by left).
  assert (Hf : Forall (fun line => line = connectedLine ∨ line = failedLine) [failedLine])
    by (repeat constructor; by right).
  unfold main. destruct (prepare _ _ _ _) as [[[p h] o]| | |]; [|done..].
  destruct (Run o rounds).2 as [[|e]|]; [done| |done]. by apply Forall_app.
Qed.
End CommandTheorems.
