(* ===== verification/BrowserRoutes.v ===== *)
(** The browser allowlist: [lotorhttp/browseradapter/resources.go].

    [resourceRoute] and [validResourceQuery], and the allowlist as a table of routes that
    the nested conditions of the source are proved to implement. *)
From S2P Require Import Prelude GoStd.

(** Comparison of strings. *)
Notation "a =s b" := (String.eqb a b) (at level 70, no associativity) : bool_scope.
#[local] Open Scope bool_scope.

Definition prefix : string := "/.lotor/v1".

(** * Patterns and values *)
Definition idByte (b : byte) : bool :=
  let z := byteZ b in
  (65 <=? z) && (z <=? 90) || (97 <=? z) && (z <=? 122) || (48 <=? z) && (z <=? 57) || (z =? 95)
  || (z =? 45).

(** The regular expression of 1 to 256 letters, digits, underscores and hyphens. *)
Definition clientIDPattern (value : string) : bool :=
  (1 <=? slen value) && (slen value <=? 256) && forallb idByte (bytes_of value).

(** The one of event streams: up to 128 of them, with dots after the first. *)
Definition eventStreamPattern (value : string) : bool :=
  match bytes_of value with
  | first :: rest =>
      idByte first && (len rest <=? 127) && forallb (fun b => idByte b || (byteZ b =? 46)) rest
  | [] => false
  end.

Definition validValue (value : string) : bool :=
  if (slen value =? 0) || (4096 <? slen value) then false
  else forallb (fun c => negb ((c <? 33) || (126 <? c))) (runes value).

(** [url.PathUnescape]. *)
Fixpoint pathUnescape (b : list byte) : option (list byte) :=
  match b with
  | [] => Some []
  | c :: rest =>
      if Byte.eqb c x25 then
        match rest with
        | h :: l :: rest =>
            x ← unhex h; y ← unhex l; r ← pathUnescape rest; Some (to_byte (x * 16 + y) :: r)
        | _ => None
        end
      else r ← pathUnescape rest; Some (c :: r)
  end.

Definition PathUnescape (s : string) : option string := string_of <$> pathUnescape (bytes_of s).

(** * Routes *)

(** [strings.Split] of the path after the prefix. *)
Definition partsOf (escapedPath : string) : list string :=
  string_of <$> splitAt x2f (bytes_of (TrimPrefix escapedPath (prefix +:+ "/"))).

(** The check on the second part. *)
Definition valuePart (part : string) : bool :=
  match PathUnescape part with
  | None => false
  | Some value =>
      negb ((512 <? slen value) || negb (validValue value)
            || ContainsAny value [x2f; x25; x5c; x3f; x23] || (value =s ".") || (value =s ".."))
  end.

Definition unescapedID (part : string) : bool :=
  match PathUnescape part with Some id => clientIDPattern id | None => false end.

Section Routes.
Variable method : string.

(** The routes under a resource: three parts or more, the first is [resources]. *)
Definition resourceParts (parts : list string) : bool :=
  let n := length parts in
  let p := fun i => default "" (parts !! i) in
  if (n =? 3)%nat && (p 2%nat =s "collaborators") then method =s "GET"
  else if p 2%nat =s "scim-directories" then
    (n =? 3)%nat && ((method =s "GET") || (method =s "POST"))
    || (n =? 4)%nat && clientIDPattern (p 3%nat) && ((method =s "GET") || (method =s "PUT"))
  else if (n =? 3)%nat && (p 2%nat =s "catalog-binding") then method =s "PUT"
  else if (p 2%nat =s "event-streams") && (4 <=? n)%nat && eventStreamPattern (p 3%nat) then
    if (n =? 4)%nat then method =s "PUT"
    else if (n =? 5)%nat then
      (method =s "POST") && ((p 4%nat =s "events") || (p 4%nat =s "queries"))
    else if (n =? 6)%nat then
      (method =s "GET") && (p 4%nat =s "events") && clientIDPattern (p 5%nat)
    else (n =? 7)%nat && (method =s "GET") && (p 4%nat =s "queries") && clientIDPattern (p 5%nat)
         && ((p 6%nat =s "events") || (p 6%nat =s "histogram"))
  else if p 2%nat =s "credentials" then
    (n =? 3)%nat && ((method =s "GET") || (method =s "POST"))
    || (n =? 4)%nat && (method =s "DELETE") && clientIDPattern (p 3%nat)
    || (n =? 5)%nat && (method =s "POST") && clientIDPattern (p 3%nat) && (p 4%nat =s "rotate")
  else if (p 2%nat =s "payloads") && (4 <=? n)%nat && clientIDPattern (p 3%nat) then
    (n =? 4)%nat && ((method =s "GET") || (method =s "DELETE"))
    || (n =? 5)%nat && (method =s "POST")
       && existsb (String.eqb (p 4%nat)) ["uploads"; "commits"; "access"; "rewraps"]
  else if (p 2%nat =s "executions") && (n =? 4)%nat
          && ((p 3%nat =s "preflight") || (p 3%nat =s "commit"))
  then method =s "POST"
  else if (n =? 3)%nat && (p 2%nat =s "e2ee") then (method =s "GET") || (method =s "PUT")
  else if (4 <=? n)%nat && (p 2%nat =s "e2ee") && (p 3%nat =s "function-bindings") then
    (n =? 4)%nat && ((method =s "POST") || (method =s "GET"))
    || (n =? 5)%nat && clientIDPattern (p 4%nat) && ((method =s "GET") || (method =s "DELETE"))
    || (n =? 6)%nat && clientIDPattern (p 4%nat) && (p 5%nat =s "challenge") && (method =s "POST")
  else if (n =? 4)%nat && (p 2%nat =s "link-candidates") && (p 3%nat =s "search")
  then method =s "POST"
  else if (n =? 4)%nat && (p 2%nat =s "links") then
    if (p 3%nat =s "preflight") || (p 3%nat =s "commit") then method =s "POST"
    else (method =s "DELETE") && clientIDPattern (p 3%nat)
  else (n =? 3)%nat && (method =s "POST")
       && ((p 2%nat =s "move") || (p 2%nat =s "disable") || (p 2%nat =s "restore")).

(** The routes of two parts or more. Every index is below the length that was checked. *)
Definition partsRoute (parts : list string) : bool :=
  let n := length parts in
  let p := fun i => default "" (parts !! i) in
  if (n <? 2)%nat then false
  else if negb (valuePart (p 1%nat)) then false
  else if p 0%nat =s "operations" then (n =? 2)%nat && (method =s "GET")
  else if (p 0%nat =s "me") && (p 1%nat =s "catalogs") then
    if (n =? 4)%nat then (method =s "GET") && (p 3%nat =s "entries") && clientIDPattern (p 2%nat)
    else (n =? 6)%nat && (method =s "GET") && (p 3%nat =s "snapshots") && (p 5%nat =s "document")
         && clientIDPattern (p 2%nat) && clientIDPattern (p 4%nat)
  else if (p 0%nat =s "catalogs") && (method =s "GET") then
    (n =? 3)%nat && (p 2%nat =s "entries")
    || (n =? 4)%nat && (p 2%nat =s "entries") && clientIDPattern (p 3%nat)
  else if (p 0%nat =s "key-access") && (3 <=? n)%nat then
    if negb (unescapedID (p 2%nat)) then false
    else if p 1%nat =s "subject-keys" then (n =? 3)%nat && (method =s "DELETE")
    else if p 1%nat =s "claims" then
      (n =? 3)%nat && (method =s "GET")
      || (n =? 4)%nat && (method =s "POST") && ((p 3%nat =s "transfer") || (p 3%nat =s "complete"))
    else false
  else if (p 0%nat =s "me") && (n =? 4)%nat && (p 1%nat =s "encryption-actions") then
    clientIDPattern (p 2%nat) && (p 3%nat =s "complete") && (method =s "POST")
  else if (p 0%nat =s "me") && (n =? 4)%nat && (p 1%nat =s "invitations") then
    unescapedID (p 2%nat) && (method =s "POST") && ((p 3%nat =s "accept") || (p 3%nat =s "decline"))
  else if negb (p 0%nat =s "resources") then false
  else if (n =? 2)%nat then (method =s "GET") || (method =s "PUT") || (method =s "DELETE")
  else resourceParts parts.

Definition resourceRoute (escapedPath : string) : bool :=
  if escapedPath =s prefix +:+ "/resources" then method =s "POST"
  else if (escapedPath =s prefix +:+ "/billing/checkout-sessions")
          || (escapedPath =s prefix +:+ "/billing/portal-sessions") then method =s "POST"
  else if escapedPath =s prefix +:+ "/organizations" then (method =s "GET") || (method =s "POST")
  else if escapedPath =s prefix +:+ "/resources/search" then method =s "POST"
  else if (escapedPath =s prefix +:+ "/me/invitations") || (escapedPath =s prefix +:+ "/me/resources")
          || (escapedPath =s prefix +:+ "/me/catalogs") then method =s "GET"
  else if (escapedPath =s prefix +:+ "/key-access/subject-keys")
          || (escapedPath =s prefix +:+ "/key-access/resource-envelope")
  then (method =s "GET") || (method =s "POST")
  else if escapedPath =s prefix +:+ "/me/encryption-actions" then method =s "GET"
  else if negb (HasPrefix escapedPath (prefix +:+ "/")) then false
  else partsRoute (partsOf escapedPath).

End Routes.

(** * Queries *)
Section Queries.
(** [url.ParseQuery]: the keys with their values, in the order of [range]. *)
Context (ParseQuery : string → option (list (string * list string))).

(** The keys that a path may carry, if any. *)
Definition allowedKeys (path : string) : option (list string) :=
  if Contains path "/event-streams/" && Contains path "/queries/" && HasSuffix path "/events"
  then Some ["cursor"; "limit"]
  else if Contains path "/event-streams/" && Contains path "/queries/" && HasSuffix path "/histogram"
  then Some ["group_by"; "interval_seconds"]
  else if path =s prefix +:+ "/key-access/resource-envelope" then Some ["resource"]
  else if path =s prefix +:+ "/me/invitations" then Some ["cursor"; "limit"]
  else if (path =s prefix +:+ "/me/catalogs") || HasPrefix path (prefix +:+ "/me/catalogs/")
  then Some ["cursor"; "limit"]
  else if path =s prefix +:+ "/me/resources"
  then Some ["cursor"; "limit"; "type"; "access_state"; "parent"]
  else if HasPrefix path (prefix +:+ "/catalogs/") then Some ["resource"; "cursor"; "limit"]
  else if HasSuffix path "/collaborators"
  then Some ["view"; "search"; "email"; "subject"; "resource_subject"; "via_group"; "direct"; "kind";
             "status"; "relation"; "cursor"; "limit"]
  else if HasPrefix path (prefix +:+ "/resources/") && HasSuffix path "/scim-directories"
  then Some ["cursor"; "limit"]
  else None.

Definition repeatable : list string := ["type"; "access_state"; "kind"; "status"; "relation"].

Definition validResourceQuery (method path raw : string) : bool :=
  if raw =s "" then true
  else if negb (method =s "GET") || (8192 <? slen raw) then false
  else match allowedKeys path with
  | None => false
  | Some allowed =>
      match ParseQuery raw with
      | None => false
      | Some query =>
          forallb (fun kv => existsb (String.eqb kv.1) allowed
                             && negb ((1 <? len kv.2) && negb (existsb (String.eqb kv.1) repeatable)))
            query
      end
  end.

End Queries.

(** * The allowlist as a table *)
Inductive segment : Type :=
| Lit (s : string)          (* this text *)
| Value                     (* the name of a resource or other value *)
| ValueBut (s : string)     (* a value other than this text *)
| Id                        (* an identifier *)
| IdBut (l : list string)   (* an identifier other than these texts *)
| EscapedId                 (* an identifier, possibly escaped *)
| Stream.                   (* the name of an event stream *)

Definition matches (s : segment) (part : string) : bool :=
  match s with
  | Lit t => part =s t
  | Value => valuePart part
  | ValueBut t => negb (part =s t) && valuePart part
  | Id => clientIDPattern part
  | IdBut l => negb (existsb (String.eqb part) l) && clientIDPattern part
  | EscapedId => unescapedID part
  | Stream => eventStreamPattern part
  end.

Fixpoint matchAll (segments : list segment) (parts : list string) : bool :=
  match segments, parts with
  | [], [] => true
  | s :: segments, p :: parts => matches s p && matchAll segments parts
  | _, _ => false
  end.

Definition under (l : list segment) : list segment := Lit "resources" :: Value :: l.

Definition routes : list (list string * list segment) :=
  [(["POST"], [Lit "resources"]);
   (["GET"; "POST"], [Lit "organizations"]);
   (["POST"], [Lit "billing"; Lit "checkout-sessions"]);
   (["POST"], [Lit "billing"; Lit "portal-sessions"]);
   (["POST"], [Lit "resources"; Lit "search"]);
   (["GET"], [Lit "me"; Lit "invitations"]);
   (["GET"], [Lit "me"; Lit "resources"]);
   (["GET"], [Lit "me"; Lit "catalogs"]);
   (["GET"], [Lit "me"; Lit "encryption-actions"]);
   (["GET"; "POST"], [Lit "key-access"; Lit "subject-keys"]);
   (["GET"; "POST"], [Lit "key-access"; Lit "resource-envelope"]);
   (["GET"], [Lit "operations"; Value]);
   (["GET"], [Lit "me"; Lit "catalogs"; Id; Lit "entries"]);
   (["GET"], [Lit "me"; Lit "catalogs"; Id; Lit "snapshots"; Id; Lit "document"]);
   (["GET"], [Lit "catalogs"; Value; Lit "entries"]);
   (["GET"], [Lit "catalogs"; Value; Lit "entries"; Id]);
   (["DELETE"], [Lit "key-access"; Lit "subject-keys"; EscapedId]);
   (["GET"], [Lit "key-access"; Lit "claims"; EscapedId]);
   (["POST"], [Lit "key-access"; Lit "claims"; EscapedId; Lit "transfer"]);
   (["POST"], [Lit "key-access"; Lit "claims"; EscapedId; Lit "complete"]);
   (["POST"], [Lit "me"; Lit "encryption-actions"; Id; Lit "complete"]);
   (["POST"], [Lit "me"; Lit "invitations"; EscapedId; Lit "accept"]);
   (["POST"], [Lit "me"; Lit "invitations"; EscapedId; Lit "decline"]);
   (["GET"; "PUT"; "DELETE"], [Lit "resources"; ValueBut "search"]);
   (["GET"], under [Lit "collaborators"]);
   (["GET"; "POST"], under [Lit "scim-directories"]);
   (["GET"; "PUT"], under [Lit "scim-directories"; Id]);
   (["PUT"], under [Lit "catalog-binding"]);
   (["PUT"], under [Lit "event-streams"; Stream]);
   (["POST"], under [Lit "event-streams"; Stream; Lit "events"]);
   (["POST"], under [Lit "event-streams"; Stream; Lit "queries"]);
   (["GET"], under [Lit "event-streams"; Stream; Lit "events"; Id]);
   (["GET"], under [Lit "event-streams"; Stream; Lit "queries"; Id; Lit "events"]);
   (["GET"], under [Lit "event-streams"; Stream; Lit "queries"; Id; Lit "histogram"]);
   (["GET"; "POST"], under [Lit "credentials"]);
   (["DELETE"], under [Lit "credentials"; Id]);
   (["POST"], under [Lit "credentials"; Id; Lit "rotate"]);
   (["GET"; "DELETE"], under [Lit "payloads"; Id]);
   (["POST"], under [Lit "payloads"; Id; Lit "uploads"]);
   (["POST"], under [Lit "payloads"; Id; Lit "commits"]);
   (["POST"], under [Lit "payloads"; Id; Lit "access"]);
   (["POST"], under [Lit "payloads"; Id; Lit "rewraps"]);
   (["POST"], under [Lit "executions"; Lit "preflight"]);
   (["POST"], under [Lit "executions"; Lit "commit"]);
   (["GET"; "PUT"], under [Lit "e2ee"]);
   (["GET"; "POST"], under [Lit "e2ee"; Lit "function-bindings"]);
   (["GET"; "DELETE"], under [Lit "e2ee"; Lit "function-bindings"; Id]);
   (["POST"], under [Lit "e2ee"; Lit "function-bindings"; Id; Lit "challenge"]);
   (["POST"], under [Lit "link-candidates"; Lit "search"]);
   (["POST"], under [Lit "links"; Lit "preflight"]);
   (["POST"], under [Lit "links"; Lit "commit"]);
   (["DELETE"], under [Lit "links"; IdBut ["preflight"; "commit"]]);
   (["POST"], under [Lit "move"]);
   (["POST"], under [Lit "disable"]);
   (["POST"], under [Lit "restore"])].

Definition listed (method : string) (parts : list string) : bool :=
  existsb (fun route => existsb (String.eqb method) route.1 && matchAll route.2 parts) routes.

(** * Lemmas *)
Fixpoint eqParts (a b : list string) : bool :=
  match a, b with
  | [], [] => true
  | x :: a, y :: b => (x =s y) && eqParts a b
  | _, _ => false
  end.

Lemma eqParts_eq a b : eqParts a b = true ↔ a = b.
Proof.
  revert b. induction a as [|x a IH]; intros [|y b]; simpl; try (by split).
  rewrite andb_true_iff, String.eqb_eq, IH. split; [by intros [-> ->]|by intros [= -> ->]].
Qed.

Lemma splitAt_inj sep s t : splitAt sep s = splitAt sep t → s = t.
Proof.
  revert t. induction s as [|c s IH]; intros t; simpl.
  - destruct t as [|d t]; simpl; [done|]. destruct (Byte.eqb d sep).
    + intros [= He]. by destruct (splitAt_nonempty sep t).
    + by destruct (splitAt sep t).
  - destruct (Byte.eqb c sep) eqn:Hc.
    + destruct t as [|d t]; simpl.
      { intros [= He]. by destruct (splitAt_nonempty sep s). }
      destruct (Byte.eqb d sep) eqn:Hd.
      * apply Byte.byte_dec_bl in Hc as ->. apply Byte.byte_dec_bl in Hd as ->.
        intros [= He]. by rewrite (IH t He).
      * by destruct (splitAt sep t).
    + destruct (splitAt sep s) as [|part parts] eqn:Hs; [by destruct (splitAt_nonempty sep s)|].
      destruct t as [|d t]; simpl; [done|]. destruct (Byte.eqb d sep) eqn:Hd; [done|].
      destruct (splitAt sep t) as [|part' parts'] eqn:Ht; [by destruct (splitAt_nonempty sep t)|].
      intros [= -> -> ->]. f_equal. by apply IH.
Qed.

Lemma TrimPrefix_eq s p : HasPrefix s p = true → s = p +:+ TrimPrefix s p.
Proof.
  intros Hp. unfold TrimPrefix. rewrite Hp. unfold HasPrefix in Hp. breflect.
  apply bytes_of_inj. rewrite bytes_of_app, bytes_of_string_of.
  rewrite <- (take_drop (length (bytes_of p)) (bytes_of s)) at 1. by rewrite Hp.
Qed.

(** A path below the prefix is known by its parts. *)
Lemma path_parts path lit :
  HasPrefix path (prefix +:+ "/") = true → HasPrefix lit (prefix +:+ "/") = true →
  (path =s lit) = eqParts (partsOf path) (partsOf lit).
Proof.
  intros Hp Hl. apply eq_true_iff_eq. rewrite String.eqb_eq, eqParts_eq. split; [by intros ->|].
  unfold partsOf. intros He. rewrite (TrimPrefix_eq _ _ Hp), (TrimPrefix_eq _ _ Hl). f_equal.
  assert (Inj (=) (=) string_of).
  { intros a b Hab. by rewrite <- (bytes_of_string_of a), Hab, bytes_of_string_of. }
  by apply (inj (fmap string_of)), (splitAt_inj x2f), bytes_of_inj in He.
Qed.

Lemma path_below path lit :
  HasPrefix path (prefix +:+ "/") = false → HasPrefix lit (prefix +:+ "/") = true →
  (path =s lit) = false.
Proof. intros Hp Hl. apply String.eqb_neq. intros ->. by rewrite Hl in Hp. Qed.

(** [resourceRoute] in terms of the parts. *)
Definition routeParts (method : string) (parts : list string) : bool :=
  if eqParts parts ["resources"] then method =s "POST"
  else if eqParts parts ["billing"; "checkout-sessions"] || eqParts parts ["billing"; "portal-sessions"]
  then method =s "POST"
  else if eqParts parts ["organizations"] then (method =s "GET") || (method =s "POST")
  else if eqParts parts ["resources"; "search"] then method =s "POST"
  else if eqParts parts ["me"; "invitations"] || eqParts parts ["me"; "resources"]
          || eqParts parts ["me"; "catalogs"] then method =s "GET"
  else if eqParts parts ["key-access"; "subject-keys"]
          || eqParts parts ["key-access"; "resource-envelope"]
  then (method =s "GET") || (method =s "POST")
  else if eqParts parts ["me"; "encryption-actions"] then method =s "GET"
  else partsRoute method parts.

Lemma resourceRoute_parts method path :
  resourceRoute method path =
  HasPrefix path (prefix +:+ "/") && routeParts method (partsOf path).
Proof.
  unfold resourceRoute, routeParts. destruct (HasPrefix path (prefix +:+ "/")) eqn:Hp.
  - repeat match goal with |- context [path =s ?lit] =>
      rewrite (path_parts path lit Hp) by (vm_compute; reflexivity) end. reflexivity.
  - repeat match goal with |- context [path =s ?lit] =>
      rewrite (path_below path lit Hp) by (vm_compute; reflexivity) end. reflexivity.
Qed.

#[local] Arguments valuePart : simpl never.
#[local] Arguments clientIDPattern : simpl never.
#[local] Arguments eventStreamPattern : simpl never.
#[local] Arguments unescapedID : simpl never.

(** Splits on the value of a part, literal by literal. *)
Ltac on_part p := repeat match goal with
  | |- context [String.eqb p ?lit] => destruct (String.eqb_spec p lit); [subst p; simpl|]; try reflexivity
  end.

Ltac value_parts := repeat match goal with
  | |- context [valuePart ?lit] => first [change (valuePart lit) with true]
  end.

(** The rest is propositional. *)
Ltac atoms := repeat match goal with
  | |- context [String.eqb ?a ?b] => destruct (String.eqb a b); simpl
  | |- context [clientIDPattern ?a] => destruct (clientIDPattern a); simpl
  | |- context [eventStreamPattern ?a] => destruct (eventStreamPattern a); simpl
  | |- context [unescapedID ?a] => destruct (unescapedID a); simpl
  | |- context [valuePart ?a] => destruct (valuePart a); simpl
  end; try reflexivity.

(** Only rows with as many segments as there are parts count. *)
Lemma listed_length method parts :
  listed method parts =
  existsb (fun route => existsb (String.eqb method) route.1 && matchAll route.2 parts)
    (List.filter (fun route => Nat.eqb (length route.2) (length parts)) routes).
Proof.
  assert (Hlen : ∀ segments l, matchAll segments l = true → length segments = length l).
  { intros segments. induction segments as [|s segments IH]; intros [|p l]; simpl; try done.
    intros [_ Hm]%andb_true_iff. by rewrite (IH l). }
  unfold listed. induction routes as [|[methods segments] rest IH]; [done|].
  cbn [existsb List.filter fst snd]. rewrite IH.
  destruct (Nat.eqb_spec (length segments) (length parts)) as [He|Hne]; [done|].
  destruct (matchAll segments parts) eqn:Hm; [by apply Hlen in Hm|]. by rewrite andb_false_r.
Qed.

Lemma routeParts_listed method parts : routeParts method parts = listed method parts.
Proof.
  rewrite listed_length. unfold routeParts, partsRoute, resourceParts.
  destruct parts as [|p0 [|p1 [|p2 [|p3 [|p4 [|p5 [|p6 [|p7 rest]]]]]]]]; simpl;
    rewrite ?andb_false_r, ?orb_false_r.
  - reflexivity.
  - on_part p0; atoms.
  - on_part p0; on_part p1; value_parts; atoms.
  - on_part p0; on_part p1; value_parts; on_part p2; atoms.
  - on_part p0; on_part p1; value_parts; on_part p2; atoms.
  - on_part p0; on_part p1; value_parts; on_part p2; atoms.
  - on_part p0; on_part p1; value_parts; on_part p2; atoms.
  - on_part p0; on_part p1; value_parts; on_part p2; atoms.
  - on_part p0; on_part p1; value_parts; on_part p2; atoms.
Qed.

(** C17: the allowlist of the browser adapter is the table [routes]: a method and an escaped path
    are a resource route exactly if the path lies under the prefix and its parts match a row
    that lists the method. In particular no other path reaches the resource API. *)
Theorem route_table method path :
  resourceRoute method path = HasPrefix path (prefix +:+ "/") && listed method (partsOf path).
Proof. by rewrite resourceRoute_parts, routeParts_listed. Qed.
