(* ===== verification/Browser.v ===== *)
(** The browser adapter: [lotorhttp/browseradapter/adapter.go].

    [New] and the whole of [ServeHTTP] with its cookies: the checks on a browser request, the
    request to remote Lotor that they allow, and what is made of its answer. [url.Parse],
    the construction of requests and the HTTP exchange are parameters. *)
From S2P Require Import Prelude GoStd Sha256 Interfaces BrowserRoutes.

#[local] Open Scope bool_scope.

(** * Data *)
Record Config : Type := mkConfig {
  APIURL : string;
  BrowserOrigin : string;
  ClientID : string;
  PublishableKey : string;
  SecretKey : string
}.

Record Adapter : Type := mkAdapter {
  origin : URL;
  adapterConfig : Config;
  secure : bool
}.

Definition bodyLimit : Z := Z.shiftl 64 10.
Definition executionBodyLimit : Z := Z.shiftl 4 20.
Definition responseLimit : Z := Z.shiftl 4 20.

(** A browser request. [Header_Get] is [Header.Get], the cookies are those of [Cookies], the
    body is what can be read of it. *)
Record Request : Type := mkRequest {
  Request_Host : string;
  Request_Method : string;
  Request_Get : string → string;
  Request_Cookies : list (string * string);
  Request_Path : string;
  Request_RawPath : string;
  Request_EscapedPath : string;
  Request_RawQuery : string;
  Request_ForceQuery : bool;
  Request_ContentLength : Z;
  Request_Body : option (list byte)
}.

(** The request to remote Lotor. *)
Record Remote : Type := mkRemote {
  Remote_Method : string;
  Remote_URL : string;
  Remote_RawQuery : string;
  Remote_Header : gmap string string;
  Remote_Body : list byte
}.

Record RemoteResponse : Type := mkRemoteResponse {
  RemoteResponse_Status : Z;
  RemoteResponse_Get : string → string;
  RemoteResponse_Body : option (list byte)
}.

(** [http.Cookie]; [MaxAge] zero is a session cookie, negative removes it. *)
Record Cookie : Type := mkCookie {
  Cookie_Name : string;
  Cookie_Value : string;
  Cookie_Path : string;
  Cookie_Secure : bool;
  Cookie_HttpOnly : bool;
  Cookie_SameSiteStrict : bool;
  Cookie_MaxAge : Z
}.

Record encryptionClaim : Type := mkClaim {
  Claim_ID : string;
  Claim_Required : bool
}.

(** The answer of a verification, and what the browser sees of it. *)
Record Verified : Type := mkVerified {
  Verified_E2EE : option encryptionClaim;
  Verified_AccessToken : string;
  Verified_Subject : string;
  Verified_Email : string
}.

Record Welcome : Type := mkWelcome {
  Welcome_E2EE : option encryptionClaim;
  Welcome_Subject : string;
  Welcome_Email : string;
  Welcome_Authenticated : bool
}.

Inductive browser_body : Type :=
| TextBody (text : string)
| NoBody
| PayloadBody (payload : list byte)
| WelcomeBody (welcome : Welcome).

Record BrowserResponse : Type := mkBrowserResponse {
  Browser_Status : Z;
  Browser_Header : gmap string string;
  Browser_Cookies : list Cookie;
  Browser_Body : browser_body
}.

(** * Construction *)
Section Adapter.
Context `{!RawJson} `{!JsonUnmarshal Verified}.
Context (Parse : string → option URL).
Context (ParseQuery : string → option (list (string * list string))).

Definition originURL (raw : string) : option URL :=
  match Parse raw with
  | None => None
  | Some u =>
      if (u.(URL_Host) =s "") || u.(URL_User) || negb (u.(URL_Opaque) =s "")
         || negb (u.(URL_Path) =s "") || negb (u.(URL_RawQuery) =s "") || u.(URL_ForceQuery)
         || negb (u.(URL_Fragment) =s "")
      then None else Some u
  end.

Definition New (config : Config) : option Adapter :=
  match originURL config.(APIURL) with
  | None => None
  | Some remote =>
      if negb (remote.(URL_Scheme) =s "https") then None
      else match originURL config.(BrowserOrigin) with
      | None => None
      | Some o =>
          if negb (o.(URL_Scheme) =s "https")
             && negb ((o.(URL_Scheme) =s "http")
                      && ((o.(URL_Hostname) =s "localhost") || (o.(URL_Hostname) =s "127.0.0.1")
                          || (o.(URL_Hostname) =s "::1")))
          then None
          else if negb (clientIDPattern config.(ClientID)) || negb (validValue config.(PublishableKey))
                  || negb (validValue config.(SecretKey))
          then None
          else Some (mkAdapter o
            (mkConfig remote.(URL_String) o.(URL_String) config.(ClientID) config.(PublishableKey)
               config.(SecretKey)) (o.(URL_Scheme) =s "https"))
      end
  end.

(** * Cookies *)

(** [equal], the comparison of secrets. *)
Definition equal (a b : string) : bool := negb (a =s "") && (a =s b).

Definition names (a : Adapter) : string * string * string :=
  if a.(secure)
  then ("__Host-lotor_session", "__Host-lotor_csrf", "__Secure-lotor_key_claim_token")
  else ("lotor_dev_session", "lotor_dev_csrf", "lotor_key_claim_token").

Definition sessionName (a : Adapter) : string := (names a).1.1.
Definition csrfName (a : Adapter) : string := (names a).1.2.
Definition claimName (a : Adapter) : string := (names a).2.

(** [cookieValue]: the value of the only cookie of that name. *)
Definition cookieValue (r : Request) (name : string) : string :=
  match List.filter (fun c => c.1 =s name) r.(Request_Cookies) with
  | [c] => c.2
  | _ => ""
  end.

Definition cookie (a : Adapter) (name value path : string) (httpOnly expire : bool) : Cookie :=
  mkCookie name value path a.(secure) httpOnly true (if expire then -1 else 0).

Definition withMaxAge (c : Cookie) (age : Z) : Cookie :=
  mkCookie c.(Cookie_Name) c.(Cookie_Value) c.(Cookie_Path) c.(Cookie_Secure) c.(Cookie_HttpOnly)
    c.(Cookie_SameSiteStrict) age.

Definition clearCookies (a : Adapter) : list Cookie :=
  [cookie a (sessionName a) "" "/" true true; cookie a (csrfName a) "" "/" false true;
   cookie a (claimName a) "" (prefix +:+ "/key-access/claims") true true].

(** [Cookie.Valid] for a cookie with a constant name and a value: no quotes, semicolons,
    backslashes or control characters. *)
Definition validCookieValue (value : string) : bool :=
  forallb (fun b => (32 <=? byteZ b) && (byteZ b <? 127) && negb (byteZ b =? 34)
                    && negb (byteZ b =? 59) && negb (byteZ b =? 92)) (bytes_of value).

Definition validToken (token : string) : bool := validValue token && validCookieValue token.

(** * The checks on a request *)
Definition sessionRoutes (method path : string) : bool :=
  (method =s "GET") && ((path =s "/configuration") || (path =s "/pricing") || (path =s "/session"))
  || (method =s "POST")
     && ((path =s "/auth/passwordless/start") || (path =s "/auth/passwordless/verify"))
  || (method =s "DELETE") && (path =s "/session").

(** [requestBodyLimit]: the later conditions override the earlier ones. *)
Definition requestBodyLimit (native : bool) (method path : string) : Z :=
  if native && HasSuffix path "/executions/commit" then executionBodyLimit
  else if native && (method =s "POST") && Contains path "/event-streams/" && HasSuffix path "/events"
  then Z.shiftl 6 20
  else if native && (method =s "POST") && Contains path "/event-streams/" && HasSuffix path "/queries"
  then Z.shiftl 256 10
  else bodyLimit.

(** A header taken from a cookie where the route asks for it; [None] is a missing token. *)
Definition tokenHeader (r : Request) (asked : bool) (header cookieName : string)
    (h : gmap string string) : option (gmap string string) :=
  if asked then
    let token := cookieValue r cookieName in
    if validValue token then Some (<[header := token]> h) else None
  else Some h.

(** The headers of the four kinds of tokens. *)
Definition tokenHeaders (a : Adapter) (r : Request) (native : bool) (path : string)
    : option (gmap string string) :=
  h ← tokenHeader r (native && HasPrefix path "/key-access/claims/") "Lotor-Key-Claim-Token"
        (claimName a) ∅;
  h ← tokenHeader r (native && HasSuffix path "/links/commit") "Lotor-Link-Token" "lotor_link_token" h;
  h ← tokenHeader r (native && Contains path "/payloads/" && HasSuffix path "/commits")
        "Lotor-Payload-Token" "lotor_payload_token" h;
  tokenHeader r (native && HasSuffix path "/executions/commit") "Lotor-Execution-Token"
    "lotor_execution_token" h.

(** The headers of the application and of the session; [None] is an invalid idempotency key. *)
Definition remoteHeaders (a : Adapter) (r : Request) (native : bool) (path : string)
    (h : gmap string string) : option (gmap string string) :=
  let config := a.(adapterConfig) in
  let h := if native then h else <["X-Lotor-Secret-Key" := config.(SecretKey)]> h in
  let h := <["X-Lotor-Publishable-Key" := config.(PublishableKey)]> h in
  let h := if r.(Request_Get) "X-Lotor-Request" =s "lotor-js-v1"
           then <["X-Lotor-Request" := "lotor-js-v1"]> h else h in
  let h := <["Accept" := "application/json"]> (<["Content-Type" := "application/json"]> h) in
  let idempotency := r.(Request_Get) "Idempotency-Key" in
  if negb (idempotency =s "") && negb (validValue idempotency) then None
  else
    let h := if idempotency =s "" then h else <["Idempotency-Key" := idempotency]> h in
    let token := cookieValue r (sessionName a) in
    Some (if ((path =s "/session") || native) && negb (token =s "")
          then <["Authorization" := "Bearer " +:+ token]> h else h).

(** [ServeHTTP] up to the request to remote Lotor: the status it fails with, or the request,
    whether it is a resource route, and the path below the prefix. *)
Definition checkRequest (newRequest : string → string → bool) (a : Adapter) (r : Request)
    : Z + Remote * bool * string :=
  let config := a.(adapterConfig) in
  let get := r.(Request_Get) in
  let method := r.(Request_Method) in
  if negb (r.(Request_Host) =s a.(origin).(URL_Host))
     || negb (get "Origin" =s "") && negb (get "Origin" =s config.(BrowserOrigin))
     || negb (get "Sec-Fetch-Site" =s "") && negb (get "Sec-Fetch-Site" =s "same-origin")
  then inl 403
  else if negb (equal (get "X-Lotor-Publishable-Key") config.(PublishableKey)) then inl 401
  else
    let native := resourceRoute method r.(Request_EscapedPath) in
    if negb (r.(Request_RawPath) =s "") && negb native
       || negb (validResourceQuery ParseQuery method r.(Request_Path) r.(Request_RawQuery))
       || r.(Request_ForceQuery)
    then inl 400
    else
      let path := TrimPrefix r.(Request_Path) prefix in
      let allowed := (r.(Request_Path) =s prefix +:+ path) && sessionRoutes method path in
      if negb allowed && negb native then inl 404
      else if negb (method =s "GET") && negb (get "Origin" =s config.(BrowserOrigin)) then inl 403
      else if ((method =s "DELETE") || native && negb (method =s "GET"))
              && negb (equal (cookieValue r (csrfName a)) (get "X-Lotor-CSRF"))
      then inl 403
      else if native && (cookieValue r (sessionName a) =s "") then inl 401
      else
        let limit := requestBodyLimit native method path in
        if limit <? r.(Request_ContentLength) then inl 413
        else match r.(Request_Body) with
        | None => inl 413
        | Some body =>
            if limit <? len body then inl 413
            else
              let bodyless := native && HasPrefix path "/me/invitations/" && (len body =? 0) in
              let mediaType := default [] (splitAt x3b (bytes_of (get "Content-Type")) !! 0%nat) in
              if (method =s "POST") && negb bodyless
                 && (negb (string_of mediaType =s "application/json") || negb (Valid body))
              then inl 400
              else
                let url := config.(APIURL) +:+ "/v1/public/applications/" +:+ config.(ClientID)
                           +:+ TrimPrefix r.(Request_EscapedPath) prefix in
                if negb (newRequest method url) then inl 502
                else match tokenHeaders a r native path with
                | None => inl 401
                | Some h =>
                    match remoteHeaders a r native path h with
                    | None => inl 400
                    | Some h => inr (mkRemote method url r.(Request_RawQuery) h body, native, path)
                    end
                end
        end.

(** * The answer *)

(** The headers of the response: for every outer one of CORS, [Del] removes the key in its
    canonical form. *)
Definition baseHeader (outer : gmap string string) : gmap string string :=
  let h := <["X-Content-Type-Options" := "nosniff"]> (<["Cache-Control" := "no-store"]> outer) in
  foldr (fun name h =>
           if HasPrefix (ToLower name) "access-control-" then delete (CanonicalHeaderKey name) h else h)
    h (map_to_list h).*1.

(** [http.Error]. *)
Definition errorResponse (h : gmap string string) (status : Z) (text : string) : BrowserResponse :=
  mkBrowserResponse status
    (<["X-Content-Type-Options" := "nosniff"]>
       (<["Content-Type" := "text/plain; charset=utf-8"]> (delete "Content-Length" h))) []
    (TextBody text).

Definition fail (h : gmap string string) (status : Z) : BrowserResponse :=
  errorResponse h status "Lotor request rejected".

Definition claimRequired (v : Verified) : bool :=
  match v.(Verified_E2EE) with Some claim => claim.(Claim_Required) | None => false end.

(** [finishVerification]; [random] are the bytes of the CSRF token. *)
Definition finishVerification (a : Adapter) (h : gmap string string) (payload : list byte)
    (claimToken : string) (random : option (list byte)) : BrowserResponse :=
  match Unmarshal payload with
  | None => errorResponse h 502 "Invalid Lotor verification response"
  | Some verified =>
      if (verified.(Verified_Subject) =s "") || negb (validToken verified.(Verified_AccessToken))
         || match verified.(Verified_E2EE) with
            | Some claim =>
                claim.(Claim_Required)
                && ((claim.(Claim_ID) =s "") || negb (validToken claimToken))
            | None => false
            end
      then errorResponse h 502 "Invalid Lotor verification response"
      else match random with
      | None => errorResponse h 500 "Session cookie unavailable"
      | Some random =>
          let required := claimRequired verified in
          mkBrowserResponse 200 (<["Content-Type" := "application/json"]> h)
            [cookie a (sessionName a) verified.(Verified_AccessToken) "/" true false;
             cookie a (csrfName a) (string_of (rawURLEncode random)) "/" false false;
             cookie a (claimName a) (if required then claimToken else "")
               (prefix +:+ "/key-access/claims") true (negb required)]
            (WelcomeBody (mkWelcome verified.(Verified_E2EE) verified.(Verified_Subject)
                            verified.(Verified_Email) true))
      end
  end.

(** The cookie of a preflight or an upload, where the route makes one; [None] is a missing or
    invalid token in the answer. *)
Definition tokenCookie (a : Adapter) (r : Request) (response : RemoteResponse) (asked : bool)
    (header name suffix : string) (age : Z) (cookies : list Cookie) : option (list Cookie) :=
  if asked then
    let token := response.(RemoteResponse_Get) header in
    if validToken token
    then Some (cookies ++ [withMaxAge (cookie a name token (TrimSuffix r.(Request_EscapedPath) suffix)
                                         true false) age])
    else None
  else Some cookies.

Definition tokenCookies (a : Adapter) (r : Request) (native : bool) (path : string)
    (response : RemoteResponse) : option (list Cookie) :=
  cs ← tokenCookie a r response (native && HasSuffix path "/links/preflight") "Lotor-Link-Token"
         "lotor_link_token" "/preflight" 300 [];
  cs ← tokenCookie a r response (native && Contains path "/payloads/" && HasSuffix path "/uploads")
         "Lotor-Payload-Token" "lotor_payload_token" "/uploads" 300 cs;
  tokenCookie a r response (native && HasSuffix path "/executions/preflight") "Lotor-Execution-Token"
    "lotor_execution_token" "/preflight" 30 cs.

(** [ServeHTTP] once remote Lotor has answered. *)
Definition relay (a : Adapter) (r : Request) (h : gmap string string) (native : bool) (path : string)
    (random : option (list byte)) (response : RemoteResponse) : BrowserResponse :=
  let limit := if native && Contains path "/event-streams/" then Z.shiftl 6 20 else responseLimit in
  let status := response.(RemoteResponse_Status) in
  match response.(RemoteResponse_Body) with
  | None => fail h 502
  | Some payload =>
      if limit <? len payload then fail h 502
      else if (300 <=? status) && (status <? 400) then fail h 502
      else if 400 <=? status then
        let retry := response.(RemoteResponse_Get) "Retry-After" in
        fail (if slen retry <? 128 then <["Retry-After" := retry]> h else h) status
      else if path =s "/auth/passwordless/verify"
      then finishVerification a h payload (response.(RemoteResponse_Get) "Lotor-Key-Claim-Token") random
      else if (r.(Request_Method) =s "DELETE") && (path =s "/session")
      then mkBrowserResponse 204 h (clearCookies a) NoBody
      else if negb (Valid payload) then fail h 502
      else match tokenCookies a r native path response with
      | None => fail h 502
      | Some cookies =>
          mkBrowserResponse status (<["Content-Type" := "application/json"]> h) cookies
            (PayloadBody payload)
      end
  end.

(** [ServeHTTP]: the response and the request sent to remote Lotor, if any. [outer] are the
    headers that an outer handler has set. *)
Definition ServeHTTP (newRequest : string → string → bool) (do : Remote → option RemoteResponse)
    (random : option (list byte)) (outer : gmap string string) (a : Adapter) (r : Request)
    : BrowserResponse * option Remote :=
  let h := baseHeader outer in
  match checkRequest newRequest a r with
  | inl status => (fail h status, None)
  | inr (remote, native, path) =>
      match do remote with
      | None => (fail h 502, Some remote)
      | Some response => (relay a r h native path random response, Some remote)
      end
  end.

End Adapter.

(** * Lemmas *)
Section Lemmas.
Context `{!RawJson} `{!JsonUnmarshal Verified}.
Context (Parse : string → option URL).
Context (ParseQuery : string → option (list (string * list string))).

(** A cookie counts only if it is the only one of its name. *)
Lemma cookieValue_unique r name :
  cookieValue r name ≠ "" →
  List.filter (fun c => c.1 =s name) r.(Request_Cookies) = [(name, cookieValue r name)].
Proof.
  unfold cookieValue. destruct (List.filter _ _) as [|[n v] [|]] eqn:Hf; try done. intros _.
  assert (Hin : In (n, v) (List.filter (fun c => c.1 =s name) (Request_Cookies r)))
    by (rewrite Hf; by left).
  apply filter_In in Hin as [_ Hn]. simpl in *. by apply String.eqb_eq in Hn as ->.
Qed.

Lemma equal_eq a b : equal a b = true → a = b ∧ a ≠ "".
Proof.
  unfold equal. intros [Hn He]%andb_true_iff. apply String.eqb_eq in He. split; [done|].
  apply negb_true_iff, String.eqb_neq in Hn. done.
Qed.

Lemma tokenHeader_other r asked header name h h' k :
  tokenHeader r asked header name h = Some h' → k ≠ header → h' !! k = h !! k.
Proof.
  unfold tokenHeader. destruct asked; [|by intros [= <-]]. destruct (validValue _); [|done].
  intros [= <-] Hk. by rewrite lookup_insert_ne.
Qed.

Definition tokenNames : list string :=
  ["Lotor-Key-Claim-Token"; "Lotor-Link-Token"; "Lotor-Payload-Token"; "Lotor-Execution-Token"].

Lemma tokenHeaders_other a r native path h k :
  tokenHeaders a r native path = Some h → k ∉ tokenNames → h !! k = None.
Proof.
  unfold tokenHeaders, tokenNames. rewrite !not_elem_of_cons.
  intros (h1 & H1 & (h2 & H2 & (h3 & H3 & H4)%bind_Some)%bind_Some)%bind_Some (K1 & K2 & K3 & K4 & _).
  rewrite (tokenHeader_other _ _ _ _ _ _ _ H4 K4), (tokenHeader_other _ _ _ _ _ _ _ H3 K3),
    (tokenHeader_other _ _ _ _ _ _ _ H2 K2), (tokenHeader_other _ _ _ _ _ _ _ H1 K1).
  apply lookup_empty.
Qed.

(** The authority that a remote request carries. *)
Lemma remoteHeaders_authority a r native path h h' :
  remoteHeaders a r native path h = Some h' → h !! "X-Lotor-Secret-Key" = None →
  h !! "Authorization" = None →
  h' !! "X-Lotor-Publishable-Key" = Some a.(adapterConfig).(PublishableKey)
  ∧ h' !! "X-Lotor-Secret-Key" = (if native then None else Some a.(adapterConfig).(SecretKey))
  ∧ h' !! "Authorization" =
      let token := cookieValue r (sessionName a) in
      if ((path =s "/session") || native) && negb (token =s "") then Some ("Bearer " +:+ token)
      else None.
Proof.
  unfold remoteHeaders. destruct (_ && negb (validValue _)); [done|]. intros [= <-] Hs Ha. cbv zeta.
  destruct (_ && _), (Request_Get r "Idempotency-Key" =s ""), (Request_Get r "X-Lotor-Request" =s _), native;
    repeat (rewrite lookup_insert_eq || rewrite lookup_insert_ne by done); done.
Qed.

(** What the checks before the remote request establish. *)
Lemma checkRequest_inr newRequest a r remote native path :
  checkRequest ParseQuery newRequest a r = inr (remote, native, path) →
  r.(Request_Host) = a.(origin).(URL_Host)
  ∧ r.(Request_Get) "X-Lotor-Publishable-Key" = a.(adapterConfig).(PublishableKey)
  ∧ native = resourceRoute r.(Request_Method) r.(Request_EscapedPath)
  ∧ path = TrimPrefix r.(Request_Path) prefix
  ∧ (native = false → r.(Request_Path) = prefix +:+ path ∧ r.(Request_RawPath) = ""
       ∧ sessionRoutes r.(Request_Method) path = true)
  ∧ (r.(Request_Method) ≠ "GET" → r.(Request_Get) "Origin" = a.(adapterConfig).(BrowserOrigin))
  ∧ (r.(Request_Method) = "DELETE" ∨ native = true ∧ r.(Request_Method) ≠ "GET" →
       cookieValue r (csrfName a) = r.(Request_Get) "X-Lotor-CSRF" ∧ cookieValue r (csrfName a) ≠ "")
  ∧ (native = true → cookieValue r (sessionName a) ≠ "")
  ∧ ∃ h body, tokenHeaders a r native path = Some h
    ∧ remoteHeaders a r native path h = Some remote.(Remote_Header)
    ∧ remote = mkRemote r.(Request_Method)
        (a.(adapterConfig).(APIURL) +:+ "/v1/public/applications/" +:+ a.(adapterConfig).(ClientID)
         +:+ TrimPrefix r.(Request_EscapedPath) prefix) r.(Request_RawQuery) remote.(Remote_Header) body.
Proof.
  unfold checkRequest. destruct (_ || _ && negb (_ =s "same-origin")) eqn:Hhost; [done|].
  destruct (negb (equal _ _)) eqn:Hkey; [done|]. cbv zeta.
  set (native' := resourceRoute _ _). set (path' := TrimPrefix _ _).
  destruct (_ || Request_ForceQuery r) eqn:Hq; [done|].
  destruct (negb (_ && sessionRoutes _ _) && negb native') eqn:Hroute; [done|].
  destruct (negb (_ =s "GET") && negb _) eqn:Horigin; [done|].
  destruct (_ && negb (equal (cookieValue _ _) _)) eqn:Hcsrf; [done|].
  destruct (native' && (_ =s "")) eqn:Hsess; [done|]. destruct (_ <? Request_ContentLength r); [done|].
  destruct (Request_Body r) as [body|]; [|done]. destruct (_ <? len body); [done|].
  destruct (_ && _ && _); [done|]. destruct (negb (newRequest _ _)); [done|].
  destruct (tokenHeaders a r native' path') as [h|] eqn:Ht; [|done].
  destruct (remoteHeaders a r native' path' h) as [h'|] eqn:Hr; [|done]. intros [= <- <- <-].
  repeat match goal with
  | H : negb _ = false |- _ => apply negb_false_iff in H
  | H : _ || _ = false |- _ => apply orb_false_iff in H as [? ?]
  end.
  split; [by apply String.eqb_eq|]. split; [by apply equal_eq|]. do 2 (split; [done|]).
  split; [|split; [|split; [|split]]].
  - intros Hn. rewrite Hn, andb_true_r, negb_false_iff, andb_true_iff, String.eqb_eq in Hroute.
    destruct Hroute. split; [done|]. split; [|done]. rewrite Hn, andb_true_r in *.
    apply String.eqb_eq, negb_false_iff. done.
  - intros Hg%String.eqb_neq. rewrite Hg in Horigin. simpl in Horigin.
    by apply negb_false_iff, String.eqb_eq in Horigin.
  - intros Hm. apply andb_false_iff in Hcsrf as [Hc|Hc%negb_false_iff%equal_eq]; [|done].
    apply orb_false_iff in Hc as [Hd Hn]. apply String.eqb_neq in Hd.
    destruct Hm as [?|[Hnat Hg%String.eqb_neq]]; [done|]. by rewrite Hnat, Hg in Hn.
  - intros Hn. rewrite Hn in Hsess. by apply String.eqb_neq in Hsess.
  - by exists h, body.
Qed.

(** C12: what leaves for remote Lotor, and on whose authority. A request is forwarded only if it
    came to the configured host with the publishable key; every request that is not a GET
    carries the configured origin, and a deletion or a resource mutation also the value of
    the one CSRF cookie. It goes to the API of the configured application. A resource
    request never carries the secret key and acts for the one session cookie; any other
    request is one of the six session routes and carries an authorization only on the
    session path, again the one of the session cookie. *)
Theorem browser_authority newRequest do random outer a r response remote :
  ServeHTTP ParseQuery newRequest do random outer a r = (response, Some remote) →
  let native := resourceRoute r.(Request_Method) r.(Request_EscapedPath) in
  r.(Request_Host) = a.(origin).(URL_Host)
  ∧ r.(Request_Get) "X-Lotor-Publishable-Key" = a.(adapterConfig).(PublishableKey)
  ∧ remote.(Remote_Method) = r.(Request_Method)
  ∧ remote.(Remote_URL) = a.(adapterConfig).(APIURL) +:+ "/v1/public/applications/"
      +:+ a.(adapterConfig).(ClientID) +:+ TrimPrefix r.(Request_EscapedPath) prefix
  ∧ (r.(Request_Method) ≠ "GET" → r.(Request_Get) "Origin" = a.(adapterConfig).(BrowserOrigin))
  ∧ (r.(Request_Method) = "DELETE" ∨ native = true ∧ r.(Request_Method) ≠ "GET" →
      ∃ token, token ≠ "" ∧ r.(Request_Get) "X-Lotor-CSRF" = token
        ∧ List.filter (fun c => c.1 =s csrfName a) r.(Request_Cookies) = [(csrfName a, token)])
  ∧ (native = true → remote.(Remote_Header) !! "X-Lotor-Secret-Key" = None
      ∧ ∃ token, token ≠ ""
        ∧ List.filter (fun c => c.1 =s sessionName a) r.(Request_Cookies) = [(sessionName a, token)]
        ∧ remote.(Remote_Header) !! "Authorization" = Some ("Bearer " +:+ token))
  ∧ (native = false →
      (∃ path, r.(Request_Path) = prefix +:+ path ∧ sessionRoutes r.(Request_Method) path = true)
      ∧ ∀ bearer, remote.(Remote_Header) !! "Authorization" = Some bearer →
          r.(Request_Path) = prefix +:+ "/session" ∧ ∃ token, bearer = "Bearer " +:+ token
            ∧ List.filter (fun c => c.1 =s sessionName a) r.(Request_Cookies)
              = [(sessionName a, token)]).
Proof.
  unfold ServeHTTP. destruct (checkRequest _ _ _ _) as [status|[[remote' native] path]] eqn:Ha; [done|].
  intros Hdo. assert (remote' = remote) as -> by (destruct (do remote'); by injection Hdo). clear Hdo.
  apply checkRequest_inr in Ha
    as (Hhost & Hkey & Hnat & Hpath & Hroute & Horigin & Hcsrf & Hsess & h & body & Ht & Hr & Hrem).
  cbv zeta. rewrite <- Hnat.
  destruct (remoteHeaders_authority _ _ _ _ _ _ Hr) as (_ & Hsecret & Hauth);
    [apply (tokenHeaders_other _ _ _ _ _ _ Ht); vm_compute; set_solver..|].
  cbv zeta in Hauth.
  do 2 (split; [done|]). rewrite Hrem at 1 2. do 2 (split; [done|]). split; [done|].
  split; [|split].
  - intros Hm. destruct (Hcsrf Hm) as [Heq Hne]. exists (cookieValue r (csrfName a)).
    split; [done|]. split; [done|]. by apply cookieValue_unique.
  - intros ->. split; [done|]. exists (cookieValue r (sessionName a)).
    specialize (Hsess eq_refl). split; [done|]. split; [by apply cookieValue_unique|].
    rewrite Hauth, orb_true_r. by destruct (String.eqb_spec (cookieValue r (sessionName a)) "").
  - intros ->. destruct (Hroute eq_refl) as (Hp & _ & Hs). split; [by exists path|].
    intros bearer. rewrite Hauth, orb_false_r.
    destruct (String.eqb_spec path "/session") as [->|_]; [|done].
    destruct (String.eqb_spec (cookieValue r (sessionName a)) "") as [|Hne]; [done|].
    intros [= <-]. split; [done|]. eexists. split; [done|]. by apply cookieValue_unique.
Qed.

Lemma names_distinct a : sessionName a ≠ csrfName a ∧ sessionName a ≠ claimName a ∧ csrfName a ≠ claimName a.
Proof. unfold sessionName, csrfName, claimName, names. by destruct (secure a). Qed.

(** The cookies that a browser sends back: those that were not removed. *)
Definition kept (cookies : list Cookie) : list (string * string) :=
  (fun c => (c.(Cookie_Name), c.(Cookie_Value)))
    <$> List.filter (fun c => 0 <=? c.(Cookie_MaxAge)) cookies.

(** Signing in. A verification answers 200 only for an answer of remote Lotor with a
    subject and a token that fits a header and a cookie. Its three cookies are strict
    same-site and secure on an HTTPS origin, the token is in an HTTP-only one and not in
    the body; a browser that sends them back passes the session check with that token and,
    repeating the CSRF cookie in the header, the CSRF check; and signing out removes
    cookies of the same names and paths. *)
Theorem login_session a h payload claimToken random response r :
  finishVerification a h payload claimToken random = response → response.(Browser_Status) = 200 →
  (∀ b, random = Some b → len b = 32) →
  r.(Request_Cookies) = kept response.(Browser_Cookies) →
  ∃ v csrf, Unmarshal payload = Some v ∧ v.(Verified_Subject) ≠ ""
    ∧ validToken v.(Verified_AccessToken) = true
    ∧ response.(Browser_Body) = WelcomeBody (mkWelcome v.(Verified_E2EE) v.(Verified_Subject)
        v.(Verified_Email) true)
    ∧ Forall (fun c => c.(Cookie_SameSiteStrict) = true ∧ c.(Cookie_Secure) = a.(secure)
        ∧ (c.(Cookie_Name) ≠ csrfName a → c.(Cookie_HttpOnly) = true)) response.(Browser_Cookies)
    ∧ cookieValue r (sessionName a) = v.(Verified_AccessToken)
    ∧ equal (cookieValue r (csrfName a)) csrf = true
    ∧ cookieValue r (claimName a) = (if claimRequired v then claimToken else "")
    ∧ ((fun c => (c.(Cookie_Name), c.(Cookie_Path))) <$> response.(Browser_Cookies)) =
      ((fun c => (c.(Cookie_Name), c.(Cookie_Path))) <$> clearCookies a)
    ∧ Forall (fun c => c.(Cookie_MaxAge) < 0) (clearCookies a).
Proof.
  intros <-. unfold finishVerification. destruct (Unmarshal payload) as [v|] eqn:Hu; [|done].
  destruct (_ || _ || _) eqn:Hg; [done|]. destruct random as [random|]; [|done].
  intros _ Hlen Hc. exists v, (string_of (rawURLEncode random)).
  apply orb_false_iff in Hg as [Hg _]. apply orb_false_iff in Hg as [Hs Ht].
  apply String.eqb_neq in Hs. apply negb_false_iff in Ht.
  destruct (names_distinct a) as (N1 & N2 & N3).
  cbn [Browser_Cookies Browser_Body] in *. unfold kept, cookie in Hc.
  do 4 (split; [done|]). split.
  { repeat apply Forall_cons_2; simpl; auto using Forall_nil_2. }
  assert (Hcookies : ∀ name, cookieValue r name =
    if name =s sessionName a then v.(Verified_AccessToken)
    else if name =s csrfName a then string_of (rawURLEncode random)
    else if (name =s claimName a) && claimRequired v then claimToken else "").
  { intros name. unfold cookieValue. rewrite Hc. cbn [List.filter Cookie_MaxAge Z.leb Z.compare].
    rewrite (String.eqb_sym name (sessionName a)), (String.eqb_sym name (csrfName a)),
      (String.eqb_sym name (claimName a)).
    destruct (claimRequired v); simpl;
      destruct (String.eqb_spec (sessionName a) name), (String.eqb_spec (csrfName a) name),
        (String.eqb_spec (claimName a) name); simpl; try congruence. }
  rewrite !Hcookies, !String.eqb_refl. apply String.eqb_neq in N1, N2, N3.
  rewrite (String.eqb_sym (csrfName a)), N1, (String.eqb_sym (claimName a)), N2,
    (String.eqb_sym (claimName a)), N3.
  split; [done|]. split; [|split; [by destruct (claimRequired v)|split; [done|]]].
  - unfold equal. rewrite String.eqb_refl, andb_true_r. apply negb_true_iff, String.eqb_neq.
    intros He%(f_equal bytes_of). rewrite bytes_of_string_of in He.
    pose proof (length_rawURLEncode random) as Hl. rewrite He, (Hlen random eq_refl) in Hl. done.
  - repeat apply Forall_cons_2; simpl; auto using Forall_nil_2; lia.
Qed.

(** * Responses *)
Definition cors (k : string) : bool := HasPrefix (ToLower k) "access-control-".

(** No header of CORS under its canonical name, the name that [Header.Set] and [Add] give it. *)
Definition noCors (h : gmap string string) : Prop :=
  ∀ k, cors k = true → CanonicalHeaderKey k = k → h !! k = None.

Lemma noCors_base outer : noCors (baseHeader outer).
Proof.
  intros k Hk Hcan. unfold baseHeader. cbv zeta. set (h := <["X-Content-Type-Options" := "nosniff"]> _).
  assert (Hfold : ∀ l : list string, h !! k = None ∨ k ∈ l →
    foldr (fun name h => if HasPrefix (ToLower name) "access-control-"
                         then delete (CanonicalHeaderKey name) h else h) h l !! k = None).
  { induction l as [|name l IH]; intros Hin; [destruct Hin as [|?%not_elem_of_nil]; done|].
    cbn [foldr]. destruct (decide (k = name)) as [<-|Hne].
    - unfold cors in Hk. rewrite Hk, Hcan. apply lookup_delete_eq.
    - assert (Hrest : h !! k = None ∨ k ∈ l)
        by (destruct Hin as [|[?|]%elem_of_cons]; [by left|done|by right]).
      specialize (IH Hrest). case_match; [|done].
      apply lookup_delete_None. by right. }
  apply Hfold. destruct (h !! k) as [v|] eqn:Hv; [right|by left].
  apply list_elem_of_fmap. exists (k, v). by rewrite elem_of_map_to_list.
Qed.

Lemma noCors_insert k v h : cors k = false → noCors h → noCors (<[k := v]> h).
Proof.
  intros Hk Hh k' Hk' Hc'. destruct (decide (k = k')) as [->|Hne]; [by rewrite Hk in Hk'|].
  rewrite lookup_insert_ne by done. by apply Hh.
Qed.

Lemma noCors_delete k h : noCors h → noCors (delete k h).
Proof. intros Hh k' Hk' Hc'. apply lookup_delete_None. right. by apply Hh. Qed.

(** The fixed texts of errors. *)
Definition errorTexts : list string :=
  ["Lotor request rejected"; "Invalid Lotor verification response"; "Session cookie unavailable"].

(** What every response of the adapter satisfies. *)
Definition confined (response : BrowserResponse) : Prop :=
  noCors response.(Browser_Header)
  ∧ 200 <= response.(Browser_Status) ∧ ¬ 300 <= response.(Browser_Status) < 400
  ∧ (∀ payload, response.(Browser_Body) = PayloadBody payload →
      response.(Browser_Status) < 300 ∧ Valid payload = true ∧ len payload <= Z.shiftl 6 20)
  ∧ (400 <= response.(Browser_Status) → ∃ text, response.(Browser_Body) = TextBody text
      ∧ text ∈ errorTexts ∧ response.(Browser_Cookies) = []).

Lemma confined_error h status text :
  noCors h → 400 <= status → text ∈ errorTexts → confined (errorResponse h status text).
Proof.
  intros Hh Hs Ht. split; [|simpl; split; [lia|split; [lia|split; [done|by exists text]]]].
  simpl. by repeat (apply noCors_insert; [done|]); apply noCors_delete.
Qed.

Lemma confined_fail h status : noCors h → 400 <= status → confined (fail h status).
Proof. intros Hh Hs. apply confined_error; [done..|]. left. Qed.

Lemma confined_verification a h payload claimToken random :
  noCors h → confined (finishVerification a h payload claimToken random).
Proof.
  intros Hh. unfold finishVerification.
  assert (Hbad : confined (errorResponse h 502 "Invalid Lotor verification response"))
    by (apply confined_error; [done|lia|right; left]).
  destruct (Unmarshal payload) as [v|]; [|done]. destruct (_ || _ || _); [done|].
  destruct random as [random|]; [|apply confined_error; [done|lia|right; right; left]].
  split; [by apply noCors_insert|]. simpl. split; [lia|]. split; [lia|]. split; [done|lia].
Qed.

Lemma checkRequest_inl newRequest a r status : checkRequest ParseQuery newRequest a r = inl status → 400 <= status.
Proof. unfold checkRequest. cbv zeta. repeat case_match; intros [= <-]; lia. Qed.

Lemma confined_relay a r h native path random response :
  noCors h → 200 <= response.(RemoteResponse_Status) →
  confined (relay a r h native path random response).
Proof.
  intros Hh Hs. unfold relay.
  assert (Hbad : confined (fail h 502)) by (apply confined_fail; [done|lia]).
  destruct (RemoteResponse_Body response) as [payload|]; [|done].
  destruct (_ <? len payload) eqn:Hl; [done|].
  destruct ((300 <=? _) && _) eqn:Hr; [done|]. destruct (Z.leb_spec 400 (RemoteResponse_Status response)).
  { apply confined_fail; [|done]. destruct (_ <? 128); [by apply noCors_insert|done]. }
  destruct (path =s _); [by apply confined_verification|].
  destruct (_ && (path =s "/session")).
  { split; [done|]. simpl. split; [lia|]. split; [lia|]. split; [done|lia]. }
  destruct (Valid payload) eqn:Hv; simpl negb; [|done]. cbv iota.
  destruct (tokenCookies _ _ _ _ _) as [cookies|]; [|done].
  apply andb_false_iff in Hr. rewrite Z.leb_gt, Z.ltb_ge in Hr. apply Z.ltb_ge in Hl.
  split; [by apply noCors_insert|]. simpl. split; [lia|]. split; [lia|]. split; [|lia].
  intros p [= <-]. split; [lia|]. split; [done|]. revert Hl. unfold responseLimit.
  change (Z.shiftl 6 20) with 6291456. change (Z.shiftl 4 20) with 4194304.
  destruct (native && _); lia.
Qed.

(** What comes back to the browser. Whatever remote Lotor answers, the response has no
    header of CORS under a canonical name, also if an outer handler set one; it is no redirect; the payload of
    remote Lotor is passed on only with a status below 300 and as valid JSON within the
    limit, and an error carries only its status and a fixed text. *)
Theorem response_confined newRequest do random outer a r response remote :
  (∀ q s, do q = Some s → 200 <= s.(RemoteResponse_Status)) →
  ServeHTTP ParseQuery newRequest do random outer a r = (response, remote) →
  (∀ k, HasPrefix (ToLower k) "access-control-" = true → CanonicalHeaderKey k = k →
     response.(Browser_Header) !! k = None)
  ∧ 200 <= response.(Browser_Status) ∧ ¬ 300 <= response.(Browser_Status) < 400
  ∧ (∀ payload, response.(Browser_Body) = PayloadBody payload →
      response.(Browser_Status) < 300 ∧ Valid payload = true ∧ len payload <= Z.shiftl 6 20)
  ∧ (400 <= response.(Browser_Status) → ∃ text, response.(Browser_Body) = TextBody text
      ∧ text ∈ errorTexts ∧ response.(Browser_Cookies) = []).
Proof.
  intros Hdo. unfold ServeHTTP. pose proof (noCors_base outer) as Hb.
  destruct (checkRequest _ _ _ _) as [status|[[q native] path]] eqn:Ha.
  - intros [= <- <-]. apply confined_fail; [done|]. by eapply checkRequest_inl.
  - destruct (do q) as [s|] eqn:Hq; intros [= <- <-]; [|apply confined_fail; [done|lia]].
    apply confined_relay; [done|]. by eapply Hdo.
Qed.

End Lemmas.

(** * Examples *)
Module BrowserSamples.

#[export] Existing Instance plainRaw.

Definition site : URL :=
  mkURL "https" false "app.example" "app.example" "" "" "" "" "" false "" "https://app.example".
Definition api : URL :=
  mkURL "https" false "api.example" "api.example" "" "" "" "" "" false "" "https://api.example".

Definition parse (s : string) : option URL :=
  if s =s "https://app.example" then Some site
  else if s =s "https://api.example" then Some api else None.

Definition noQuery (s : string) : option (list (string * list string)) := None.

Definition config1 : Config :=
  mkConfig "https://api.example" "https://app.example" "app_1" "pk_1" "sk_1".

Definition adapter1 : Adapter := mkAdapter site config1 true.

Example adapter1_new : New parse config1 = Some adapter1.
Proof. reflexivity. Qed.

(** The headers of a same-origin request, with a CSRF token. *)
Definition get1 (csrf name : string) : string :=
  if name =s "Origin" then "https://app.example"
  else if name =s "X-Lotor-Publishable-Key" then "pk_1"
  else if name =s "Content-Type" then "application/json; charset=utf-8"
  else if name =s "X-Lotor-CSRF" then csrf
  else "".

Definition cookies1 : list (string * string) :=
  [("__Host-lotor_session", "token"); ("__Host-lotor_csrf", "secret"); ("theme", "dark")].

Definition request1 (csrf : string) (cookies : list (string * string)) : Request :=
  mkRequest "app.example" "POST" (get1 csrf) cookies "/.lotor/v1/resources" ""
    "/.lotor/v1/resources" "" false 2 (Some (bytes_of "[]")).

Definition remote1 : Remote :=
  mkRemote "POST" "https://api.example/v1/public/applications/app_1/resources" ""
    {["X-Lotor-Publishable-Key" := "pk_1"; "Content-Type" := "application/json";
      "Accept" := "application/json"; "Authorization" := "Bearer token"]} (bytes_of "[]").

Definition answers (status : Z) (q : Remote) : option RemoteResponse :=
  Some (mkRemoteResponse status (fun _ => "") (Some (bytes_of "{}"))).

#[export] Instance noUnmarshal : JsonUnmarshal Verified := { Unmarshal _ := None }.

Definition served (csrf : string) (cookies : list (string * string)) (status : Z)
    : BrowserResponse * option Remote :=
  ServeHTTP noQuery (fun _ _ => true) (answers status) None
    {["Access-Control-Allow-Origin" := "*"]} adapter1 (request1 csrf cookies).

(** A header of CORS that an outer handler put into the map under another spelling is not
    removed: [Del] looks for the canonical one. *)
Example cors_survives :
  baseHeader {["access-control-allow-origin" := "*"]} !! "access-control-allow-origin" = Some "*"
  ∧ baseHeader {["Access-Control-Allow-Origin" := "*"]} !! "Access-Control-Allow-Origin" = None.
Proof. by vm_compute. Qed.

(** A request with its CSRF token is forwarded for the session, without it or with a second
    session cookie it is refused. *)
Example served_cases :
  (served "secret" cookies1 201).2 = Some remote1
  ∧ (served "guess" cookies1 201) = (fail (baseHeader ∅) 403, None)
  ∧ (served "secret" (("__Host-lotor_session", "other") :: cookies1) 201).2 = None.
Proof. vm_compute. auto. Qed.

Lemma browser_authority_witness :
  (served "secret" cookies1 201).2 = Some remote1
  ∧ remote1.(Remote_Header) !! "X-Lotor-Secret-Key" = None
  ∧ remote1.(Remote_Header) !! "Authorization" = Some ("Bearer " +:+ "token").
Proof.
  assert (Hs : (served "secret" cookies1 201).2 = Some remote1) by (vm_compute; reflexivity).
  split; [exact Hs|].
  assert (Hp : ServeHTTP noQuery (fun _ _ => true) (answers 201) None
    {["Access-Control-Allow-Origin" := "*"]} adapter1 (request1 "secret" cookies1)
    = ((served "secret" cookies1 201).1, Some remote1))
    by (rewrite <- Hs; apply surjective_pairing).
  destruct (browser_authority noQuery _ _ _ _ _ _ _ _ Hp) as (_ & _ & _ & _ & _ & _ & Hn & _).
  destruct Hn as (Hsecret & token & _ & Hcookie & Hauth); [vm_compute; reflexivity|].
  split; [exact Hsecret|]. rewrite Hauth. vm_compute in Hcookie. injection Hcookie as <-. reflexivity.
Defined.

Lemma response_confined_witness :
  (served "secret" cookies1 302).1.(Browser_Status) = 502
  ∧ (served "secret" cookies1 302).1.(Browser_Header) !! "Access-Control-Allow-Origin" = None.
Proof.
  split; [vm_compute; reflexivity|].
  assert (Hp : ServeHTTP noQuery (fun _ _ => true) (answers 302) None
    {["Access-Control-Allow-Origin" := "*"]} adapter1 (request1 "secret" cookies1)
    = ((served "secret" cookies1 302).1, (served "secret" cookies1 302).2))
    by apply surjective_pairing.
  apply (response_confined noQuery) in Hp as [Hc _].
  - apply Hc; vm_compute; reflexivity.
  - intros q s [= <-]. vm_compute. discriminate.
Defined.

Definition verified1 : Verified := mkVerified None "token" "user:1" "a@b.example".

(** A decoder that reads one answer. *)
Definition oneVerified : JsonUnmarshal Verified :=
  {| Unmarshal payload := if bool_decide (payload = bytes_of "{}") then Some verified1 else None |}.

Definition login1 : BrowserResponse :=
  @finishVerification oneVerified adapter1 ∅ (bytes_of "{}") "" (Some (replicate 32 x07)).

Lemma login_session_witness :
  login1.(Browser_Status) = 200
  ∧ cookieValue (request1 "" (kept login1.(Browser_Cookies))) "__Host-lotor_session" = "token".
Proof.
  assert (Hs : login1.(Browser_Status) = 200) by (vm_compute; reflexivity).
  split; [exact Hs|].
  destruct (@login_session oneVerified adapter1 ∅ (bytes_of "{}") "" (Some (replicate 32 x07)) login1
    (request1 "" (kept login1.(Browser_Cookies))) eq_refl Hs)
    as (v & csrf & Hv & _ & _ & _ & _ & Hc & _).
  - intros b [= <-]. reflexivity.
  - reflexivity.
  - change "__Host-lotor_session" with (sessionName adapter1). rewrite Hc.
    vm_compute in Hv. injection Hv as <-. reflexivity.
Defined.

End BrowserSamples.
