(* ===== verification/ApiTypes.v ===== *)
(** The data of the Lotor API, as the clients of [lotorhttp/] declare it.

    A struct is a record with the fields of the source in their order; its name prefixes
    theirs. A pointer is an [option], and so is a slice or a map whose nil value the source can
    tell from an empty one. A struct that is sent has its members as [encoding/json] writes
    them: the names of the tags, in order, without the empty ones where the tag says so. *)
From S2P Require Import Prelude GoStd Interfaces Protocol Control.

(** The zero value of a type. *)
Class Zero (A : Type) : Type := zero : A.

(** * Documents

    A JSON document before it is rendered; [JRaw] is a raw message, [JBytes] a byte slice,
    which is written in base64, and [JTime] an instant. *)
Inductive json : Type :=
| JNull
| JBool (b : bool)
| JNumber (z : Z)
| JString (s : string)
| JArray (items : list json)
| JObject (members : list (string * json))
| JRaw (raw : list byte)
| JBytes (b : list byte)
| JTime (t : Z).

(** The members of an object. *)
Definition document : Type := list (string * json).

Class ToJson (A : Type) : Type := toJson : A → json.

#[global] Instance string_json : ToJson string := JString.
#[global] Instance Z_json : ToJson Z := JNumber.
#[global] Instance bool_json : ToJson bool := JBool.
#[global] Instance option_json {A} `{!ToJson A} : ToJson (option A) :=
  fun v => match v with Some x => toJson x | None => JNull end.
#[global] Instance list_json {A} `{!ToJson A} : ToJson (list A) := fun v => JArray (toJson <$> v).

(** A map is an object with its keys in order. *)
Definition keyLe {A} (a b : string * A) : Prop := String.le a.1 b.1.
#[global] Instance keyLe_dec {A} : RelDecision (@keyLe A).
Proof. intros a b. unfold keyLe. apply _. Defined.

Definition sortedMembers {A} (m : gmap string A) : list (string * A) :=
  merge_sort keyLe (map_to_list m).

#[global] Instance gmap_json {A} `{!ToJson A} : ToJson (gmap string A) :=
  fun v => JObject (prod_map id toJson <$> sortedMembers v).

(** What [omitempty] leaves out. *)
Class Empty (A : Type) : Type := isEmpty : A → bool.
#[global] Instance string_isEmpty : Empty string := String.eqb "".
#[global] Instance Z_isEmpty : Empty Z := Z.eqb 0.
#[global] Instance bool_isEmpty : Empty bool := negb.
#[global] Instance option_isEmpty {A} : Empty (option A) :=
  fun v => match v with Some _ => false | None => true end.
#[global] Instance list_isEmpty {A} : Empty (list A) :=
  fun v => match v with [] => true | _ => false end.
#[global] Instance gmap_isEmpty {A} : Empty (gmap string A) := fun v => bool_decide (v = ∅).

Definition member {A} `{!ToJson A} (name : string) (v : A) : document :=
  [(name, toJson v)].
Definition omitted {A} `{!ToJson A} `{!Empty A} (name : string) (v : A) : document :=
  if isEmpty v then [] else member name v.

(** Types of [bridge/] that the API carries. *)
#[global] Instance Scope_zero : Zero Scope := mkScope "" "" "" "".
#[global] Instance Manifest_zero : Zero Manifest := mkManifest [] 0.
#[global] Instance Function_zero : Zero Function := mkFunction "" "" "" "".
#[global] Instance SignedMessage_zero : Zero SignedMessage := mkSignedMessage "" "" "".
#[global] Instance ResourcePayloadManifest_zero : Zero ResourcePayloadManifest :=
  mkPayloadManifest "" "" "" "" "" "" "" "" "" "" "" "" 0 0 0 0 0 0.
#[global] Instance ResourcePayloadAccessLease_zero : Zero ResourcePayloadAccessLease :=
  mkLease "" "" "" "" "" "" "" 0 0 0 0 0.
#[global] Instance Function_json : ToJson Function := fun v => JObject
  (member "name" v.(Function_Name) ++ member "version" v.(Function_Version)
   ++ member "input_schema_digest" v.(Function_InputSchemaDigest)
   ++ member "output_schema_digest" v.(Function_OutputSchemaDigest)).
#[global] Instance Manifest_json : ToJson Manifest := fun v => JObject
  (member "functions" v.(Manifest_Functions)
   ++ member "protocol_version" v.(Manifest_ProtocolVersion)).

(** * control_client.go *)

Record ResourceLifecycleFence : Type := mkResourceLifecycleFence {
  ResourceLifecycleFence_ExpectedRevision : Z;
  ResourceLifecycleFence_ExpectedLifecycleGeneration : Z
}.

#[global] Instance ResourceLifecycleFence_zero : Zero ResourceLifecycleFence :=
  mkResourceLifecycleFence 0 0.

Definition ResourceLifecycleFence_members (v : ResourceLifecycleFence) : document :=
  member "expected_revision" v.(ResourceLifecycleFence_ExpectedRevision)
  ++ member "expected_lifecycle_generation" v.(ResourceLifecycleFence_ExpectedLifecycleGeneration).

#[global] Instance ResourceLifecycleFence_json : ToJson ResourceLifecycleFence :=
  fun v => JObject (ResourceLifecycleFence_members v).

Record ResourceRegistration : Type := mkResourceRegistration {
  ResourceRegistration_References : option (gmap string string);
  ResourceRegistration_ResourceType : string;
  ResourceRegistration_DisplayName : string;
  ResourceRegistration_Parent : string;
  ResourceRegistration_KeyScope : string
}.

#[global] Instance ResourceRegistration_zero : Zero ResourceRegistration :=
  mkResourceRegistration None "" "" "" "".

Record ResourceEncryption : Type := mkResourceEncryption {
  ResourceEncryption_Status : string;
  ResourceEncryption_KeyScope : string;
  ResourceEncryption_EffectiveKeyResource : string;
  ResourceEncryption_KeyResource : string;
  ResourceEncryption_KeyVersion : Z;
  ResourceEncryption_Required : bool
}.

#[global] Instance ResourceEncryption_zero : Zero ResourceEncryption :=
  mkResourceEncryption "" "" "" "" 0 false.

Record ResourceCatalogBinding : Type := mkResourceCatalogBinding {
  ResourceCatalogBinding_Resource : string;
  ResourceCatalogBinding_CatalogID : string;
  ResourceCatalogBinding_SnapshotID : string;
  ResourceCatalogBinding_SnapshotDigest : string;
  ResourceCatalogBinding_EntryKinds : option (list string);
  ResourceCatalogBinding_ResourceRevision : Z
}.

#[global] Instance ResourceCatalogBinding_zero : Zero ResourceCatalogBinding :=
  mkResourceCatalogBinding "" "" "" "" None 0.

Record Resource : Type := mkResource {
  Resource_CatalogBinding : option ResourceCatalogBinding;
  Resource_References : gmap string string;
  Resource_ID : string;
  Resource_Resource : string;
  Resource_ResourceType : string;
  Resource_DisplayName : string;
  Resource_Parent : string;
  Resource_Status : string;
  Resource_PrincipalSubject : string;
  Resource_Encryption : ResourceEncryption;
  Resource_Revision : Z;
  Resource_LifecycleGeneration : Z
}.

#[global] Instance Resource_zero : Zero Resource :=
  mkResource None ∅ "" "" "" "" "" "" "" zero 0 0.

Record DurableOperation : Type := mkDurableOperation {
  DurableOperation_ID : string;
  DurableOperation_Kind : string;
  DurableOperation_Status : string;
  DurableOperation_TargetKind : string;
  DurableOperation_TargetID : string;
  DurableOperation_RequestHash : string;
  DurableOperation_ErrorCode : string;
  DurableOperation_CreatedAt : Z;
  DurableOperation_UpdatedAt : Z
}.

#[global] Instance DurableOperation_zero : Zero DurableOperation :=
  mkDurableOperation "" "" "" "" "" "" "" 0 0.

Record OperationWaitOptions : Type := mkOperationWaitOptions {
  OperationWaitOptions_MaxAttempts : Z;
  OperationWaitOptions_Interval : Z
}.

Record ResourceCredentialMetadata : Type := mkResourceCredentialMetadata {
  ResourceCredentialMetadata_ID : string;
  ResourceCredentialMetadata_Resource : string;
  ResourceCredentialMetadata_IssuedTo : string;
  ResourceCredentialMetadata_Status : string;
  ResourceCredentialMetadata_DisplayHint : string;
  ResourceCredentialMetadata_Version : Z;
  ResourceCredentialMetadata_CreatedAt : Z;
  ResourceCredentialMetadata_ExpiresAt : Z;
  ResourceCredentialMetadata_RevokeAt : Z;
  ResourceCredentialMetadata_RevokedAt : Z;
  ResourceCredentialMetadata_LastUsedAt : Z
}.

#[global] Instance ResourceCredentialMetadata_zero : Zero ResourceCredentialMetadata :=
  mkResourceCredentialMetadata "" "" "" "" "" 0 0 0 0 0 0.

Record IssuedResourceCredential : Type := mkIssuedResourceCredential {
  IssuedResourceCredential_Credential : string;
  IssuedResourceCredential_ResourceCredentialMetadata : ResourceCredentialMetadata
}.

#[global] Instance IssuedResourceCredential_zero : Zero IssuedResourceCredential :=
  mkIssuedResourceCredential "" zero.

Record ResourceCredentialIssueInput : Type := mkResourceCredentialIssueInput {
  ResourceCredentialIssueInput_IssuedTo : string;
  ResourceCredentialIssueInput_ExpiresAt : Z
}.

#[global] Instance ResourceCredentialIssueInput_zero : Zero ResourceCredentialIssueInput :=
  mkResourceCredentialIssueInput "" 0.

Definition ResourceCredentialIssueInput_members (v : ResourceCredentialIssueInput) : document :=
  member "issued_to" v.(ResourceCredentialIssueInput_IssuedTo)
  ++ omitted "expires_at" v.(ResourceCredentialIssueInput_ExpiresAt).

#[global] Instance ResourceCredentialIssueInput_json : ToJson ResourceCredentialIssueInput :=
  fun v => JObject (ResourceCredentialIssueInput_members v).

Record ResourceCredentialRotateInput : Type := mkResourceCredentialRotateInput {
  ResourceCredentialRotateInput_RevokePreviousAt : Z;
  ResourceCredentialRotateInput_ExpiresAt : Z
}.

#[global] Instance ResourceCredentialRotateInput_zero : Zero ResourceCredentialRotateInput :=
  mkResourceCredentialRotateInput 0 0.

Definition ResourceCredentialRotateInput_members (v : ResourceCredentialRotateInput) : document :=
  member "revoke_previous_at" v.(ResourceCredentialRotateInput_RevokePreviousAt)
  ++ omitted "expires_at" v.(ResourceCredentialRotateInput_ExpiresAt).

#[global] Instance ResourceCredentialRotateInput_json : ToJson ResourceCredentialRotateInput :=
  fun v => JObject (ResourceCredentialRotateInput_members v).

Record ResourcePayloadRewrapInput : Type := mkResourcePayloadRewrapInput {
  ResourcePayloadRewrapInput_KeyBindingRef : string;
  ResourcePayloadRewrapInput_WrappedPayloadKey : string;
  ResourcePayloadRewrapInput_RewrapperSubject : string;
  ResourcePayloadRewrapInput_RewrapperKeyID : string;
  ResourcePayloadRewrapInput_RewrapReceipt : string;
  ResourcePayloadRewrapInput_PayloadVersion : Z;
  ResourcePayloadRewrapInput_ExpectedWrapRevision : Z;
  ResourcePayloadRewrapInput_PreviousKeyVersion : Z;
  ResourcePayloadRewrapInput_KeyVersion : Z;
  ResourcePayloadRewrapInput_ResourceRevision : Z;
  ResourcePayloadRewrapInput_LifecycleGeneration : Z
}.

#[global] Instance ResourcePayloadRewrapInput_zero : Zero ResourcePayloadRewrapInput :=
  mkResourcePayloadRewrapInput "" "" "" "" "" 0 0 0 0 0 0.

Definition ResourcePayloadRewrapInput_members (v : ResourcePayloadRewrapInput) : document :=
  member "key_binding_ref" v.(ResourcePayloadRewrapInput_KeyBindingRef)
  ++ omitted "wrapped_payload_key" v.(ResourcePayloadRewrapInput_WrappedPayloadKey)
  ++ omitted "rewrapper_subject" v.(ResourcePayloadRewrapInput_RewrapperSubject)
  ++ omitted "rewrapper_key_id" v.(ResourcePayloadRewrapInput_RewrapperKeyID)
  ++ omitted "rewrap_receipt" v.(ResourcePayloadRewrapInput_RewrapReceipt)
  ++ member "payload_version" v.(ResourcePayloadRewrapInput_PayloadVersion)
  ++ member "expected_wrap_revision" v.(ResourcePayloadRewrapInput_ExpectedWrapRevision)
  ++ member "previous_key_version" v.(ResourcePayloadRewrapInput_PreviousKeyVersion)
  ++ member "key_version" v.(ResourcePayloadRewrapInput_KeyVersion)
  ++ member "resource_revision" v.(ResourcePayloadRewrapInput_ResourceRevision)
  ++ member "lifecycle_generation" v.(ResourcePayloadRewrapInput_LifecycleGeneration).

#[global] Instance ResourcePayloadRewrapInput_json : ToJson ResourcePayloadRewrapInput :=
  fun v => JObject (ResourcePayloadRewrapInput_members v).

Record ResourcePayloadRewrapResult : Type := mkResourcePayloadRewrapResult {
  ResourcePayloadRewrapResult_Resource : string;
  ResourcePayloadRewrapResult_Slot : string;
  ResourcePayloadRewrapResult_KeyBindingRef : string;
  ResourcePayloadRewrapResult_WrappedPayloadKey : string;
  ResourcePayloadRewrapResult_AADHash : string;
  ResourcePayloadRewrapResult_RewrapperSubject : string;
  ResourcePayloadRewrapResult_RewrapperKeyID : string;
  ResourcePayloadRewrapResult_PayloadVersion : Z;
  ResourcePayloadRewrapResult_WrapRevision : Z;
  ResourcePayloadRewrapResult_PreviousKeyVersion : Z;
  ResourcePayloadRewrapResult_KeyVersion : Z;
  ResourcePayloadRewrapResult_ResourceRevision : Z;
  ResourcePayloadRewrapResult_LifecycleGeneration : Z
}.

#[global] Instance ResourcePayloadRewrapResult_zero : Zero ResourcePayloadRewrapResult :=
  mkResourcePayloadRewrapResult "" "" "" "" "" "" "" 0 0 0 0 0 0.

(** * resource_client.go *)

Record ResourcePayloadUploadInput : Type := mkResourcePayloadUploadInput {
  ResourcePayloadUploadInput_KeyBindingRef : string;
  ResourcePayloadUploadInput_EncryptorKeyID : string;
  ResourcePayloadUploadInput_EncryptionReceipt : string;
  ResourcePayloadUploadInput_ObjectDigest : string;
  ResourcePayloadUploadInput_WrappedPayloadKey : string;
  ResourcePayloadUploadInput_EncryptionSuite : string;
  ResourcePayloadUploadInput_Representation : string;
  ResourcePayloadUploadInput_EncryptorSubject : string;
  ResourcePayloadUploadInput_SchemaID : string;
  ResourcePayloadUploadInput_AADHash : string;
  ResourcePayloadUploadInput_ObjectSize : Z;
  ResourcePayloadUploadInput_KeyVersion : Z;
  ResourcePayloadUploadInput_ExpectedPayloadVersion : Z;
  ResourcePayloadUploadInput_ResourceRevision : Z;
  ResourcePayloadUploadInput_LifecycleGeneration : Z
}.

#[global] Instance ResourcePayloadUploadInput_zero : Zero ResourcePayloadUploadInput :=
  mkResourcePayloadUploadInput "" "" "" "" "" "" "" "" "" "" 0 0 0 0 0.

Definition ResourcePayloadUploadInput_members (v : ResourcePayloadUploadInput) : document :=
  omitted "key_binding_ref" v.(ResourcePayloadUploadInput_KeyBindingRef)
  ++ omitted "encryptor_key_id" v.(ResourcePayloadUploadInput_EncryptorKeyID)
  ++ omitted "encryption_receipt" v.(ResourcePayloadUploadInput_EncryptionReceipt)
  ++ member "object_digest" v.(ResourcePayloadUploadInput_ObjectDigest)
  ++ omitted "wrapped_payload_key" v.(ResourcePayloadUploadInput_WrappedPayloadKey)
  ++ omitted "encryption_suite" v.(ResourcePayloadUploadInput_EncryptionSuite)
  ++ member "representation" v.(ResourcePayloadUploadInput_Representation)
  ++ omitted "encryptor_subject" v.(ResourcePayloadUploadInput_EncryptorSubject)
  ++ member "schema_id" v.(ResourcePayloadUploadInput_SchemaID)
  ++ omitted "aad_hash" v.(ResourcePayloadUploadInput_AADHash)
  ++ member "object_size" v.(ResourcePayloadUploadInput_ObjectSize)
  ++ omitted "key_version" v.(ResourcePayloadUploadInput_KeyVersion)
  ++ member "expected_payload_version" v.(ResourcePayloadUploadInput_ExpectedPayloadVersion)
  ++ member "resource_revision" v.(ResourcePayloadUploadInput_ResourceRevision)
  ++ member "lifecycle_generation" v.(ResourcePayloadUploadInput_LifecycleGeneration).

#[global] Instance ResourcePayloadUploadInput_json : ToJson ResourcePayloadUploadInput :=
  fun v => JObject (ResourcePayloadUploadInput_members v).

Record ResourcePayloadUploadIntent : Type := mkResourcePayloadUploadIntent {
  ResourcePayloadUploadIntent_RequiredHeaders : option (gmap string string);
  ResourcePayloadUploadIntent_Resource : string;
  ResourcePayloadUploadIntent_Slot : string;
  ResourcePayloadUploadIntent_UploadURL : string;
  ResourcePayloadUploadIntent_UploadMethod : string;
  ResourcePayloadUploadIntent_Token : string;
  ResourcePayloadUploadIntent_PayloadVersion : Z;
  ResourcePayloadUploadIntent_ExpectedPayloadVersion : Z;
  ResourcePayloadUploadIntent_ExpiresAt : Z
}.

#[global] Instance ResourcePayloadUploadIntent_zero : Zero ResourcePayloadUploadIntent :=
  mkResourcePayloadUploadIntent None "" "" "" "" "" 0 0 0.

Record ResourcePayloadMutation : Type := mkResourcePayloadMutation {
  ResourcePayloadMutation_Resource : string;
  ResourcePayloadMutation_Slot : string;
  ResourcePayloadMutation_State : string;
  ResourcePayloadMutation_PayloadVersion : Z;
  ResourcePayloadMutation_Idempotent : bool
}.

#[global] Instance ResourcePayloadMutation_zero : Zero ResourcePayloadMutation :=
  mkResourcePayloadMutation "" "" "" 0 false.

Record ResourceExecutionRequest : Type := mkResourceExecutionRequest {
  ResourceExecutionRequest_Method : string;
  ResourceExecutionRequest_Path : string;
  ResourceExecutionRequest_Query : string;
  ResourceExecutionRequest_ContentType : string;
  ResourceExecutionRequest_RequestBodyDigest : string;
  ResourceExecutionRequest_RequestBodySize : Z
}.

#[global] Instance ResourceExecutionRequest_zero : Zero ResourceExecutionRequest :=
  mkResourceExecutionRequest "" "" "" "" "" 0.

Definition ResourceExecutionRequest_members (v : ResourceExecutionRequest) : document :=
  member "method" v.(ResourceExecutionRequest_Method)
  ++ member "path" v.(ResourceExecutionRequest_Path)
  ++ member "query" v.(ResourceExecutionRequest_Query)
  ++ member "content_type" v.(ResourceExecutionRequest_ContentType)
  ++ member "request_body_digest" v.(ResourceExecutionRequest_RequestBodyDigest)
  ++ member "request_body_size" v.(ResourceExecutionRequest_RequestBodySize).

#[global] Instance ResourceExecutionRequest_json : ToJson ResourceExecutionRequest :=
  fun v => JObject (ResourceExecutionRequest_members v).

Record ResourceCredentialExchangeInput : Type := mkResourceCredentialExchangeInput {
  ResourceCredentialExchangeInput_Audience : string;
  ResourceCredentialExchangeInput_Method : string;
  ResourceCredentialExchangeInput_Path : string;
  ResourceCredentialExchangeInput_BodySHA256 : string;
  ResourceCredentialExchangeInput_QuerySHA256 : string;
  ResourceCredentialExchangeInput_IdempotencyKeySHA256 : string;
  ResourceCredentialExchangeInput_ExpiresIn : Z
}.

#[global] Instance ResourceCredentialExchangeInput_zero : Zero ResourceCredentialExchangeInput :=
  mkResourceCredentialExchangeInput "" "" "" "" "" "" 0.

Definition ResourceCredentialExchangeInput_members (v : ResourceCredentialExchangeInput) : document :=
  member "audience" v.(ResourceCredentialExchangeInput_Audience)
  ++ member "method" v.(ResourceCredentialExchangeInput_Method)
  ++ member "path" v.(ResourceCredentialExchangeInput_Path)
  ++ member "body_sha256" v.(ResourceCredentialExchangeInput_BodySHA256)
  ++ member "query_sha256" v.(ResourceCredentialExchangeInput_QuerySHA256)
  ++ omitted "idempotency_key_sha256" v.(ResourceCredentialExchangeInput_IdempotencyKeySHA256)
  ++ omitted "expires_in" v.(ResourceCredentialExchangeInput_ExpiresIn).

#[global] Instance ResourceCredentialExchangeInput_json : ToJson ResourceCredentialExchangeInput :=
  fun v => JObject (ResourceCredentialExchangeInput_members v).

Record ResourceCredentialExchange : Type := mkResourceCredentialExchange {
  ResourceCredentialExchange_Assertion : string;
  ResourceCredentialExchange_TokenType : string;
  ResourceCredentialExchange_Subject : string;
  ResourceCredentialExchange_APIKeyResource : string;
  ResourceCredentialExchange_ClientID : string;
  ResourceCredentialExchange_ApplicationID : string;
  ResourceCredentialExchange_EnvironmentID : string;
  ResourceCredentialExchange_EnvironmentMode : string;
  ResourceCredentialExchange_ExpiresAt : Z;
  ResourceCredentialExchange_CredentialVersion : Z
}.

#[global] Instance ResourceCredentialExchange_zero : Zero ResourceCredentialExchange :=
  mkResourceCredentialExchange "" "" "" "" "" "" "" "" 0 0.

Record ResourceExecutionPreflight : Type := mkResourceExecutionPreflight {
  ResourceExecutionPreflight_PolicyRevision : string;
  ResourceExecutionPreflight_Resource : string;
  ResourceExecutionPreflight_Path : string;
  ResourceExecutionPreflight_Query : string;
  ResourceExecutionPreflight_ContentType : string;
  ResourceExecutionPreflight_RequestBodyDigest : string;
  ResourceExecutionPreflight_Token : string;
  ResourceExecutionPreflight_CatalogEntryRevision : string;
  ResourceExecutionPreflight_RequestAAD : string;
  ResourceExecutionPreflight_ResponsePolicyRef : string;
  ResourceExecutionPreflight_CatalogSnapshotID : string;
  ResourceExecutionPreflight_Method : string;
  ResourceExecutionPreflight_CatalogEntryID : string;
  ResourceExecutionPreflight_KeyResource : string;
  ResourceExecutionPreflight_PayloadSlot : string;
  ResourceExecutionPreflight_ExecutionMode : string;
  ResourceExecutionPreflight_PayloadRepresentation : string;
  ResourceExecutionPreflight_RequestFingerprint : string;
  ResourceExecutionPreflight_PayloadVersion : Z;
  ResourceExecutionPreflight_KeyVersion : Z;
  ResourceExecutionPreflight_LifecycleGeneration : Z;
  ResourceExecutionPreflight_ResourceRevision : Z;
  ResourceExecutionPreflight_ExpiresAt : Z;
  ResourceExecutionPreflight_RequestBodySize : Z
}.

#[global] Instance ResourceExecutionPreflight_zero : Zero ResourceExecutionPreflight :=
  mkResourceExecutionPreflight "" "" "" "" "" "" "" "" "" "" "" "" "" "" "" "" "" "" 0 0 0 0 0 0.

Record ResourceExecutionAuthorization : Type := mkResourceExecutionAuthorization {
  ResourceExecutionAuthorization_Status : string;
  ResourceExecutionAuthorization_RequestFingerprint : string;
  ResourceExecutionAuthorization_Resource : string;
  ResourceExecutionAuthorization_CatalogEntryID : string;
  ResourceExecutionAuthorization_PayloadSlot : string;
  ResourceExecutionAuthorization_PayloadRepresentation : string;
  ResourceExecutionAuthorization_ExecutionMode : string;
  ResourceExecutionAuthorization_ProtectedResponse : string;
  ResourceExecutionAuthorization_PayloadVersion : Z;
  ResourceExecutionAuthorization_ProviderStatus : Z;
  ResourceExecutionAuthorization_ExpiresAt : Z
}.

#[global] Instance ResourceExecutionAuthorization_zero : Zero ResourceExecutionAuthorization :=
  mkResourceExecutionAuthorization "" "" "" "" "" "" "" "" 0 0 0.

Record ResourceExecutionCommitInput : Type := mkResourceExecutionCommitInput {
  ResourceExecutionCommitInput_ProtectedRequest : string;
  ResourceExecutionCommitInput_ResponsePolicyRef : string
}.

Record executionEnvelope : Type := mkexecutionEnvelope {
  executionEnvelope_Nonce : string;
  executionEnvelope_Ciphertext : string;
  executionEnvelope_AADHash : string
}.

#[global] Instance executionEnvelope_zero : Zero executionEnvelope :=
  mkexecutionEnvelope "" "" "".

Definition executionEnvelope_members (v : executionEnvelope) : document :=
  member "nonce" v.(executionEnvelope_Nonce)
  ++ member "ciphertext" v.(executionEnvelope_Ciphertext)
  ++ member "aad_hash" v.(executionEnvelope_AADHash).

#[global] Instance executionEnvelope_json : ToJson executionEnvelope :=
  fun v => JObject (executionEnvelope_members v).

(** * resource_type.go *)

Record ResourceReferenceConstraints : Type := mkResourceReferenceConstraints {
  ResourceReferenceConstraints_MatchingCatalogOf : string;
  ResourceReferenceConstraints_AllowedTargetParents : list string;
  ResourceReferenceConstraints_MatchingReferences : list string
}.

#[global] Instance ResourceReferenceConstraints_zero : Zero ResourceReferenceConstraints :=
  mkResourceReferenceConstraints "" [] [].

Definition ResourceReferenceConstraints_members (v : ResourceReferenceConstraints) : document :=
  omitted "matching_catalog_of" v.(ResourceReferenceConstraints_MatchingCatalogOf)
  ++ omitted "allowed_target_parents" v.(ResourceReferenceConstraints_AllowedTargetParents)
  ++ omitted "matching_references" v.(ResourceReferenceConstraints_MatchingReferences).

#[global] Instance ResourceReferenceConstraints_json : ToJson ResourceReferenceConstraints :=
  fun v => JObject (ResourceReferenceConstraints_members v).

Record ResourceReferenceFieldDefinition : Type := mkResourceReferenceFieldDefinition {
  ResourceReferenceFieldDefinition_Constraints : option ResourceReferenceConstraints;
  ResourceReferenceFieldDefinition_Name : string;
  ResourceReferenceFieldDefinition_TargetResourceTypes : option (list string);
  ResourceReferenceFieldDefinition_Required : bool
}.

#[global] Instance ResourceReferenceFieldDefinition_zero : Zero ResourceReferenceFieldDefinition :=
  mkResourceReferenceFieldDefinition None "" None false.

Definition ResourceReferenceFieldDefinition_members (v : ResourceReferenceFieldDefinition) : document :=
  omitted "constraints" v.(ResourceReferenceFieldDefinition_Constraints)
  ++ member "name" v.(ResourceReferenceFieldDefinition_Name)
  ++ member "target_resource_types" v.(ResourceReferenceFieldDefinition_TargetResourceTypes)
  ++ member "required" v.(ResourceReferenceFieldDefinition_Required).

#[global] Instance ResourceReferenceFieldDefinition_json : ToJson ResourceReferenceFieldDefinition :=
  fun v => JObject (ResourceReferenceFieldDefinition_members v).

Record ResourceCredentialPolicy : Type := mkResourceCredentialPolicy {
  ResourceCredentialPolicy_ExecutionTargetReference : string;
  ResourceCredentialPolicy_PrincipalReference : string;
  ResourceCredentialPolicy_RequireParentAccess : bool
}.

#[global] Instance ResourceCredentialPolicy_zero : Zero ResourceCredentialPolicy :=
  mkResourceCredentialPolicy "" "" false.

Definition ResourceCredentialPolicy_members (v : ResourceCredentialPolicy) : document :=
  member "execution_target_reference" v.(ResourceCredentialPolicy_ExecutionTargetReference)
  ++ omitted "principal_reference" v.(ResourceCredentialPolicy_PrincipalReference)
  ++ member "require_parent_access" v.(ResourceCredentialPolicy_RequireParentAccess).

#[global] Instance ResourceCredentialPolicy_json : ToJson ResourceCredentialPolicy :=
  fun v => JObject (ResourceCredentialPolicy_members v).

Record ResourcePayloadSlotPolicy : Type := mkResourcePayloadSlotPolicy {
  ResourcePayloadSlotPolicy_Name : string;
  ResourcePayloadSlotPolicy_SchemaIDs : option (list string);
  ResourcePayloadSlotPolicy_MaximumObjectSize : Z;
  ResourcePayloadSlotPolicy_Required : bool
}.

#[global] Instance ResourcePayloadSlotPolicy_zero : Zero ResourcePayloadSlotPolicy :=
  mkResourcePayloadSlotPolicy "" None 0 false.

Definition ResourcePayloadSlotPolicy_members (v : ResourcePayloadSlotPolicy) : document :=
  member "name" v.(ResourcePayloadSlotPolicy_Name)
  ++ member "schema_ids" v.(ResourcePayloadSlotPolicy_SchemaIDs)
  ++ member "maximum_object_size" v.(ResourcePayloadSlotPolicy_MaximumObjectSize)
  ++ member "required" v.(ResourcePayloadSlotPolicy_Required).

#[global] Instance ResourcePayloadSlotPolicy_json : ToJson ResourcePayloadSlotPolicy :=
  fun v => JObject (ResourcePayloadSlotPolicy_members v).

Record ResourcePayloadTypePolicy : Type := mkResourcePayloadTypePolicy {
  ResourcePayloadTypePolicy_Storage : string;
  ResourcePayloadTypePolicy_Slots : option (list ResourcePayloadSlotPolicy)
}.

#[global] Instance ResourcePayloadTypePolicy_zero : Zero ResourcePayloadTypePolicy :=
  mkResourcePayloadTypePolicy "" None.

Definition ResourcePayloadTypePolicy_members (v : ResourcePayloadTypePolicy) : document :=
  member "storage" v.(ResourcePayloadTypePolicy_Storage)
  ++ member "slots" v.(ResourcePayloadTypePolicy_Slots).

#[global] Instance ResourcePayloadTypePolicy_json : ToJson ResourcePayloadTypePolicy :=
  fun v => JObject (ResourcePayloadTypePolicy_members v).

Record ResourceTypeDefinition : Type := mkResourceTypeDefinition {
  ResourceTypeDefinition_CredentialPolicy : option ResourceCredentialPolicy;
  ResourceTypeDefinition_ReferenceFields : list ResourceReferenceFieldDefinition;
  ResourceTypeDefinition_ResourceType : string;
  ResourceTypeDefinition_Kind : string;
  ResourceTypeDefinition_Lifecycle : string;
  ResourceTypeDefinition_KeyBehavior : string;
  ResourceTypeDefinition_AllowedParentTypes : option (list string);
  ResourceTypeDefinition_Relations : option (list string);
  ResourceTypeDefinition_InheritedRelations : list string;
  ResourceTypeDefinition_CatalogEntryKinds : list string;
  ResourceTypeDefinition_Payload : ResourcePayloadTypePolicy;
  ResourceTypeDefinition_DirectLinks : bool;
  ResourceTypeDefinition_MayActAsPrincipal : bool;
  ResourceTypeDefinition_MayActAsSubjectSet : bool
}.

#[global] Instance ResourceTypeDefinition_zero : Zero ResourceTypeDefinition :=
  mkResourceTypeDefinition None [] "" "" "" "" None None [] [] zero false false false.

Definition ResourceTypeDefinition_members (v : ResourceTypeDefinition) : document :=
  omitted "credential_policy" v.(ResourceTypeDefinition_CredentialPolicy)
  ++ omitted "reference_fields" v.(ResourceTypeDefinition_ReferenceFields)
  ++ member "resource_type" v.(ResourceTypeDefinition_ResourceType)
  ++ member "kind" v.(ResourceTypeDefinition_Kind)
  ++ member "lifecycle" v.(ResourceTypeDefinition_Lifecycle)
  ++ member "key_behavior" v.(ResourceTypeDefinition_KeyBehavior)
  ++ member "allowed_parent_types" v.(ResourceTypeDefinition_AllowedParentTypes)
  ++ member "relations" v.(ResourceTypeDefinition_Relations)
  ++ omitted "inherited_relations" v.(ResourceTypeDefinition_InheritedRelations)
  ++ omitted "catalog_entry_kinds" v.(ResourceTypeDefinition_CatalogEntryKinds)
  ++ member "payload" v.(ResourceTypeDefinition_Payload)
  ++ member "direct_links" v.(ResourceTypeDefinition_DirectLinks)
  ++ omitted "may_act_as_principal" v.(ResourceTypeDefinition_MayActAsPrincipal)
  ++ omitted "may_act_as_subject_set" v.(ResourceTypeDefinition_MayActAsSubjectSet).

#[global] Instance ResourceTypeDefinition_json : ToJson ResourceTypeDefinition :=
  fun v => JObject (ResourceTypeDefinition_members v).

(** * catalog_types.go *)

Record GenericCatalogDefinition : Type := mkGenericCatalogDefinition {
  GenericCatalogDefinition_SemanticKey : string;
  GenericCatalogDefinition_EntryKind : string;
  GenericCatalogDefinition_Definition : list byte
}.

#[global] Instance GenericCatalogDefinition_zero : Zero GenericCatalogDefinition :=
  mkGenericCatalogDefinition "" "" [].

Definition GenericCatalogDefinition_members (v : GenericCatalogDefinition) : document :=
  member "semantic_key" v.(GenericCatalogDefinition_SemanticKey)
  ++ member "entry_kind" v.(GenericCatalogDefinition_EntryKind)
  ++ [("definition", JRaw v.(GenericCatalogDefinition_Definition))].

#[global] Instance GenericCatalogDefinition_json : ToJson GenericCatalogDefinition :=
  fun v => JObject (GenericCatalogDefinition_members v).

Record CatalogCreation : Type := mkCatalogCreation {
  CatalogCreation_Namespace : string;
  CatalogCreation_CatalogType : string;
  CatalogCreation_Visibility : string;
  CatalogCreation_Organization : string;
  CatalogCreation_Discoverable : bool
}.

#[global] Instance CatalogCreation_zero : Zero CatalogCreation :=
  mkCatalogCreation "" "" "" "" false.

Definition CatalogCreation_members (v : CatalogCreation) : document :=
  member "namespace" v.(CatalogCreation_Namespace)
  ++ member "catalog_type" v.(CatalogCreation_CatalogType)
  ++ member "visibility" v.(CatalogCreation_Visibility)
  ++ omitted "organization" v.(CatalogCreation_Organization)
  ++ member "discoverable" v.(CatalogCreation_Discoverable).

#[global] Instance CatalogCreation_json : ToJson CatalogCreation :=
  fun v => JObject (CatalogCreation_members v).

Record Catalog : Type := mkCatalog {
  Catalog_Organization : option string;
  Catalog_PublishedSnapshotID : option string;
  Catalog_ID : string;
  Catalog_Namespace : string;
  Catalog_CatalogType : string;
  Catalog_Visibility : string;
  Catalog_Status : string;
  Catalog_CreatedAt : Z;
  Catalog_Discoverable : bool
}.

#[global] Instance Catalog_zero : Zero Catalog :=
  mkCatalog None None "" "" "" "" "" 0 false.

Record CatalogList : Type := mkCatalogList {
  CatalogList_NextCursor : option string;
  CatalogList_Items : option (list Catalog)
}.

#[global] Instance CatalogList_zero : Zero CatalogList :=
  mkCatalogList None None.

Record CatalogSnapshotDocument : Type := mkCatalogSnapshotDocument {
  CatalogSnapshotDocument_CatalogID : string;
  CatalogSnapshotDocument_SnapshotID : string;
  CatalogSnapshotDocument_DocumentDigest : string;
  CatalogSnapshotDocument_Document : list byte
}.

#[global] Instance CatalogSnapshotDocument_zero : Zero CatalogSnapshotDocument :=
  mkCatalogSnapshotDocument "" "" "" [].

Record CatalogImportInput : Type := mkCatalogImportInput {
  CatalogImportInput_Format : string;
  CatalogImportInput_SourceDocument : string
}.

#[global] Instance CatalogImportInput_zero : Zero CatalogImportInput :=
  mkCatalogImportInput "" "".

Definition CatalogImportInput_members (v : CatalogImportInput) : document :=
  member "format" v.(CatalogImportInput_Format)
  ++ member "source_document" v.(CatalogImportInput_SourceDocument).

#[global] Instance CatalogImportInput_json : ToJson CatalogImportInput :=
  fun v => JObject (CatalogImportInput_members v).

Record CatalogSnapshot : Type := mkCatalogSnapshot {
  CatalogSnapshot_PublishedAt : option Z;
  CatalogSnapshot_ID : string;
  CatalogSnapshot_CatalogID : string;
  CatalogSnapshot_SourceDigest : string;
  CatalogSnapshot_ImporterVersion : string;
  CatalogSnapshot_Digest : string;
  CatalogSnapshot_Status : string;
  CatalogSnapshot_EntryCount : Z;
  CatalogSnapshot_CreatedAt : Z
}.

#[global] Instance CatalogSnapshot_zero : Zero CatalogSnapshot :=
  mkCatalogSnapshot None "" "" "" "" "" "" 0 0.

Record CatalogSnapshotList : Type := mkCatalogSnapshotList {
  CatalogSnapshotList_NextCursor : option string;
  CatalogSnapshotList_Items : option (list CatalogSnapshot)
}.

#[global] Instance CatalogSnapshotList_zero : Zero CatalogSnapshotList :=
  mkCatalogSnapshotList None None.

Record ResourceCatalogBindingInput : Type := mkResourceCatalogBindingInput {
  ResourceCatalogBindingInput_CatalogID : string;
  ResourceCatalogBindingInput_SnapshotID : string;
  ResourceCatalogBindingInput_EntryKinds : option (list string);
  ResourceCatalogBindingInput_ExpectedResourceRevision : Z;
  ResourceCatalogBindingInput_ExpectedLifecycleGeneration : Z
}.

#[global] Instance ResourceCatalogBindingInput_zero : Zero ResourceCatalogBindingInput :=
  mkResourceCatalogBindingInput "" "" None 0 0.

Definition ResourceCatalogBindingInput_members (v : ResourceCatalogBindingInput) : document :=
  member "catalog_id" v.(ResourceCatalogBindingInput_CatalogID)
  ++ member "snapshot_id" v.(ResourceCatalogBindingInput_SnapshotID)
  ++ member "entry_kinds" v.(ResourceCatalogBindingInput_EntryKinds)
  ++ member "expected_resource_revision" v.(ResourceCatalogBindingInput_ExpectedResourceRevision)
  ++ member "expected_lifecycle_generation" v.(ResourceCatalogBindingInput_ExpectedLifecycleGeneration).

#[global] Instance ResourceCatalogBindingInput_json : ToJson ResourceCatalogBindingInput :=
  fun v => JObject (ResourceCatalogBindingInput_members v).

(** * catalog_read.go *)

Record CatalogEntry : Type := mkCatalogEntry {
  CatalogEntry_ID : string;
  CatalogEntry_CatalogID : string;
  CatalogEntry_SemanticKey : string;
  CatalogEntry_EntryKind : string;
  CatalogEntry_RevisionID : string;
  CatalogEntry_RevisionDigest : string;
  CatalogEntry_Definition : list byte
}.

#[global] Instance CatalogEntry_zero : Zero CatalogEntry :=
  mkCatalogEntry "" "" "" "" "" "" [].

Record CatalogEntryList : Type := mkCatalogEntryList {
  CatalogEntryList_NextCursor : option string;
  CatalogEntryList_Items : option (list CatalogEntry)
}.

#[global] Instance CatalogEntryList_zero : Zero CatalogEntryList :=
  mkCatalogEntryList None None.

(** * catalog_types.go *)

Record PublishedCatalogEntryList : Type := mkPublishedCatalogEntryList {
  PublishedCatalogEntryList_SnapshotID : string;
  PublishedCatalogEntryList_CatalogEntryList : CatalogEntryList
}.

#[global] Instance PublishedCatalogEntryList_zero : Zero PublishedCatalogEntryList :=
  mkPublishedCatalogEntryList "" zero.

(** * account_resources.go *)

Record AccountResourceReference : Type := mkAccountResourceReference {
  AccountResourceReference_ID : string;
  AccountResourceReference_Resource : string;
  AccountResourceReference_Type : string;
  AccountResourceReference_Name : string
}.

#[global] Instance AccountResourceReference_zero : Zero AccountResourceReference :=
  mkAccountResourceReference "" "" "" "".

Record AccountResourcePathStep : Type := mkAccountResourcePathStep {
  AccountResourcePathStep_AccountResourceReference : AccountResourceReference;
  AccountResourcePathStep_SubjectRelation : string
}.

#[global] Instance AccountResourcePathStep_zero : Zero AccountResourcePathStep :=
  mkAccountResourcePathStep zero "".

Record AccountResourceAccessPath : Type := mkAccountResourceAccessPath {
  AccountResourceAccessPath_Type : string;
  AccountResourceAccessPath_Relation : string;
  AccountResourceAccessPath_Via : option (list AccountResourcePathStep)
}.

#[global] Instance AccountResourceAccessPath_zero : Zero AccountResourceAccessPath :=
  mkAccountResourceAccessPath "" "" None.

Record AccountResourceAccess : Type := mkAccountResourceAccess {
  AccountResourceAccess_Paths : option (list AccountResourceAccessPath);
  AccountResourceAccess_Direct : bool
}.

#[global] Instance AccountResourceAccess_zero : Zero AccountResourceAccess :=
  mkAccountResourceAccess None false.

Record AccountResource : Type := mkAccountResource {
  AccountResource_AccountResourceReference : AccountResourceReference;
  AccountResource_Parent : option AccountResourceReference;
  AccountResource_Relations : option (list string);
  AccountResource_AccessState : string;
  AccountResource_Access : AccountResourceAccess
}.

#[global] Instance AccountResource_zero : Zero AccountResource :=
  mkAccountResource zero None None "" zero.

Record AccountResourceList : Type := mkAccountResourceList {
  AccountResourceList_NextCursor : option string;
  AccountResourceList_Resources : option (list AccountResource)
}.

#[global] Instance AccountResourceList_zero : Zero AccountResourceList :=
  mkAccountResourceList None None.

Record AccountResourceListOptions : Type := mkAccountResourceListOptions {
  AccountResourceListOptions_Parent : string;
  AccountResourceListOptions_Cursor : string;
  AccountResourceListOptions_Types : list string;
  AccountResourceListOptions_AccessStates : list string;
  AccountResourceListOptions_Limit : Z
}.

(** * account_invitations.go *)

Record AccountInvitation : Type := mkAccountInvitation {
  AccountInvitation_ID : string;
  AccountInvitation_Resource : AccountResourceReference;
  AccountInvitation_Relation : string;
  AccountInvitation_Status : string;
  AccountInvitation_ExpiresAt : Z;
  AccountInvitation_EncryptionRequired : bool
}.

#[global] Instance AccountInvitation_zero : Zero AccountInvitation :=
  mkAccountInvitation "" zero "" "" 0 false.

Record AccountInvitationList : Type := mkAccountInvitationList {
  AccountInvitationList_NextCursor : option string;
  AccountInvitationList_Invitations : option (list AccountInvitation)
}.

#[global] Instance AccountInvitationList_zero : Zero AccountInvitationList :=
  mkAccountInvitationList None None.

Record AccountInvitationMutation : Type := mkAccountInvitationMutation {
  AccountInvitationMutation_ID : string;
  AccountInvitationMutation_Status : string
}.

#[global] Instance AccountInvitationMutation_zero : Zero AccountInvitationMutation :=
  mkAccountInvitationMutation "" "".

(** * billing_portal.go *)

Record PortalSessionInput : Type := mkPortalSessionInput {
  PortalSessionInput_OrganizationID : string;
  PortalSessionInput_ReturnURL : string
}.

#[global] Instance PortalSessionInput_zero : Zero PortalSessionInput :=
  mkPortalSessionInput "" "".

Definition PortalSessionInput_members (v : PortalSessionInput) : document :=
  member "organization_id" v.(PortalSessionInput_OrganizationID)
  ++ member "return_url" v.(PortalSessionInput_ReturnURL).

#[global] Instance PortalSessionInput_json : ToJson PortalSessionInput :=
  fun v => JObject (PortalSessionInput_members v).

Record PortalSession : Type := mkPortalSession {
  PortalSession_ID : string;
  PortalSession_URL : string
}.

#[global] Instance PortalSession_zero : Zero PortalSession :=
  mkPortalSession "" "".

(** * development_connections.go *)

Record DevelopmentConnection : Type := mkDevelopmentConnection {
  DevelopmentConnection_RevokedAt : option Z;
  DevelopmentConnection_ID : string;
  DevelopmentConnection_Resource : string;
  DevelopmentConnection_EndpointURL : string;
  DevelopmentConnection_Status : string;
  DevelopmentConnection_CreatedBy : string;
  DevelopmentConnection_CreatedAt : Z
}.

#[global] Instance DevelopmentConnection_zero : Zero DevelopmentConnection :=
  mkDevelopmentConnection None "" "" "" "" "" 0.

Record DevelopmentConnectionList : Type := mkDevelopmentConnectionList {
  DevelopmentConnectionList_NextCursor : option string;
  DevelopmentConnectionList_Connections : option (list DevelopmentConnection)
}.

#[global] Instance DevelopmentConnectionList_zero : Zero DevelopmentConnectionList :=
  mkDevelopmentConnectionList None None.

(** * resource_links.go *)

Record ResourceLinkChange : Type := mkResourceLinkChange {
  ResourceLinkChange_Cascade : option bool;
  ResourceLinkChange_Action : string;
  ResourceLinkChange_LinkID : string;
  ResourceLinkChange_Collaborator : string;
  ResourceLinkChange_Relation : string;
  ResourceLinkChange_Subject : string;
  ResourceLinkChange_Email : string;
  ResourceLinkChange_SubjectResource : string;
  ResourceLinkChange_SubjectRelation : string;
  ResourceLinkChange_Provisioning : string;
  ResourceLinkChange_Delivery : string
}.

#[global] Instance ResourceLinkChange_zero : Zero ResourceLinkChange :=
  mkResourceLinkChange None "" "" "" "" "" "" "" "" "" "".

Definition ResourceLinkChange_members (v : ResourceLinkChange) : document :=
  omitted "cascade" v.(ResourceLinkChange_Cascade)
  ++ member "action" v.(ResourceLinkChange_Action)
  ++ omitted "link_id" v.(ResourceLinkChange_LinkID)
  ++ omitted "collaborator" v.(ResourceLinkChange_Collaborator)
  ++ omitted "relation" v.(ResourceLinkChange_Relation)
  ++ omitted "subject" v.(ResourceLinkChange_Subject)
  ++ omitted "email" v.(ResourceLinkChange_Email)
  ++ omitted "subject_resource" v.(ResourceLinkChange_SubjectResource)
  ++ omitted "subject_relation" v.(ResourceLinkChange_SubjectRelation)
  ++ omitted "provisioning" v.(ResourceLinkChange_Provisioning)
  ++ omitted "delivery" v.(ResourceLinkChange_Delivery).

#[global] Instance ResourceLinkChange_json : ToJson ResourceLinkChange :=
  fun v => JObject (ResourceLinkChange_members v).

Record ResourceLinkCandidateSearchInput : Type := mkResourceLinkCandidateSearchInput {
  ResourceLinkCandidateSearchInput_Query : string;
  ResourceLinkCandidateSearchInput_Relation : string;
  ResourceLinkCandidateSearchInput_Cursor : string;
  ResourceLinkCandidateSearchInput_Kinds : list string;
  ResourceLinkCandidateSearchInput_Limit : Z
}.

#[global] Instance ResourceLinkCandidateSearchInput_zero : Zero ResourceLinkCandidateSearchInput :=
  mkResourceLinkCandidateSearchInput "" "" "" [] 0.

Definition ResourceLinkCandidateSearchInput_members (v : ResourceLinkCandidateSearchInput) : document :=
  member "query" v.(ResourceLinkCandidateSearchInput_Query)
  ++ member "relation" v.(ResourceLinkCandidateSearchInput_Relation)
  ++ omitted "cursor" v.(ResourceLinkCandidateSearchInput_Cursor)
  ++ omitted "kinds" v.(ResourceLinkCandidateSearchInput_Kinds)
  ++ omitted "limit" v.(ResourceLinkCandidateSearchInput_Limit).

#[global] Instance ResourceLinkCandidateSearchInput_json : ToJson ResourceLinkCandidateSearchInput :=
  fun v => JObject (ResourceLinkCandidateSearchInput_members v).

Record ResourceLinkCandidate : Type := mkResourceLinkCandidate {
  ResourceLinkCandidate_Kind : string;
  ResourceLinkCandidate_Subject : string;
  ResourceLinkCandidate_Resource : string;
  ResourceLinkCandidate_SubjectRelation : string;
  ResourceLinkCandidate_DisplayName : string;
  ResourceLinkCandidate_Email : string;
  ResourceLinkCandidate_LinkState : string;
  ResourceLinkCandidate_Reason : string;
  ResourceLinkCandidate_Selectable : bool
}.

#[global] Instance ResourceLinkCandidate_zero : Zero ResourceLinkCandidate :=
  mkResourceLinkCandidate "" "" "" "" "" "" "" "" false.

Record ResourceLinkCandidateSearchResult : Type := mkResourceLinkCandidateSearchResult {
  ResourceLinkCandidateSearchResult_NextCursor : option string;
  ResourceLinkCandidateSearchResult_Candidates : option (list ResourceLinkCandidate)
}.

#[global] Instance ResourceLinkCandidateSearchResult_zero : Zero ResourceLinkCandidateSearchResult :=
  mkResourceLinkCandidateSearchResult None None.

Record ResourceLinkEnvelopeSubmission : Type := mkResourceLinkEnvelopeSubmission {
  ResourceLinkEnvelopeSubmission_ManifestItemID : string;
  ResourceLinkEnvelopeSubmission_EncryptionSuite : string;
  ResourceLinkEnvelopeSubmission_Ciphertext : string;
  ResourceLinkEnvelopeSubmission_AADHash : string;
  ResourceLinkEnvelopeSubmission_Issuer : string;
  ResourceLinkEnvelopeSubmission_IssuerKeyID : string;
  ResourceLinkEnvelopeSubmission_Signature : string
}.

#[global] Instance ResourceLinkEnvelopeSubmission_zero : Zero ResourceLinkEnvelopeSubmission :=
  mkResourceLinkEnvelopeSubmission "" "" "" "" "" "" "".

Definition ResourceLinkEnvelopeSubmission_members (v : ResourceLinkEnvelopeSubmission) : document :=
  member "manifest_item_id" v.(ResourceLinkEnvelopeSubmission_ManifestItemID)
  ++ member "encryption_suite" v.(ResourceLinkEnvelopeSubmission_EncryptionSuite)
  ++ member "ciphertext" v.(ResourceLinkEnvelopeSubmission_Ciphertext)
  ++ member "aad_hash" v.(ResourceLinkEnvelopeSubmission_AADHash)
  ++ member "issuer" v.(ResourceLinkEnvelopeSubmission_Issuer)
  ++ member "issuer_key_id" v.(ResourceLinkEnvelopeSubmission_IssuerKeyID)
  ++ member "signature" v.(ResourceLinkEnvelopeSubmission_Signature).

#[global] Instance ResourceLinkEnvelopeSubmission_json : ToJson ResourceLinkEnvelopeSubmission :=
  fun v => JObject (ResourceLinkEnvelopeSubmission_members v).

Record ResourceLinkOutcome : Type := mkResourceLinkOutcome {
  ResourceLinkOutcome_LinkID : string;
  ResourceLinkOutcome_Resource : string;
  ResourceLinkOutcome_Subject : string;
  ResourceLinkOutcome_Relation : string;
  ResourceLinkOutcome_State : string;
  ResourceLinkOutcome_Reason : string;
  ResourceLinkOutcome_Allowed : bool
}.

#[global] Instance ResourceLinkOutcome_zero : Zero ResourceLinkOutcome :=
  mkResourceLinkOutcome "" "" "" "" "" "" false.

Record ResourceLinkKeyRequirement : Type := mkResourceLinkKeyRequirement {
  ResourceLinkKeyRequirement_ManifestItemID : string;
  ResourceLinkKeyRequirement_GrantID : string;
  ResourceLinkKeyRequirement_Resource : string;
  ResourceLinkKeyRequirement_Relation : string;
  ResourceLinkKeyRequirement_KeyResource : string;
  ResourceLinkKeyRequirement_KeyVersion : string;
  ResourceLinkKeyRequirement_RecipientSubject : string;
  ResourceLinkKeyRequirement_RecipientKeyID : string;
  ResourceLinkKeyRequirement_EncryptionAlgorithm : string;
  ResourceLinkKeyRequirement_InvitationID : string;
  ResourceLinkKeyRequirement_Activation : string;
  ResourceLinkKeyRequirement_PublicKey : list byte
}.

#[global] Instance ResourceLinkKeyRequirement_zero : Zero ResourceLinkKeyRequirement :=
  mkResourceLinkKeyRequirement "" "" "" "" "" "" "" "" "" "" "" [].

Record ResourceLinkRevisions : Type := mkResourceLinkRevisions {
  ResourceLinkRevisions_Customer : string;
  ResourceLinkRevisions_Graph : string;
  ResourceLinkRevisions_Policy : string;
  ResourceLinkRevisions_Identity : string;
  ResourceLinkRevisions_Billing : string;
  ResourceLinkRevisions_Seat : string;
  ResourceLinkRevisions_Key : string
}.

#[global] Instance ResourceLinkRevisions_zero : Zero ResourceLinkRevisions :=
  mkResourceLinkRevisions "" "" "" "" "" "" "".

Record ResourceLinkCapacity : Type := mkResourceLinkCapacity {
  ResourceLinkCapacity_Scope : string;
  ResourceLinkCapacity_Before : Z;
  ResourceLinkCapacity_After : Z;
  ResourceLinkCapacity_Claim : Z;
  ResourceLinkCapacity_Release : Z
}.

#[global] Instance ResourceLinkCapacity_zero : Zero ResourceLinkCapacity :=
  mkResourceLinkCapacity "" 0 0 0 0.

Record ResourceLinkBilling : Type := mkResourceLinkBilling {
  ResourceLinkBilling_CurrentQuantity : Z;
  ResourceLinkBilling_NextCycleQuantity : Z;
  ResourceLinkBilling_Increase : Z;
  ResourceLinkBilling_NextCycleReduction : Z
}.

#[global] Instance ResourceLinkBilling_zero : Zero ResourceLinkBilling :=
  mkResourceLinkBilling 0 0 0 0.

Record ResourceLinkInvitationAction : Type := mkResourceLinkInvitationAction {
  ResourceLinkInvitationAction_InvitationID : string;
  ResourceLinkInvitationAction_Action : string;
  ResourceLinkInvitationAction_Reason : string
}.

#[global] Instance ResourceLinkInvitationAction_zero : Zero ResourceLinkInvitationAction :=
  mkResourceLinkInvitationAction "" "" "".

Record ResourceLinkImpact : Type := mkResourceLinkImpact {
  ResourceLinkImpact_ImpactedResources : option (list string);
  ResourceLinkImpact_RetainedResources : option (list string);
  ResourceLinkImpact_RekeyResources : option (list string)
}.

#[global] Instance ResourceLinkImpact_zero : Zero ResourceLinkImpact :=
  mkResourceLinkImpact None None None.

Record ResourceLinkResult : Type := mkResourceLinkResult {
  ResourceLinkResult_Revisions : ResourceLinkRevisions;
  ResourceLinkResult_Resource : string;
  ResourceLinkResult_Status : string;
  ResourceLinkResult_FailureReason : string;
  ResourceLinkResult_Impact : ResourceLinkImpact;
  ResourceLinkResult_KeyRequirements : option (list ResourceLinkKeyRequirement);
  ResourceLinkResult_InvitationActions : option (list ResourceLinkInvitationAction);
  ResourceLinkResult_Outcomes : option (list ResourceLinkOutcome);
  ResourceLinkResult_Capacity : ResourceLinkCapacity;
  ResourceLinkResult_Billing : ResourceLinkBilling;
  ResourceLinkResult_ExpiresAt : Z;
  ResourceLinkResult_Committable : bool;
  ResourceLinkResult_Idempotent : bool
}.

#[global] Instance ResourceLinkResult_zero : Zero ResourceLinkResult :=
  mkResourceLinkResult zero "" "" "" zero None None None zero zero 0 false false.

Record ResourceLinkPreflight : Type := mkResourceLinkPreflight {
  ResourceLinkPreflight_Token : string;
  ResourceLinkPreflight_Result : ResourceLinkResult
}.

Record ResourceLinkSendInput : Type := mkResourceLinkSendInput {
  ResourceLinkSendInput_Changes : option (list ResourceLinkChange)
}.

Record ResourceLinkSendResult : Type := mkResourceLinkSendResult {
  ResourceLinkSendResult_Preflight : ResourceLinkPreflight;
  ResourceLinkSendResult_Committed : ResourceLinkResult
}.

Record ResourceSubjectAccessCheck : Type := mkResourceSubjectAccessCheck {
  ResourceSubjectAccessCheck_Resource : string;
  ResourceSubjectAccessCheck_Subject : string;
  ResourceSubjectAccessCheck_Allowed : bool
}.

#[global] Instance ResourceSubjectAccessCheck_zero : Zero ResourceSubjectAccessCheck :=
  mkResourceSubjectAccessCheck "" "" false.

Record UnlinkResult : Type := mkUnlinkResult {
  UnlinkResult_ID : string;
  UnlinkResult_Resource : string;
  UnlinkResult_Status : string;
  UnlinkResult_RekeySubjects : option (list string);
  UnlinkResult_RekeyRequired : bool;
  UnlinkResult_Idempotent : bool
}.

#[global] Instance UnlinkResult_zero : Zero UnlinkResult :=
  mkUnlinkResult "" "" "" None false false.

Record CollaboratorPathStep : Type := mkCollaboratorPathStep {
  CollaboratorPathStep_Resource : string;
  CollaboratorPathStep_SubjectRelation : string
}.

#[global] Instance CollaboratorPathStep_zero : Zero CollaboratorPathStep :=
  mkCollaboratorPathStep "" "".

Record CollaboratorPath : Type := mkCollaboratorPath {
  CollaboratorPath_Type : string;
  CollaboratorPath_Relation : string;
  CollaboratorPath_Group : string;
  CollaboratorPath_SubjectRelation : string;
  CollaboratorPath_LinkID : string;
  CollaboratorPath_Via : option (list CollaboratorPathStep)
}.

#[global] Instance CollaboratorPath_zero : Zero CollaboratorPath :=
  mkCollaboratorPath "" "" "" "" "" None.

Record CollaboratorAccess : Type := mkCollaboratorAccess {
  CollaboratorAccess_Paths : option (list CollaboratorPath);
  CollaboratorAccess_Direct : bool
}.

#[global] Instance CollaboratorAccess_zero : Zero CollaboratorAccess :=
  mkCollaboratorAccess None false.

Record CollaboratorRecipient : Type := mkCollaboratorRecipient {
  CollaboratorRecipient_Type : string;
  CollaboratorRecipient_Subject : string;
  CollaboratorRecipient_Display : string
}.

#[global] Instance CollaboratorRecipient_zero : Zero CollaboratorRecipient :=
  mkCollaboratorRecipient "" "" "".

Record ResourceCollaborator : Type := mkResourceCollaborator {
  ResourceCollaborator_Access : option CollaboratorAccess;
  ResourceCollaborator_Recipient : option CollaboratorRecipient;
  ResourceCollaborator_Status : string;
  ResourceCollaborator_Resource : string;
  ResourceCollaborator_DisplayName : string;
  ResourceCollaborator_Email : string;
  ResourceCollaborator_Kind : string;
  ResourceCollaborator_SubjectRelation : string;
  ResourceCollaborator_LinkID : string;
  ResourceCollaborator_ID : string;
  ResourceCollaborator_Relations : option (list string);
  ResourceCollaborator_MemberCount : Z;
  ResourceCollaborator_ExpiresAt : Z
}.

#[global] Instance ResourceCollaborator_zero : Zero ResourceCollaborator :=
  mkResourceCollaborator None None "" "" "" "" "" "" "" "" None 0 0.

Record ResourceCollaboratorList : Type := mkResourceCollaboratorList {
  ResourceCollaboratorList_NextCursor : option string;
  ResourceCollaboratorList_Resource : string;
  ResourceCollaboratorList_Collaborators : option (list ResourceCollaborator)
}.

#[global] Instance ResourceCollaboratorList_zero : Zero ResourceCollaboratorList :=
  mkResourceCollaboratorList None "" None.

Record ResourceCollaboratorListOptions : Type := mkResourceCollaboratorListOptions {
  ResourceCollaboratorListOptions_Direct : option bool;
  ResourceCollaboratorListOptions_Kind : string;
  ResourceCollaboratorListOptions_Email : string;
  ResourceCollaboratorListOptions_Subject : string;
  ResourceCollaboratorListOptions_ResourceSubject : string;
  ResourceCollaboratorListOptions_ViaGroup : string;
  ResourceCollaboratorListOptions_View : string;
  ResourceCollaboratorListOptions_Status : string;
  ResourceCollaboratorListOptions_Cursor : string;
  ResourceCollaboratorListOptions_Search : string;
  ResourceCollaboratorListOptions_Kinds : list string;
  ResourceCollaboratorListOptions_Statuses : list string;
  ResourceCollaboratorListOptions_Relations : list string;
  ResourceCollaboratorListOptions_Limit : Z
}.

Record ResourceSearchResourceFilters : Type := mkResourceSearchResourceFilters {
  ResourceSearchResourceFilters_References : gmap string string;
  ResourceSearchResourceFilters_Search : string;
  ResourceSearchResourceFilters_Resources : list string;
  ResourceSearchResourceFilters_Types : list string;
  ResourceSearchResourceFilters_Parent : string;
  ResourceSearchResourceFilters_Statuses : list string
}.

#[global] Instance ResourceSearchResourceFilters_zero : Zero ResourceSearchResourceFilters :=
  mkResourceSearchResourceFilters ∅ "" [] [] "" [].

Definition ResourceSearchResourceFilters_members (v : ResourceSearchResourceFilters) : document :=
  omitted "references" v.(ResourceSearchResourceFilters_References)
  ++ omitted "search" v.(ResourceSearchResourceFilters_Search)
  ++ omitted "resources" v.(ResourceSearchResourceFilters_Resources)
  ++ omitted "types" v.(ResourceSearchResourceFilters_Types)
  ++ omitted "parent" v.(ResourceSearchResourceFilters_Parent)
  ++ omitted "statuses" v.(ResourceSearchResourceFilters_Statuses).

#[global] Instance ResourceSearchResourceFilters_json : ToJson ResourceSearchResourceFilters :=
  fun v => JObject (ResourceSearchResourceFilters_members v).

Record ResourceSearchCollaboratorFilters : Type := mkResourceSearchCollaboratorFilters {
  ResourceSearchCollaboratorFilters_Direct : option bool;
  ResourceSearchCollaboratorFilters_Search : string;
  ResourceSearchCollaboratorFilters_Email : string;
  ResourceSearchCollaboratorFilters_View : string;
  ResourceSearchCollaboratorFilters_ResourceSubject : string;
  ResourceSearchCollaboratorFilters_Subjects : list string;
  ResourceSearchCollaboratorFilters_Kinds : list string;
  ResourceSearchCollaboratorFilters_Relations : list string;
  ResourceSearchCollaboratorFilters_Statuses : list string;
  ResourceSearchCollaboratorFilters_ViaGroups : list string
}.

#[global] Instance ResourceSearchCollaboratorFilters_zero : Zero ResourceSearchCollaboratorFilters :=
  mkResourceSearchCollaboratorFilters None "" "" "" "" [] [] [] [] [].

Definition ResourceSearchCollaboratorFilters_members (v : ResourceSearchCollaboratorFilters) : document :=
  omitted "direct" v.(ResourceSearchCollaboratorFilters_Direct)
  ++ omitted "search" v.(ResourceSearchCollaboratorFilters_Search)
  ++ omitted "email" v.(ResourceSearchCollaboratorFilters_Email)
  ++ omitted "view" v.(ResourceSearchCollaboratorFilters_View)
  ++ omitted "resource_subject" v.(ResourceSearchCollaboratorFilters_ResourceSubject)
  ++ omitted "subjects" v.(ResourceSearchCollaboratorFilters_Subjects)
  ++ omitted "kinds" v.(ResourceSearchCollaboratorFilters_Kinds)
  ++ omitted "relations" v.(ResourceSearchCollaboratorFilters_Relations)
  ++ omitted "statuses" v.(ResourceSearchCollaboratorFilters_Statuses)
  ++ omitted "via_groups" v.(ResourceSearchCollaboratorFilters_ViaGroups).

#[global] Instance ResourceSearchCollaboratorFilters_json : ToJson ResourceSearchCollaboratorFilters :=
  fun v => JObject (ResourceSearchCollaboratorFilters_members v).

Record ResourceSearchFilters : Type := mkResourceSearchFilters {
  ResourceSearchFilters_Resource : option ResourceSearchResourceFilters;
  ResourceSearchFilters_Collaborator : option ResourceSearchCollaboratorFilters
}.

#[global] Instance ResourceSearchFilters_zero : Zero ResourceSearchFilters :=
  mkResourceSearchFilters None None.

Definition ResourceSearchFilters_members (v : ResourceSearchFilters) : document :=
  omitted "resource" v.(ResourceSearchFilters_Resource)
  ++ omitted "collaborator" v.(ResourceSearchFilters_Collaborator).

#[global] Instance ResourceSearchFilters_json : ToJson ResourceSearchFilters :=
  fun v => JObject (ResourceSearchFilters_members v).

Record ResourceSearchSort : Type := mkResourceSearchSort {
  ResourceSearchSort_Field : string;
  ResourceSearchSort_Direction : string
}.

#[global] Instance ResourceSearchSort_zero : Zero ResourceSearchSort :=
  mkResourceSearchSort "" "".

Definition ResourceSearchSort_members (v : ResourceSearchSort) : document :=
  omitted "field" v.(ResourceSearchSort_Field)
  ++ omitted "direction" v.(ResourceSearchSort_Direction).

#[global] Instance ResourceSearchSort_json : ToJson ResourceSearchSort :=
  fun v => JObject (ResourceSearchSort_members v).

Record ResourceSearchPage : Type := mkResourceSearchPage {
  ResourceSearchPage_Cursor : string;
  ResourceSearchPage_Limit : Z
}.

#[global] Instance ResourceSearchPage_zero : Zero ResourceSearchPage :=
  mkResourceSearchPage "" 0.

Definition ResourceSearchPage_members (v : ResourceSearchPage) : document :=
  omitted "cursor" v.(ResourceSearchPage_Cursor)
  ++ omitted "limit" v.(ResourceSearchPage_Limit).

#[global] Instance ResourceSearchPage_json : ToJson ResourceSearchPage :=
  fun v => JObject (ResourceSearchPage_members v).

Record ResourceSearchInput : Type := mkResourceSearchInput {
  ResourceSearchInput_Filters : option ResourceSearchFilters;
  ResourceSearchInput_Sort : option ResourceSearchSort;
  ResourceSearchInput_Page : option ResourceSearchPage;
  ResourceSearchInput_Include : list string
}.

#[global] Instance ResourceSearchInput_zero : Zero ResourceSearchInput :=
  mkResourceSearchInput None None None [].

Definition ResourceSearchInput_members (v : ResourceSearchInput) : document :=
  omitted "filters" v.(ResourceSearchInput_Filters)
  ++ omitted "sort" v.(ResourceSearchInput_Sort)
  ++ omitted "page" v.(ResourceSearchInput_Page)
  ++ omitted "include" v.(ResourceSearchInput_Include).

#[global] Instance ResourceSearchInput_json : ToJson ResourceSearchInput :=
  fun v => JObject (ResourceSearchInput_members v).

Record ResourceSearchParent : Type := mkResourceSearchParent {
  ResourceSearchParent_Resource : string;
  ResourceSearchParent_ResourceType : string;
  ResourceSearchParent_DisplayName : string
}.

#[global] Instance ResourceSearchParent_zero : Zero ResourceSearchParent :=
  mkResourceSearchParent "" "" "".

Record ResourceSearchResult : Type := mkResourceSearchResult {
  ResourceSearchResult_Parent : option ResourceSearchParent;
  ResourceSearchResult_References : gmap string string;
  ResourceSearchResult_Resource : string;
  ResourceSearchResult_ResourceType : string;
  ResourceSearchResult_DisplayName : string;
  ResourceSearchResult_Status : string;
  ResourceSearchResult_CollaboratorMatches : list ResourceCollaborator
}.

#[global] Instance ResourceSearchResult_zero : Zero ResourceSearchResult :=
  mkResourceSearchResult None ∅ "" "" "" "" [].

Record ResourceSearchList : Type := mkResourceSearchList {
  ResourceSearchList_NextCursor : option string;
  ResourceSearchList_Resources : option (list ResourceSearchResult)
}.

#[global] Instance ResourceSearchList_zero : Zero ResourceSearchList :=
  mkResourceSearchList None None.

(** * resource_policies.go *)

Record OrganizationE2EEPolicyInput : Type := mkOrganizationE2EEPolicyInput {
  OrganizationE2EEPolicyInput_RequiredAccountCustody : string;
  OrganizationE2EEPolicyInput_ResourceKeyExecutor : string;
  OrganizationE2EEPolicyInput_AutomationExecutor : string;
  OrganizationE2EEPolicyInput_FunctionBindingID : string;
  OrganizationE2EEPolicyInput_ResourceKeyPolicy : string
}.

#[global] Instance OrganizationE2EEPolicyInput_zero : Zero OrganizationE2EEPolicyInput :=
  mkOrganizationE2EEPolicyInput "" "" "" "" "".

Definition OrganizationE2EEPolicyInput_members (v : OrganizationE2EEPolicyInput) : document :=
  member "required_account_custody" v.(OrganizationE2EEPolicyInput_RequiredAccountCustody)
  ++ member "resource_key_executor" v.(OrganizationE2EEPolicyInput_ResourceKeyExecutor)
  ++ member "automation_executor" v.(OrganizationE2EEPolicyInput_AutomationExecutor)
  ++ omitted "function_binding_id" v.(OrganizationE2EEPolicyInput_FunctionBindingID)
  ++ member "resource_key_policy" v.(OrganizationE2EEPolicyInput_ResourceKeyPolicy).

#[global] Instance OrganizationE2EEPolicyInput_json : ToJson OrganizationE2EEPolicyInput :=
  fun v => JObject (OrganizationE2EEPolicyInput_members v).

Record OrganizationE2EEPolicy : Type := mkOrganizationE2EEPolicy {
  OrganizationE2EEPolicy_Organization : string;
  OrganizationE2EEPolicy_OrganizationE2EEPolicyInput : OrganizationE2EEPolicyInput;
  OrganizationE2EEPolicy_Status : string;
  OrganizationE2EEPolicy_Revision : Z
}.

#[global] Instance OrganizationE2EEPolicy_zero : Zero OrganizationE2EEPolicy :=
  mkOrganizationE2EEPolicy "" zero "" 0.

Record ResourceGuestPolicyOverride : Type := mkResourceGuestPolicyOverride {
  ResourceGuestPolicyOverride_Allowed : option bool;
  ResourceGuestPolicyOverride_AllowedDomains : option (list string)
}.

#[global] Instance ResourceGuestPolicyOverride_zero : Zero ResourceGuestPolicyOverride :=
  mkResourceGuestPolicyOverride None None.

Definition ResourceGuestPolicyOverride_members (v : ResourceGuestPolicyOverride) : document :=
  omitted "allowed" v.(ResourceGuestPolicyOverride_Allowed)
  ++ omitted "allowed_domains" (default [] v.(ResourceGuestPolicyOverride_AllowedDomains)).

#[global] Instance ResourceGuestPolicyOverride_json : ToJson ResourceGuestPolicyOverride :=
  fun v => JObject (ResourceGuestPolicyOverride_members v).

Record ResourceCollaborationPolicyOverride : Type := mkResourceCollaborationPolicyOverride {
  ResourceCollaborationPolicyOverride_Guests : ResourceGuestPolicyOverride
}.

#[global] Instance ResourceCollaborationPolicyOverride_zero : Zero ResourceCollaborationPolicyOverride :=
  mkResourceCollaborationPolicyOverride zero.

Definition ResourceCollaborationPolicyOverride_members (v : ResourceCollaborationPolicyOverride) : document :=
  member "guests" v.(ResourceCollaborationPolicyOverride_Guests).

#[global] Instance ResourceCollaborationPolicyOverride_json : ToJson ResourceCollaborationPolicyOverride :=
  fun v => JObject (ResourceCollaborationPolicyOverride_members v).

Record ResourceCollaborationPolicyMutation : Type := mkResourceCollaborationPolicyMutation {
  ResourceCollaborationPolicyMutation_Resource : string;
  ResourceCollaborationPolicyMutation_Revision : Z
}.

#[global] Instance ResourceCollaborationPolicyMutation_zero : Zero ResourceCollaborationPolicyMutation :=
  mkResourceCollaborationPolicyMutation "" 0.

(** * scim.go *)

Record SCIMDirectory : Type := mkSCIMDirectory {
  SCIMDirectory_ID : string;
  SCIMDirectory_Resource : string;
  SCIMDirectory_Organization : string;
  SCIMDirectory_CredentialResource : string;
  SCIMDirectory_Status : string;
  SCIMDirectory_BaseURL : string;
  SCIMDirectory_Revision : Z
}.

#[global] Instance SCIMDirectory_zero : Zero SCIMDirectory :=
  mkSCIMDirectory "" "" "" "" "" "" 0.

Record SCIMDirectoryCreateInput : Type := mkSCIMDirectoryCreateInput {
  SCIMDirectoryCreateInput_DirectoryResource : string;
  SCIMDirectoryCreateInput_CredentialResource : string;
  SCIMDirectoryCreateInput_ExpectedResourceRevision : Z;
  SCIMDirectoryCreateInput_ExpectedLifecycleGeneration : Z
}.

#[global] Instance SCIMDirectoryCreateInput_zero : Zero SCIMDirectoryCreateInput :=
  mkSCIMDirectoryCreateInput "" "" 0 0.

Definition SCIMDirectoryCreateInput_members (v : SCIMDirectoryCreateInput) : document :=
  member "directory_resource" v.(SCIMDirectoryCreateInput_DirectoryResource)
  ++ member "credential_resource" v.(SCIMDirectoryCreateInput_CredentialResource)
  ++ member "expected_resource_revision" v.(SCIMDirectoryCreateInput_ExpectedResourceRevision)
  ++ member "expected_lifecycle_generation" v.(SCIMDirectoryCreateInput_ExpectedLifecycleGeneration).

#[global] Instance SCIMDirectoryCreateInput_json : ToJson SCIMDirectoryCreateInput :=
  fun v => JObject (SCIMDirectoryCreateInput_members v).

Record SCIMDirectoryUpdateInput : Type := mkSCIMDirectoryUpdateInput {
  SCIMDirectoryUpdateInput_Enabled : bool;
  SCIMDirectoryUpdateInput_ExpectedRevision : Z
}.

#[global] Instance SCIMDirectoryUpdateInput_zero : Zero SCIMDirectoryUpdateInput :=
  mkSCIMDirectoryUpdateInput false 0.

Definition SCIMDirectoryUpdateInput_members (v : SCIMDirectoryUpdateInput) : document :=
  member "enabled" v.(SCIMDirectoryUpdateInput_Enabled)
  ++ member "expected_revision" v.(SCIMDirectoryUpdateInput_ExpectedRevision).

#[global] Instance SCIMDirectoryUpdateInput_json : ToJson SCIMDirectoryUpdateInput :=
  fun v => JObject (SCIMDirectoryUpdateInput_members v).

Record SCIMDirectoryList : Type := mkSCIMDirectoryList {
  SCIMDirectoryList_NextCursor : option string;
  SCIMDirectoryList_Directories : option (list SCIMDirectory)
}.

#[global] Instance SCIMDirectoryList_zero : Zero SCIMDirectoryList :=
  mkSCIMDirectoryList None None.

(** * organization_relay.go *)

Record OrganizationFunctionBindingBootstrap : Type := mkOrganizationFunctionBindingBootstrap {
  OrganizationFunctionBindingBootstrap_BindingID : string;
  OrganizationFunctionBindingBootstrap_Status : string;
  OrganizationFunctionBindingBootstrap_BootstrapToken : string
}.

#[global] Instance OrganizationFunctionBindingBootstrap_zero : Zero OrganizationFunctionBindingBootstrap :=
  mkOrganizationFunctionBindingBootstrap "" "" "".

Record OrganizationFunctionBindingChallengeStatus : Type := mkOrganizationFunctionBindingChallengeStatus {
  OrganizationFunctionBindingChallengeStatus_Status : string;
  OrganizationFunctionBindingChallengeStatus_ExpiresAt : Z;
  OrganizationFunctionBindingChallengeStatus_ChallengedAt : Z
}.

#[global] Instance OrganizationFunctionBindingChallengeStatus_zero : Zero OrganizationFunctionBindingChallengeStatus :=
  mkOrganizationFunctionBindingChallengeStatus "" 0 0.

Record OrganizationFunctionBindingStatus : Type := mkOrganizationFunctionBindingStatus {
  OrganizationFunctionBindingStatus_BindingID : string;
  OrganizationFunctionBindingStatus_Status : string;
  OrganizationFunctionBindingStatus_BoxSubject : string;
  OrganizationFunctionBindingStatus_SigningKeyID : string;
  OrganizationFunctionBindingStatus_Challenge : OrganizationFunctionBindingChallengeStatus;
  OrganizationFunctionBindingStatus_BootstrapExpiresAt : Z;
  OrganizationFunctionBindingStatus_LastSeenAt : Z
}.

#[global] Instance OrganizationFunctionBindingStatus_zero : Zero OrganizationFunctionBindingStatus :=
  mkOrganizationFunctionBindingStatus "" "" "" "" zero 0 0.

(** * resource_events.go *)

Record ResourceEventStreamInput : Type := mkResourceEventStreamInput {
  ResourceEventStreamInput_AttributeKeys : option (list string);
  ResourceEventStreamInput_RetentionDays : Z;
  ResourceEventStreamInput_AllowCredentialAppend : bool
}.

#[global] Instance ResourceEventStreamInput_zero : Zero ResourceEventStreamInput :=
  mkResourceEventStreamInput None 0 false.

Definition ResourceEventStreamInput_members (v : ResourceEventStreamInput) : document :=
  member "attribute_keys" v.(ResourceEventStreamInput_AttributeKeys)
  ++ member "retention_days" v.(ResourceEventStreamInput_RetentionDays)
  ++ member "allow_credential_append" v.(ResourceEventStreamInput_AllowCredentialAppend).

#[global] Instance ResourceEventStreamInput_json : ToJson ResourceEventStreamInput :=
  fun v => JObject (ResourceEventStreamInput_members v).

Record ResourceEvent : Type := mkResourceEvent {
  ResourceEvent_ID : string;
  ResourceEvent_OccurredAt : Z;
  ResourceEvent_Attributes : option (gmap string string);
  ResourceEvent_Representation : string;
  ResourceEvent_Body : option (list byte)
}.

#[global] Instance ResourceEvent_zero : Zero ResourceEvent :=
  mkResourceEvent "" 0 None "" None.

Definition ResourceEvent_members (v : ResourceEvent) : document :=
  member "id" v.(ResourceEvent_ID)
  ++ [("occurred_at", JTime v.(ResourceEvent_OccurredAt))]
  ++ member "attributes" v.(ResourceEvent_Attributes)
  ++ member "representation" v.(ResourceEvent_Representation)
  ++ [("body", match v.(ResourceEvent_Body) with Some b => JBytes b | None => JNull end)].

#[global] Instance ResourceEvent_json : ToJson ResourceEvent :=
  fun v => JObject (ResourceEvent_members v).

Record ResourceEventMetadata : Type := mkResourceEventMetadata {
  ResourceEventMetadata_ProducerSubject : string;
  ResourceEventMetadata_RecordedAt : Z;
  ResourceEventMetadata_ID : string;
  ResourceEventMetadata_OccurredAt : Z;
  ResourceEventMetadata_Attributes : option (gmap string string);
  ResourceEventMetadata_Representation : string
}.

#[global] Instance ResourceEventMetadata_zero : Zero ResourceEventMetadata :=
  mkResourceEventMetadata "" 0 "" 0 None "".

Record ResourceEventDetail : Type := mkResourceEventDetail {
  ResourceEventDetail_RecordedAt : Z;
  ResourceEventDetail_ProducerSubject : string;
  ResourceEventDetail_ResourceEvent : ResourceEvent
}.

#[global] Instance ResourceEventDetail_zero : Zero ResourceEventDetail :=
  mkResourceEventDetail 0 "" zero.

Record ResourceEventQueryInput : Type := mkResourceEventQueryInput {
  ResourceEventQueryInput_Filters : option (gmap string (list string));
  ResourceEventQueryInput_From : Z;
  ResourceEventQueryInput_To : Z;
  ResourceEventQueryInput_ParentQueryID : string
}.

#[global] Instance ResourceEventQueryInput_zero : Zero ResourceEventQueryInput :=
  mkResourceEventQueryInput None 0 0 "".

Definition ResourceEventQueryInput_members (v : ResourceEventQueryInput) : document :=
  member "filters" v.(ResourceEventQueryInput_Filters)
  ++ [("from", JTime v.(ResourceEventQueryInput_From))]
  ++ [("to", JTime v.(ResourceEventQueryInput_To))]
  ++ omitted "parent_query_id" v.(ResourceEventQueryInput_ParentQueryID).

#[global] Instance ResourceEventQueryInput_json : ToJson ResourceEventQueryInput :=
  fun v => JObject (ResourceEventQueryInput_members v).

Record ResourceEventQuery : Type := mkResourceEventQuery {
  ResourceEventQuery_From : Z;
  ResourceEventQuery_To : Z;
  ResourceEventQuery_ExpiresAt : Z;
  ResourceEventQuery_ID : string
}.

#[global] Instance ResourceEventQuery_zero : Zero ResourceEventQuery :=
  mkResourceEventQuery 0 0 0 "".

Record ResourceEventPage : Type := mkResourceEventPage {
  ResourceEventPage_NextCursor : option string;
  ResourceEventPage_Items : option (list ResourceEventMetadata)
}.

#[global] Instance ResourceEventPage_zero : Zero ResourceEventPage :=
  mkResourceEventPage None None.

Record ResourceEventBucket : Type := mkResourceEventBucket {
  ResourceEventBucket_Start : Z;
  ResourceEventBucket_End : Z;
  ResourceEventBucket_Counts : option (gmap string Z)
}.

#[global] Instance ResourceEventBucket_zero : Zero ResourceEventBucket :=
  mkResourceEventBucket 0 0 None.

(** * function_bindings.go *)

Record FunctionBindingRegistration : Type := mkFunctionBindingRegistration {
  FunctionBindingRegistration_EndpointURL : string;
  FunctionBindingRegistration_SigningKeyID : string;
  FunctionBindingRegistration_SigningPublicKey : string;
  FunctionBindingRegistration_EncryptionPublicKey : string;
  FunctionBindingRegistration_AuthenticationMode : string;
  FunctionBindingRegistration_Manifest : Manifest
}.

#[global] Instance FunctionBindingRegistration_zero : Zero FunctionBindingRegistration :=
  mkFunctionBindingRegistration "" "" "" "" "" zero.

Definition FunctionBindingRegistration_members (v : FunctionBindingRegistration) : document :=
  member "endpoint_url" v.(FunctionBindingRegistration_EndpointURL)
  ++ member "signing_key_id" v.(FunctionBindingRegistration_SigningKeyID)
  ++ member "signing_public_key" v.(FunctionBindingRegistration_SigningPublicKey)
  ++ omitted "encryption_public_key" v.(FunctionBindingRegistration_EncryptionPublicKey)
  ++ member "authentication_mode" v.(FunctionBindingRegistration_AuthenticationMode)
  ++ member "manifest" v.(FunctionBindingRegistration_Manifest).

#[global] Instance FunctionBindingRegistration_json : ToJson FunctionBindingRegistration :=
  fun v => JObject (FunctionBindingRegistration_members v).

Record FunctionBindingChallenge : Type := mkFunctionBindingChallenge {
  FunctionBindingChallenge_ID : string;
  FunctionBindingChallenge_Status : string;
  FunctionBindingChallenge_ExpiresAt : Z
}.

#[global] Instance FunctionBindingChallenge_zero : Zero FunctionBindingChallenge :=
  mkFunctionBindingChallenge "" "" 0.

Record FunctionBinding : Type := mkFunctionBinding {
  FunctionBinding_Challenge : option FunctionBindingChallenge;
  FunctionBinding_VerifiedAt : option Z;
  FunctionBinding_Scope : Scope;
  FunctionBinding_SigningPublicKey : string;
  FunctionBinding_Audience : string;
  FunctionBinding_Status : string;
  FunctionBinding_SigningKeyID : string;
  FunctionBinding_ID : string;
  FunctionBinding_EncryptionPublicKey : string;
  FunctionBinding_AuthenticationMode : string;
  FunctionBinding_ManifestDigest : string;
  FunctionBinding_EndpointURL : string;
  FunctionBinding_Resource : string;
  FunctionBinding_Manifest : Manifest;
  FunctionBinding_Revision : Z;
  FunctionBinding_CreatedAt : Z
}.

#[global] Instance FunctionBinding_zero : Zero FunctionBinding :=
  mkFunctionBinding None None zero "" "" "" "" "" "" "" "" "" "" zero 0 0.

Record FunctionBindingList : Type := mkFunctionBindingList {
  FunctionBindingList_NextCursor : option string;
  FunctionBindingList_Bindings : option (list FunctionBinding)
}.

#[global] Instance FunctionBindingList_zero : Zero FunctionBindingList :=
  mkFunctionBindingList None None.

Record FunctionInvocationInput : Type := mkFunctionInvocationInput {
  FunctionInvocationInput_Function : Function;
  FunctionInvocationInput_InputDigest : string;
  FunctionInvocationInput_PolicyDigest : string;
  FunctionInvocationInput_Resources : option (list string);
  FunctionInvocationInput_Capabilities : option (list string);
  FunctionInvocationInput_Input : list byte;
  FunctionInvocationInput_ExpectedBindingRevision : Z
}.

#[global] Instance FunctionInvocationInput_zero : Zero FunctionInvocationInput :=
  mkFunctionInvocationInput zero "" "" None None [] 0.

Definition FunctionInvocationInput_members (v : FunctionInvocationInput) : document :=
  member "function" v.(FunctionInvocationInput_Function)
  ++ member "input_digest" v.(FunctionInvocationInput_InputDigest)
  ++ omitted "policy_digest" v.(FunctionInvocationInput_PolicyDigest)
  ++ member "resources" v.(FunctionInvocationInput_Resources)
  ++ member "capabilities" v.(FunctionInvocationInput_Capabilities)
  ++ [("input", JRaw v.(FunctionInvocationInput_Input))]
  ++ member "expected_binding_revision" v.(FunctionInvocationInput_ExpectedBindingRevision).

#[global] Instance FunctionInvocationInput_json : ToJson FunctionInvocationInput :=
  fun v => JObject (FunctionInvocationInput_members v).

Record FunctionInvocationAuthorization : Type := mkFunctionInvocationAuthorization {
  FunctionInvocationAuthorization_EndpointURL : string;
  FunctionInvocationAuthorization_AuthenticationMode : string;
  FunctionInvocationAuthorization_SigningKeyID : string;
  FunctionInvocationAuthorization_SigningPublicKey : string;
  FunctionInvocationAuthorization_Authorization : SignedMessage;
  FunctionInvocationAuthorization_ExpiresAt : Z
}.

#[global] Instance FunctionInvocationAuthorization_zero : Zero FunctionInvocationAuthorization :=
  mkFunctionInvocationAuthorization "" "" "" "" zero 0.

(** * The document of a registration *)

(** [ResourceRegistration.MarshalJSON]: an omitted map of references is told from an empty
    one. The source builds a map, whose keys are written in order. *)
Definition registrationFields (r : ResourceRegistration) : gmap string json :=
  let wire := {[ "resource_type" := JString r.(ResourceRegistration_ResourceType) ]} in
  let set (name value : string) (m : gmap string json) :=
    if (value =? "")%string then m else <[name := JString value]> m in
  let wire := set "display_name" r.(ResourceRegistration_DisplayName) wire in
  let wire := set "parent" r.(ResourceRegistration_Parent) wire in
  let wire := set "key_scope" r.(ResourceRegistration_KeyScope) wire in
  match r.(ResourceRegistration_References) with
  | Some references => <["references" := toJson references]> wire
  | None => wire
  end.

#[global] Instance ResourceRegistration_json : ToJson ResourceRegistration :=
  fun r => JObject (sortedMembers (registrationFields r)).
