(* ===== verification/Api.v ===== *)
(** Clients of the Lotor API: what [lotorhttp/control_client.go], [resource_client.go] and
    the files that add methods to their clients share.

    A call of a client is a program over its effects: HTTP exchanges, pauses, looks at its
    context, random bytes. [runs] says which traces of effects a program can have in any
    environment, and [exec] computes the trace in a given one. By the convention of Go a value
    that is returned together with an error is dropped. *)
From S2P Require Import Prelude GoStd Interfaces Protocol Ownership ApiTypes.
From S2P Require Export BrowserRoutes.

#[local] Open Scope bool_scope.

(** * net/http *)

(** A client: whether it has a cookie jar, and whether it follows redirects. *)
Record http_Client : Type := mkHttpClient {
  Client_Jar : bool;
  Client_FollowsRedirects : bool
}.

Definition DefaultClient : http_Client := mkHttpClient false true.

(** [http.Header]: the values of every canonical name. *)
Abbreviation Header := (gmap string (list string)).

Definition Header_Get (h : Header) (name : string) : string :=
  match h !! name with Some (value :: _) => value | _ => "" end.
Definition Header_Set (name value : string) (h : Header) : Header := <[name := [value]]> h.
(** [Add] of all values of another header. *)
Definition Header_AddAll (h extra : Header) : Header :=
  union_with (fun a b => Some (a ++ b)) h extra.

(** [strings.ToLower], as far as the result is compared with ASCII text: the Kelvin sign and
    the dotted capital I are the two other letters whose lower case is ASCII. *)
Definition lowerRune (r : Z) : Z :=
  if (65 <=? r) && (r <=? 90) then r + 32
  else if r =? 8490 then 107 else if r =? 304 then 105 else r.
Definition lowerRunes (s : string) : list Z := lowerRune <$> runes s.

Record HttpRequest : Type := mkHttpRequest {
  Http_Method : string;
  Http_URL : string;
  Http_Header : Header;
  Http_Body : option (list byte)
}.

(** A response: the bytes that its body yields, and whether reading fails after them. *)
Record HttpResponse : Type := mkHttpResponse {
  Response_Status : Z;
  Response_Header : Header;
  Response_Body : list byte;
  Response_Broken : bool
}.

(** [io.ReadAll] of an [io.LimitReader]. *)
Definition readLimited (r : HttpResponse) (limit : Z) : option (list byte) :=
  if limit <=? len r.(Response_Body) then Some (take (Z.to_nat limit) r.(Response_Body))
  else if r.(Response_Broken) then None else Some r.(Response_Body).

(** * Programs over effects *)
Inductive api_error : Type :=
| ErrorString (message : string)
| ControlError (status : Z) (code message : string)
| BridgeError (e : bridge_error)
| ErrMarshal
| ErrNewRequest
| ErrTransport
| ErrRead
| ErrContext
| ErrRandom.

Inductive io (A : Type) : Type :=
| Done (r : outcome api_error A)
| Do (client : http_Client) (request : HttpRequest) (k : option HttpResponse → io A)
| Pause (interval : Z) (k : bool → io A)
| ContextErr (k : bool → io A)
| Random (size : Z) (k : option (list byte) → io A).
Arguments Done {A} r.
Arguments Do {A} client request k.
Arguments Pause {A} interval k.
Arguments ContextErr {A} k.
Arguments Random {A} size k.

(** The outcomes that are no values, at another type. *)
Definition failure {A B} (r : outcome api_error A) : option (outcome api_error B) :=
  match r with
  | Ret _ => None
  | Throw e => Some (Throw e)
  | Panic => Some Panic
  | Diverge => Some Diverge
  end.

#[global] Instance io_ret : MRet io := fun A a => Done (Ret a).
#[global] Instance io_bind : MBind io := fun A B f =>
  fix bind (m : io A) : io B :=
    match m with
    | Done (Ret a) => f a
    | Done (Throw e) => Done (Throw e)
    | Done Panic => Done Panic
    | Done Diverge => Done Diverge
    | Do client request k => Do client request (fun x => bind (k x))
    | Pause interval k => Pause interval (fun x => bind (k x))
    | ContextErr k => ContextErr (fun x => bind (k x))
    | Random size k => Random size (fun x => bind (k x))
    end.

Definition throw {A} (e : api_error) : io A := Done (Throw e).
Definition lift {A} (r : outcome api_error A) : io A := Done r.
(** [if err := check; err != nil { return err }]. *)
Definition guard (ok : bool) (e : api_error) : io unit := if ok then mret tt else throw e.

(** The effects of a run with what the environment answered. *)
Inductive event : Type :=
| Sent (client : http_Client) (request : HttpRequest) (answer : option HttpResponse)
| Paused (interval : Z) (cancelled : bool)
| Polled (cancelled : bool)
| Drawn (size : Z) (random : option (list byte)).

Fixpoint runs {A} (m : io A) (trace : list event) (r : outcome api_error A) : Prop :=
  match m with
  | Done x => trace = [] ∧ r = x
  | Do client request k => ∃ x rest, trace = Sent client request x :: rest ∧ runs (k x) rest r
  | Pause interval k => ∃ x rest, trace = Paused interval x :: rest ∧ runs (k x) rest r
  | ContextErr k => ∃ x rest, trace = Polled x :: rest ∧ runs (k x) rest r
  | Random size k => ∃ x rest, trace = Drawn size x :: rest ∧ runs (k x) rest r
  end.

(** An environment answers every effect from the events before it. *)
Record environment : Type := mkEnvironment {
  Env_http : list event → http_Client → HttpRequest → option HttpResponse;
  Env_cancelled : list event → bool;
  Env_random : list event → Z → option (list byte)
}.

Fixpoint exec {A} (w : environment) (past : list event) (m : io A)
    : list event * outcome api_error A :=
  let next (e : event) (m : list event * outcome api_error A) := (e :: m.1, m.2) in
  match m with
  | Done r => ([], r)
  | Do client request k =>
      let x := w.(Env_http) past client request in
      next (Sent client request x) (exec w (past ++ [Sent client request x]) (k x))
  | Pause interval k =>
      let x := w.(Env_cancelled) past in
      next (Paused interval x) (exec w (past ++ [Paused interval x]) (k x))
  | ContextErr k =>
      let x := w.(Env_cancelled) past in
      next (Polled x) (exec w (past ++ [Polled x]) (k x))
  | Random size k =>
      let x := w.(Env_random) past size in
      next (Drawn size x) (exec w (past ++ [Drawn size x]) (k x))
  end.

(** The requests of a trace. *)
Definition requests (trace : list event) : list (http_Client * HttpRequest) :=
  omap (fun e => match e with Sent client request _ => Some (client, request) | _ => None end) trace.

(** * Lemmas on programs *)
Lemma exec_runs {A} w past (m : io A) : runs m (exec w past m).1 (exec w past m).2.
Proof.
  revert past. induction m as [r|c q k IH|i k IH|k IH|n k IH]; intros past; simpl;
    [done|eexists _, _; split; [done|]; apply IH..].
Qed.

#[local] Ltac bind_effect event IH :=
  split;
  [ intros (x & rest & -> & [(t1 & t2 & a & -> & H1 & H2)|(y & H1 & H2)]%IH);
    [left; exists (event x :: t1), t2, a; eauto 10|right; eauto 10]
  | intros [(t1 & t2 & a & -> & (x & rest & -> & H1) & H2)|(y & (x & rest & -> & H1) & H2)];
    eexists x, _; (split; [done|]); apply IH; eauto 10 ].

(** A run of a sequence is a run of its parts, or one of the first part that fails. *)
Lemma runs_bind {A B} (m : io A) (f : A → io B) trace r :
  runs (m ≫= f) trace r ↔
  (∃ t1 t2 a, trace = t1 ++ t2 ∧ runs m t1 (Ret a) ∧ runs (f a) t2 r)
  ∨ (∃ x, runs m trace x ∧ failure x = Some r).
Proof.
  revert trace. unfold mbind. induction m as [x|c q k IH|i k IH|k IH|n k IH]; intros trace; simpl.
  - split.
    + intros H. destruct x as [a|e| |]; [left; by exists [], trace, a|..];
        destruct H as [-> ->]; right; by eexists.
    + intros [(t1 & t2 & a & -> & [-> <-] & H)|(y & [-> ->] & Hf)]; [done|].
      by destruct x; simplify_eq/=.
  - bind_effect (Sent c q) IH.
  - bind_effect (Paused i) IH.
  - bind_effect Polled IH.
  - bind_effect (Drawn n) IH.
Qed.

Lemma runs_bind_Ret {A B} (m : io A) (f : A → io B) trace b :
  runs (m ≫= f) trace (Ret b) →
  ∃ t1 t2 a, trace = t1 ++ t2 ∧ runs m t1 (Ret a) ∧ runs (f a) t2 (Ret b).
Proof. intros [?|(x & _ & Hf)]%runs_bind; [done|]. by destruct x. Qed.

Lemma exec_bind {A B} w past (m : io A) (f : A → io B) :
  exec w past (m ≫= f) =
  let first := exec w past m in
  match first.2 with
  | Ret a => let second := exec w (past ++ first.1) (f a) in (first.1 ++ second.1, second.2)
  | Throw e => (first.1, Throw e)
  | Panic => (first.1, Panic)
  | Diverge => (first.1, Diverge)
  end.
Proof.
  unfold mbind. revert past. induction m as [r|cl q k IH|i k IH|k IH|n k IH]; intros past; simpl.
  { destruct r; simpl; [|done..]. rewrite app_nil_r. by destruct (exec w past (f a)). }
  all: rewrite IH; cbv zeta; destruct (exec w _ (k _)) as [t [a| | |]]; simpl;
    rewrite <- ?app_assoc; done.
Qed.

Lemma requests_app t1 t2 : requests (t1 ++ t2) = requests t1 ++ requests t2.
Proof. apply omap_app. Qed.

(** Hoare triples over runs: every effect of every run satisfies [P], every value [Q]. *)
Definition triple {A} (P : event → Prop) (m : io A) (Q : A → Prop) : Prop :=
  ∀ trace r, runs m trace r → Forall P trace ∧ ∀ a, r = Ret a → Q a.

Lemma triple_ret {A} P (a : A) (Q : A → Prop) : Q a → triple P (mret a) Q.
Proof. intros H trace r [-> ->]. split; [done|]. by intros ? [= <-]. Qed.

Lemma triple_throw {A} P e (Q : A → Prop) : triple P (throw e) Q.
Proof. intros trace r [-> ->]. split; [done|]. intros ? [=]. Qed.

Lemma triple_lift {A} P (r : outcome api_error A) (Q : A → Prop) :
  (∀ a, r = Ret a → Q a) → triple P (lift r) Q.
Proof. intros H trace x [-> ->]. split; [done|]. intros a Ha. by apply H. Qed.

Lemma triple_bind {A B} P (m : io A) (f : A → io B) (R : A → Prop) (Q : B → Prop) :
  triple P m R → (∀ a, R a → triple P (f a) Q) → triple P (m ≫= f) Q.
Proof.
  intros Hm Hf trace r [(t1 & t2 & a & -> & H1 & H2)|(x & H1 & H2)]%runs_bind.
  - destruct (Hm _ _ H1) as [Ht Ha]. destruct (Hf a (Ha a eq_refl) _ _ H2) as [Ht2 Hr].
    split; [by apply Forall_app|done].
  - destruct (Hm _ _ H1) as [Ht _]. split; [done|]. intros b ->. by destruct x.
Qed.

Lemma triple_do {A} P client request (k : option HttpResponse → io A) (Q : A → Prop) :
  (∀ x, P (Sent client request x)) → (∀ x, triple P (k x) Q) → triple P (Do client request k) Q.
Proof.
  intros Hp Hk trace r (x & rest & -> & H). destruct (Hk _ _ _ H) as [Hf Hr]. split; [|done].
  by constructor.
Qed.

Lemma triple_weaken {A} (P P' : event → Prop) (m : io A) (Q Q' : A → Prop) :
  triple P m Q → (∀ e, P e → P' e) → (∀ a, Q a → Q' a) → triple P' m Q'.
Proof.
  intros H HP HQ trace r Hr. destruct (H _ _ Hr) as [Ht Ha]. split; [|eauto].
  eapply Forall_impl; eauto.
Qed.

(** * net/url: queries *)

(** [url.QueryEscape]. *)
Definition queryEscapeByte (b : byte) : list byte :=
  let z := byteZ b in
  if z =? 32 then [x2b]
  else if (97 <=? z) && (z <=? 122) || (65 <=? z) && (z <=? 90) || (48 <=? z) && (z <=? 57)
          || (z =? 45) || (z =? 95) || (z =? 46) || (z =? 126)
  then [b]
  else [x25; upperHexDigit (z / 16); upperHexDigit (z mod 16)].

Definition queryEscape (s : string) : list byte := bytes_of s ≫= queryEscapeByte.

(** [url.Values] and its methods; a value that is set has its key. *)
Abbreviation Values := (gmap string (list string)).
Definition Values_Set (name value : string) (q : Values) : Values := <[name := [value]]> q.
Definition Values_Add (name value : string) (q : Values) : Values :=
  <[name := default [] (q !! name) ++ [value]]> q.

(** The pairs of a query: its keys in order, the values of a key as they were added. *)
Definition queryPairs (q : Values) : list (string * string) :=
  sortedMembers q ≫= fun kv => (fun v => (kv.1, v)) <$> kv.2.

Definition encodePair (kv : string * string) : list byte :=
  queryEscape kv.1 ++ x3d :: queryEscape kv.2.

Fixpoint joinPairs (pairs : list (list byte)) : list byte :=
  match pairs with
  | [] => []
  | [p] => p
  | p :: pairs => p ++ x26 :: joinPairs pairs
  end.

Definition Encode (q : Values) : string := string_of (joinPairs (encodePair <$> queryPairs q)).

(** Reading a query as a server does: pairs between ampersands, escapes and plus signs undone. *)
Definition plusSpace (b : byte) : byte := if Byte.eqb b x2b then x20 else b.
Definition queryUnescape (b : list byte) : string := string_of (unescape (plusSpace <$> b)).

Definition readPair (b : list byte) : option (string * string) :=
  match splitAt x3d b with
  | [k; v] => Some (queryUnescape k, queryUnescape v)
  | _ => None
  end.

Definition readQuery (s : string) : option (list (string * string)) :=
  match bytes_of s with
  | [] => Some []
  | b => mapM readPair (splitAt x26 b)
  end.

Definition queryByteOk (b : byte) : bool :=
  negb (existsb (fun c => Byte.eqb c x26 || Byte.eqb c x3d) (queryEscapeByte b))
  && (match (plusSpace <$> queryEscapeByte b) with
      | [c] => Byte.eqb c b && negb (Byte.eqb b x25)
      | [c; h; l] =>
          Byte.eqb c x25 && Byte.eqb (to_byte (default 0 (unhex h) * 16 + default 0 (unhex l))) b
      | _ => false
      end).

Lemma queryByte_ok b : queryByteOk b = true.
Proof. revert b. apply byte_forall. by vm_compute. Qed.

Lemma queryUnescape_escape s : queryUnescape (queryEscape s) = s.
Proof.
  unfold queryUnescape, queryEscape. rewrite <- (string_of_bytes_of s) at 2. f_equal.
  generalize (bytes_of s) as l. intros l. induction l as [|b l IH]; [done|]. csimpl.
  rewrite fmap_app. pose proof (queryByte_ok b) as Hok. unfold queryByteOk in Hok.
  apply andb_true_iff in Hok as [_ Hok].
  destruct (plusSpace <$> queryEscapeByte b) as [|c [|h [|d [|]]]]; try done.
  - apply andb_true_iff in Hok as [Hc Hb]. apply Byte.byte_dec_bl in Hc as ->. simpl. rewrite IH.
    by destruct b.
  - apply andb_true_iff in Hok as [Hc Hb]. apply Byte.byte_dec_bl in Hc as ->.
    apply Byte.byte_dec_bl in Hb. simpl. by rewrite Hb, IH.
Qed.

Lemma queryEscape_clean s : (x26 ∉ queryEscape s) ∧ (x3d ∉ queryEscape s).
Proof.
  unfold queryEscape. split; intros (b & Hb & _)%list_elem_of_bind;
    pose proof (queryByte_ok b) as Hok; unfold queryByteOk in Hok;
    apply andb_true_iff in Hok as [Hok _]; rewrite negb_existsb, forallb_forall in Hok;
    apply list_elem_of_In, Hok in Hb; done.
Qed.

Lemma splitAt_none sep b : sep ∉ b → splitAt sep b = [b].
Proof.
  induction b as [|c b IH]; [done|]. intros [Hc Hb]%not_elem_of_cons. simpl.
  destruct (Byte.eqb c sep) eqn:He; [by apply Byte.byte_dec_bl in He|]. by rewrite IH.
Qed.

Lemma splitAt_app sep a b : sep ∉ a → splitAt sep (a ++ sep :: b) = a :: splitAt sep b.
Proof.
  induction a as [|c a IH]; simpl.
  - intros _. by rewrite (Byte.byte_dec_lb eq_refl).
  - intros [Hc Ha]%not_elem_of_cons. destruct (Byte.eqb c sep) eqn:He.
    + by apply Byte.byte_dec_bl in He.
    + by rewrite IH.
Qed.

Lemma encodePair_spec kv :
  (x26 ∉ encodePair kv) ∧ encodePair kv ≠ [] ∧ readPair (encodePair kv) = Some kv.
Proof.
  destruct kv as [k v]. unfold encodePair, readPair. simpl.
  destruct (queryEscape_clean k) as [Hka Hke], (queryEscape_clean v) as [Hva Hve]. split_and!.
  - rewrite elem_of_app, elem_of_cons. naive_solver.
  - by destruct (queryEscape k).
  - rewrite splitAt_app, splitAt_none by done. by rewrite !queryUnescape_escape.
Qed.

(** A query is read back as it was built: whatever characters a value has, it cannot add,
    change or hide another parameter. *)
Theorem query_roundtrip q : readQuery (Encode q) = Some (queryPairs q).
Proof.
  unfold readQuery, Encode. rewrite bytes_of_string_of. generalize (queryPairs q) as l.
  intros [|kv l]; [done|].
  assert (H : mapM readPair (splitAt x26 (joinPairs (encodePair <$> kv :: l))) = Some (kv :: l)
              ∧ joinPairs (encodePair <$> kv :: l) ≠ []).
  { revert kv. induction l as [|kv' l IH]; intros kv; destruct (encodePair_spec kv) as (Ha & Hne & Hr).
    - csimpl. rewrite splitAt_none by done. csimpl. by rewrite Hr.
    - rewrite fmap_cons. change (joinPairs (encodePair kv :: (encodePair <$> kv' :: l))) with
        (encodePair kv ++ x26 :: joinPairs (encodePair <$> kv' :: l)).
      rewrite splitAt_app by done. destruct (IH kv') as [Hl _]. cbn [mapM]. rewrite Hr, Hl.
      split; [done|]. by destruct (encodePair kv). }
  destruct H as [Hm Hne]. by destruct (joinPairs _).
Qed.

(** * net/url: paths *)

(** A path of escaped segments, and the segments that a server reads. *)
Definition pathOf (segments : list string) : string :=
  string_of (segments ≫= fun s => x2f :: bytes_of (PathEscape s)).
Definition readPath (path : string) : list string :=
  (fun part => string_of (unescape part)) <$> splitAt x2f (bytes_of path).

Lemma readPath_pathOf segments : readPath (pathOf segments) = "" :: segments.
Proof.
  unfold readPath, pathOf. rewrite bytes_of_string_of.
  assert (Hs : ∀ a, (x2f ∉ a) → (λ part, string_of (unescape part)) <$>
      splitAt x2f (a ++ (segments ≫= λ s, x2f :: bytes_of (PathEscape s)))
    = string_of (unescape a) :: segments); [|by apply (Hs []), not_elem_of_nil].
  induction segments as [|s l IH]; intros a Ha; csimpl.
  - by rewrite app_nil_r, splitAt_none.
  - rewrite splitAt_app by done. csimpl. f_equal. rewrite IH by apply PathEscape_no_slash.
    by rewrite unescape_PathEscape.
Qed.
