(* ===== verification/ControlClient.v ===== *)
(** The control client: [lotorhttp/control_client.go].

    [NewControlClient], [ForUser] and the requests that every method makes, then its methods
    on resources, operations, credentials, payloads and catalogs. Rendering and parsing of
    JSON, the parsing of URLs and the construction of requests are parameters. *)
From S2P Require Import Prelude GoStd Interfaces Protocol Ownership Control Development ApiTypes Api.

#[local] Open Scope bool_scope.

(** * Data *)
Record ControlClient : Type := mkControlClient {
  Control_httpClient : http_Client;
  Control_baseURL : string;
  Control_clientID : string;
  Control_secretKey : string;
  Control_userToken : string
}.

Record ControlClientOptions : Type := mkControlClientOptions {
  ControlOptions_HTTPClient : option http_Client;
  ControlOptions_BaseURL : string;
  ControlOptions_ClientID : string;
  ControlOptions_SecretKey : string
}.

(** Rendering a document: [json.Marshal]. *)
Class JsonText : Type := { Render : json → option (list byte) }.

(** The codes that [json.Unmarshal] leaves in a problem, also where it fails. *)
Class Problems : Type := { problemOf : list byte → string * string }.

(** The list of credentials in a response. *)
Record CredentialItems : Type := mkCredentialItems {
  CredentialItems_Items : option (list ResourceCredentialMetadata)
}.
#[global] Instance CredentialItems_zero : Zero CredentialItems := mkCredentialItems None.
#[global] Instance Session_zero : Zero Session := mkSession "" "" "" 0.

(** Where a response is read into: nil, a value that starts as zero, or a raw message. *)
Record target (A : Type) : Type := mkTarget {
  target_zero : A;
  target_read : list byte → option A
}.
Arguments mkTarget {A}.
Arguments target_zero {A}.
Arguments target_read {A}.

Definition nowhere : target unit := mkTarget tt (fun _ => Some tt).
Definition into {A} `{!Zero A} `{!JsonUnmarshal A} : target A := mkTarget zero Unmarshal.

Definition trimJSON (raw : list byte) : list byte :=
  rev (dropWhile isSpace (rev (dropWhile isSpace raw))).
Definition intoRaw `{!RawJson} : target (list byte) :=
  mkTarget [] (fun raw => if Valid raw then Some (trimJSON raw) else None).

(** [url.Parse] and [url.ParseRequestURI], [net.ParseIP] followed by [IsLoopback], and whether
    [http.NewRequest] accepts a method and a URL. *)
Class Urls : Type := {
  Parse : string → option URL;
  ParseRequestURI : string → option URL;
  loopbackIP : string → bool;
  newRequest : string → string → bool;
}.

(** [json.Unmarshal] at the types of the responses. *)
Class Decoders : Type := {
  #[global] decode_Resource :: JsonUnmarshal Resource;
  #[global] decode_DurableOperation :: JsonUnmarshal DurableOperation;
  #[global] decode_ResourceTypeDefinition :: JsonUnmarshal ResourceTypeDefinition;
  #[global] decode_Catalog :: JsonUnmarshal Catalog;
  #[global] decode_CatalogList :: JsonUnmarshal CatalogList;
  #[global] decode_CatalogSnapshotList :: JsonUnmarshal CatalogSnapshotList;
  #[global] decode_CatalogEntryList :: JsonUnmarshal CatalogEntryList;
  #[global] decode_CatalogEntry :: JsonUnmarshal CatalogEntry;
  #[global] decode_IssuedResourceCredential :: JsonUnmarshal IssuedResourceCredential;
  #[global] decode_ResourceCredentialMetadata :: JsonUnmarshal ResourceCredentialMetadata;
  #[global] decode_CredentialItems :: JsonUnmarshal CredentialItems;
  #[global] decode_ResourcePayloadUploadIntent :: JsonUnmarshal ResourcePayloadUploadIntent;
  #[global] decode_ResourcePayloadManifest :: JsonUnmarshal ResourcePayloadManifest;
  #[global] decode_ResourcePayloadRewrapResult :: JsonUnmarshal ResourcePayloadRewrapResult;
  #[global] decode_ResourcePayloadMutation :: JsonUnmarshal ResourcePayloadMutation;
  #[global] decode_ResourcePayloadAccessLease :: JsonUnmarshal ResourcePayloadAccessLease;
  #[global] decode_PublishedCatalogEntryList :: JsonUnmarshal PublishedCatalogEntryList;
  #[global] decode_CatalogSnapshotDocument :: JsonUnmarshal CatalogSnapshotDocument;
  #[global] decode_AccountResourceList :: JsonUnmarshal AccountResourceList;
  #[global] decode_AccountInvitationList :: JsonUnmarshal AccountInvitationList;
  #[global] decode_AccountInvitationMutation :: JsonUnmarshal AccountInvitationMutation;
  #[global] decode_PortalSession :: JsonUnmarshal PortalSession;
  #[global] decode_DevelopmentConnection :: JsonUnmarshal DevelopmentConnection;
  #[global] decode_DevelopmentConnectionList :: JsonUnmarshal DevelopmentConnectionList;
  #[global] decode_Session :: JsonUnmarshal Session;
  #[global] decode_FunctionBinding :: JsonUnmarshal FunctionBinding;
  #[global] decode_FunctionBindingList :: JsonUnmarshal FunctionBindingList;
}.

Section Core.
Context `{!JsonText} `{!Problems} `{!Urls}.

(** * Construction *)

(** [loopback] of [control.go]. *)
Definition loopback (host : string) : bool :=
  if EqualFoldLower host "localhost" then true else loopbackIP host.

(** [validatedControlURL] of [control.go]. *)
Definition validatedControlURL (rawURL : string) : outcome api_error string :=
  let rawURL := TrimRightSlash (TrimSpace rawURL) in
  match ParseRequestURI rawURL with
  | None => Throw (ErrorString "invalid Control URL")
  | Some parsed =>
      if (parsed.(URL_Host) =s "") || parsed.(URL_User) || negb (parsed.(URL_RawQuery) =s "")
         || negb (parsed.(URL_Fragment) =s "")
         || negb (parsed.(URL_Scheme) =s "http") && negb (parsed.(URL_Scheme) =s "https")
      then Throw (ErrorString "invalid Control URL")
      else if (parsed.(URL_Scheme) =s "http") && negb (loopback parsed.(URL_Hostname))
      then Throw (ErrorString "Control URL must use HTTPS outside local development")
      else Ret rawURL
  end.

(** A copy of a client that returns redirects instead of following them. *)
Definition withoutRedirects (client : http_Client) : http_Client :=
  mkHttpClient client.(Client_Jar) false.

Definition NewControlClient (options : ControlClientOptions) : outcome api_error ControlClient :=
  base ← validatedControlURL options.(ControlOptions_BaseURL);
  let clientID := TrimSpace options.(ControlOptions_ClientID) in
  let secret := TrimSpace options.(ControlOptions_SecretKey) in
  if (clientID =s "") || (secret =s "")
  then Throw (ErrorString "client ID and secret key are required")
  else
    let httpClient := default DefaultClient options.(ControlOptions_HTTPClient) in
    Ret (mkControlClient (withoutRedirects httpClient) base clientID secret "").

(** [ForUser]: a copy of the client with a user's token. *)
Definition ForUser (c : ControlClient) (accessToken : string) : outcome api_error ControlClient :=
  let accessToken := TrimSpace accessToken in
  if (accessToken =s "") || ContainsAny accessToken [x0d; x0a]
  then Throw (ErrorString "user access token is required and must not contain line breaks")
  else Ret (mkControlClient c.(Control_httpClient) c.(Control_baseURL) c.(Control_clientID)
              c.(Control_secretKey) accessToken).

(** * Requests *)
Definition requiredControl (value name : string) : string := TrimSpace value.

Definition resourcePath (resource : string) : string :=
  "/resources/" +:+ PathEscape (requiredControl resource "resource").

Definition resourcePayloadPath (resource slot : string) : string :=
  resourcePath resource +:+ "/payloads/" +:+ PathEscape (requiredControl slot "payload slot").

Definition pagination (cursor : string) (limit : Z) : string :=
  let query : Values := if cursor =s "" then ∅ else Values_Set "cursor" cursor ∅ in
  let query := if 0 <? limit then Values_Set "limit" (string_of (Itoa limit)) query else query in
  if bool_decide (query = ∅) then "" else "?" +:+ Encode query.

Definition apiURL (base clientID path : string) : string :=
  base +:+ "/v1/public/applications/" +:+ PathEscape clientID +:+ path.

(** The headers of a request, up to the extra ones. *)
Definition controlHeader (c : ControlClient) (key : string) (hasBody : bool) : Header :=
  let h := Header_Set "Accept" "application/json" ∅ in
  let h := Header_Set "X-Lotor-Secret-Key" c.(Control_secretKey) h in
  let h := if c.(Control_userToken) =s "" then h
           else Header_Set "Authorization" ("Bearer " +:+ c.(Control_userToken)) h in
  let h := if hasBody then Header_Set "Content-Type" "application/json" h else h in
  if key =s "" then h else Header_Set "Idempotency-Key" (requiredControl key "idempotency key") h.

(** The error of a response that is no success. *)
Definition controlProblem (status : Z) (raw : list byte) : api_error :=
  let problem := problemOf raw in
  ControlError status (if problem.1 =s "" then "request_failed" else problem.1)
    (if problem.2 =s ""
     then "Lotor request failed with status " +:+ string_of (Itoa status) else problem.2).

(** What is made of a response. *)
Definition readResponse {A} (out : target A) (limit : Z) (response : HttpResponse)
    : outcome api_error (Header * A) :=
  match readLimited response (limit + 1) with
  | None => Throw ErrRead
  | Some raw =>
      let status := response.(Response_Status) in
      if limit <? len raw then Throw (ErrorString "Lotor response exceeds limit")
      else if (status <? 200) || (300 <=? status) then Throw (controlProblem status raw)
      else if status =? 204 then Ret (response.(Response_Header), out.(target_zero))
      else match out.(target_read) raw with
      | None => Throw (ErrorString "invalid Lotor response")
      | Some value => Ret (response.(Response_Header), value)
      end
  end.

(** The body of a request. *)
Definition renderBody (body : option json) : outcome api_error (option (list byte)) :=
  match body with
  | None => Ret None
  | Some document => match Render document with Some raw => Ret (Some raw) | None => Throw ErrMarshal end
  end.

Definition isSome {A} (x : option A) : bool := match x with Some _ => true | None => false end.

(** The request of a method. *)
Definition controlRequest (c : ControlClient) (method path key : string) (extra : Header)
    (hasBody : bool) (payload : option (list byte)) : HttpRequest :=
  mkHttpRequest method (apiURL c.(Control_baseURL) c.(Control_clientID) path)
    (Header_AddAll (controlHeader c key hasBody) extra) payload.

(** Building a request with a JSON body, sending it and reading its answer. *)
Definition sendJSON {A} (client : http_Client) (build : option (list byte) → HttpRequest)
    (body : option json) (read : HttpResponse → outcome api_error A) : io A :=
  payload ← lift (renderBody body);
  let request := build payload in
  if negb (newRequest request.(Http_Method) request.(Http_URL)) then throw ErrNewRequest
  else
    Do client request (fun answer =>
      match answer with
      | None => throw ErrTransport
      | Some response => lift (read response)
      end).

Definition requestHeadersLimit {A} (c : ControlClient) (method path key : string) (extra : Header)
    (body : option json) (out : target A) (limit : Z) : io (Header * A) :=
  sendJSON c.(Control_httpClient) (controlRequest c method path key extra (isSome body)) body
    (readResponse out limit).

Definition requestHeaders {A} (c : ControlClient) (method path key : string) (extra : Header)
    (body : option json) (out : target A) : io (Header * A) :=
  requestHeadersLimit c method path key extra body out (Z.shiftl 4 20).

Definition request {A} (c : ControlClient) (method path key : string) (body : option json)
    (out : target A) : io A :=
  r ← requestHeaders c method path key ∅ body out; mret r.2.

Definition operationRequest `{!Decoders} (c : ControlClient)
    (method path key : string) (body : option json) : io DurableOperation :=
  request c method path key body into.
End Core.

(** * Resources *)
Section Methods.
Context `{!JsonText} `{!Problems} `{!Urls} `{!Decoders}.
Context (c : ControlClient).

Definition getResource (resource : string) : io Resource :=
  request c "GET" ("/resources/" +:+ PathEscape (requiredControl resource "resource")) "" None into.

Definition PutResource (resource : string) (input : ResourceRegistration) : io Resource :=
  request c "PUT" ("/resources/" +:+ PathEscape (requiredControl resource "resource")) ""
    (Some (toJson input)) into.

Definition CreateSystemResource (input : ResourceRegistration) (key : string) : io DurableOperation :=
  request c "POST" "/resources" key (Some (toJson input)) into.

Definition MoveResource (resource parent : string) (fence : ResourceLifecycleFence) (key : string)
    : io DurableOperation :=
  operationRequest c "POST"
    ("/resources/" +:+ PathEscape (requiredControl resource "resource") +:+ "/move") key
    (Some (JObject (member "parent" parent ++ ResourceLifecycleFence_members fence))).

Definition lifecycle (resource action : string) (fence : ResourceLifecycleFence) (key : string)
    : io DurableOperation :=
  operationRequest c "POST"
    ("/resources/" +:+ PathEscape (requiredControl resource "resource") +:+ "/" +:+ action) key
    (Some (toJson fence)).

Definition DisableResource (resource : string) (fence : ResourceLifecycleFence) (key : string) :=
  lifecycle resource "disable" fence key.

Definition RestoreResource (resource : string) (fence : ResourceLifecycleFence) (key : string) :=
  lifecycle resource "restore" fence key.

Definition DeleteResource (resource : string) (fence : ResourceLifecycleFence) (subtree : bool)
    (key : string) : io DurableOperation :=
  operationRequest c "DELETE" ("/resources/" +:+ PathEscape (requiredControl resource "resource"))
    key (Some (JObject (ResourceLifecycleFence_members fence ++ member "subtree" subtree))).

(** * Operations *)
Definition Operation (id : string) : io DurableOperation :=
  operationRequest c "GET" ("/operations/" +:+ PathEscape (requiredControl id "operation ID")) "" None.

Definition time_Minute : Z := 60000000000.
Definition terminal (status : string) : bool :=
  (status =s "succeeded") || (status =s "failed") || (status =s "cancelled").

(** The effective options of [WaitForOperation]. *)
Definition waitAttempts (options : OperationWaitOptions) : Z :=
  if options.(OperationWaitOptions_MaxAttempts) =? 0 then 120
  else options.(OperationWaitOptions_MaxAttempts).
Definition waitInterval (options : OperationWaitOptions) : Z :=
  if options.(OperationWaitOptions_Interval) =? 0 then 500000000
  else options.(OperationWaitOptions_Interval).

(** The loop of [WaitForOperation] with the attempts that are left. *)
Fixpoint waitLoop (id : string) (interval : Z) (attempts : nat) : io DurableOperation :=
  match attempts with
  | O => throw (ErrorString "Lotor operation exceeded max attempts")
  | S attempts =>
      ContextErr (fun cancelled =>
        if cancelled then throw ErrContext
        else
          operation ← Operation id;
          let status := operation.(DurableOperation_Status) in
          if terminal status then mret operation
          else if negb ((status =s "pending") || (status =s "running"))
          then throw (ErrorString "invalid Lotor operation status")
          else match attempts with
          | O => waitLoop id interval attempts
          | S _ =>
              Pause interval (fun cancelled =>
                if cancelled then throw ErrContext else waitLoop id interval attempts)
          end)
  end.

Definition WaitForOperation (id : string) (options : OperationWaitOptions) : io DurableOperation :=
  let maxAttempts := waitAttempts options in
  let interval := waitInterval options in
  if (maxAttempts <? 1) || (10000 <? maxAttempts) || (interval <? 0) || (time_Minute <? interval)
  then throw (ErrorString "invalid operation wait options")
  else waitLoop id interval (Z.to_nat maxAttempts).

(** * Resource types and catalogs *)

(** A nil slice is sent as an empty one. *)
Definition present {A} (l : option (list A)) : option (list A) := Some (default [] l).

Definition completeType (d : ResourceTypeDefinition) : ResourceTypeDefinition :=
  let payload := d.(ResourceTypeDefinition_Payload) in
  mkResourceTypeDefinition d.(ResourceTypeDefinition_CredentialPolicy)
    d.(ResourceTypeDefinition_ReferenceFields) d.(ResourceTypeDefinition_ResourceType)
    d.(ResourceTypeDefinition_Kind) d.(ResourceTypeDefinition_Lifecycle)
    d.(ResourceTypeDefinition_KeyBehavior) (present d.(ResourceTypeDefinition_AllowedParentTypes))
    (present d.(ResourceTypeDefinition_Relations)) d.(ResourceTypeDefinition_InheritedRelations)
    d.(ResourceTypeDefinition_CatalogEntryKinds)
    (mkResourcePayloadTypePolicy payload.(ResourcePayloadTypePolicy_Storage)
       (present payload.(ResourcePayloadTypePolicy_Slots)))
    d.(ResourceTypeDefinition_DirectLinks) d.(ResourceTypeDefinition_MayActAsPrincipal)
    d.(ResourceTypeDefinition_MayActAsSubjectSet).

Definition PutResourceType (resourceType : string) (definition : ResourceTypeDefinition)
    : io ResourceTypeDefinition :=
  request c "PUT" ("/resource-types/" +:+ PathEscape (requiredControl resourceType "resource type")) ""
    (Some (toJson (completeType definition))) into.

(** The path of a catalog. *)
Definition catalogPath (id : string) : string :=
  "/catalogs/" +:+ PathEscape (requiredControl id "catalog ID").

Definition CreateCatalog (input : CatalogCreation) (key : string) : io Catalog :=
  request c "POST" "/catalogs" key (Some (toJson input)) into.

Definition getCatalog (id : string) : io Catalog := request c "GET" (catalogPath id) "" None into.

Definition Catalogs (cursor : string) (limit : Z) : io CatalogList :=
  request c "GET" ("/catalogs" +:+ pagination cursor limit) "" None into.

Definition ImportOpenAPI (catalogID : string) (input : CatalogImportInput) (key : string)
    : io DurableOperation :=
  operationRequest c "POST" (catalogPath catalogID +:+ "/imports") key (Some (toJson input)).

(** A nil slice of entries is written as null. *)
Definition ImportDefinitions (catalogID : string) (entries : option (list GenericCatalogDefinition))
    (key : string) : io DurableOperation :=
  match Render (JObject (member "entries" entries)) with
  | None => throw ErrMarshal
  | Some source =>
      operationRequest c "POST" (catalogPath catalogID +:+ "/imports") key
        (Some (toJson (mkCatalogImportInput "definitions_v1" (string_of source))))
  end.

Definition CatalogSnapshots (catalogID cursor : string) (limit : Z) : io CatalogSnapshotList :=
  request c "GET" (catalogPath catalogID +:+ "/snapshots" +:+ pagination cursor limit) "" None into.

Definition PublishCatalogSnapshot (catalogID snapshotID key : string) : io DurableOperation :=
  operationRequest c "POST"
    (catalogPath catalogID +:+ "/snapshots/" +:+ PathEscape (requiredControl snapshotID "snapshot ID")
       +:+ "/publish") key None.

Definition CatalogEntries (catalogID cursor : string) (limit : Z) : io CatalogEntryList :=
  request c "GET" (catalogPath catalogID +:+ "/entries" +:+ pagination cursor limit) "" None into.

Definition getCatalogEntry (catalogID entryID : string) : io CatalogEntry :=
  request c "GET"
    (catalogPath catalogID +:+ "/entries/" +:+ PathEscape (requiredControl entryID "entry ID")) ""
    None into.

Definition BindResourceCatalog (resource : string) (input : ResourceCatalogBindingInput)
    (key : string) : io DurableOperation :=
  operationRequest c "PUT"
    ("/resources/" +:+ PathEscape (requiredControl resource "resource") +:+ "/catalog-binding") key
    (Some (toJson input)).

(** * Credentials *)
Definition IssueResourceCredential (resource : string) (input : ResourceCredentialIssueInput)
    (key : string) : io IssuedResourceCredential :=
  request c "POST" (resourcePath resource +:+ "/credentials") key (Some (toJson input)) into.

Definition ResourceCredentials (resource : string) : io (option (list ResourceCredentialMetadata)) :=
  out ← request c "GET" (resourcePath resource +:+ "/credentials") "" None into;
  mret out.(CredentialItems_Items).

Definition credentialPath (resource credentialID : string) : string :=
  resourcePath resource +:+ "/credentials/"
  +:+ PathEscape (requiredControl credentialID "credential ID").

Definition RotateResourceCredential (resource credentialID : string)
    (input : ResourceCredentialRotateInput) (key : string) : io IssuedResourceCredential :=
  request c "POST" (credentialPath resource credentialID +:+ "/rotate") key (Some (toJson input)) into.

Definition RevokeResourceCredential (resource credentialID key : string)
    : io ResourceCredentialMetadata :=
  request c "DELETE" (credentialPath resource credentialID) key None into.

(** * Payloads *)
Definition withToken (intent : ResourcePayloadUploadIntent) (token : string)
    : ResourcePayloadUploadIntent :=
  mkResourcePayloadUploadIntent intent.(ResourcePayloadUploadIntent_RequiredHeaders)
    intent.(ResourcePayloadUploadIntent_Resource) intent.(ResourcePayloadUploadIntent_Slot)
    intent.(ResourcePayloadUploadIntent_UploadURL) intent.(ResourcePayloadUploadIntent_UploadMethod)
    token intent.(ResourcePayloadUploadIntent_PayloadVersion)
    intent.(ResourcePayloadUploadIntent_ExpectedPayloadVersion)
    intent.(ResourcePayloadUploadIntent_ExpiresAt).

Definition BeginResourcePayloadUpload (resource slot : string) (input : ResourcePayloadUploadInput)
    : io ResourcePayloadUploadIntent :=
  r ← requestHeaders c "POST" (resourcePayloadPath resource slot +:+ "/uploads") "" ∅
        (Some (toJson input)) into;
  let token := TrimSpace (Header_Get r.1 "Lotor-Payload-Token") in
  if token =s "" then throw (ErrorString "Lotor payload upload omitted its token")
  else mret (withToken r.2 token).

Definition CommitResourcePayload (resource slot : string) (intent : ResourcePayloadUploadIntent)
    : io ResourcePayloadManifest :=
  r ← requestHeaders c "POST" (resourcePayloadPath resource slot +:+ "/commits") ""
        {[ "Lotor-Payload-Token" :=
             [requiredControl intent.(ResourcePayloadUploadIntent_Token) "payload token"] ]}
        (Some (JObject (member "expected_payload_version"
                          intent.(ResourcePayloadUploadIntent_ExpectedPayloadVersion)))) into;
  mret r.2.

Definition RewrapResourcePayload (resource slot : string) (input : ResourcePayloadRewrapInput)
    : io ResourcePayloadRewrapResult :=
  request c "POST" (resourcePayloadPath resource slot +:+ "/rewraps") "" (Some (toJson input)) into.

Definition DeleteResourcePayload (resource slot key : string) : io ResourcePayloadMutation :=
  request c "DELETE" (resourcePayloadPath resource slot) key None into.

(** [control_payload_read.go]. *)
Definition ResourcePayload (resource slot : string) : io ResourcePayloadManifest :=
  request c "GET" (resourcePayloadPath resource slot) "" None into.

Definition AccessResourcePayload (resource slot : string) (payloadVersion : Z)
    : io ResourcePayloadAccessLease :=
  request c "POST" (resourcePayloadPath resource slot +:+ "/access") ""
    (Some (JObject (omitted "payload_version" payloadVersion))) into.
End Methods.

(** * Lemmas: requests *)
Section Lemmas.
Context `{!JsonText} `{!Problems} `{!Urls} `{!Decoders}.

(** What is made of an answer to a request. *)
Definition answered {A} (read : HttpResponse → outcome api_error A) (answer : option HttpResponse)
    : outcome api_error A :=
  match answer with
  | None => Throw ErrTransport
  | Some response => read response
  end.

(** A request fails before anything is sent, or is one exchange. *)
Lemma runs_sendJSON {A} client build body (read : HttpResponse → outcome api_error A) trace r :
  runs (sendJSON client build body read) trace r →
  trace = [] ∧ (r = Throw ErrMarshal ∨ r = Throw ErrNewRequest)
  ∨ ∃ payload x,
      renderBody body = Ret payload ∧ trace = [Sent client (build payload) x] ∧ r = answered read x.
Proof.
  unfold sendJSON, renderBody. intros Hr. apply runs_bind in Hr.
  destruct Hr as [(t1 & t2 & payload & -> & [-> Hb] & Hr)|(x & [-> ->] & Hf)].
  - case_match; [by destruct Hr as [-> ->]; auto|]. right.
    destruct Hr as (x & rest & -> & Hr). exists payload, x. split_and!; [done|..].
    + f_equal. by destruct x; destruct Hr as [-> _].
    + by destruct x; destruct Hr as [_ ->].
  - destruct body as [d|]; [|done]. destruct (Render d); simplify_eq/=. auto.
Qed.

Lemma runs_request {A} c method path key body (out : target A) trace r :
  runs (request c method path key body out) trace r →
  trace = [] ∧ (r = Throw ErrMarshal ∨ r = Throw ErrNewRequest)
  ∨ ∃ payload x,
      renderBody body = Ret payload
      ∧ trace = [Sent c.(Control_httpClient)
                   (controlRequest c method path key ∅ (isSome body) payload) x]
      ∧ r = (r ← answered (readResponse out (Z.shiftl 4 20)) x; Ret r.2).
Proof.
  unfold request, requestHeaders. intros Hr. apply runs_bind in Hr.
  destruct Hr as [(t1 & t2 & [h a] & -> & Hq & [-> ->])|(x & Hq & Hf)];
    apply runs_sendJSON in Hq.
  - rewrite app_nil_r. destruct Hq as [(_ & [?|?])|(payload & x & Hp & -> & Ha)]; [done..|]. right.
    exists payload, x. split_and!; [done..|]. by rewrite <- Ha.
  - destruct Hq as [(-> & [->| ->])|(payload & y & Hp & -> & ->)]; simplify_eq/=; [by auto..|].
    right. exists payload, y. split_and!; [done..|]. by destruct (answered _ _); simplify_eq/=.
Qed.

(** * Waiting for an operation *)
Definition pollRequest (c : ControlClient) (id : string) : HttpRequest :=
  controlRequest c "GET" ("/operations/" +:+ PathEscape (requiredControl id "operation ID")) "" ∅
    false None.

Definition pauses (trace : list event) : nat :=
  length (List.filter (fun e => match e with Paused _ _ => true | _ => false end) trace).

Definition waitEvent (c : ControlClient) (id : string) (interval : Z) (e : event) : Prop :=
  match e with
  | Sent client q _ => client = c.(Control_httpClient) ∧ q = pollRequest c id
  | Paused i _ => i = interval
  | Polled _ => True
  | Drawn _ _ => False
  end.

Definition exceeded : api_error := ErrorString "Lotor operation exceeded max attempts".

Lemma readResponse_errors {A} (out : target A) limit response :
  match readResponse out limit response with
  | Ret _ => True
  | Throw e => e ≠ exceeded
  | _ => False
  end.
Proof. unfold readResponse, controlProblem, exceeded. repeat (case_match; simplify_eq; try done). Qed.

Lemma runs_Operation c id trace r :
  runs (Operation c id) trace r →
  trace = [] ∧ (r = Throw ErrMarshal ∨ r = Throw ErrNewRequest)
  ∨ ∃ x, trace = [Sent c.(Control_httpClient) (pollRequest c id) x]
      ∧ (∀ e, r = Throw e → e ≠ exceeded) ∧ r ≠ Panic ∧ r ≠ Diverge.
Proof.
  unfold Operation, operationRequest. intros Hr. apply runs_request in Hr.
  destruct Hr as [?|(payload & x & [= <-] & -> & ->)]; [by left|]. right. exists x.
  split; [done|]. destruct x as [response|]; simpl; [|by split_and!; [intros e [= <-]|..]].
  pose proof (readResponse_errors (A := DurableOperation) into (Z.shiftl 4 20) response) as He.
  destruct (readResponse _ _ _); simpl; split_and!; try done. by intros e' [= <-].
Qed.

#[local] Ltac wait_end :=
  unfold pauses in *; split_and!; try done;
  first [by repeat constructor | simpl in *; lia | by intros ? [= <-] | by intros [=] | idtac].

Lemma waitLoop_spec c id interval attempts trace r :
  runs (waitLoop c id interval attempts) trace r →
  Forall (waitEvent c id interval) trace
  ∧ (length (requests trace) <= attempts)%nat ∧ (pauses trace <= pred attempts)%nat
  ∧ (∀ op, r = Ret op → terminal op.(DurableOperation_Status) = true)
  ∧ (r = Throw exceeded → length (requests trace) = attempts)
  ∧ r ≠ Panic ∧ r ≠ Diverge.
Proof.
  revert trace r. induction attempts as [|n IH]; intros trace r; cbn [waitLoop].
  { intros [-> ->]. by split_and!. }
  intros ([] & rest & -> & Hr).
  { destruct Hr as [-> ->]. wait_end. }
  apply runs_bind in Hr. destruct Hr as [(t1 & t2 & op & -> & Ho & Hr)|(x & Ho & Hf)];
    apply runs_Operation in Ho.
  - destruct Ho as [[_ [?|?]]|(x & -> & _)]; [done..|].
    assert (Hpoll : waitEvent c id interval (Sent c.(Control_httpClient) (pollRequest c id) x)) by done.
    destruct (terminal op.(DurableOperation_Status)) eqn:Ht.
    { destruct Hr as [-> ->]. wait_end. }
    destruct (negb _).
    { destruct Hr as [-> ->]. wait_end. }
    destruct n as [|n].
    { destruct (IH _ _ Hr) as (Hf & Hn & Hp & Hop & He & Hpanic & Hdiv). wait_end. }
    destruct Hr as ([] & t3 & -> & Hr).
    { destruct Hr as [-> ->]. wait_end. }
    destruct (IH _ _ Hr) as (Hf & Hn & Hp & Hop & He & Hpanic & Hdiv). wait_end.
    intros Hx. simpl. by rewrite (He Hx).
  - destruct Ho as [[-> Hx]|(y & -> & Hx & Hp & Hd)].
    + assert (Hr : r = Throw ErrMarshal ∨ r = Throw ErrNewRequest)
        by (destruct Hx as [->| ->]; simplify_eq/=; auto).
      destruct Hr as [->| ->]; wait_end.
    + destruct x as [|e| |]; [done| |by destruct Hp|by destruct Hd]. simplify_eq/=. wait_end.
      intros [= ->]. by destruct (Hx exceeded eq_refl).
Qed.

(** C30: [WaitForOperation] asks for its operation at most [maxAttempts] times, pauses for its
    interval between them and not after the last, always ends, returns an operation only in
    a terminal state, and gives up only after all its attempts; options outside their bounds
    send nothing. *)
Theorem wait_bounded c id options trace r :
  let attempts := waitAttempts options in
  let interval := waitInterval options in
  runs (WaitForOperation c id options) trace r →
  ((1 <= attempts <= 10000 ∧ 0 <= interval <= time_Minute) ∨ trace = [] ∧ ∃ e, r = Throw e)
  ∧ Forall (waitEvent c id interval) trace
  ∧ len (requests trace) <= Z.max 0 attempts
  ∧ Z.of_nat (pauses trace) <= Z.max 0 (attempts - 1)
  ∧ (∀ op, r = Ret op → terminal op.(DurableOperation_Status) = true)
  ∧ (r = Throw exceeded → len (requests trace) = attempts)
  ∧ r ≠ Panic ∧ r ≠ Diverge.
Proof.
  unfold WaitForOperation. cbv zeta. set (n := waitAttempts options). set (i := waitInterval options).
  destruct (_ || _) eqn:Hb.
  - intros [-> ->]. unfold len, pauses. split_and!; [right; eauto|done|simpl; lia|simpl; lia|by intros ? [=]|by intros [=]|done|done].
  - intros Hr. apply waitLoop_spec in Hr as (Hf & Hn & Hp & Hop & He & Hpanic & Hdiv).
    rewrite !orb_false_iff in Hb. destruct Hb as [[[Ha Hb] Hc] Hd]. breflect.
    unfold len. split_and!; try done; try lia. intros Hx. rewrite (He Hx). lia.
Qed.

(** An environment that never cancels and answers the requests one after the other. *)
Definition serving (answers : nat → option HttpResponse) : environment :=
  mkEnvironment (fun past _ _ => answers (length (requests past))) (fun _ => false) (fun _ _ => None).

(** The operation of an answer. *)
Definition polled (answer : option HttpResponse) : outcome api_error DurableOperation :=
  r ← answered (readResponse into (Z.shiftl 4 20)) answer; Ret r.2.

Definition unfinished (status : string) : bool := (status =s "pending") || (status =s "running").

Lemma exec_Operation c id answers past :
  newRequest "GET" (pollRequest c id).(Http_URL) = true →
  exec (serving answers) past (Operation c id) =
  let x := answers (length (requests past)) in
  ([Sent c.(Control_httpClient) (pollRequest c id) x], polled x).
Proof.
  intros Hn. unfold Operation, operationRequest, request, requestHeaders, requestHeadersLimit, sendJSON.
  rewrite !exec_bind. simpl. unfold pollRequest in Hn. simpl in Hn. rewrite Hn. simpl.
  unfold polled. rewrite !app_nil_r. destruct (answers _) as [response|]; simpl; [|done].
  by destruct (readResponse _ _ _).
Qed.


Lemma exec_waitLoop c id interval answers k attempts past op :
  newRequest "GET" (pollRequest c id).(Http_URL) = true →
  let base := length (requests past) in
  (∀ j, (j < k)%nat → ∃ op, polled (answers (base + j)%nat) = Ret op
                            ∧ unfinished op.(DurableOperation_Status) = true) →
  polled (answers (base + k)%nat) = Ret op → terminal op.(DurableOperation_Status) = true →
  (k < attempts)%nat →
  let run := exec (serving answers) past (waitLoop c id interval attempts) in
  run.2 = Ret op ∧ length (requests run.1) = S k.
Proof.
  intros Hn. revert k past. induction attempts as [|n IH]; intros k past; [lia|]. cbv zeta.
  intros Hj Hk Ht Hlt. cbn [waitLoop exec serving Env_cancelled]. rewrite exec_bind, exec_Operation by done.
  cbv zeta. replace (length (requests (past ++ [Polled false]))) with (length (requests past))
    by (rewrite requests_app; simpl; by rewrite app_nil_r).
  destruct k as [|k].
  - rewrite Nat.add_0_r in Hk. rewrite Hk. simpl. by rewrite Ht.
  - destruct (Hj 0%nat ltac:(lia)) as (op' & Hp & Hu). rewrite Nat.add_0_r in Hp. rewrite Hp. simpl.
    assert (Hnt : terminal op'.(DurableOperation_Status) = false).
    { unfold unfinished in Hu. unfold terminal. apply orb_true_iff in Hu.
      destruct Hu as [->%String.eqb_eq| ->%String.eqb_eq]; done. }
    rewrite Hnt. fold (unfinished op'.(DurableOperation_Status)). rewrite Hu. simpl.
    destruct n as [|n]; [lia|]. simpl exec. cbn [fst snd].
    specialize (IH k (((past ++ [Polled false]) ++
       [Sent (Control_httpClient c) (pollRequest c id) (answers (length (requests past)))])
      ++ [Paused interval false])).
    rewrite !requests_app, !length_app in IH. simpl in IH. rewrite !Nat.add_0_r in IH.
    cbv zeta in IH. simpl in IH.
    destruct IH as [H1' H2']; [..|lia|].
    + intros j Hlj. replace (length (requests past) + 1 + j)%nat with (length (requests past) + S j)%nat by lia.
      apply Hj. lia.
    + by replace (length (requests past) + 1 + k)%nat with (length (requests past) + S k)%nat by lia.
    + done.
    + split; [exact H1'|]. f_equal. exact H2'.
Qed.

(** C31: if the first [k] answers are an operation in progress and the next one an operation
    that has ended, a wait of more than [k] attempts that is not cancelled returns that
    operation after [k + 1] requests. *)
Theorem wait_returns c id options answers k op :
  let attempts := waitAttempts options in
  let interval := waitInterval options in
  attempts <= 10000 → 0 <= interval <= time_Minute →
  newRequest "GET" (pollRequest c id).(Http_URL) = true →
  (∀ j, (j < k)%nat → ∃ op, polled (answers j) = Ret op
                            ∧ unfinished op.(DurableOperation_Status) = true) →
  polled (answers k) = Ret op → terminal op.(DurableOperation_Status) = true →
  Z.of_nat k < attempts →
  let run := exec (serving answers) [] (WaitForOperation c id options) in
  run.2 = Ret op ∧ length (requests run.1) = S k.
Proof.
  cbv zeta. intros Ha Hi Hn Hj Hk Ht Hlt. unfold WaitForOperation. cbv zeta.
  destruct (_ || _) eqn:Hb.
  - exfalso. rewrite !orb_true_iff in Hb. destruct Hb as [[[Hb|Hb]|Hb]|Hb]; breflect; lia.
  - eapply (exec_waitLoop c id _ answers k _ []); try done. lia.
Qed.
End Lemmas.

(** * Samples *)
Module ControlClientSamples.
(** Every document is rendered as an empty object, every response reads as a zero value; an
    operation is its status. *)
#[local] Instance text1 : JsonText := {| Render _ := Some (bytes_of "{}") |}.
#[local] Instance problems1 : Problems := {| problemOf _ := ("", "") |}.
#[local] Instance anyZero {A} `{!Zero A} : JsonUnmarshal A := {| Unmarshal _ := Some zero |}.
Definition operationOf (status : string) : DurableOperation :=
  mkDurableOperation "op" "move" status "resource" "r" "h" "" 0 0.
#[local] Instance operations1 : JsonUnmarshal DurableOperation :=
  {| Unmarshal raw := Some (operationOf (string_of raw)) |}.
Definition control1 : string := "https://control".
Definition parsed1 : URL := mkURL "https" false "control" "control" "" "" "" "" "" false "" control1.
#[local] Instance urls1 : Urls := {|
  Parse s := if (s =s control1)%bool then Some parsed1 else None;
  ParseRequestURI s := if (s =s control1)%bool then Some parsed1 else None;
  loopbackIP _ := false;
  newRequest _ _ := true
|}.
#[local] Instance decoders1 : Decoders.
Proof. split; apply _. Defined.

Definition client1 : ControlClient :=
  mkControlClient (mkHttpClient false false) control1 "app" "secret" "".

Example client1_new :
  NewControlClient (mkControlClientOptions None " https://control/ " "app" " secret ") = Ret client1.
Proof. by vm_compute. Qed.

Definition answer (status : string) : option HttpResponse :=
  Some (mkHttpResponse 200 ∅ (bytes_of status) false).
Definition answers1 (i : nat) : option HttpResponse :=
  answer (if (i <? 2)%nat then "pending" else "succeeded").
Definition wait1 : OperationWaitOptions := mkOperationWaitOptions 3 0.

Lemma wait_bounded_witness :
  let run := exec (serving answers1) [] (WaitForOperation client1 " op " wait1) in
  len (requests run.1) <= 3 ∧ len run.1 = 8.
Proof.
  split; [|by vm_compute].
  apply (wait_bounded client1 " op " wait1 _ _ (exec_runs (serving answers1) [] _)).
Defined.

Lemma wait_returns_witness :
  (exec (serving answers1) [] (WaitForOperation client1 " op " wait1)).2 = Ret (operationOf "succeeded").
Proof.
  apply (wait_returns client1 " op " wait1 answers1 2 (operationOf "succeeded")).
  - by vm_compute.
  - by vm_compute.
  - done.
  - intros [|[|j]] Hj; [by exists (operationOf "pending")..|lia].
  - by vm_compute.
  - by vm_compute.
  - by vm_compute.
Defined.
End ControlClientSamples.
