(* ===== verification/ResourceClient.v ===== *)
(** The resource client: [lotorhttp/resource_client.go].

    A workload calls the API with a credential of a resource: it exchanges the credential,
    executes provider requests in two steps, reads payloads. The protection of provider
    requests and responses and the storage of payload objects are here as well, with the
    methods of the control client that use the latter. *)
From S2P Require Import Prelude GoStd Sha256 Interfaces Protocol Ownership Control Custody.
From S2P Require Import ApiTypes Api ControlClient.

#[local] Open Scope bool_scope.

(** * Data *)
Record ResourceClient : Type := mkResourceClient {
  ResourceClient_httpClient : http_Client;
  ResourceClient_baseURL : string;
  ResourceClient_clientID : string;
  ResourceClient_publishableKey : string;
  ResourceClient_resourceCredential : string
}.

Record ResourceClientOptions : Type := mkResourceClientOptions {
  ResourceClientOptions_HTTPClient : option http_Client;
  ResourceClientOptions_BaseURL : string;
  ResourceClientOptions_ClientID : string;
  ResourceClientOptions_PublishableKey : string;
  ResourceClientOptions_ResourceCredential : string
}.

(** The headers of a request are a map; they are listed in the order in which they are visited. *)
Record ProviderPlainRequest : Type := mkProviderPlainRequest {
  Plain_Method : string;
  Plain_Path : string;
  Plain_Query : string;
  Plain_ContentType : string;
  Plain_Headers : list (string * string);
  Plain_Body : list byte
}.

Record ProviderProtectedResponse : Type := mkProviderProtectedResponse {
  Protected_Headers : option (gmap string string);
  Protected_Body : list byte;
  Protected_Status : Z
}.

(** The decrypted document of a response. *)
Record ProviderDocument : Type := mkProviderDocument {
  Document_Headers : option (gmap string string);
  Document_Body : string;
  Document_Status : Z
}.

Class ResourceDecoders : Type := {
  #[global] decode_ResourceCredentialExchange :: JsonUnmarshal ResourceCredentialExchange;
  #[global] decode_ResourceExecutionPreflight :: JsonUnmarshal ResourceExecutionPreflight;
  #[global] decode_ResourceExecutionAuthorization :: JsonUnmarshal ResourceExecutionAuthorization;
  #[global] decode_payloadManifest :: JsonUnmarshal ResourcePayloadManifest;
  #[global] decode_accessLease :: JsonUnmarshal ResourcePayloadAccessLease;
  #[global] decode_executionEnvelope :: JsonUnmarshal executionEnvelope;
  #[global] decode_ProviderDocument :: JsonUnmarshal ProviderDocument;
}.

Section Client.
Context `{!JsonText} `{!Problems} `{!Urls} `{!ResourceDecoders}.

Definition NewResourceClient (options : ResourceClientOptions) : outcome api_error ResourceClient :=
  base ← validatedControlURL options.(ResourceClientOptions_BaseURL);
  let clientID := TrimSpace options.(ResourceClientOptions_ClientID) in
  let publishableKey := TrimSpace options.(ResourceClientOptions_PublishableKey) in
  let credential := TrimSpace options.(ResourceClientOptions_ResourceCredential) in
  if (clientID =s "") || (publishableKey =s "") || (credential =s "")
  then Throw (ErrorString "client ID, publishable key, and resource credential are required")
  else
    let httpClient := default DefaultClient options.(ResourceClientOptions_HTTPClient) in
    Ret (mkResourceClient (withoutRedirects httpClient) base clientID publishableKey credential).

(** * Requests *)
Definition decodeControlError (status : Z) (raw : list byte) : api_error :=
  let problem := problemOf raw in
  ControlError status (if problem.1 =s "" then "request_failed" else problem.1)
    (if problem.2 =s ""
     then "Lotor request failed with status " +:+ string_of (Itoa status) else problem.2).

Definition resourceHeader (c : ResourceClient) (hasBody : bool) : Header :=
  let h := Header_Set "Accept" "application/json" ∅ in
  let h := Header_Set "Authorization" ("Bearer " +:+ c.(ResourceClient_resourceCredential)) h in
  let h := Header_Set "X-Lotor-Publishable-Key" c.(ResourceClient_publishableKey) h in
  if hasBody then Header_Set "Content-Type" "application/json" h else h.

Definition resourceRequest (c : ResourceClient) (method path : string) (headers : Header)
    (hasBody : bool) (payload : option (list byte)) : HttpRequest :=
  mkHttpRequest method (apiURL c.(ResourceClient_baseURL) c.(ResourceClient_clientID) path)
    (Header_AddAll (resourceHeader c hasBody) headers) payload.

Definition resourceResponse {A} (out : target A) (response : HttpResponse)
    : outcome api_error (Header * A) :=
  match readLimited response (Z.shiftl 4 20 + 1) with
  | None => Throw ErrRead
  | Some raw =>
      let status := response.(Response_Status) in
      if Z.shiftl 4 20 <? len raw then Throw (ErrorString "Lotor response exceeds limit")
      else if (status <? 200) || (300 <=? status) then Throw (decodeControlError status raw)
      else if negb (status =? 204)
      then match out.(target_read) raw with
           | None => Throw (ErrorString "invalid Lotor response")
           | Some value => Ret (response.(Response_Header), value)
           end
      else Ret (response.(Response_Header), out.(target_zero))
  end.

(** The method [request] of a resource client. *)
Definition workloadRequest {A} (c : ResourceClient) (method path : string) (headers : Header)
    (body : option json) (out : target A) : io (Header * A) :=
  sendJSON c.(ResourceClient_httpClient) (resourceRequest c method path headers (isSome body)) body
    (resourceResponse out).

Definition ExchangeCredential (c : ResourceClient) (input : ResourceCredentialExchangeInput)
    : io ResourceCredentialExchange :=
  r ← workloadRequest c "POST" "/credential-exchanges" ∅ (Some (toJson input)) into; mret r.2.

(** * Executions *)
Definition withExecutionToken (p : ResourceExecutionPreflight) (token : string)
    : ResourceExecutionPreflight :=
  mkResourceExecutionPreflight p.(ResourceExecutionPreflight_PolicyRevision)
    p.(ResourceExecutionPreflight_Resource) p.(ResourceExecutionPreflight_Path)
    p.(ResourceExecutionPreflight_Query) p.(ResourceExecutionPreflight_ContentType)
    p.(ResourceExecutionPreflight_RequestBodyDigest) token
    p.(ResourceExecutionPreflight_CatalogEntryRevision) p.(ResourceExecutionPreflight_RequestAAD)
    p.(ResourceExecutionPreflight_ResponsePolicyRef)
    p.(ResourceExecutionPreflight_CatalogSnapshotID) p.(ResourceExecutionPreflight_Method)
    p.(ResourceExecutionPreflight_CatalogEntryID) p.(ResourceExecutionPreflight_KeyResource)
    p.(ResourceExecutionPreflight_PayloadSlot) p.(ResourceExecutionPreflight_ExecutionMode)
    p.(ResourceExecutionPreflight_PayloadRepresentation)
    p.(ResourceExecutionPreflight_RequestFingerprint)
    p.(ResourceExecutionPreflight_PayloadVersion) p.(ResourceExecutionPreflight_KeyVersion)
    p.(ResourceExecutionPreflight_LifecycleGeneration)
    p.(ResourceExecutionPreflight_ResourceRevision) p.(ResourceExecutionPreflight_ExpiresAt)
    p.(ResourceExecutionPreflight_RequestBodySize).

(** The preflight is for the request. *)
Definition preflightMatches (resource : string) (input : ResourceExecutionRequest)
    (out : ResourceExecutionPreflight) : bool :=
  (out.(ResourceExecutionPreflight_Resource) =s resource)
  && (out.(ResourceExecutionPreflight_Method) =s input.(ResourceExecutionRequest_Method))
  && (out.(ResourceExecutionPreflight_Path) =s input.(ResourceExecutionRequest_Path))
  && (out.(ResourceExecutionPreflight_Query) =s input.(ResourceExecutionRequest_Query))
  && (out.(ResourceExecutionPreflight_ContentType) =s input.(ResourceExecutionRequest_ContentType))
  && (out.(ResourceExecutionPreflight_RequestBodyDigest)
      =s input.(ResourceExecutionRequest_RequestBodyDigest))
  && (out.(ResourceExecutionPreflight_RequestBodySize)
      =? input.(ResourceExecutionRequest_RequestBodySize)).

Definition PreflightExecution (c : ResourceClient) (resource : string)
    (input : ResourceExecutionRequest) : io ResourceExecutionPreflight :=
  r ← workloadRequest c "POST" (resourcePath resource +:+ "/executions/preflight") ∅
        (Some (toJson input)) into;
  let token := TrimSpace (Header_Get r.1 "Lotor-Execution-Token") in
  let out := withExecutionToken r.2 token in
  if token =s "" then throw (ErrorString "Lotor execution preflight omitted its token")
  else if negb (preflightMatches resource input out)
  then throw (ErrorString "Lotor execution preflight did not match its request")
  else mret out.

Definition encryptedRepresentation : string := "encrypted-envelope-v1".

(** The commit is for the preflight. *)
Definition commitAllowed (resource : string) (p : ResourceExecutionPreflight)
    (input : ResourceExecutionCommitInput) : bool :=
  let encrypted :=
    p.(ResourceExecutionPreflight_PayloadRepresentation) =s encryptedRepresentation in
  (p.(ResourceExecutionPreflight_Resource) =s resource)
  && negb (negb encrypted
           && (negb (p.(ResourceExecutionPreflight_PayloadRepresentation) =s "raw")
               || negb (input.(ResourceExecutionCommitInput_ProtectedRequest) =s "")
               || negb (input.(ResourceExecutionCommitInput_ResponsePolicyRef) =s "")))
  && negb (encrypted
           && ((input.(ResourceExecutionCommitInput_ProtectedRequest) =s "")
               || negb (input.(ResourceExecutionCommitInput_ResponsePolicyRef)
                        =s p.(ResourceExecutionPreflight_ResponsePolicyRef)))).

(** The authorization is for the preflight. *)
Definition authorizationMatches (p : ResourceExecutionPreflight)
    (out : ResourceExecutionAuthorization) : bool :=
  (out.(ResourceExecutionAuthorization_RequestFingerprint)
   =s p.(ResourceExecutionPreflight_RequestFingerprint))
  && (out.(ResourceExecutionAuthorization_Resource) =s p.(ResourceExecutionPreflight_Resource))
  && (out.(ResourceExecutionAuthorization_CatalogEntryID)
      =s p.(ResourceExecutionPreflight_CatalogEntryID))
  && (out.(ResourceExecutionAuthorization_PayloadSlot) =s p.(ResourceExecutionPreflight_PayloadSlot))
  && (out.(ResourceExecutionAuthorization_PayloadVersion)
      =? p.(ResourceExecutionPreflight_PayloadVersion))
  && (out.(ResourceExecutionAuthorization_PayloadRepresentation)
      =s p.(ResourceExecutionPreflight_PayloadRepresentation))
  && (out.(ResourceExecutionAuthorization_ExecutionMode)
      =s p.(ResourceExecutionPreflight_ExecutionMode))
  && (out.(ResourceExecutionAuthorization_ExpiresAt) =? p.(ResourceExecutionPreflight_ExpiresAt)).

Definition CommitExecution (c : ResourceClient) (resource : string) (p : ResourceExecutionPreflight)
    (input : ResourceExecutionCommitInput) : io ResourceExecutionAuthorization :=
  if negb (commitAllowed resource p input)
  then throw (ErrorString "execution commit does not match preflight")
  else
    r ← workloadRequest c "POST" (resourcePath resource +:+ "/executions/commit")
          {[ "Lotor-Execution-Token" :=
               [requiredControl p.(ResourceExecutionPreflight_Token) "execution token"] ]}
          (Some (JObject
             (member "request_fingerprint" p.(ResourceExecutionPreflight_RequestFingerprint)
              ++ omitted "protected_request" input.(ResourceExecutionCommitInput_ProtectedRequest)
              ++ omitted "response_policy_ref" input.(ResourceExecutionCommitInput_ResponsePolicyRef))))
          into;
    if negb (authorizationMatches p r.2)
    then throw (ErrorString "Lotor execution authorization did not match preflight")
    else mret r.2.

(** * Payloads *)
Definition workloadPayload (c : ResourceClient) (resource slot : string) : io ResourcePayloadManifest :=
  r ← workloadRequest c "GET" (resourcePayloadPath resource slot) ∅ None into; mret r.2.

Definition workloadAccessPayload (c : ResourceClient) (resource slot : string) (payloadVersion : Z)
    : io ResourcePayloadAccessLease :=
  r ← workloadRequest c "POST" (resourcePayloadPath resource slot +:+ "/access") ∅
        (Some (JObject (omitted "payload_version" payloadVersion))) into;
  mret r.2.
End Client.

(** * Storage of objects *)
Section Storage.
Context `{!Urls}.

Definition validatedObjectURL (raw : string) : outcome api_error URL :=
  match Parse (TrimSpace raw) with
  | None => Throw (ErrorString "invalid object URL")
  | Some parsed =>
      if (parsed.(URL_Host) =s "") || parsed.(URL_User)
         || negb (parsed.(URL_Scheme) =s "https")
            && negb ((parsed.(URL_Scheme) =s "http") && loopback parsed.(URL_Hostname))
      then Throw (ErrorString "invalid object URL")
      else Ret parsed
  end.

(** [payloadStorageClient]: no cookies, no redirects. *)
Definition payloadStorageClient (client : http_Client) : http_Client := mkHttpClient false false.

Definition success (status : Z) : bool := negb ((status <? 200) || (300 <=? status)).

(** What is made of the answer to a download. *)
Definition checkObject (lease : ResourcePayloadAccessLease) (response : HttpResponse)
    : outcome api_error (list byte) :=
  let limit := lease.(Lease_ObjectSize) in
  if negb (success response.(Response_Status))
  then Throw (ErrorString ("resource payload download failed with status "
                           +:+ string_of (Itoa response.(Response_Status))))
  else match readLimited response (limit + 1) with
  | None => Throw (ErrorString "resource payload download size does not match lease")
  | Some raw =>
      if negb (len raw =? limit)
      then Throw (ErrorString "resource payload download size does not match lease")
      else if negb (Digest raw =s ToLower (TrimSpace lease.(Lease_ObjectDigest)))
      then Throw (ErrorString "resource payload download digest does not match lease")
      else Ret raw
  end.

Definition downloadResourcePayload (client : http_Client) (lease : ResourcePayloadAccessLease)
    : io (list byte) :=
  match validatedObjectURL lease.(Lease_DownloadURL) with
  | Ret parsed =>
      if negb (lease.(Lease_DownloadMethod) =s "GET")
      then throw (ErrorString "invalid resource payload access lease")
      else
        let limit := lease.(Lease_ObjectSize) in
        if (limit <? 0) || (Z.shiftl 64 20 <? limit)
        then throw (ErrorString "invalid resource payload object size")
        else if negb (newRequest "GET" parsed.(URL_String)) then throw ErrNewRequest
        else
          Do (payloadStorageClient client) (mkHttpRequest "GET" parsed.(URL_String) ∅ None)
            (fun answer =>
              match answer with
              | None => throw ErrTransport
              | Some response => lift (checkObject lease response)
              end)
  | _ => throw (ErrorString "invalid resource payload access lease")
  end.

(** Every error of a download is [ErrUnavailable]. *)
Definition mapError {A} (e : api_error) : io A → io A :=
  fix go (m : io A) : io A :=
    match m with
    | Done (Throw _) => Done (Throw e)
    | Done r => Done r
    | Do client request k => Do client request (fun x => go (k x))
    | Pause interval k => Pause interval (fun x => go (k x))
    | ContextErr k => ContextErr (fun x => go (k x))
    | Random size k => Random size (fun x => go (k x))
    end.

Definition DownloadResourcePayloadObject (client : option http_Client)
    (lease : ResourcePayloadAccessLease) : io (list byte) :=
  mapError (BridgeError ErrUnavailable)
    (downloadResourcePayload (default DefaultClient client) lease).

(** The headers that an upload must not set. *)
Definition unsafeHeader (name : string) : bool :=
  let lower := lowerRunes name in
  let named (s : string) := bool_decide (lower = runes s) in
  let begins (s : string) := bool_decide (take (length (runes s)) lower = runes s) in
  named "authorization" || named "proxy-authorization" || named "cookie" || named "cookie2" || named "host"
  || named "origin" || begins "x-lotor-" || begins "lotor-".

(** The loop over the required headers, in the order in which the map is visited. *)
Fixpoint uploadHeaders (required : list (string * string)) (h : Header) : outcome api_error Header :=
  match required with
  | [] => Ret h
  | (name, value) :: required =>
      if unsafeHeader name then Throw (ErrorString "unsafe resource payload upload header")
      else uploadHeaders required (Header_Set (CanonicalHeaderKey name) value h)
  end.

Definition uploadResourcePayloadObject (client : http_Client) (intent : ResourcePayloadUploadIntent)
    (required : list (string * string)) (object : list byte) : io unit :=
  match validatedObjectURL intent.(ResourcePayloadUploadIntent_UploadURL) with
  | Ret parsed =>
      if negb (intent.(ResourcePayloadUploadIntent_UploadMethod) =s "PUT") || (len object <? 1)
      then throw (ErrorString "invalid resource payload upload intent")
      else if negb (newRequest "PUT" parsed.(URL_String)) then throw ErrNewRequest
      else
        header ← lift (uploadHeaders required ∅);
        Do (payloadStorageClient client)
          (mkHttpRequest "PUT" parsed.(URL_String) header (Some object)) (fun answer =>
            match answer with
            | None => throw ErrTransport
            | Some response =>
                if success response.(Response_Status) then mret tt
                else throw (ErrorString ("resource payload upload failed with status "
                                         +:+ string_of (Itoa response.(Response_Status))))
            end)
  | _ => throw (ErrorString "invalid resource payload upload intent")
  end.

(** The methods of the clients. *)
Definition DownloadResourcePayload (c : ControlClient) (lease : ResourcePayloadAccessLease) :=
  downloadResourcePayload c.(Control_httpClient) lease.
Definition workloadDownload (c : ResourceClient) (lease : ResourcePayloadAccessLease) :=
  downloadResourcePayload c.(ResourceClient_httpClient) lease.
Definition UploadResourcePayloadObject (c : ControlClient) (intent : ResourcePayloadUploadIntent)
    (required : list (string * string)) (object : list byte) : io unit :=
  uploadResourcePayloadObject c.(Control_httpClient) intent required object.
End Storage.

(** * Protection of provider requests and responses *)
Section Protection.
Context `{!JsonText} `{!ResourceDecoders} `{!AEAD}.

Definition maximumProviderBody : Z := Z.shiftl 1 20.
Definition maximumProtected : Z := Z.shiftl 3 20.

(** [executionAEAD]: the cipher of a key is the key. *)
Definition executionAEAD (key : list byte) : outcome api_error (list byte) :=
  if negb (len key =? 32) then Throw (ErrorString "resource key must be 32 bytes") else Ret key.

Definition sealExecutionPayload (key plaintext aad : list byte) : io string :=
  aead ← lift (executionAEAD key);
  Random 12 (fun random =>
    match random with
    | None => throw ErrRandom
    | Some nonce =>
        let envelope := mkexecutionEnvelope (string_of (rawURLEncode nonce))
          (string_of (rawURLEncode (Seal aead nonce plaintext aad))) (Digest aad) in
        match Render (toJson envelope) with
        | None => throw ErrMarshal
        | Some wire =>
            if maximumProtected <? EncodedLen (len wire)
            then throw (ErrorString "protected provider payload exceeds 3 MiB")
            else mret (string_of (rawURLEncode wire))
        end
    end).

Definition openExecutionPayload (key : list byte) (encoded : string) (aad : list byte)
    : outcome api_error (list byte) :=
  let invalid := Throw (ErrorString "invalid protected provider response") in
  if maximumProtected <? slen encoded
  then Throw (ErrorString "protected provider payload exceeds 3 MiB")
  else match rawURLDecode false (bytes_of encoded) with
  | None => invalid
  | Some wire =>
      match Unmarshal wire with
      | None => invalid
      | Some envelope =>
          match rawURLDecode false (bytes_of envelope.(executionEnvelope_Nonce)),
                rawURLDecode false (bytes_of envelope.(executionEnvelope_Ciphertext)) with
          | Some nonce, Some ciphertext =>
              if negb (len nonce =? 12) || negb (envelope.(executionEnvelope_AADHash) =s Digest aad)
              then invalid
              else
                aead ← executionAEAD key;
                match Open aead nonce ciphertext aad with
                | None => Throw (ErrorString "protected provider response authentication failed")
                | Some plaintext => Ret plaintext
                end
          | _, _ => invalid
          end
      end
  end.

(** The additional data of a preflight. *)
Definition requestAAD (p : ResourceExecutionPreflight) : outcome api_error (list byte) :=
  match rawURLDecode false (bytes_of p.(ResourceExecutionPreflight_RequestAAD)) with
  | Some (b :: aad) => Ret (b :: aad)
  | _ => Throw (ErrorString "invalid execution request AAD")
  end.

(** The loop over the headers of a provider request. *)
Fixpoint providerHeaders (input : list (string * string)) (headers : gmap string string)
    : outcome api_error (gmap string string) :=
  match input with
  | [] => Ret headers
  | (name, value) :: input =>
      if (8192 <? slen value) || ContainsAny value [x0d; x0a]
      then Throw (ErrorString "provider request contains invalid header value")
      else if negb (EqualFoldLower name "accept") && negb (EqualFoldLower name "content-type")
      then Throw (ErrorString "provider request contains unsupported header")
      else providerHeaders input
             (if EqualFoldLower name "accept" then <["Accept" := value]> headers else headers)
  end.

(** The document that is sealed. *)
Definition providerDocument (headers : gmap string string) (body : list byte) : json :=
  JObject (member "headers" headers ++ member "body" (string_of (rawURLEncode body))).

Definition ProtectProviderRequest (resourceKey : list byte) (p : ResourceExecutionPreflight)
    (input : ProviderPlainRequest) : io string :=
  if maximumProviderBody <? len input.(Plain_Body)
  then throw (ErrorString "provider request body exceeds 1 MiB")
  else if negb (p.(ResourceExecutionPreflight_PayloadRepresentation) =s encryptedRepresentation)
          || negb (p.(ResourceExecutionPreflight_ResponsePolicyRef) =s "encrypt_all")
          || (p.(ResourceExecutionPreflight_RequestAAD) =s "")
  then throw (ErrorString "execution preflight is not encrypted")
  else if negb (input.(Plain_Method) =s p.(ResourceExecutionPreflight_Method))
          || negb (input.(Plain_Path) =s p.(ResourceExecutionPreflight_Path))
          || negb (input.(Plain_Query) =s p.(ResourceExecutionPreflight_Query))
          || negb (input.(Plain_ContentType) =s p.(ResourceExecutionPreflight_ContentType))
  then throw (ErrorString "provider request metadata does not match execution preflight")
  else
    aad ← lift (requestAAD p);
    if negb (len input.(Plain_Body) =? p.(ResourceExecutionPreflight_RequestBodySize))
       || negb (Digest input.(Plain_Body) =s p.(ResourceExecutionPreflight_RequestBodyDigest))
    then throw (ErrorString "provider request body does not match execution preflight")
    else
      headers ← lift (providerHeaders input.(Plain_Headers) ∅);
      let headers := <["Content-Type" := p.(ResourceExecutionPreflight_ContentType)]> headers in
      match Render (providerDocument headers input.(Plain_Body)) with
      | None => throw ErrMarshal
      | Some body => sealExecutionPayload resourceKey body aad
      end.

(** The additional data of a response: its request's and its status. *)
Definition responseAAD (aad : list byte) (status : Z) : list byte :=
  bytes_of "lotor-provider-response-v1" ++ x00 :: bytes_of (Digest aad) ++ x00 :: Itoa status.

Definition OpenProviderResponse (resourceKey : list byte) (p : ResourceExecutionPreflight)
    (a : ResourceExecutionAuthorization) : outcome api_error ProviderProtectedResponse :=
  let status := a.(ResourceExecutionAuthorization_ProviderStatus) in
  if negb (a.(ResourceExecutionAuthorization_Status) =s "completed") || (status <? 100)
     || (599 <? status) || (a.(ResourceExecutionAuthorization_ProtectedResponse) =s "")
  then Throw (ErrorString "execution did not return a protected provider response")
  else if negb (authorizationMatches p a)
  then Throw (ErrorString "execution response does not match preflight")
  else
    aad ← requestAAD p;
    plaintext ← openExecutionPayload resourceKey
                  a.(ResourceExecutionAuthorization_ProtectedResponse) (responseAAD aad status);
    match Unmarshal plaintext with
    | None => Throw (ErrorString "invalid protected provider response")
    | Some decoded =>
        if negb (decoded.(Document_Status) =? status)
        then Throw (ErrorString "invalid protected provider response")
        else match rawURLDecode false (bytes_of decoded.(Document_Body)) with
        | None => Throw (ErrorString "invalid protected provider response body")
        | Some body =>
            if maximumProviderBody <? len body
            then Throw (ErrorString "invalid protected provider response body")
            else Ret (mkProviderProtectedResponse decoded.(Document_Headers) body
                        decoded.(Document_Status))
        end
    end.
End Protection.

(** * Lemmas: storage *)

(** ASCII text has its bytes as runes. *)
Lemma runes_ascii s :
  forallb (fun b => byteZ b <? 128) (bytes_of s) = true → runes s = byteZ <$> bytes_of s.
Proof.
  unfold runes. generalize (bytes_of s) as l. intros l. induction l as [|b l IH]; [done|].
  simpl. intros [Hb Hl]%andb_true_iff. apply Z.ltb_lt in Hb. rewrite decodeRune_ascii by done.
  csimpl. by rewrite drop_0, (IH Hl).
Qed.

Definition canonicalByteOk (b : byte) : bool :=
  negb (tokenByte b)
  || (byteZ b <? 128) && (byteZ (toUpper b) <? 128) && (byteZ (toLower b) <? 128)
     && (lowerRune (byteZ (toUpper b)) =? lowerRune (byteZ b))
     && (lowerRune (byteZ (toLower b)) =? lowerRune (byteZ b)).

Lemma canonicalByte_ok b : canonicalByteOk b = true.
Proof. revert b. apply byte_forall. by vm_compute. Qed.

(** The canonical form of a header name differs from it in case only. *)
Lemma lowerRunes_canonical name : lowerRunes (CanonicalHeaderKey name) = lowerRunes name.
Proof.
  unfold CanonicalHeaderKey. destruct (forallb tokenByte (bytes_of name)) eqn:Ht; [|done].
  assert (Hc : ∀ l upper, forallb tokenByte l = true →
    forallb (fun b => byteZ b <? 128) l = true
    ∧ forallb (fun b => byteZ b <? 128) (canonicalFrom upper l) = true
    ∧ lowerRune <$> (byteZ <$> canonicalFrom upper l) = lowerRune <$> (byteZ <$> l)).
  { induction l as [|b l IH]; intros upper; [done|]. simpl. intros [Hb Hl]%andb_true_iff.
    destruct (IH (Byte.eqb b x2d) Hl) as (H1 & H2 & H3). pose proof (canonicalByte_ok b) as Hok.
    unfold canonicalByteOk in Hok. rewrite Hb in Hok. simpl in Hok.
    rewrite !andb_true_iff in Hok. destruct Hok as [[[[Ha Hu] Hlo] Heu] Hel]. breflect.
    rewrite H1, H2, andb_true_r, andb_true_r. split_and!; [by apply Z.ltb_lt|by destruct upper; apply Z.ltb_lt|].
    csimpl. f_equal; [by destruct upper|done]. }
  destruct (Hc (bytes_of name) true Ht) as (H1 & H2 & H3). unfold lowerRunes.
  rewrite !runes_ascii by (by rewrite ?bytes_of_string_of). by rewrite bytes_of_string_of.
Qed.

Lemma unsafeHeader_canonical name : unsafeHeader (CanonicalHeaderKey name) = unsafeHeader name.
Proof. unfold unsafeHeader. by rewrite lowerRunes_canonical. Qed.

(** ASCII text followed by anything, rune by rune. *)
Lemma runes_ascii_app l1 l2 :
  forallb (fun b => byteZ b <? 128) l1 = true →
  runes_fuel (length (l1 ++ l2)) (l1 ++ l2) = (byteZ <$> l1) ++ runes_fuel (length l2) l2.
Proof.
  induction l1 as [|b l1 IH]; [done|]. simpl. intros [Hb Hl]%andb_true_iff. apply Z.ltb_lt in Hb.
  rewrite decodeRune_ascii by done. csimpl. by rewrite drop_0, (IH Hl).
Qed.

Definition foldByteOk (b : byte) : bool :=
  (byteZ (toLower b) <? 128) && (byteZ b <? 128) && (lowerRune (byteZ b) =? byteZ (toLower b))
  || (128 <=? byteZ (toLower b)).

Lemma foldByte_ok b : foldByteOk b = true.
Proof. revert b. apply byte_forall. by vm_compute. Qed.

(** Names of header fields are compared up to the case of ASCII letters. *)
Definition fold (name : string) : list byte := toLower <$> bytes_of name.

(** The fields of HTTP that carry credentials or say who asks whom, and those of Lotor. *)
Definition authorityFields : list string :=
  ["Authorization"; "Proxy-Authorization"; "Cookie"; "Cookie2"; "Host"; "Origin"].
Definition carriesAuthority (name : string) : Prop :=
  (∃ field, field ∈ authorityFields ∧ fold name = fold field)
  ∨ fold "X-Lotor-" `prefix_of` fold name ∨ fold "Lotor-" `prefix_of` fold name.

(** A name that begins like an ASCII field, however it is spelled, begins like it after
    [strings.ToLower]. *)
Lemma fold_lowerRunes name field rest :
  forallb (fun b => byteZ b <? 128) (fold field) = true → fold name = fold field ++ rest →
  take (length (fold field)) (lowerRunes name) = byteZ <$> fold field
  ∧ (rest = [] → lowerRunes name = byteZ <$> fold field).
Proof.
  unfold lowerRunes, runes. unfold fold at 2. generalize (fold field) as f. intros f Hf Hn.
  apply fmap_app_inv in Hn as (l1 & l2 & -> & -> & Hn).
  assert (Hl1 : forallb (fun b => byteZ b <? 128) l1 = true
    ∧ lowerRune <$> (byteZ <$> l1) = byteZ <$> (toLower <$> l1)).
  { clear Hn. induction l1 as [|b l1 IH]; [done|]. simpl in Hf. apply andb_true_iff in Hf as [Hb Hf].
    destruct (IH Hf) as [H1 H2]. pose proof (foldByte_ok b) as Hok. unfold foldByteOk in Hok.
    csimpl. rewrite H1, H2. apply orb_true_iff in Hok as [Hok|Hok]; breflect; [|lia].
    split; [by rewrite andb_true_r; apply Z.ltb_lt|]. by f_equal. }
  destruct Hl1 as [Ha He]. rewrite Hn, runes_ascii_app, fmap_app, He by done. split.
  - by rewrite take_app_length' by (by rewrite !length_fmap).
  - intros Hrest. destruct l2; [|done]. by rewrite app_nil_r.
Qed.

Lemma named_unsafe name field :
  fold name = fold field → forallb (fun b => byteZ b <? 128) (fold field) = true →
  lowerRunes name = byteZ <$> fold field.
Proof.
  intros Hn Hf. apply (fold_lowerRunes name field []); [done|by rewrite app_nil_r|done].
Qed.

Lemma begins_unsafe name field :
  fold field `prefix_of` fold name → forallb (fun b => byteZ b <? 128) (fold field) = true →
  take (length (fold field)) (lowerRunes name) = byteZ <$> fold field.
Proof. intros [rest Hn] Hf. by apply (fold_lowerRunes name field rest). Qed.

Lemma unsafeHeader_complete name : carriesAuthority name → unsafeHeader name = true.
Proof.
  unfold unsafeHeader. cbv zeta. rewrite !orb_true_iff, !bool_decide_eq_true.
  intros [(field & Hin & Hn)|[Hp|Hp]].
  - unfold authorityFields in Hin. rewrite !elem_of_cons, elem_of_nil in Hin.
    destruct Hin as [->|[->|[->|[->|[->|[->|[]]]]]]]; rewrite (named_unsafe name _ Hn eq_refl);
      vm_compute; tauto.
  - left. right. exact (begins_unsafe name _ Hp eq_refl).
  - right. exact (begins_unsafe name _ Hp eq_refl).
Qed.

(** A request to storage: no jar, no redirects, no header that carries authority, to an
    address that is https or on this machine and holds no password. *)
Definition storageEvent `{!Urls} (e : event) : Prop :=
  match e with
  | Sent client q _ =>
      client.(Client_Jar) = false ∧ client.(Client_FollowsRedirects) = false
      ∧ (∃ raw u, Parse raw = Some u ∧ q.(Http_URL) = u.(URL_String) ∧ u.(URL_User) = false
           ∧ (u.(URL_Scheme) = "https" ∨ u.(URL_Scheme) = "http" ∧ loopback u.(URL_Hostname) = true))
      ∧ ∀ name, is_Some (q.(Http_Header) !! name) → ¬ carriesAuthority name
  | _ => False
  end.

Lemma uploadHeaders_safe required h h' :
  uploadHeaders required h = Ret h' →
  (∀ name, is_Some (h !! name) → unsafeHeader name = false) →
  ∀ name, is_Some (h' !! name) → unsafeHeader name = false.
Proof.
  revert h. induction required as [|[name value] required IH]; intros h; simpl.
  - by intros [= ->].
  - destruct (unsafeHeader name) eqn:Hu; [done|]. intros Hr Hh. apply (IH _ Hr). intros n.
    unfold Header_Set. destruct (decide (n = CanonicalHeaderKey name)) as [->|Hne].
    + intros _. by rewrite unsafeHeader_canonical.
    + rewrite lookup_insert_ne by done. apply Hh.
Qed.

Section StorageTheorems.
Context `{!Urls}.

Lemma validatedObjectURL_Ret raw u :
  validatedObjectURL raw = Ret u →
  ∃ raw, Parse raw = Some u ∧ u.(URL_User) = false
    ∧ (u.(URL_Scheme) = "https" ∨ u.(URL_Scheme) = "http" ∧ loopback u.(URL_Hostname) = true).
Proof.
  unfold validatedObjectURL. destruct (Parse (TrimSpace raw)) as [v|] eqn:Hp; [|done].
  destruct (_ || _) eqn:Hg; [done|]. intros [= <-]. exists (TrimSpace raw).
  apply orb_false_iff in Hg as [[_ Hu]%orb_false_iff Hs]. split; [done|]. split; [done|].
  destruct (_ =s "https") eqn:Hh; [by left; apply String.eqb_eq|]. simpl in Hs.
  apply negb_false_iff, andb_true_iff in Hs as [Hs Hl]. right. by apply String.eqb_eq in Hs.
Qed.

(** A request that storage is sent, whose headers pass the check. *)
Lemma storage_sent client raw u method header body x :
  validatedObjectURL raw = Ret u →
  (∀ name, is_Some (header !! name) → unsafeHeader name = false) →
  storageEvent (Sent (payloadStorageClient client) (mkHttpRequest method u.(URL_String) header body) x).
Proof.
  intros (raw' & Hp & Hu & Hs)%validatedObjectURL_Ret Hh. split; [done|]. split; [done|].
  split; [by exists raw', u|]. intros name Hn Ha%unsafeHeader_complete. simpl in Hn.
  by rewrite (Hh _ Hn) in Ha.
Qed.

Lemma download_confined client lease trace r :
  runs (downloadResourcePayload client lease) trace r →
  Forall storageEvent trace ∧ (length trace <= 1)%nat.
Proof.
  unfold downloadResourcePayload. intros Hr. destruct (validatedObjectURL _) as [u| | |] eqn:Hu;
    repeat (case_match; try (destruct Hr as [-> ->]; simpl; split; [done|lia]));
    try (destruct Hr as [-> ->]; simpl; split; [done|lia]).
  destruct Hr as (x & rest & -> & Hr). assert (rest = []) as -> by (by destruct x; destruct Hr).
  split; [|simpl; lia]. constructor; [|done]. eapply storage_sent; [done|].
  intros name [v Hv]. by rewrite lookup_empty in Hv.
Qed.

Lemma upload_confined client intent required object trace r :
  runs (uploadResourcePayloadObject client intent required object) trace r →
  Forall storageEvent trace ∧ (length trace <= 1)%nat.
Proof.
  unfold uploadResourcePayloadObject. intros Hr. destruct (validatedObjectURL _) as [u| | |] eqn:Hu;
    repeat (case_match; try (destruct Hr as [-> ->]; simpl; split; [done|lia]));
    try (destruct Hr as [-> ->]; simpl; split; [done|lia]).
  apply runs_bind in Hr.
  destruct Hr as [(t1 & t2 & h & -> & [-> Hh] & x & rest & -> & Hr)|(y & [-> ->] & _)];
    [|simpl; split; [done|lia]].
  assert (rest = []) as -> by (destruct x; [case_match|]; by destruct Hr).
  split; [|simpl; lia]. constructor; [|done]. eapply storage_sent; [done|].
  eapply uploadHeaders_safe; [done|]. intros name [v Hv]. by rewrite lookup_empty in Hv.
Qed.

(** C16: whatever a lease or an upload intent says, an object is moved in at most one request,
    to an address that is https or on this machine, without cookies, without following
    redirects, and without a header field that carries credentials or cookies, names the host
    or the origin, or belongs to Lotor, in any spelling of upper and lower case. *)
Theorem storage_confined client lease intent required object trace r r' :
  runs (downloadResourcePayload client lease) trace r
  ∨ runs (uploadResourcePayloadObject client intent required object) trace r' →
  Forall storageEvent trace ∧ (length trace <= 1)%nat.
Proof. intros [Hr|Hr]; [by eapply download_confined|by eapply upload_confined]. Qed.

(** C27: a download returns an object exactly if the lease is a valid one and the storage answers
    its URL with success and with a body that is whole, of the leased size and of the
    leased digest; that body is the object. *)
Theorem download_exact client lease trace raw :
  runs (downloadResourcePayload client lease) trace (Ret raw) ↔
  ∃ parsed response,
    validatedObjectURL lease.(Lease_DownloadURL) = Ret parsed
    ∧ lease.(Lease_DownloadMethod) = "GET"
    ∧ lease.(Lease_ObjectSize) <= 64 * 1024 * 1024
    ∧ newRequest "GET" parsed.(URL_String) = true
    ∧ trace = [Sent (payloadStorageClient client)
                 (mkHttpRequest "GET" parsed.(URL_String) ∅ None) (Some response)]
    ∧ 200 <= response.(Response_Status) < 300
    ∧ response.(Response_Body) = raw ∧ response.(Response_Broken) = false
    ∧ len raw = lease.(Lease_ObjectSize)
    ∧ Digest raw = ToLower (TrimSpace lease.(Lease_ObjectDigest)).
Proof.
  assert (Hcheck : ∀ response, 0 <= lease.(Lease_ObjectSize) →
    checkObject lease response = Ret raw ↔
    200 <= response.(Response_Status) < 300 ∧ response.(Response_Body) = raw
    ∧ response.(Response_Broken) = false ∧ len raw = lease.(Lease_ObjectSize)
    ∧ Digest raw = ToLower (TrimSpace lease.(Lease_ObjectDigest))).
  { intros [status h body broken] Hsize. unfold checkObject, success, readLimited. simpl.
    split.
    - destruct ((status <? 200) || (300 <=? status)) eqn:Hs; simpl; [done|].
      apply orb_false_iff in Hs as [Hs1 Hs2]. breflect.
      destruct (lease.(Lease_ObjectSize) + 1 <=? len body) eqn:Hl; breflect.
      + assert (Ht : len (take (Z.to_nat (lease.(Lease_ObjectSize) + 1)) body)
                     = lease.(Lease_ObjectSize) + 1) by (unfold len in *; rewrite length_take; lia).
        rewrite Ht. destruct (_ =? _) eqn:He; [breflect; lia|done].
      + destruct broken; [done|]. destruct (len body =? _) eqn:He; [|done]. simpl.
        destruct (_ =s _) eqn:Hd; [|done]. intros [= <-]. breflect. apply String.eqb_eq in Hd.
        split_and!; try done; lia.
    - intros (Hs & -> & -> & Hl & Hd). destruct ((status <? 200) || (300 <=? status)) eqn:He.
      { apply orb_true_iff in He as [He|He]; breflect; lia. }
      simpl. destruct (lease.(Lease_ObjectSize) + 1 <=? len raw) eqn:Hx; [breflect; lia|].
      rewrite Hl, Z.eqb_refl. simpl. by rewrite Hd, String.eqb_refl. }
  unfold downloadResourcePayload. split.
  - destruct (validatedObjectURL _) as [parsed|e| |]; try by intros [_ ?].
    destruct (_ =s "GET") eqn:Hm; [|by intros [_ ?]]. simpl. apply String.eqb_eq in Hm.
    destruct (_ || _) eqn:Hb; [by intros [_ ?]|]. apply orb_false_iff in Hb as [Hb1 Hb2].
    change (Z.shiftl 64 20) with (64 * 1024 * 1024) in Hb2. breflect.
    destruct (newRequest _ _) eqn:Hn; [|by intros [_ ?]]. simpl. intros (x & rest & -> & Hr).
    destruct x as [response|]; destruct Hr as [-> Hr]; [|done]. symmetry in Hr.
    apply Hcheck in Hr as (H1 & H2 & H3 & H4 & H5); [|done].
    exists parsed, response. split_and!; try done; lia.
  - intros (parsed & response & -> & Hm & Hsz & Hn & -> & Hs & Hb & Hk & Hl & Hd). rewrite Hm. simpl.
    assert (Hpos : 0 <= lease.(Lease_ObjectSize)) by (rewrite <- Hl; unfold len; lia).
    destruct (_ || _) eqn:Hx.
    { change (Z.shiftl 64 20) with (64 * 1024 * 1024) in Hx.
      apply orb_true_iff in Hx as [Hx|Hx]; breflect; lia. }
    rewrite Hn. simpl. eexists _, _. split; [done|]. split; [done|]. symmetry. by apply Hcheck.
Qed.
End StorageTheorems.

(** * Executions *)

(** An envelope is text in the alphabets of base64url and hexadecimal digits. *)
Definition plainEnvelope (e : executionEnvelope) : Prop :=
  forallb urlAlphabet (bytes_of e.(executionEnvelope_Nonce)) = true
  ∧ forallb urlAlphabet (bytes_of e.(executionEnvelope_Ciphertext)) = true
  ∧ forallb urlAlphabet (bytes_of e.(executionEnvelope_AADHash)) = true.

(** Such a value is read back from its text. *)
Class EnvelopeLaws `{!JsonText} `{!ResourceDecoders} : Prop := {
  Unmarshal_envelope e raw : plainEnvelope e → Render (toJson e) = Some raw → Unmarshal raw = Some e;
}.

Lemma urlAlphabet_rawURLEncode b : forallb urlAlphabet (rawURLEncode b) = true.
Proof.
  unfold rawURLEncode. pose proof (sextets_range b) as Hr. induction Hr as [|z l Hz _ IH]; [done|].
  csimpl. by rewrite urlAlphabet_enc6, dec6_enc6, IH.
Qed.

Lemma urlAlphabet_Digest b : forallb urlAlphabet (bytes_of (Digest b)) = true.
Proof.
  unfold Digest, EncodeToString. rewrite bytes_of_string_of. pose proof (hexEncode_lower (Sum256 b)) as H.
  rewrite forallb_forall in H |- *. intros c Hc. apply H in Hc. revert Hc. clear.
  unfold lowerHex, urlAlphabet. intros Hc. rewrite !orb_true_iff, !andb_true_iff in *.
  breflect. lia.
Qed.

Lemma sealed_plain nonce ciphertext aad :
  plainEnvelope (mkexecutionEnvelope (string_of (rawURLEncode nonce))
                   (string_of (rawURLEncode ciphertext)) (Digest aad)).
Proof.
  unfold plainEnvelope. simpl. rewrite !bytes_of_string_of, !urlAlphabet_rawURLEncode.
  auto using urlAlphabet_Digest.
Qed.

Section ExecutionTheorems.
Context `{!JsonText} `{!Problems} `{!Urls} `{!ResourceDecoders} `{!AEAD} `{!AEADLaws} `{!EnvelopeLaws}.

(** C28: what [sealExecutionPayload] protects, [openExecutionPayload] opens again with the same key
    and additional data, and it opens nothing else: any text it accepts holds the cipher's
    own encryption of the result under that key and that data. *)
Theorem execution_payload_exact key aad :
  (∀ plaintext trace encoded,
     runs (sealExecutionPayload key plaintext aad) trace (Ret encoded) →
     (∀ size random, Drawn size random ∈ trace → ∀ b, random = Some b → len b = size) →
     openExecutionPayload key encoded aad = Ret plaintext)
  ∧ (∀ plaintext encoded,
       openExecutionPayload key encoded aad = Ret plaintext →
       ∃ wire envelope nonce,
         rawURLDecode false (bytes_of encoded) = Some wire ∧ Unmarshal wire = Some envelope
         ∧ rawURLDecode false (bytes_of envelope.(executionEnvelope_Nonce)) = Some nonce
         ∧ rawURLDecode false (bytes_of envelope.(executionEnvelope_Ciphertext))
           = Some (Seal key nonce plaintext aad)
         ∧ envelope.(executionEnvelope_AADHash) = Digest aad ∧ len key = 32 ∧ len nonce = 12).
Proof.
  split.
  - intros plaintext trace encoded Hr Hrandom. unfold sealExecutionPayload, executionAEAD in Hr.
    destruct (len key =? 32) eqn:Hk; [|by apply runs_bind_Ret in Hr as (?&?&?&_&[_ ?]&_)].
    simpl in Hr. destruct Hr as ([nonce|] & rest & -> & Hr); [|by destruct Hr].
    assert (Hn : len nonce = 12) by (eapply Hrandom; [left|done]).
    destruct (Render _) as [wire|] eqn:Hw; [|by destruct Hr].
    destruct (_ <? _) eqn:Hsz; [by destruct Hr|]. destruct Hr as [_ [= ->]].
    apply Z.eqb_eq in Hk. unfold openExecutionPayload, slen. rewrite bytes_of_string_of.
    rewrite length_rawURLEncode, Hsz, rawURL_roundtrip.
    rewrite (Unmarshal_envelope _ _ (sealed_plain _ _ _) Hw). simpl.
    rewrite !bytes_of_string_of, !rawURL_roundtrip, Hn, String.eqb_refl. simpl.
    unfold executionAEAD. rewrite Hk. simpl. by rewrite Open_Seal.
  - intros plaintext encoded. unfold openExecutionPayload, executionAEAD.
    destruct (_ <? _); [done|]. destruct (rawURLDecode _ _) as [wire|] eqn:Hw; [|done].
    destruct (Unmarshal wire) as [envelope|] eqn:He; [|done].
    destruct (rawURLDecode _ (bytes_of envelope.(executionEnvelope_Nonce))) as [nonce|] eqn:Hn; [|done].
    destruct (rawURLDecode _ (bytes_of envelope.(executionEnvelope_Ciphertext))) as [ct|] eqn:Hc; [|done].
    destruct (len nonce =? 12) eqn:Hl; [|done]. simpl. destruct (_ =s _) eqn:Hh; [|done]. simpl.
    destruct (len key =? 32) eqn:Hk; [|done]. simpl.
    destruct (Open key nonce ct aad) as [p|] eqn:Ho; [|done]. intros [= ->].
    apply String.eqb_eq in Hh. breflect. apply Seal_Open in Ho; [|done..]. subst ct.
    exists wire, envelope, nonce. done.
Qed.
End ExecutionTheorems.

Section ExecutionChain.
Context `{!JsonText} `{!Problems} `{!Urls} `{!ResourceDecoders}.

Lemma resourceResponse_header {A} (out : target A) x h a :
  answered (resourceResponse out) (Some x) = Ret (h, a) → h = x.(Response_Header).
Proof.
  unfold answered, resourceResponse. destruct (readLimited _ _); [|done].
  repeat (case_match; try done); by intros [= <- _].
Qed.

Definition preflightRequest (c : ResourceClient) (resource : string)
    (payload : option (list byte)) : HttpRequest :=
  resourceRequest c "POST" (resourcePath resource +:+ "/executions/preflight") ∅ true payload.

Definition commitRequest (c : ResourceClient) (resource : string) (p : ResourceExecutionPreflight)
    (payload : option (list byte)) : HttpRequest :=
  resourceRequest c "POST" (resourcePath resource +:+ "/executions/commit")
    {[ "Lotor-Execution-Token" := [p.(ResourceExecutionPreflight_Token)] ]} true payload.

(** What is committed: the fingerprint of the preflight and, if there is one, the protected
    request with the policy for its response. *)
Definition commitDocument (p : ResourceExecutionPreflight) (commit : ResourceExecutionCommitInput)
    : json :=
  JObject
    (("request_fingerprint", JString p.(ResourceExecutionPreflight_RequestFingerprint))
     :: (if commit.(ResourceExecutionCommitInput_ProtectedRequest) =s "" then []
         else [("protected_request", JString commit.(ResourceExecutionCommitInput_ProtectedRequest))])
     ++ (if commit.(ResourceExecutionCommitInput_ResponsePolicyRef) =s "" then []
         else [("response_policy_ref",
                JString commit.(ResourceExecutionCommitInput_ResponsePolicyRef))])).

Lemma commitDocument_eq p commit :
  JObject
    (member "request_fingerprint" p.(ResourceExecutionPreflight_RequestFingerprint)
     ++ omitted "protected_request" commit.(ResourceExecutionCommitInput_ProtectedRequest)
     ++ omitted "response_policy_ref" commit.(ResourceExecutionCommitInput_ResponsePolicyRef))
  = commitDocument p commit.
Proof.
  unfold commitDocument, omitted, isEmpty, string_isEmpty.
  by rewrite (String.eqb_sym "" (ResourceExecutionCommitInput_ProtectedRequest _)),
    (String.eqb_sym "" (ResourceExecutionCommitInput_ResponsePolicyRef _)).
Qed.

Lemma PreflightExecution_spec c resource request trace p :
  runs (PreflightExecution c resource request) trace (Ret p) →
  (∃ payload x, Render (toJson request) = Some payload
     ∧ trace = [Sent c.(ResourceClient_httpClient)
                  (preflightRequest c resource (Some payload)) (Some x)]
     ∧ p.(ResourceExecutionPreflight_Token)
       = TrimSpace (Header_Get x.(Response_Header) "Lotor-Execution-Token"))
  ∧ preflightMatches resource request p = true ∧ p.(ResourceExecutionPreflight_Token) ≠ ""
  ∧ TrimSpace p.(ResourceExecutionPreflight_Token) = p.(ResourceExecutionPreflight_Token).
Proof.
  intros (t1 & t2 & [h out] & -> & Hs & Hr)%runs_bind_Ret. simpl in Hr.
  apply runs_sendJSON in Hs as [(_ & [?|?])|(payload & x & Hb & -> & Hx)]; [done..|].
  destruct x as [x|]; [|done]. symmetry in Hx.
  apply resourceResponse_header in Hx as ->.
  set (token := TrimSpace (Header_Get _ "Lotor-Execution-Token")) in *.
  destruct (token =s "") eqn:Ht; [by destruct Hr|]. apply String.eqb_neq in Ht. simpl in Hr.
  destruct (preflightMatches _ _ _) eqn:Hm; [|by destruct Hr]. destruct Hr as [-> [= ->]].
  simpl in Hb. destruct (Render _) as [raw|]; [|done]. injection Hb as <-.
  split_and!; [by exists raw, x|done..|]. apply TrimSpace_idem.
Qed.

(** What is committed fits the representation that the preflight asks for. *)
Definition commitFits (p : ResourceExecutionPreflight) (commit : ResourceExecutionCommitInput) : Prop :=
  (p.(ResourceExecutionPreflight_PayloadRepresentation) = "encrypted-envelope-v1"
   ∧ commit.(ResourceExecutionCommitInput_ProtectedRequest) ≠ ""
   ∧ commit.(ResourceExecutionCommitInput_ResponsePolicyRef)
     = p.(ResourceExecutionPreflight_ResponsePolicyRef))
  ∨ (p.(ResourceExecutionPreflight_PayloadRepresentation) = "raw"
     ∧ commit.(ResourceExecutionCommitInput_ProtectedRequest) = ""
     ∧ commit.(ResourceExecutionCommitInput_ResponsePolicyRef) = "").

Lemma commitAllowed_spec resource p commit :
  commitAllowed resource p commit = true →
  p.(ResourceExecutionPreflight_Resource) = resource ∧ commitFits p commit.
Proof.
  unfold commitAllowed. cbv zeta. rewrite !andb_true_iff. intros [[Hr%String.eqb_eq Hraw] Henc].
  split; [done|]. destruct (_ =s encryptedRepresentation) eqn:Hx; simpl in *.
  - apply String.eqb_eq in Hx. apply negb_true_iff, orb_false_iff in Henc as [Henc Href].
    apply negb_false_iff, String.eqb_eq in Href. apply String.eqb_neq in Henc. by left.
  - rewrite !negb_true_iff, !orb_false_iff, !negb_false_iff, !String.eqb_eq in Hraw.
    destruct Hraw as [[? ?] ?]. by right.
Qed.

(** An authorization that agrees with the preflight in every field they share. *)
Definition authorizes (p : ResourceExecutionPreflight) (a : ResourceExecutionAuthorization) : Prop :=
  a.(ResourceExecutionAuthorization_RequestFingerprint) = p.(ResourceExecutionPreflight_RequestFingerprint)
  ∧ a.(ResourceExecutionAuthorization_Resource) = p.(ResourceExecutionPreflight_Resource)
  ∧ a.(ResourceExecutionAuthorization_CatalogEntryID) = p.(ResourceExecutionPreflight_CatalogEntryID)
  ∧ a.(ResourceExecutionAuthorization_PayloadSlot) = p.(ResourceExecutionPreflight_PayloadSlot)
  ∧ a.(ResourceExecutionAuthorization_PayloadVersion) = p.(ResourceExecutionPreflight_PayloadVersion)
  ∧ a.(ResourceExecutionAuthorization_PayloadRepresentation)
    = p.(ResourceExecutionPreflight_PayloadRepresentation)
  ∧ a.(ResourceExecutionAuthorization_ExecutionMode) = p.(ResourceExecutionPreflight_ExecutionMode)
  ∧ a.(ResourceExecutionAuthorization_ExpiresAt) = p.(ResourceExecutionPreflight_ExpiresAt).

Lemma authorizationMatches_spec p a : authorizationMatches p a = true → authorizes p a.
Proof.
  unfold authorizationMatches, authorizes. rewrite !andb_true_iff, !String.eqb_eq, !Z.eqb_eq.
  tauto.
Qed.

Lemma CommitExecution_spec c resource p commit trace r :
  runs (CommitExecution c resource p commit) trace r →
  TrimSpace p.(ResourceExecutionPreflight_Token) = p.(ResourceExecutionPreflight_Token) →
  (trace = [] ∧ (∃ e, r = Throw e)
   ∨ commitAllowed resource p commit = true
     ∧ ∃ payload x, Render (commitDocument p commit) = Some payload
         ∧ trace = [Sent c.(ResourceClient_httpClient)
                      (commitRequest c resource p (Some payload)) x])
  ∧ ∀ a, r = Ret a → trace ≠ [] ∧ authorizes p a.
Proof.
  intros Hr Ht. unfold CommitExecution, requiredControl in Hr. rewrite Ht, commitDocument_eq in Hr.
  destruct (commitAllowed _ _ _) eqn:Ha; simpl in Hr; last first.
  { destruct Hr as [-> ->]. split; [left; eauto|by intros ? [=]]. }
  assert (Hbody : ∀ payload, renderBody (Some (commitDocument p commit)) = Ret payload →
    ∃ raw, Render (commitDocument p commit) = Some raw ∧ payload = Some raw).
  { simpl. destruct (Render _) as [raw|]; [|done]. intros ? [= <-]. eauto. }
  apply runs_bind in Hr. destruct Hr as [(v1 & v2 & [h a] & -> & Hs & Hr)|(y & Hs & Hf)];
    apply runs_sendJSON in Hs.
  - destruct Hs as [(_ & [?|?])|(payload & x & (raw & Hraw & ->)%Hbody & -> & _)]; [done..|].
    simpl in Hr. destruct (authorizationMatches p a) eqn:Hm; destruct Hr as [-> ->];
      (split; [right; eauto|]); intros ? [= <-]. split; [done|]. by apply authorizationMatches_spec.
  - assert (Hnr : ∀ a, r ≠ Ret a) by (intros a ->; by destruct y).
    split; [|by intros a Heq; destruct (Hnr a)].
    destruct Hs as [(-> & Hy)|(payload & x & (raw & Hraw & ->)%Hbody & -> & _)]; [|right; eauto].
    left. split; [done|]. destruct Hy as [->| ->]; simplify_eq/=; eauto.
Qed.

(** C14: an execution is committed as it was preflighted. [PreflightExecution] asks once, with
    the request as it was given, and returns a preflight that repeats the resource, the
    method, the path, the query, the content type and the digest and size of the body of that
    request, with the token of the answer. With it, [CommitExecution] sends nothing, or one
    request to the same resource with that token and a body made of the fingerprint of the
    preflight and of what is committed, which is a protected request under the
    preflight's response policy or nothing, as the preflight asks; and it returns only an
    authorization that agrees with the preflight in every field they share. *)
Theorem execution_chain c resource request p t1 resource' commit t2 r :
  runs (PreflightExecution c resource request) t1 (Ret p) →
  runs (CommitExecution c resource' p commit) t2 r →
  (∃ payload x, Render (toJson request) = Some payload
     ∧ t1 = [Sent c.(ResourceClient_httpClient)
               (preflightRequest c resource (Some payload)) (Some x)]
     ∧ p.(ResourceExecutionPreflight_Token)
       = TrimSpace (Header_Get x.(Response_Header) "Lotor-Execution-Token"))
  ∧ p.(ResourceExecutionPreflight_Resource) = resource
  ∧ p.(ResourceExecutionPreflight_Method) = request.(ResourceExecutionRequest_Method)
  ∧ p.(ResourceExecutionPreflight_Path) = request.(ResourceExecutionRequest_Path)
  ∧ p.(ResourceExecutionPreflight_Query) = request.(ResourceExecutionRequest_Query)
  ∧ p.(ResourceExecutionPreflight_ContentType) = request.(ResourceExecutionRequest_ContentType)
  ∧ p.(ResourceExecutionPreflight_RequestBodyDigest)
    = request.(ResourceExecutionRequest_RequestBodyDigest)
  ∧ p.(ResourceExecutionPreflight_RequestBodySize)
    = request.(ResourceExecutionRequest_RequestBodySize)
  ∧ p.(ResourceExecutionPreflight_Token) ≠ ""
  ∧ (t2 = [] ∧ (∃ e, r = Throw e)
     ∨ resource' = resource ∧ commitFits p commit
       ∧ ∃ payload x, Render (commitDocument p commit) = Some payload
           ∧ t2 = [Sent c.(ResourceClient_httpClient)
                     (commitRequest c resource p (Some payload)) x])
  ∧ ∀ a, r = Ret a → t2 ≠ [] ∧ authorizes p a.
Proof.
  intros Hp Hc. apply PreflightExecution_spec in Hp as (Hsent & Hm & Ht & Htrim).
  apply CommitExecution_spec in Hc as [Hc Ha]; [|done].
  unfold preflightMatches in Hm. rewrite !andb_true_iff, !String.eqb_eq, !Z.eqb_eq in Hm.
  destruct Hm as [[[[[[Hr ?] ?] ?] ?] ?] ?]. split_and!; try done.
  destruct Hc as [?|(Hallow%commitAllowed_spec & payload & x & Hpay & ->)]; [by left|]. right.
  destruct Hallow as [Hres Henc]. rewrite Hr in Hres. subst resource'. split_and!; eauto.
Qed.
End ExecutionChain.

(** * Samples *)
Module ResourceClientSamples.
(** A document is rendered as the table of its strings. *)
Definition stringsOf (doc : json) : list string :=
  match doc with
  | JObject members => (fun m => match m.2 with JString s => s | _ => "" end) <$> members
  | _ => []
  end.
#[local] Instance text2 : JsonText := {| Render doc := Some (markTable [stringsOf doc]) |}.
#[local] Instance problems2 : Problems := {| problemOf _ := ("", "") |}.
#[local] Instance anyZero2 {A} `{!Zero A} : JsonUnmarshal A := {| Unmarshal _ := Some zero |}.
#[local] Instance envelopes2 : JsonUnmarshal executionEnvelope := {|
  Unmarshal raw :=
    match unmark raw [] [] [] with
    | Some [[nonce; ciphertext; hash]] => Some (mkexecutionEnvelope nonce ciphertext hash)
    | _ => None
    end
|}.
Definition document2 : ProviderDocument := mkProviderDocument None "" 200.
#[local] Instance documents2 : JsonUnmarshal ProviderDocument := {| Unmarshal _ := Some document2 |}.

Definition request2 : ResourceExecutionRequest := mkResourceExecutionRequest "POST" "/send" "" "" "" 0.
Definition preflight2 (token : string) : ResourceExecutionPreflight :=
  mkResourceExecutionPreflight "" "vault:one" "/send" "" "" "" token "" "" "" "" "POST" "" "" "" ""
    "raw" "" 0 0 0 0 0 0.
#[local] Instance preflights2 : JsonUnmarshal ResourceExecutionPreflight :=
  {| Unmarshal _ := Some (preflight2 "") |}.
Definition authorization2 : ResourceExecutionAuthorization :=
  mkResourceExecutionAuthorization "authorized" "" "vault:one" "" "" "raw" "" "" 0 0 0.
#[local] Instance authorizations2 : JsonUnmarshal ResourceExecutionAuthorization :=
  {| Unmarshal _ := Some authorization2 |}.
#[local] Instance decoders2 : ResourceDecoders.
Proof. split; apply _. Defined.

Definition store2 : string := "https://store/object".
#[local] Instance urls2 : Urls := {|
  Parse s := if (s =s store2)%bool
             then Some (mkURL "https" false "store" "store" "" "/object" "" "" "" false "" store2)
             else None;
  ParseRequestURI _ := None;
  loopbackIP _ := false;
  newRequest _ _ := true
|}.
#[local] Existing Instance hashAEAD.

Lemma envelopes2_laws : EnvelopeLaws.
Proof.
  split. intros [nonce ciphertext hash] raw _ [= <-].
  transitivity (match unmark (markTable [[nonce; ciphertext; hash]]) [] [] [] with
                | Some [[n; c; h]] => Some (mkexecutionEnvelope n c h)
                | _ => None
                end); [done|]. by rewrite unmark_table.
Qed.

Definition answering (h : Header) (body : string) : environment :=
  mkEnvironment (fun _ _ _ => Some (mkHttpResponse 200 h (bytes_of body) false)) (fun _ => false)
    (fun _ size => Some (replicate (Z.to_nat size) x07)).

Definition lease2 : ResourcePayloadAccessLease :=
  mkLease "vault:one" "main" "raw" (Digest (bytes_of "object")) (" " +:+ store2) "GET" "" 1 6 0 0 0.
Definition intent2 : ResourcePayloadUploadIntent :=
  mkResourcePayloadUploadIntent (Some {["content-type" := "text/plain"]}) "vault:one" "main" store2 "PUT"
    "token" 1 0 0.

Example download2 :
  (exec (answering ∅ "object") [] (downloadResourcePayload DefaultClient lease2)).2
  = Ret (bytes_of "object").
Proof. by vm_compute. Qed.

Lemma storage_confined_witness :
  let run := exec (answering ∅ "") [] (uploadResourcePayloadObject (mkHttpClient true true) intent2
    [("content-type", "text/plain")] (bytes_of "object")) in
  run.2 = Ret tt ∧ Forall storageEvent run.1.
Proof.
  split; [by vm_compute|].
  eapply (storage_confined _ lease2 intent2 _ _ _ (Throw ErrTransport)). right. apply exec_runs.
Defined.

Definition key2 : list byte := replicate 32 x09.

Definition seal2 : io string := sealExecutionPayload key2 (bytes_of "hello") (bytes_of "aad").
Definition run2 : list event * outcome api_error string :=
  Eval vm_compute in exec (answering ∅ "") [] seal2.
Lemma run2_exec : exec (answering ∅ "") [] seal2 = run2.
Proof. vm_compute. reflexivity. Qed.

Lemma run2_drawn size random : Drawn size random ∈ run2.1 → ∀ b, random = Some b → len b = size.
Proof. intros [= -> ->]%list_elem_of_singleton b [= <-]. done. Qed.

Lemma execution_payload_exact_witness :
  match run2.2 with
  | Ret encoded => openExecutionPayload key2 encoded (bytes_of "aad") = Ret (bytes_of "hello")
  | _ => False
  end.
Proof.
  apply (proj1 (@execution_payload_exact _ _ _ hashAEAD_laws envelopes2_laws key2 (bytes_of "aad"))
    (bytes_of "hello") run2.1); [|exact run2_drawn].
  pose proof (exec_runs (answering ∅ "") [] seal2) as Hr. rewrite run2_exec in Hr. exact Hr.
Defined.

Definition client2 : ResourceClient :=
  mkResourceClient (mkHttpClient false false) "https://control" "app" "pk" "credential".
Definition tokens2 : environment := answering {["Lotor-Execution-Token" := [" token "]]} "".
Definition commit2 : ResourceExecutionCommitInput := mkResourceExecutionCommitInput "" "".

Lemma execution_chain_witness :
  let first := exec tokens2 [] (PreflightExecution client2 "vault:one" request2) in
  let second := exec tokens2 [] (CommitExecution client2 "vault:one" (preflight2 "token") commit2) in
  first.2 = Ret (preflight2 "token") ∧ second.2 = Ret authorization2
  ∧ authorizes (preflight2 "token") authorization2.
Proof.
  assert (H1 : (exec tokens2 [] (PreflightExecution client2 "vault:one" request2)).2
               = Ret (preflight2 "token")) by (by vm_compute).
  assert (H2 : (exec tokens2 [] (CommitExecution client2 "vault:one" (preflight2 "token") commit2)).2
               = Ret authorization2) by (by vm_compute).
  split; [done|]. split; [done|].
  pose proof (exec_runs tokens2 [] (PreflightExecution client2 "vault:one" request2)) as R1.
  rewrite H1 in R1.
  apply (execution_chain client2 "vault:one" request2 (preflight2 "token") _ "vault:one" commit2 _ _ R1
           (exec_runs tokens2 [] _)). exact H2.
Defined.
End ResourceClientSamples.
