(* ===== verification/ResourceLinks.v ===== *)
(** Resource links: [lotorhttp/resource_links.go] and [resource_policies.go].

    Collaboration on resources through a delegated client: links are preflighted and then
    committed, and every request and response is validated. Where the source checks the entries
    of a map literal, which Go visits in any order, the model takes them as written: which
    of several errors is reported is not specified, whether there is one is. *)
From S2P Require Import Prelude GoStd Interfaces Protocol Control ApiTypes Api ControlClient.

#[local] Open Scope bool_scope.

(** * Strict requests *)

(** One call of [Decoder.Decode] with [DisallowUnknownFields]. *)
Class JsonStrict (A : Type) : Type := { strictDecode : list byte → option (A * list byte) }.

Class StrictDecoders : Type := {
  #[global] strict_CandidateSearchResult :: JsonStrict ResourceLinkCandidateSearchResult;
  #[global] strict_LinkResult :: JsonStrict ResourceLinkResult;
  #[global] strict_UnlinkResult :: JsonStrict UnlinkResult;
  #[global] strict_CollaboratorList :: JsonStrict ResourceCollaboratorList;
  #[global] strict_SubjectAccessCheck :: JsonStrict ResourceSubjectAccessCheck;
  #[global] strict_SearchList :: JsonStrict ResourceSearchList;
  #[global] strict_E2EEPolicy :: JsonStrict OrganizationE2EEPolicy;
  #[global] strict_CollaborationPolicyMutation :: JsonStrict ResourceCollaborationPolicyMutation;
}.

Section Strict.
Context `{!JsonText} `{!Problems} `{!Urls} `{!RawJson}.

Definition invalidResponse : api_error := ErrorString "invalid Lotor response".

Definition readStrict {A} `{!JsonStrict A} (raw : list byte) : outcome api_error A :=
  match strictDecode raw with
  | None => Throw invalidResponse
  | Some (value, rest) => if atEOF rest then Ret value else Throw invalidResponse
  end.

Definition strictRequestHeaders {A} `{!JsonStrict A} (c : ControlClient) (method path key : string)
    (headers : Header) (body : option json) : io (Header * A) :=
  r ← requestHeaders c method path key headers body intoRaw;
  out ← lift (readStrict r.2);
  mret (r.1, out).

Definition strictRequest {A} `{!JsonStrict A} (c : ControlClient) (method path key : string)
    (headers : Header) (body : option json) : io A :=
  r ← strictRequestHeaders c method path key headers body; mret r.2.
End Strict.

(** * Checks *)
Definition graphResourcePath (resource : string) : string :=
  "/resources/" +:+ PathEscape (TrimSpace resource).

Definition graphString (value name : string) (maximum : Z) : outcome api_error string :=
  let value := TrimSpace value in
  if (value =s "") || (maximum <? slen value) then Throw (ErrorString (name +:+ " is invalid"))
  else Ret value.

Definition graphSubject (value : string) : outcome api_error string :=
  match graphString value "subject" 512 with
  | Ret value =>
      if ContainsAny value [x20; x09; x0d; x0a; x2f; x3f; x23]
      then Throw (ErrorString "subject is invalid") else Ret value
  | _ => Throw (ErrorString "subject is invalid")
  end.

Definition requireResourceGraphUser (c : ControlClient) : outcome api_error unit :=
  if c.(Control_userToken) =s ""
  then Throw (ErrorString "resource collaboration requires ForUser delegation") else Ret tt.

Definition requireApplicationAuthority (c : ControlClient) : outcome api_error unit :=
  if negb (c.(Control_userToken) =s "")
  then Throw (ErrorString "operation requires application authority") else Ret tt.

Definition oneOf (value : string) (allowed : list string) : bool := existsb (String.eqb value) allowed.
Definition validPage (limit : Z) : bool := (0 <=? limit) && (limit <=? 100).

(** [if bad { return errors.New(message) }]. *)
Definition refuse (bad : bool) (message : string) : outcome api_error unit :=
  if bad then Throw (ErrorString message) else Ret tt.

(** A loop that stops at the first error. *)
Fixpoint each {A} (f : A → outcome api_error unit) (l : list A) : outcome api_error unit :=
  match l with
  | [] => Ret tt
  | x :: l => _ ← f x; each f l
  end.

Definition checkString (value name : string) (maximum : Z) : outcome api_error unit :=
  _ ← graphString value name maximum; Ret tt.

(** Present strings have to be valid. *)
Definition checkPresent (item : string * string * Z) : outcome api_error unit :=
  let '(name, value, maximum) := item in
  if value =s "" then Ret tt else checkString value name maximum.

(** Strings that are distinct and satisfy a test; [seen] is the map of the source. *)
Fixpoint distinct (ok : string → bool) (message : string) (seen l : list string)
    : outcome api_error unit :=
  match l with
  | [] => Ret tt
  | x :: l =>
      if bool_decide (x ∈ seen) || negb (ok x) then Throw (ErrorString message)
      else distinct ok message (x :: seen) l
  end.

(** * Link candidates *)
Definition candidateKinds : list string := ["user"; "group"; "service_account"].

(** The source trims the query and the relation of its argument in place. *)
Definition validateCandidateSearch (input : ResourceLinkCandidateSearchInput)
    : outcome api_error ResourceLinkCandidateSearchInput :=
  let message := "query must contain between 2 and 256 characters" in
  match graphString input.(ResourceLinkCandidateSearchInput_Query) "query" 256 with
  | Ret query =>
      if slen query <? 2 then Throw (ErrorString message)
      else
        relation ← graphString input.(ResourceLinkCandidateSearchInput_Relation) "relation" 128;
        let cursor := input.(ResourceLinkCandidateSearchInput_Cursor) in
        let kinds := input.(ResourceLinkCandidateSearchInput_Kinds) in
        let limit := input.(ResourceLinkCandidateSearchInput_Limit) in
        _ ← refuse (negb (validPage limit)) "limit must be between 1 and 100";
        _ ← refuse ((2048 <? slen cursor) || (3 <? len kinds)) "invalid candidate search";
        _ ← distinct (fun kind => oneOf kind candidateKinds) "invalid candidate kind" [] kinds;
        Ret (mkResourceLinkCandidateSearchInput query relation cursor kinds limit)
  | _ => Throw (ErrorString message)
  end.

(** A cursor is absent, or neither empty nor too long. *)
Definition badCursor (cursor : option string) : bool :=
  match cursor with Some cursor => (cursor =s "") || (2048 <? slen cursor) | None => false end.

Definition validateCandidate (item : ResourceLinkCandidate) : outcome api_error unit :=
  let kind := item.(ResourceLinkCandidate_Kind) in
  let message := "invalid candidate response" in
  _ ← refuse (negb (oneOf kind candidateKinds)
              || negb (oneOf item.(ResourceLinkCandidate_LinkState)
                         ["available"; "linked"; "pending_invitation"])
              || (item.(ResourceLinkCandidate_DisplayName) =s "")) message;
  refuse ((kind =s "user") && (item.(ResourceLinkCandidate_Subject) =s "")
          || (kind =s "group")
             && ((item.(ResourceLinkCandidate_Resource) =s "")
                 || negb (item.(ResourceLinkCandidate_SubjectRelation) =s "member"))
          || (kind =s "service_account")
             && ((item.(ResourceLinkCandidate_Resource) =s "")
                 || negb (item.(ResourceLinkCandidate_SubjectRelation) =s ""))) message.

Definition validateCandidateSearchResult (result : ResourceLinkCandidateSearchResult)
    : outcome api_error unit :=
  match result.(ResourceLinkCandidateSearchResult_Candidates) with
  | None => Throw (ErrorString "invalid candidate response")
  | Some candidates =>
      _ ← refuse (badCursor result.(ResourceLinkCandidateSearchResult_NextCursor))
            "invalid candidate cursor";
      each validateCandidate candidates
  end.

(** * Link changes and envelopes *)
Definition validateLinkChange (change : ResourceLinkChange) : outcome api_error unit :=
  let action := change.(ResourceLinkChange_Action) in
  _ ← refuse (negb (oneOf action ["grant"; "revoke"])) "invalid link action";
  _ ← refuse ((action =s "grant") && (change.(ResourceLinkChange_Relation) =s "")
              || (action =s "revoke") && (change.(ResourceLinkChange_LinkID) =s "")
                 && (change.(ResourceLinkChange_Collaborator) =s "")) "invalid link change target";
  _ ← each checkPresent
        [("link ID", change.(ResourceLinkChange_LinkID), 256);
         ("collaborator", change.(ResourceLinkChange_Collaborator), 512);
         ("relation", change.(ResourceLinkChange_Relation), 128);
         ("subject", change.(ResourceLinkChange_Subject), 512);
         ("email", change.(ResourceLinkChange_Email), 320);
         ("subject resource", change.(ResourceLinkChange_SubjectResource), 512);
         ("subject relation", change.(ResourceLinkChange_SubjectRelation), 128)];
  let provisioning := change.(ResourceLinkChange_Provisioning) in
  let delivery := change.(ResourceLinkChange_Delivery) in
  refuse (negb (provisioning =s "") && negb (oneOf provisioning ["existing_only"; "create_if_missing"])
          || negb (delivery =s "")
             && negb (oneOf delivery ["email"; "in_app"; "external"; "none"; "notification_only"]))
    "invalid link change mode".

Definition linkSuite : string := "X25519-HKDF-SHA256-AES-256-GCM".

Definition validateLinkEnvelope (envelope : ResourceLinkEnvelopeSubmission) : outcome api_error unit :=
  _ ← refuse (negb (envelope.(ResourceLinkEnvelopeSubmission_EncryptionSuite) =s linkSuite))
        "invalid resource link envelope suite";
  each (fun item : string * string * Z => checkString item.1.2 item.1.1 item.2)
    [("manifest item ID", envelope.(ResourceLinkEnvelopeSubmission_ManifestItemID), 256);
     ("ciphertext", envelope.(ResourceLinkEnvelopeSubmission_Ciphertext), 65536);
     ("AAD hash", envelope.(ResourceLinkEnvelopeSubmission_AADHash), 128);
     ("issuer", envelope.(ResourceLinkEnvelopeSubmission_Issuer), 512);
     ("issuer key ID", envelope.(ResourceLinkEnvelopeSubmission_IssuerKeyID), 256);
     ("signature", envelope.(ResourceLinkEnvelopeSubmission_Signature), 256)].

(** * Results of links *)
Definition linkStates : list string :=
  ["ready"; "committing"; "pending_acceptance"; "pending_encryption"; "active"; "failed"; "expired"].

Definition validateOutcome (outcome : ResourceLinkOutcome) : Prelude.outcome api_error unit :=
  refuse ((outcome.(ResourceLinkOutcome_Resource) =s "") || (outcome.(ResourceLinkOutcome_Subject) =s "")
          || (outcome.(ResourceLinkOutcome_Relation) =s "")
          || negb (oneOf outcome.(ResourceLinkOutcome_State)
                     ["active"; "pending_acceptance"; "pending_encryption"; "revoked"; "denied"]))
    "invalid resource link outcome".

Definition validateInvitationAction (action : ResourceLinkInvitationAction) : outcome api_error unit :=
  refuse ((action.(ResourceLinkInvitationAction_InvitationID) =s "")
          || negb (oneOf action.(ResourceLinkInvitationAction_Action)
                     ["preserve"; "claim"; "activate"; "supersede"; "cancel"]))
    "invalid resource link invitation action".

Definition validateKeyRequirement (item : ResourceLinkKeyRequirement) : outcome api_error unit :=
  refuse ((item.(ResourceLinkKeyRequirement_ManifestItemID) =s "")
          || (item.(ResourceLinkKeyRequirement_GrantID) =s "")
          || (item.(ResourceLinkKeyRequirement_Resource) =s "")
          || (item.(ResourceLinkKeyRequirement_Relation) =s "")
          || (item.(ResourceLinkKeyRequirement_KeyResource) =s "")
          || (item.(ResourceLinkKeyRequirement_KeyVersion) =s "")
          || (item.(ResourceLinkKeyRequirement_RecipientSubject) =s "")
          || (item.(ResourceLinkKeyRequirement_RecipientKeyID) =s "")
          || negb (item.(ResourceLinkKeyRequirement_EncryptionAlgorithm) =s "X25519")
          || negb (len item.(ResourceLinkKeyRequirement_PublicKey) =? 32)
          || negb (item.(ResourceLinkKeyRequirement_Activation) =s "")
             && negb (oneOf item.(ResourceLinkKeyRequirement_Activation)
                        ["active_access"; "pending_invitation"]))
    "invalid resource link key requirement".

Definition badCapacity (capacity : ResourceLinkCapacity) (billing : ResourceLinkBilling) : bool :=
  negb (oneOf capacity.(ResourceLinkCapacity_Scope) ["per_organization"; "per_account"])
  || (capacity.(ResourceLinkCapacity_Before) <? 0) || (capacity.(ResourceLinkCapacity_After) <? 0)
  || (capacity.(ResourceLinkCapacity_Claim) <? 0) || (capacity.(ResourceLinkCapacity_Release) <? 0)
  || (billing.(ResourceLinkBilling_CurrentQuantity) <? 0)
  || (billing.(ResourceLinkBilling_NextCycleQuantity) <? 0)
  || (billing.(ResourceLinkBilling_Increase) <? 0)
  || (billing.(ResourceLinkBilling_NextCycleReduction) <? 0).

Definition validateResourceLinkResult (result : ResourceLinkResult) (resource : string)
    : outcome api_error unit :=
  let message := "invalid resource link response" in
  let impact := result.(ResourceLinkResult_Impact) in
  _ ← refuse (negb (result.(ResourceLinkResult_Resource) =s resource)
              || negb (oneOf result.(ResourceLinkResult_Status) linkStates)
              || (result.(ResourceLinkResult_ExpiresAt) <? 0)) message;
  match result.(ResourceLinkResult_Outcomes), result.(ResourceLinkResult_InvitationActions),
        result.(ResourceLinkResult_KeyRequirements) with
  | Some outcomes, Some actions, Some requirements =>
      _ ← refuse (negb (isSome impact.(ResourceLinkImpact_ImpactedResources))
                  || negb (isSome impact.(ResourceLinkImpact_RetainedResources))
                  || negb (isSome impact.(ResourceLinkImpact_RekeyResources))) message;
      _ ← refuse (badCapacity result.(ResourceLinkResult_Capacity) result.(ResourceLinkResult_Billing))
            "invalid resource link capacity";
      _ ← each validateOutcome outcomes;
      _ ← each validateInvitationAction actions;
      each validateKeyRequirement requirements
  | _, _, _ => Throw (ErrorString message)
  end.

(** * Collaborators *)
Definition collaboratorKinds : list string := ["user"; "group"; "service_account"; "invitation"].

(** The loop over the named strings of the options. *)
Fixpoint queryStrings (items : list (string * string * Z)) (q : Values) : outcome api_error Values :=
  match items with
  | [] => Ret q
  | (name, value, maximum) :: items =>
      if value =s "" then queryStrings items q
      else value ← graphString value name maximum; queryStrings items (Values_Set name value q)
  end.

Fixpoint queryKinds (kinds : list string) (q : Values) : outcome api_error Values :=
  match kinds with
  | [] => Ret q
  | kind :: kinds =>
      if kind =s "" then queryKinds kinds q
      else if negb (oneOf kind collaboratorKinds) then Throw (ErrorString "invalid collaborator kind")
      else queryKinds kinds (Values_Add "kind" kind q)
  end.

(** [skip] says whether empty values are passed over. *)
Fixpoint queryAdd (skip : bool) (name : string) (maximum : Z) (values : list string) (q : Values)
    : outcome api_error Values :=
  match values with
  | [] => Ret q
  | value :: values =>
      if skip && (value =s "") then queryAdd skip name maximum values q
      else value ← graphString value name maximum;
           queryAdd skip name maximum values (Values_Add name value q)
  end.

(** The parameters of a list of collaborators. *)
Definition collaboratorValues (options : ResourceCollaboratorListOptions) : outcome api_error Values :=
  _ ← refuse (negb (validPage options.(ResourceCollaboratorListOptions_Limit)))
        "limit must be between 1 and 100";
  q ← queryStrings
        [("view", options.(ResourceCollaboratorListOptions_View), 16);
         ("search", options.(ResourceCollaboratorListOptions_Search), 256);
         ("email", options.(ResourceCollaboratorListOptions_Email), 320);
         ("subject", options.(ResourceCollaboratorListOptions_Subject), 512);
         ("resource_subject", options.(ResourceCollaboratorListOptions_ResourceSubject), 640);
         ("via_group", options.(ResourceCollaboratorListOptions_ViaGroup), 512);
         ("cursor", options.(ResourceCollaboratorListOptions_Cursor), 2048)] ∅;
  let view := options.(ResourceCollaboratorListOptions_View) in
  _ ← refuse (negb (view =s "") && negb (oneOf view ["direct"; "effective"]))
        "invalid collaborator view";
  let q := match options.(ResourceCollaboratorListOptions_Direct) with
           | Some direct => Values_Set "direct" (if direct then "true" else "false") q
           | None => q
           end in
  q ← queryKinds (options.(ResourceCollaboratorListOptions_Kind)
                  :: options.(ResourceCollaboratorListOptions_Kinds)) q;
  q ← queryAdd true "status" 64 (options.(ResourceCollaboratorListOptions_Status)
                                 :: options.(ResourceCollaboratorListOptions_Statuses)) q;
  q ← queryAdd false "relation" 128 options.(ResourceCollaboratorListOptions_Relations) q;
  let limit := options.(ResourceCollaboratorListOptions_Limit) in
  Ret (if 0 <? limit then Values_Set "limit" (string_of (Itoa limit)) q else q).

Definition collaboratorQuery (options : ResourceCollaboratorListOptions) : outcome api_error string :=
  query ← collaboratorValues options;
  Ret (if bool_decide (query = ∅) then "" else "?" +:+ Encode query).

Definition validatePath (path : CollaboratorPath) : outcome api_error unit :=
  refuse (negb (oneOf path.(CollaboratorPath_Type) ["direct"; "group"])
          || (path.(CollaboratorPath_Relation) =s "")
          || negb (isSome path.(CollaboratorPath_Via))) "invalid collaborator access path".

Definition validateCollaborator (item : ResourceCollaborator) : outcome api_error unit :=
  _ ← refuse (negb (oneOf item.(ResourceCollaborator_Kind) collaboratorKinds)
              || (item.(ResourceCollaborator_ID) =s "") || (item.(ResourceCollaborator_Status) =s "")
              || negb (isSome item.(ResourceCollaborator_Relations))) "invalid collaborator response";
  _ ← match item.(ResourceCollaborator_Access) with
      | None => Ret tt
      | Some access =>
          match access.(CollaboratorAccess_Paths) with
          | None => Throw (ErrorString "invalid collaborator access")
          | Some paths => each validatePath paths
          end
      end;
  match item.(ResourceCollaborator_Recipient) with
  | None => Ret tt
  | Some recipient =>
      refuse (negb (oneOf recipient.(CollaboratorRecipient_Type) ["user"; "email"; "group"]))
        "invalid collaborator recipient"
  end.

Definition validateCollaboratorList (result : ResourceCollaboratorList) (resource : string)
    : outcome api_error unit :=
  let message := "invalid collaborator response" in
  match result.(ResourceCollaboratorList_Collaborators) with
  | None => Throw (ErrorString message)
  | Some collaborators =>
      _ ← refuse (negb (result.(ResourceCollaboratorList_Resource) =s resource)) message;
      _ ← refuse (badCursor result.(ResourceCollaboratorList_NextCursor)) "invalid collaborator cursor";
      each validateCollaborator collaborators
  end.

(** * Searches *)
Definition checkStrings (item : string * Z * list string) : outcome api_error unit :=
  let '(name, maximum, values) := item in each (fun value => checkString value name maximum) values.

Definition validateResourceFilters (filter : ResourceSearchResourceFilters) : outcome api_error unit :=
  _ ← each checkPresent
        [("search", filter.(ResourceSearchResourceFilters_Search), 256);
         ("parent", filter.(ResourceSearchResourceFilters_Parent), 512)];
  _ ← each checkStrings
        [("resource", 512, filter.(ResourceSearchResourceFilters_Resources));
         ("resource type", 128, filter.(ResourceSearchResourceFilters_Types));
         ("resource status", 64, filter.(ResourceSearchResourceFilters_Statuses))];
  let references := map_to_list filter.(ResourceSearchResourceFilters_References) in
  _ ← refuse (16 <? len references) "resource references may contain at most 16 fields";
  each (fun r : string * string =>
          _ ← checkString r.1 "reference field" 128; checkString r.2 "reference target" 512) references.

Definition validateCollaboratorFilters (filter : ResourceSearchCollaboratorFilters)
    : outcome api_error unit :=
  let view := filter.(ResourceSearchCollaboratorFilters_View) in
  _ ← refuse (negb (view =s "") && negb (oneOf view ["direct"; "effective"]))
        "invalid collaborator view";
  _ ← each checkPresent
        [("search", filter.(ResourceSearchCollaboratorFilters_Search), 256);
         ("email", filter.(ResourceSearchCollaboratorFilters_Email), 320);
         ("resource subject", filter.(ResourceSearchCollaboratorFilters_ResourceSubject), 640)];
  _ ← each (fun kind => refuse (negb (oneOf kind collaboratorKinds)) "invalid collaborator kind")
        filter.(ResourceSearchCollaboratorFilters_Kinds);
  each checkStrings
    [("collaborator subject", 512, filter.(ResourceSearchCollaboratorFilters_Subjects));
     ("collaborator relation", 128, filter.(ResourceSearchCollaboratorFilters_Relations));
     ("collaborator status", 64, filter.(ResourceSearchCollaboratorFilters_Statuses));
     ("collaborator via group", 512, filter.(ResourceSearchCollaboratorFilters_ViaGroups))].

(** A check of what a pointer points to. *)
Definition checkSome {A} (f : A → outcome api_error unit) (p : option A) : outcome api_error unit :=
  match p with Some x => f x | None => Ret tt end.

Definition validateResourceSearch (input : ResourceSearchInput) : outcome api_error unit :=
  _ ← checkSome (fun page =>
        refuse (negb (validPage page.(ResourceSearchPage_Limit))
                || (2048 <? slen page.(ResourceSearchPage_Cursor))) "invalid resource search page")
        input.(ResourceSearchInput_Page);
  _ ← each (fun include =>
        refuse (negb (oneOf include ["parent"; "collaborator_matches"; "references"]))
          "invalid resource search include") input.(ResourceSearchInput_Include);
  _ ← checkSome (fun sort =>
        let field := sort.(ResourceSearchSort_Field) in
        let direction := sort.(ResourceSearchSort_Direction) in
        refuse (negb (field =s "") && negb (oneOf field ["display_name"; "resource_type"; "resource"])
                || negb (direction =s "") && negb (oneOf direction ["asc"; "desc"]))
          "invalid resource search sort") input.(ResourceSearchInput_Sort);
  checkSome (fun filters =>
    _ ← checkSome validateResourceFilters filters.(ResourceSearchFilters_Resource);
    checkSome validateCollaboratorFilters filters.(ResourceSearchFilters_Collaborator))
    input.(ResourceSearchInput_Filters).

Definition validateSearchResult (item : ResourceSearchResult) : outcome api_error unit :=
  _ ← refuse ((item.(ResourceSearchResult_Resource) =s "")
              || (item.(ResourceSearchResult_ResourceType) =s "")
              || (item.(ResourceSearchResult_DisplayName) =s "")
              || (item.(ResourceSearchResult_Status) =s "")) "invalid resource search response";
  _ ← checkSome (fun parent =>
        refuse ((parent.(ResourceSearchParent_Resource) =s "")
                || (parent.(ResourceSearchParent_ResourceType) =s "")
                || (parent.(ResourceSearchParent_DisplayName) =s "")) "invalid resource search parent")
        item.(ResourceSearchResult_Parent);
  each (fun collaborator =>
    refuse (negb (oneOf collaborator.(ResourceCollaborator_Kind) collaboratorKinds)
            || (collaborator.(ResourceCollaborator_ID) =s "")) "invalid resource search collaborator")
    item.(ResourceSearchResult_CollaboratorMatches).

Definition validateResourceSearchList (result : ResourceSearchList) : outcome api_error unit :=
  match result.(ResourceSearchList_Resources) with
  | None => Throw (ErrorString "invalid resource search response")
  | Some resources =>
      _ ← refuse (badCursor result.(ResourceSearchList_NextCursor)) "invalid resource search cursor";
      each validateSearchResult resources
  end.

(** * Policies *)
Definition validateOrganizationE2EEPolicyInput (input : OrganizationE2EEPolicyInput)
    : outcome api_error unit :=
  _ ← refuse
        (negb (oneOf input.(OrganizationE2EEPolicyInput_RequiredAccountCustody)
                 ["browser_passphrase"; "temporary_box_then_browser"; "enterprise_box"])
         || negb (oneOf input.(OrganizationE2EEPolicyInput_ResourceKeyExecutor)
                    ["managed"; "customer_box"; "browser"])
         || negb (oneOf input.(OrganizationE2EEPolicyInput_AutomationExecutor)
                    ["managed"; "customer_box"; "none"])
         || negb (oneOf input.(OrganizationE2EEPolicyInput_ResourceKeyPolicy)
                    ["organization_only"; "organization_default"; "resource_only"]))
        "invalid organization E2EE policy";
  checkPresent ("function binding ID", input.(OrganizationE2EEPolicyInput_FunctionBindingID), 256).

Definition validateOrganizationE2EEPolicy (policy : OrganizationE2EEPolicy) (organization : string)
    : outcome api_error unit :=
  _ ← refuse (negb (policy.(OrganizationE2EEPolicy_Organization) =s organization)
              || (policy.(OrganizationE2EEPolicy_Revision) <? 1)
              || negb (oneOf policy.(OrganizationE2EEPolicy_Status) ["pending"; "ready"; "unavailable"]))
        "invalid organization E2EE policy response";
  validateOrganizationE2EEPolicyInput policy.(OrganizationE2EEPolicy_OrganizationE2EEPolicyInput).

(** The loop over the domains of a guest policy, which are compared after trimming. *)
Fixpoint guestDomains (seen domains : list string) : outcome api_error unit :=
  match domains with
  | [] => Ret tt
  | domain :: domains =>
      let message := "invalid guest allowed domain" in
      match graphString domain "allowed domain" 253 with
      | Ret value =>
          if (slen value <? 3) || bool_decide (value ∈ seen) then Throw (ErrorString message)
          else guestDomains (value :: seen) domains
      | _ => Throw (ErrorString message)
      end
  end.

Definition validateResourceCollaborationPolicy (input : ResourceCollaborationPolicyOverride)
    : outcome api_error unit :=
  let guests := input.(ResourceCollaborationPolicyOverride_Guests) in
  match guests.(ResourceGuestPolicyOverride_AllowedDomains) with
  | None =>
      refuse (negb (isSome guests.(ResourceGuestPolicyOverride_Allowed)))
        "guest policy must contain a restriction"
  | Some domains =>
      _ ← refuse ((len domains <? 1) || (100 <? len domains))
            "guest policy must contain between 1 and 100 domains";
      guestDomains [] domains
  end.

(** * Methods of the control client *)
Section Methods.
Context `{!JsonText} `{!Problems} `{!Urls} `{!RawJson} `{!StrictDecoders}.
Context (c : ControlClient).

(** The response is returned if it is valid. *)
Definition validated {A} (check : A → outcome api_error unit) (m : io A) : io A :=
  out ← m; _ ← lift (check out); mret out.

Definition SearchResourceLinkCandidates (resource : string) (input : ResourceLinkCandidateSearchInput)
    : io ResourceLinkCandidateSearchResult :=
  _ ← lift (requireResourceGraphUser c);
  input ← lift (validateCandidateSearch input);
  validated validateCandidateSearchResult
    (strictRequest c "POST" (graphResourcePath resource +:+ "/link-candidates/search") "" ∅
       (Some (toJson input))).

Definition PreflightResourceLinks (resource : string) (changes : option (list ResourceLinkChange))
    : io ResourceLinkPreflight :=
  _ ← lift (requireResourceGraphUser c);
  resource ← lift (graphString resource "resource" 512);
  let items := default [] changes in
  _ ← lift (refuse ((len items <? 1) || (1000 <? len items))
              "changes must contain between 1 and 1000 items");
  _ ← lift (each validateLinkChange items);
  r ← strictRequestHeaders c "POST" (graphResourcePath resource +:+ "/links/preflight") "" ∅
        (Some (JObject (member "changes" changes)));
  match graphString (TrimSpace (Header_Get r.1 "Lotor-Link-Token")) "link token" 512 with
  | Ret token =>
      _ ← lift (validateResourceLinkResult r.2 resource);
      mret (mkResourceLinkPreflight token r.2)
  | _ => throw (ErrorString "Lotor link preflight response is missing its token")
  end.

Definition CommitResourceLinks (resource : string) (preflight : ResourceLinkPreflight)
    (envelopes : list ResourceLinkEnvelopeSubmission) : io ResourceLinkResult :=
  _ ← lift (requireResourceGraphUser c);
  resource ← lift (graphString resource "resource" 512);
  token ← lift (graphString preflight.(ResourceLinkPreflight_Token) "link token" 512);
  _ ← lift (refuse (negb (preflight.(ResourceLinkPreflight_Result).(ResourceLinkResult_Resource)
                          =s resource)) "link preflight resource does not match commit resource");
  _ ← lift (refuse (10000 <? len envelopes) "envelopes cannot contain more than 10000 items");
  _ ← lift (each validateLinkEnvelope envelopes);
  validated (fun out => validateResourceLinkResult out resource)
    (strictRequest c "POST" (graphResourcePath resource +:+ "/links/commit") ""
       {[ "Lotor-Link-Token" := [token] ]} (Some (JObject (omitted "envelopes" envelopes)))).

Definition SendResourceLinks (resource : string) (input : ResourceLinkSendInput)
    : io ResourceLinkSendResult :=
  preflight ← PreflightResourceLinks resource input.(ResourceLinkSendInput_Changes);
  let result := preflight.(ResourceLinkPreflight_Result) in
  if negb result.(ResourceLinkResult_Committable)
  then
    let reason := result.(ResourceLinkResult_FailureReason) in
    let code := if reason =s "" then "link_denied" else reason in
    throw (ControlError 409 code code)
  else
    committed ← CommitResourceLinks resource preflight [];
    mret (mkResourceLinkSendResult preflight committed).

Definition UnlinkResource (resource linkID idempotencyKey : string) : io UnlinkResult :=
  _ ← lift (requireResourceGraphUser c);
  resource ← lift (graphString resource "resource" 512);
  linkID ← lift (graphString linkID "link ID" 256);
  validated (fun out =>
      refuse (negb (out.(UnlinkResult_Resource) =s resource)
              || negb (out.(UnlinkResult_Status) =s "revoked")) "invalid Lotor unlink response")
    (strictRequest c "DELETE" (graphResourcePath resource +:+ "/links/" +:+ PathEscape linkID)
       idempotencyKey ∅ None).

Definition ResourceCollaborators (resource : string) (options : ResourceCollaboratorListOptions)
    : io ResourceCollaboratorList :=
  _ ← lift (requireResourceGraphUser c);
  resource ← lift (graphString resource "resource" 512);
  query ← lift (collaboratorQuery options);
  validated (fun out => validateCollaboratorList out resource)
    (strictRequest c "GET" (graphResourcePath resource +:+ "/collaborators" +:+ query) "" ∅ None).

Definition CheckResourceSubjectAccess (resource subject : string) : io ResourceSubjectAccessCheck :=
  _ ← lift (requireApplicationAuthority c);
  resource ← lift (graphString resource "resource" 512);
  subject ← lift (graphSubject subject);
  validated (fun out =>
      refuse (negb (out.(ResourceSubjectAccessCheck_Resource) =s resource)
              || negb (out.(ResourceSubjectAccessCheck_Subject) =s subject))
        "invalid Lotor subject access response")
    (strictRequest c "POST" (graphResourcePath resource +:+ "/subject-access/check") "" ∅
       (Some (JObject (member "subject" subject)))).

Definition SearchResources (input : ResourceSearchInput) : io ResourceSearchList :=
  _ ← lift (requireResourceGraphUser c);
  _ ← lift (validateResourceSearch input);
  validated validateResourceSearchList
    (strictRequest c "POST" "/resources/search" "" ∅ (Some (toJson input))).

Definition getOrganizationE2EEPolicy (organization : string) : io OrganizationE2EEPolicy :=
  _ ← lift (requireResourceGraphUser c);
  organization ← lift (graphString organization "organization" 512);
  validated (fun out => validateOrganizationE2EEPolicy out organization)
    (strictRequest c "GET" (graphResourcePath organization +:+ "/e2ee") "" ∅ None).

Definition ConfigureOrganizationE2EE (organization : string) (input : OrganizationE2EEPolicyInput)
    : io OrganizationE2EEPolicy :=
  _ ← lift (requireResourceGraphUser c);
  organization ← lift (graphString organization "organization" 512);
  _ ← lift (validateOrganizationE2EEPolicyInput input);
  validated (fun out => validateOrganizationE2EEPolicy out organization)
    (strictRequest c "PUT" (graphResourcePath organization +:+ "/e2ee") "" ∅ (Some (toJson input))).

Definition SetResourceCollaborationPolicy (resource : string)
    (input : ResourceCollaborationPolicyOverride) : io ResourceCollaborationPolicyMutation :=
  _ ← lift (requireResourceGraphUser c);
  resource ← lift (graphString resource "resource" 512);
  _ ← lift (validateResourceCollaborationPolicy input);
  validated (fun out =>
      refuse (negb (out.(ResourceCollaborationPolicyMutation_Resource) =s resource)
              || (out.(ResourceCollaborationPolicyMutation_Revision) <? 1))
        "invalid resource collaboration policy response")
    (strictRequest c "PUT" (graphResourcePath resource +:+ "/collaboration-policy") "" ∅
       (Some (toJson input))).
End Methods.

(** * Base64URLBytes *)

(** [Base64URLBytes.UnmarshalJSON], given the string that the JSON text holds, and
    [MarshalJSON]. *)
Definition unmarshalBase64URL (encoded : option string) : outcome api_error (list byte) :=
  let invalid := Throw (ErrorString "invalid unpadded base64url bytes") in
  match encoded with
  | None => invalid
  | Some encoded =>
      if (encoded =s "") || ContainsAny encoded [x3d] then invalid
      else match rawURLDecode false (bytes_of encoded) with
      | None => invalid
      | Some decoded =>
          if negb (string_of (rawURLEncode decoded) =s encoded) then invalid else Ret decoded
      end
  end.

Definition marshalBase64URL (value : list byte) : json := JString (string_of (rawURLEncode value)).

(** * Lemmas *)
Lemma graphString_Ret value name maximum v :
  graphString value name maximum = Ret v ↔ v = TrimSpace value ∧ v ≠ "" ∧ slen v <= maximum.
Proof.
  unfold graphString. cbv zeta. destruct (_ || _) eqn:Hb.
  - split; [done|]. intros (-> & Hne & Hle). apply orb_true_iff in Hb as [Hb|Hb].
    + by apply String.eqb_eq in Hb.
    + breflect. lia.
  - apply orb_false_iff in Hb as [Hb1 Hb2]. apply String.eqb_neq in Hb1. breflect. split.
    + by intros [= <-].
    + by intros [-> _].
Qed.

Lemma graphResourcePath_trimmed resource :
  graphResourcePath (TrimSpace resource) = graphResourcePath resource.
Proof. unfold graphResourcePath. by rewrite TrimSpace_idem. Qed.

(** A preliminary check fails, or the rest runs. *)
Lemma runs_lift {A B} (o : outcome api_error A) (f : A → io B) trace r :
  runs (lift o ≫= f) trace r →
  (∃ a, o = Ret a ∧ runs (f a) trace r)
  ∨ trace = [] ∧ (∀ a, r ≠ Ret a) ∧ failure o = Some r.
Proof. destruct o; simpl; [eauto|..]; intros [-> ->]; right; split_and!; naive_solver. Qed.

Section Lemmas.
Context `{!JsonText} `{!Problems} `{!Urls} `{!RawJson}.

(** What a strict request makes of a response. *)
Definition strictAnswer {A} `{!JsonStrict A} (response : HttpResponse)
    : outcome api_error (Header * A) :=
  r ← readResponse intoRaw (Z.shiftl 4 20) response;
  out ← readStrict r.2;
  Ret (r.1, out).

Lemma runs_strictRequestHeaders {A} `{!JsonStrict A} c method path key headers body trace
    (r : outcome api_error (Header * A)) :
  runs (strictRequestHeaders c method path key headers body) trace r →
  trace = [] ∧ (∀ a, r ≠ Ret a)
  ∨ ∃ payload x,
      trace = [Sent c.(Control_httpClient)
                 (controlRequest c method path key headers (isSome body) payload) x]
      ∧ r = answered strictAnswer x.
Proof.
  unfold strictRequestHeaders, requestHeaders, requestHeadersLimit. intros Hr.
  apply runs_bind in Hr. destruct Hr as [(t1 & t2 & [h raw] & -> & Hs & Hr)|(y & Hs & Hf)];
    apply runs_sendJSON in Hs.
  - destruct Hs as [(_ & [?|?])|(payload & x & _ & -> & Ha)]; [done..|]. right. exists payload, x.
    destruct x as [response|]; [|done]. simpl in Ha |- *. unfold strictAnswer. rewrite <- Ha. simpl.
    simpl in Hr. revert Hr. by destruct (readStrict raw); intros [-> ->].
  - destruct Hs as [(-> & Hy)|(payload & x & _ & -> & ->)].
    + left. split; [done|]. destruct Hy as [->| ->]; simplify_eq/=; naive_solver.
    + right. exists payload, x. split; [done|]. destruct x as [response|]; simpl in *; [|congruence].
      unfold strictAnswer. by destruct (readResponse _ _ _); simplify_eq/=.
Qed.

Lemma runs_strictRequest {A} `{!JsonStrict A} c method path key headers body trace
    (r : outcome api_error A) :
  runs (strictRequest c method path key headers body) trace r →
  trace = [] ∧ (∀ a, r ≠ Ret a)
  ∨ ∃ payload x,
      trace = [Sent c.(Control_httpClient)
                 (controlRequest c method path key headers (isSome body) payload) x]
      ∧ r = (r ← answered strictAnswer x; Ret r.2).
Proof.
  unfold strictRequest. intros Hr. apply runs_bind in Hr.
  destruct Hr as [(t1 & t2 & [h a] & -> & Hs & [-> ->])|(y & Hs & Hf)];
    apply runs_strictRequestHeaders in Hs.
  - rewrite app_nil_r. destruct Hs as [(_ & Hn)|(payload & x & -> & Ha)]; [by destruct (Hn (h, a))|].
    right. exists payload, x. by rewrite <- Ha.
  - destruct Hs as [(-> & Hn)|(payload & x & -> & ->)].
    + left. split; [done|]. intros a ->. by destruct y.
    + right. exists payload, x. split; [done|]. by destruct (answered _ _); simplify_eq/=.
Qed.
End Lemmas.

(** * Sending links *)
Section Links.
Context `{!JsonText} `{!Problems} `{!Urls} `{!RawJson} `{!StrictDecoders}.

(** The two requests of a link. *)
Definition linkRequest (c : ControlClient) (resource step : string) (headers : Header)
    (payload : option (list byte)) : HttpRequest :=
  controlRequest c "POST" (graphResourcePath resource +:+ "/links/" +:+ step) "" headers true payload.

(** The answer to a preflight, and the preflight that is made of it. *)
Definition preflightAnswer (resource : string) (answer : option HttpResponse)
    (p : ResourceLinkPreflight) : Prop :=
  ∃ h, answered strictAnswer answer = Ret (h, p.(ResourceLinkPreflight_Result))
    ∧ p.(ResourceLinkPreflight_Token) = TrimSpace (Header_Get h "Lotor-Link-Token")
    ∧ p.(ResourceLinkPreflight_Token) ≠ "" ∧ slen p.(ResourceLinkPreflight_Token) <= 512
    ∧ validateResourceLinkResult p.(ResourceLinkPreflight_Result) (TrimSpace resource) = Ret tt.

Lemma PreflightResourceLinks_spec c resource changes trace r :
  runs (PreflightResourceLinks c resource changes) trace r →
  trace = [] ∧ (∀ p, r ≠ Ret p)
  ∨ c.(Control_userToken) ≠ "" ∧ TrimSpace resource ≠ ""
    ∧ 1 <= len (default [] changes) <= 1000 ∧ each validateLinkChange (default [] changes) = Ret tt
    ∧ ∃ payload x,
        trace = [Sent c.(Control_httpClient) (linkRequest c resource "preflight" ∅ payload) x]
        ∧ ∀ p, r = Ret p → preflightAnswer resource x p.
Proof.
  unfold PreflightResourceLinks. intros Hr.
  apply runs_lift in Hr as [([] & Hu & Hr)|(-> & Hn & _)]; [|by left].
  apply runs_lift in Hr as [(name & Hname & Hr)|(-> & Hn & _)]; [|by left].
  apply runs_lift in Hr as [([] & Hl & Hr)|(-> & Hn & _)]; [|by left].
  apply runs_lift in Hr as [([] & He & Hr)|(-> & Hn & _)]; [|by left].
  apply graphString_Ret in Hname as (-> & Hne & _). rewrite graphResourcePath_trimmed in Hr.
  assert (Hguards : c.(Control_userToken) ≠ "" ∧ 1 <= len (default [] changes) <= 1000).
  { unfold requireResourceGraphUser in Hu. unfold refuse in Hl.
    destruct (_ =s _) eqn:Ht; [done|]. apply String.eqb_neq in Ht. split; [done|].
    destruct (_ || _) eqn:Hb; [done|]. apply orb_false_iff in Hb as [? ?]. breflect. lia. }
  destruct Hguards as [Htoken Hlen].
  apply runs_bind in Hr. destruct Hr as [(t1 & t2 & [h out] & -> & Hs & Hr)|(y & Hs & Hf)];
    apply runs_strictRequestHeaders in Hs.
  - destruct Hs as [(_ & Hn)|(payload & x & -> & Ha)]; [by destruct (Hn (h, out))|]. right.
    split; [done|]. split; [done|]. split; [exact Hlen|]. split; [done|]. exists payload, x.
    cbn [fst snd] in Hr.
    destruct (graphString _ "link token" 512) as [token| | |] eqn:Ht;
      try (destruct Hr as [-> ->]; by split).
    apply runs_lift in Hr as [([] & Hv & [-> ->])|(-> & Hn & _)].
    + split; [done|]. intros p [= <-]. apply graphString_Ret in Ht as (-> & Ht & Hsz).
      rewrite TrimSpace_idem in *. by exists h.
    + split; [done|]. intros p ->. by destruct (Hn p).
  - destruct Hs as [(-> & Hn)|(payload & x & -> & ->)].
    + left. split; [done|]. intros p ->. by destruct y.
    + right. split; [done|]. split; [done|]. split; [exact Hlen|]. split; [done|].
      exists payload, x. split; [done|]. intros p ->.
      by destruct (answered strictAnswer x).
Qed.

Lemma CommitResourceLinks_spec c resource p envelopes trace r :
  runs (CommitResourceLinks c resource p envelopes) trace r →
  trace = [] ∧ (∀ out, r ≠ Ret out)
  ∨ c.(Control_userToken) ≠ ""
    ∧ p.(ResourceLinkPreflight_Result).(ResourceLinkResult_Resource) = TrimSpace resource
    ∧ each validateLinkEnvelope envelopes = Ret tt
    ∧ ∃ payload x,
        trace = [Sent c.(Control_httpClient)
                   (linkRequest c resource "commit"
                      {[ "Lotor-Link-Token" := [TrimSpace p.(ResourceLinkPreflight_Token)] ]} payload) x]
        ∧ ∀ out, r = Ret out → validateResourceLinkResult out (TrimSpace resource) = Ret tt.
Proof.
  unfold CommitResourceLinks. intros Hr.
  apply runs_lift in Hr as [([] & Hu & Hr)|(-> & Hn & _)]; [|by left].
  apply runs_lift in Hr as [(name & Hname & Hr)|(-> & Hn & _)]; [|by left].
  apply runs_lift in Hr as [(token & Ht & Hr)|(-> & Hn & _)]; [|by left].
  apply runs_lift in Hr as [([] & Hm & Hr)|(-> & Hn & _)]; [|by left].
  apply runs_lift in Hr as [([] & _ & Hr)|(-> & Hn & _)]; [|by left].
  apply runs_lift in Hr as [([] & He & Hr)|(-> & Hn & _)]; [|by left].
  apply graphString_Ret in Hname as (-> & Hne & _). apply graphString_Ret in Ht as (-> & _ & _).
  rewrite graphResourcePath_trimmed in Hr.
  assert (Hguards : c.(Control_userToken) ≠ ""
    ∧ p.(ResourceLinkPreflight_Result).(ResourceLinkResult_Resource) = TrimSpace resource).
  { unfold requireResourceGraphUser in Hu. unfold refuse in Hm.
    destruct (_ =s "") eqn:Ht; [done|]. apply String.eqb_neq in Ht. split; [done|].
    destruct (_ =s _) eqn:Hb in Hm; [|done]. by apply String.eqb_eq in Hb. }
  destruct Hguards as [Htoken Hres].
  unfold validated in Hr. apply runs_bind in Hr.
  destruct Hr as [(t1 & t2 & out & -> & Hs & Hr)|(y & Hs & Hf)]; apply runs_strictRequest in Hs.
  - destruct Hs as [(_ & Hn)|(payload & x & -> & Ha)]; [by destruct (Hn out)|]. right.
    split_and!; try done. exists payload, x.
    apply runs_lift in Hr as [([] & Hv & [-> ->])|(-> & Hn & _)].
    + split; [done|]. by intros ? [= <-].
    + split; [done|]. intros o ->. by destruct (Hn o).
  - destruct Hs as [(-> & Hn)|(payload & x & -> & ->)].
    + left. split; [done|]. intros o ->. by destruct y.
    + right. split_and!; try done. exists payload, x. split; [done|]. intros o ->.
      by destruct (answered strictAnswer x).
Qed.

(** C13: links are committed only after their preflight: [SendResourceLinks] sends nothing, the
    preflight alone, or the preflight and then one commit of the same resource; the commit
    is sent only if the answer to the preflight is a valid and committable result for that
    resource, and carries the token of that answer. Everything is sent for a user. *)
Theorem links_committed_in_order c resource input trace r :
  runs (SendResourceLinks c resource input) trace r →
  trace = [] ∧ (∀ s, r ≠ Ret s)
  ∨ c.(Control_userToken) ≠ ""
    ∧ each validateLinkChange (default [] input.(ResourceLinkSendInput_Changes)) = Ret tt
    ∧ ∃ payload x,
        let first := Sent c.(Control_httpClient) (linkRequest c resource "preflight" ∅ payload) x in
        (trace = [first] ∧ ∀ s, r ≠ Ret s)
        ∨ ∃ p payload' y,
            preflightAnswer resource x p
            ∧ p.(ResourceLinkPreflight_Result).(ResourceLinkResult_Committable) = true
            ∧ trace = [first;
                       Sent c.(Control_httpClient)
                         (linkRequest c resource "commit"
                            {[ "Lotor-Link-Token" := [p.(ResourceLinkPreflight_Token)] ]} payload') y]
            ∧ ∀ s, r = Ret s → s.(ResourceLinkSendResult_Preflight) = p
                ∧ validateResourceLinkResult s.(ResourceLinkSendResult_Committed) (TrimSpace resource)
                  = Ret tt.
Proof.
  unfold SendResourceLinks. intros Hr. apply runs_bind in Hr.
  destruct Hr as [(t1 & t2 & p & -> & Hp & Hr)|(y & Hp & Hf)];
    apply PreflightResourceLinks_spec in Hp.
  - destruct Hp as [(_ & Hn)|(Hu & _ & _ & Hc & payload & x & -> & Hp)]; [by destruct (Hn p)|].
    specialize (Hp p eq_refl). right. split_and!; [done..|]. exists payload, x. cbv zeta.
    destruct (ResourceLinkResult_Committable _) eqn:Hcom; simpl in Hr.
    + apply runs_bind in Hr. destruct Hr as [(v1 & v2 & out & -> & Hs & [-> ->])|(z & Hs & Hf)];
        apply CommitResourceLinks_spec in Hs.
      * destruct Hs as [(_ & Hn)|(_ & _ & _ & payload' & w & -> & Hout)]; [by destruct (Hn out)|].
        right. destruct Hp as (h & Hh & Htok & Hne & Hsz & Hv).
        exists p, payload', w. split_and!; [by exists h|done| |].
        -- simpl. by rewrite Htok, TrimSpace_idem.
        -- intros s [= <-]. simpl. auto.
      * destruct Hs as [(-> & Hn)|(_ & _ & _ & payload' & w & -> & Hout)].
        -- left. split; [done|]. intros s ->. by destruct z.
        -- right. destruct Hp as (h & Hh & Htok & Hne & Hsz & Hv).
           exists p, payload', w. split_and!; [by exists h|done| |].
           ++ simpl. by rewrite Htok, TrimSpace_idem.
           ++ intros s ->. by destruct z.
    + destruct Hr as [-> ->]. left. by split.
  - destruct Hp as [(-> & Hn)|(Hu & _ & _ & Hc & payload & x & -> & Hp)].
    + left. split; [done|]. intros s ->. by destruct y.
    + right. split_and!; [done..|]. exists payload, x. left. split; [done|].
      intros s ->. by destruct y.
Qed.
End Links.

(** * Public keys *)
Lemma rawURLEncode_no_padding b : ContainsAny (string_of (rawURLEncode b)) [x3d] = false.
Proof.
  unfold ContainsAny. rewrite bytes_of_string_of. unfold rawURLEncode.
  set (padding := fun c => existsb (Byte.eqb c) [x3d]).
  pose proof (sextets_range b) as Hr. induction Hr as [|z l Hz _ IH]; [done|]. csimpl. rewrite IH.
  unfold padding. simpl. rewrite !orb_false_r. destruct (Byte.eqb (enc6 z) x3d) eqn:He; [|done].
  apply Byte.byte_dec_bl in He. pose proof (dec6_enc6 z Hz) as Hd. by rewrite He in Hd.
Qed.

(** The bytes of a key are read from exactly one text, the one that is written for them:
    no padding, no other alphabet, no stray bits, and never empty. *)
Theorem base64url_canonical encoded b :
  unmarshalBase64URL (Some encoded) = Ret b ↔ b ≠ [] ∧ marshalBase64URL b = JString encoded.
Proof.
  unfold unmarshalBase64URL, marshalBase64URL. split.
  - destruct (_ || _) eqn:Hb; [done|]. apply orb_false_iff in Hb as [Hne%String.eqb_neq _].
    destruct (rawURLDecode _ _) as [d|]; [|done]. destruct (_ =s _) eqn:He; [|done]. simpl.
    apply String.eqb_eq in He. intros [= <-]. split; [|by rewrite He]. intros ->. by rewrite <- He in Hne.
  - intros [Hne [= <-]]. rewrite rawURLEncode_no_padding, orb_false_r, bytes_of_string_of.
    rewrite rawURL_roundtrip, String.eqb_refl. destruct (_ =s "") eqn:He; [|done].
    apply String.eqb_eq in He. apply (f_equal bytes_of) in He. rewrite bytes_of_string_of in He.
    pose proof (rawURL_roundtrip false b) as Hr. rewrite He in Hr. by injection Hr as <-.
Qed.

(** * Samples *)
Module LinkSamples.
#[local] Existing Instance Interfaces.plainRaw.
#[local] Instance text3 : JsonText := {| Render _ := Some (bytes_of "{}") |}.
#[local] Instance problems3 : Problems := {| problemOf _ := ("", "") |}.
#[local] Instance urls3 : Urls := {|
  Parse _ := None; ParseRequestURI _ := None; loopbackIP _ := false; newRequest _ _ := true
|}.
#[local] Instance anyStrict {A} `{!Zero A} : JsonStrict A := {| strictDecode _ := Some (zero, []) |}.
Definition result3 : ResourceLinkResult :=
  mkResourceLinkResult zero "vault:one" "ready" "" (mkResourceLinkImpact (Some []) (Some []) (Some []))
    (Some []) (Some []) (Some []) (mkResourceLinkCapacity "per_account" 1 2 1 0) zero 0 true false.
#[local] Instance links3 : JsonStrict ResourceLinkResult :=
  {| strictDecode raw := match raw with [] => None | _ => Some (result3, []) end |}.
#[local] Instance strict3 : StrictDecoders.
Proof. split; apply _. Defined.

Definition user3 : ControlClient :=
  mkControlClient (mkHttpClient false false) "https://control" "app" "secret" "user".
Definition change3 : ResourceLinkChange :=
  mkResourceLinkChange None "grant" "" "" "viewer" "user:1" "" "" "" "" "".
Definition environment3 : environment :=
  mkEnvironment (fun _ _ _ =>
      Some (mkHttpResponse 200 {["Lotor-Link-Token" := [" token "]]} (bytes_of "{}") false))
    (fun _ => false) (fun _ _ => None).
Definition send3 : io ResourceLinkSendResult :=
  SendResourceLinks user3 " vault:one " (mkResourceLinkSendInput (Some [change3])).

Lemma links_committed_in_order_witness :
  let run := exec environment3 [] send3 in
  run.2 = Ret (mkResourceLinkSendResult (mkResourceLinkPreflight "token" result3) result3)
  ∧ (run.1 = [] ∧ (∀ s, run.2 ≠ Ret s) ∨ user3.(Control_userToken) ≠ "").
Proof.
  split; [by vm_compute|].
  destruct (links_committed_in_order user3 " vault:one " (mkResourceLinkSendInput (Some [change3]))
              _ _ (exec_runs environment3 [] send3)) as [H|[H _]]; [by left|by right].
Defined.
End LinkSamples.
