(* ===== verification/AccountApi.v ===== *)
(** The methods of the API clients on accounts, catalogs, development connections and events:
    [lotorhttp/account_invitations.go], [account_resources.go], [billing_portal.go],
    [catalog_read.go], [catalog_discovery.go], [development_connections.go] and
    [resource_events.go]. *)
From S2P Require Import Prelude GoStd Interfaces Protocol Control Development ApiTypes Api.
From S2P Require Import ControlClient ResourceClient ResourceLinks.

#[local] Open Scope bool_scope.

Section Account.
Context `{!JsonText} `{!Problems} `{!Urls} `{!Decoders}.
Context (c : ControlClient).

(** * Accounts *)
Definition AccountInvitations (cursor : string) (limit : Z) : io AccountInvitationList :=
  if (2048 <? slen cursor) || (limit <? 1) || (100 <? limit)
  then throw (ErrorString "invalid invitation pagination")
  else request c "GET" ("/me/invitations" +:+ pagination cursor limit) "" None into.

Definition accountInvitationAction (invitationID action : string) : io AccountInvitationMutation :=
  if (TrimSpace invitationID =s "") || (256 <? slen invitationID)
  then throw (ErrorString "invalid invitation ID")
  else request c "POST" ("/me/invitations/" +:+ PathEscape invitationID +:+ "/" +:+ action) "" None into.

Definition AcceptAccountInvitation (invitationID : string) :=
  accountInvitationAction invitationID "accept".
Definition DeclineAccountInvitation (invitationID : string) :=
  accountInvitationAction invitationID "decline".

(** The loops over the types and the states. *)
Fixpoint queryEach (ok : string → bool) (message name : string) (values : list string) (q : Values)
    : outcome api_error Values :=
  match values with
  | [] => Ret q
  | value :: values =>
      if negb (ok value) then Throw (ErrorString message)
      else queryEach ok message name values (Values_Add name value q)
  end.

Definition setPresent (name value : string) (q : Values) : Values :=
  if value =s "" then q else Values_Set name value q.

Definition AccountResources (options : AccountResourceListOptions) : io AccountResourceList :=
  let limit := options.(AccountResourceListOptions_Limit) in
  let parent := options.(AccountResourceListOptions_Parent) in
  let cursor := options.(AccountResourceListOptions_Cursor) in
  if (limit <? 0) || (100 <? limit) || (512 <? slen parent) || (2048 <? slen cursor)
  then throw (ErrorString "invalid account resource directory options")
  else
    let q := setPresent "cursor" cursor (setPresent "parent" parent ∅) in
    let q := if limit =? 0 then q else Values_Set "limit" (string_of (Itoa limit)) q in
    q ← lift (queryEach (fun kind => negb ((slen kind =? 0) || (128 <? slen kind)))
                "invalid resource type" "type" options.(AccountResourceListOptions_Types) q);
    q ← lift (queryEach (fun state => (state =s "active") || (state =s "pending_encryption"))
                "invalid resource access state" "access_state"
                options.(AccountResourceListOptions_AccessStates) q);
    request c "GET" ("/me/resources" +:+ if bool_decide (q = ∅) then "" else "?" +:+ Encode q) ""
      None into.

(** * Billing *)
Definition CreatePortalSession (input : PortalSessionInput) : io PortalSession :=
  let refused := throw (ErrorString "invalid portal session input") in
  match ParseRequestURI input.(PortalSessionInput_ReturnURL) with
  | None => refused
  | Some parsed =>
      if (TrimSpace input.(PortalSessionInput_OrganizationID) =s "")
         || (256 <? slen input.(PortalSessionInput_OrganizationID))
         || (parsed.(URL_Host) =s "") || parsed.(URL_User) || negb (parsed.(URL_RawQuery) =s "")
         || negb (parsed.(URL_Fragment) =s "")
         || negb (parsed.(URL_Scheme) =s "https")
            && negb ((parsed.(URL_Scheme) =s "http") && loopback parsed.(URL_Hostname))
      then refused
      else
        out ← request c "POST" "/billing/portal-sessions" "" (Some (toJson input)) into;
        match Parse out.(PortalSession_URL) with
        | None => throw (ErrorString "invalid portal session response")
        | Some parsed =>
            if (out.(PortalSession_ID) =s "") || negb (parsed.(URL_Scheme) =s "https")
               || (parsed.(URL_Host) =s "") || parsed.(URL_User)
            then throw (ErrorString "invalid portal session response")
            else mret out
        end
  end.

(** * Catalogs *)
Definition ResourceCatalogEntries (resource catalogID cursor : string) (limit : Z)
    : io CatalogEntryList :=
  if (resource =s "") || (catalogID =s "") || (limit <? 1) || (100 <? limit)
  then throw (ErrorString "resource, catalog ID and limit between 1 and 100 are required")
  else
    let q := Values_Set "limit" (string_of (Itoa limit)) (Values_Set "resource" resource ∅) in
    let q := setPresent "cursor" cursor q in
    request c "GET" ("/catalogs/" +:+ PathEscape catalogID +:+ "/entries?" +:+ Encode q) "" None into.

Definition ResourceCatalogEntry (resource catalogID entryID : string) : io CatalogEntry :=
  if (resource =s "") || (catalogID =s "") || (entryID =s "")
  then throw (ErrorString "resource, catalog ID and entry ID are required")
  else
    request c "GET" ("/catalogs/" +:+ PathEscape catalogID +:+ "/entries/" +:+ PathEscape entryID
                     +:+ "?" +:+ Encode (Values_Set "resource" resource ∅)) "" None into.

Definition AvailableCatalogs (cursor : string) (limit : Z) : io CatalogList :=
  request c "GET" ("/me/catalogs" +:+ pagination cursor limit) "" None into.

Definition AvailableCatalogEntries (catalogID cursor : string) (limit : Z)
    : io PublishedCatalogEntryList :=
  request c "GET" ("/me/catalogs/" +:+ PathEscape (requiredControl catalogID "catalog ID")
                   +:+ "/entries" +:+ pagination cursor limit) "" None into.

Definition AvailableCatalogSnapshotDocument (catalogID snapshotID : string)
    : io CatalogSnapshotDocument :=
  request c "GET" ("/me/catalogs/" +:+ PathEscape (requiredControl catalogID "catalog ID")
                   +:+ "/snapshots/" +:+ PathEscape (requiredControl snapshotID "snapshot ID")
                   +:+ "/document") "" None into.

(** * Development connections *)
Definition developmentConnectionPath (resource : string) : string :=
  "/resources/" +:+ PathEscape (requiredControl resource "resource") +:+ "/development-connections".

Definition connectionPath (resource connectionID : string) : string :=
  developmentConnectionPath resource +:+ "/"
  +:+ PathEscape (requiredControl connectionID "connection ID").

Definition CreateDevelopmentConnection (resource key : string) : io DevelopmentConnection :=
  request c "POST" (developmentConnectionPath resource) key (Some (JObject [])) into.

Definition DevelopmentConnections (resource cursor : string) (limit : Z)
    : io DevelopmentConnectionList :=
  request c "GET" (developmentConnectionPath resource +:+ pagination cursor limit) "" None into.

Definition getDevelopmentConnection (resource connectionID : string) : io DevelopmentConnection :=
  request c "GET" (connectionPath resource connectionID) "" None into.

Definition RevokeDevelopmentConnection (resource connectionID : string) : io unit :=
  request c "DELETE" (connectionPath resource connectionID) "" None nowhere.

Definition CreateDevelopmentConnectionSession (resource connectionID : string) : io Session :=
  request c "POST" (connectionPath resource connectionID +:+ "/sessions") "" (Some (JObject [])) into.
End Account.

(** * Events *)
Class EventDecoders : Type := {
  #[global] decode_ResourceEventQuery :: JsonUnmarshal ResourceEventQuery;
  #[global] decode_ResourceEventPage :: JsonUnmarshal ResourceEventPage;
  #[global] decode_ResourceEventDetail :: JsonUnmarshal ResourceEventDetail;
  #[global] decode_EventBuckets :: JsonUnmarshal (list ResourceEventBucket);
}.
#[global] Instance list_zero {A} : Zero (list A) := [].

Definition resourceEventPath (resource stream : string) : string :=
  "/resources/" +:+ PathEscape (requiredControl resource "resource") +:+ "/event-streams/"
  +:+ PathEscape (requiredControl stream "stream").

(** Nil attributes and a nil body are sent as empty ones. *)
Definition completeEvent (e : ResourceEvent) : ResourceEvent :=
  mkResourceEvent e.(ResourceEvent_ID) e.(ResourceEvent_OccurredAt)
    (Some (default ∅ e.(ResourceEvent_Attributes))) e.(ResourceEvent_Representation)
    (Some (default [] e.(ResourceEvent_Body))).

Definition second : Z := 1000000000.

Section Events.
Context `{!JsonText} `{!Problems} `{!Urls} `{!EventDecoders}.

(** The method of a resource client. *)
Definition workloadAppendEvent (c : ResourceClient) (resource stream : string) (input : ResourceEvent)
    : io unit :=
  _ ← workloadRequest c "POST" (resourceEventPath resource stream +:+ "/events") ∅
        (Some (toJson (completeEvent input))) nowhere;
  mret tt.

Context (c : ControlClient).

Definition eventRequest {A} (method path : string) (input : option json) (out : target A) : io A :=
  if c.(Control_userToken) =s ""
  then throw (ErrorString "resource events require ForUser delegation")
  else r ← requestHeadersLimit c method path "" ∅ input out (Z.shiftl 6 20); mret r.2.

Definition ConfigureResourceEventStream (resource stream : string) (input : ResourceEventStreamInput)
    : io unit :=
  let input := mkResourceEventStreamInput
    (Some (default [] input.(ResourceEventStreamInput_AttributeKeys)))
    input.(ResourceEventStreamInput_RetentionDays)
    input.(ResourceEventStreamInput_AllowCredentialAppend) in
  eventRequest "PUT" (resourceEventPath resource stream) (Some (toJson input)) nowhere.

Definition AppendResourceEvent (resource stream : string) (input : ResourceEvent) : io unit :=
  eventRequest "POST" (resourceEventPath resource stream +:+ "/events")
    (Some (toJson (completeEvent input))) nowhere.

Definition CreateResourceEventQuery (resource stream : string) (input : ResourceEventQueryInput)
    : io ResourceEventQuery :=
  let input := mkResourceEventQueryInput (Some (default ∅ input.(ResourceEventQueryInput_Filters)))
    input.(ResourceEventQueryInput_From) input.(ResourceEventQueryInput_To)
    input.(ResourceEventQueryInput_ParentQueryID) in
  eventRequest "POST" (resourceEventPath resource stream +:+ "/queries") (Some (toJson input)) into.

Definition ResourceEvents (resource stream queryID cursor : string) (limit : Z)
    : io ResourceEventPage :=
  if (limit <? 1) || (100 <? limit)
  then throw (ErrorString "event limit must be between 1 and 100")
  else eventRequest "GET" (resourceEventPath resource stream +:+ "/queries/" +:+ PathEscape queryID
                           +:+ "/events" +:+ pagination cursor limit) None into.

Definition ResourceEventHistogram (resource stream queryID groupBy : string) (interval : Z)
    : io (list ResourceEventBucket) :=
  if (interval <? second) || (30 * 24 * 3600 * second <? interval)
     || negb (Z.rem interval second =? 0)
  then throw (ErrorString "invalid event histogram interval")
  else
    let q := Values_Set "interval_seconds" (string_of (Itoa (Z.quot interval second)))
               (Values_Set "group_by" groupBy ∅) in
    eventRequest "GET" (resourceEventPath resource stream +:+ "/queries/" +:+ PathEscape queryID
                        +:+ "/histogram?" +:+ Encode q) None into.

Definition getResourceEvent (resource stream eventID : string) : io ResourceEventDetail :=
  eventRequest "GET" (resourceEventPath resource stream +:+ "/events/" +:+ PathEscape eventID) None into.
End Events.
