(* ===== verification/FunctionBindings.v ===== *)
(** Function bindings: [lotorhttp/function_bindings.go].

    The control client registers and manages bindings and obtains grants of invocations; a
    grant becomes a caller of the function, after its signature is verified. *)
From S2P Require Import Prelude GoStd Sha256 Interfaces Protocol ExecutionStore Runtime Control.
From S2P Require Import Transport BridgeClient ApiTypes Api ControlClient.

#[local] Open Scope bool_scope.

(** * Grants *)
Class GrantDecoders : Type := {
  #[global] decode_FunctionInvocationAuthorization :: JsonUnmarshal FunctionInvocationAuthorization;
  #[global] decode_Authorization :: JsonUnmarshal Authorization;
}.

(** [slices.Equal] with a slice that may be nil. *)
Definition slicesEqual (a : list string) (b : option (list string)) : bool :=
  bool_decide (a = default [] b).

Section Grants.
Context `{!Ed25519} `{!RawJson} `{!Json Authorization} `{!Json Result} `{!Json SignedMessage}.
Context `{!JsonText} `{!Problems} `{!Urls} `{!GrantDecoders}.
(** The parameters of the caller. *)
Context (String : URL → string) (ParseAddr : string → option Transport.Addr).
Context (post : Transport.HTTPSDispatcher → Z → string → list byte → Transport.dispatch).

(** [FunctionInvocationAuthorization.NewClient]. *)
Definition grantOptions (grant : FunctionInvocationAuthorization) (keys : ControlKeys)
    (network : option Transport.TLSConfig) (a : Authorization) (public : list byte)
    : BridgeClient.Options :=
  mkOptions network None keys.(Control_Keys) a.(Auth_Scope) a.(Auth_ManifestDigest)
    grant.(FunctionInvocationAuthorization_EndpointURL) keys.(Control_Issuer)
    grant.(FunctionInvocationAuthorization_SigningKeyID) a.(Auth_Audience) a.(Auth_BindingID)
    grant.(FunctionInvocationAuthorization_AuthenticationMode) public a.(Auth_BindingRevision).

Definition NewClient (grant : FunctionInvocationAuthorization) (keys : ControlKeys)
    (network : option Transport.TLSConfig) : outcome bridge_error BridgeClient.Client :=
  let message := grant.(FunctionInvocationAuthorization_Authorization) in
  match keys.(Control_Keys) !! message.(KeyID) with
  | None => Throw ErrUnauthorized
  | Some key =>
      match VerifyAuthorization message key with
      | Ret (authorization, _) =>
          match rawURLDecode true
                  (bytes_of grant.(FunctionInvocationAuthorization_SigningPublicKey)) with
          | None => Throw ErrInvalid
          | Some public =>
              if negb (len public =? PublicKeySize) then Throw ErrInvalid
              else BridgeClient.New Parse String ParseAddr post
                     (grantOptions grant keys network authorization public)
          end
      | _ => Throw ErrUnauthorized
      end
  end.

(** The grant is for the request; the payload is not verified here. *)
Definition matchesFunctionGrant (grant : FunctionInvocationAuthorization)
    (resource bindingID : string) (input : FunctionInvocationInput) : bool :=
  match rawURLDecode true
          (bytes_of grant.(FunctionInvocationAuthorization_Authorization).(Payload)) with
  | None => false
  | Some raw =>
      match Unmarshal raw with
      | None => false
      | Some a =>
          (a.(Auth_ProtocolVersion) =? ProtocolVersion) && (a.(Auth_Kind) =s "invocation")
          && (a.(Auth_BindingID) =s bindingID) && (a.(Auth_Audience) =s bindingID)
          && (a.(Auth_Scope).(Scope_OwnerResource) =s resource)
          && (a.(Auth_BindingRevision) =? input.(FunctionInvocationInput_ExpectedBindingRevision))
          && bool_decide (a.(Auth_Function) = Some input.(FunctionInvocationInput_Function))
          && (a.(Auth_InputDigest) =s input.(FunctionInvocationInput_InputDigest))
          && (Digest a.(Auth_Input) =s input.(FunctionInvocationInput_InputDigest))
          && (a.(Auth_PolicyDigest) =s input.(FunctionInvocationInput_PolicyDigest))
          && slicesEqual a.(Auth_Resources) input.(FunctionInvocationInput_Resources)
          && slicesEqual a.(Auth_Capabilities) input.(FunctionInvocationInput_Capabilities)
          && (a.(Auth_ExpiresAt) =? grant.(FunctionInvocationAuthorization_ExpiresAt))
      end
  end.

Definition functionBindingPath (resource : string) : string :=
  "/resources/" +:+ PathEscape (requiredControl resource "resource") +:+ "/function-bindings".

Definition bindingPath (resource bindingID : string) : string :=
  functionBindingPath resource +:+ "/" +:+ PathEscape (requiredControl bindingID "binding ID").

(** The input with its canonical text and the digest of that. *)
Definition withCanonical (input : FunctionInvocationInput) (canonical : list byte)
    : FunctionInvocationInput :=
  mkFunctionInvocationInput input.(FunctionInvocationInput_Function) (Digest canonical)
    input.(FunctionInvocationInput_PolicyDigest) input.(FunctionInvocationInput_Resources)
    input.(FunctionInvocationInput_Capabilities) canonical
    input.(FunctionInvocationInput_ExpectedBindingRevision).

Definition AuthorizeFunctionInvocation (c : ControlClient) (resource bindingID : string)
    (input : FunctionInvocationInput) (key : string) : io FunctionInvocationAuthorization :=
  let raw := input.(FunctionInvocationInput_Input) in
  if c.(Control_userToken) =s ""
  then throw (ErrorString "function invocation requires ForUser delegation")
  else if (len raw =? 0) || (MaximumInputBytes <? len raw)
          || negb (input.(FunctionInvocationInput_InputDigest) =s Digest raw)
  then throw (BridgeError ErrInvalid)
  else match Compact raw with
  | None => throw (BridgeError ErrInvalid)
  | Some canonical =>
      if MaximumInputBytes <? len canonical then throw (BridgeError ErrInvalid)
      else
        let input := withCanonical input canonical in
        r ← requestHeadersLimit c "POST" (bindingPath resource bindingID +:+ "/invocations") key ∅
              (Some (toJson input)) into MaximumBodyBytes;
        if negb (matchesFunctionGrant r.2 (requiredControl resource "resource")
                   (requiredControl bindingID "binding ID") input)
        then throw (BridgeError ErrUnauthorized)
        else mret r.2
  end.

(** * Management *)
Context `{!Decoders}.
Context (c : ControlClient).

Definition RegisterFunctionBinding (resource : string) (input : FunctionBindingRegistration)
    (key : string) : io FunctionBinding :=
  request c "POST" (functionBindingPath resource) key (Some (toJson input)) into.

Definition FunctionBindings (resource cursor : string) (limit : Z) : io FunctionBindingList :=
  request c "GET" (functionBindingPath resource +:+ pagination cursor limit) "" None into.

Definition getFunctionBinding (resource bindingID : string) : io FunctionBinding :=
  request c "GET" (bindingPath resource bindingID) "" None into.

Definition UpdateFunctionBindingEndpoint (resource bindingID endpoint : string)
    (expectedRevision : Z) : io FunctionBinding :=
  request c "PUT" (bindingPath resource bindingID +:+ "/endpoint") ""
    (Some (JObject (member "endpoint_url" endpoint ++ member "expected_revision" expectedRevision)))
    into.

Definition VerifyFunctionBinding (resource bindingID : string) : io FunctionBinding :=
  request c "POST" (bindingPath resource bindingID +:+ "/verify") "" None into.

Definition RevokeFunctionBinding (resource bindingID : string) : io unit :=
  request c "DELETE" (bindingPath resource bindingID) "" None nowhere.
End Grants.

(** * From a grant to a caller *)

(** A value that the strict decoder reads is the one that the lenient decoder reads. *)
Class LenientLaws `{!Json Authorization} `{!GrantDecoders} : Prop := {
  Unmarshal_strict raw a rest :
    Decode raw = Some (a, rest) → atEOF rest = true → Unmarshal raw = Some a;
}.

Section GrantTheorems.
Context `{!Ed25519} `{!RawJson} `{!Json Authorization} `{!Json Result} `{!Json SignedMessage}.
Context `{!JsonText} `{!Problems} `{!Urls} `{!GrantDecoders} `{!LenientLaws}.
Context (String : URL → string) (ParseAddr : string → option Transport.Addr).
Context (post : Transport.HTTPSDispatcher → Z → string → list byte → Transport.dispatch).

Lemma NewClient_Ret grant keys network client :
  NewClient String ParseAddr post grant keys network = Ret client →
  ∃ key a raw public,
    keys.(Control_Keys)
      !! grant.(FunctionInvocationAuthorization_Authorization).(KeyID) = Some key
    ∧ VerifyAuthorization grant.(FunctionInvocationAuthorization_Authorization) key = Ret (a, raw)
    ∧ client.(Client_options) = grantOptions grant keys network a public.
Proof.
  unfold NewClient. destruct (_ !! _) as [key|]; [|done].
  destruct (VerifyAuthorization _ _) as [[a raw]| | |] eqn:Hv; [|done..].
  destruct (rawURLDecode _ _) as [public|]; [|done]. destruct (negb _); [done|]. intros Hn.
  exists key, a, raw, public. split_and!; [done..|]. revert Hn. unfold BridgeClient.New.
  destruct (Transport.ValidateEndpoint _ _ _); [|done..].
  do 3 (case_match; [done|]). destruct (Transport.New _); [|done..]. simpl.
  case_match; [done|]. by intros [= <-].
Qed.

Lemma AuthorizeFunctionInvocation_Ret c resource bindingID input key trace grant :
  runs (AuthorizeFunctionInvocation c resource bindingID input key) trace (Ret grant) →
  c.(Control_userToken) ≠ ""
  ∧ ∃ canonical payload x,
      Compact input.(FunctionInvocationInput_Input) = Some canonical
      ∧ trace = [Sent c.(Control_httpClient)
                   (controlRequest c "POST" (bindingPath resource bindingID +:+ "/invocations") key ∅
                      true payload) x]
      ∧ matchesFunctionGrant grant (TrimSpace resource) (TrimSpace bindingID)
          (withCanonical input canonical) = true.
Proof.
  unfold AuthorizeFunctionInvocation. cbv zeta.
  destruct (_ =s "") eqn:Hu; [by intros [_ ?]|]. apply String.eqb_neq in Hu.
  destruct (_ || _); [by intros [_ ?]|]. destruct (Compact _) as [canonical|]; [|by intros [_ ?]].
  destruct (_ <? _); [by intros [_ ?]|]. intros (t1 & t2 & [h g] & -> & Hs & Hr)%runs_bind_Ret.
  apply runs_sendJSON in Hs as [(_ & [?|?])|(payload & x & _ & -> & _)]; [done..|].
  cbn [snd] in Hr. destruct (matchesFunctionGrant _ _ _ _) eqn:Hm; [|by destruct Hr].
  destruct Hr as [-> [= ->]]. split; [done|]. exists canonical, payload, x. done.
Qed.

(** C15: a caller built from a grant is bound to what was asked for: the user's single request
    went to Control only, and the caller's binding, audience, revision and owner resource are
    the requested ones, taken from an authorization that a key of Control signed for exactly
    this function, input and policy. *)
Theorem grant_to_caller c resource bindingID input key trace grant keys network client :
  runs (AuthorizeFunctionInvocation c resource bindingID input key) trace (Ret grant) →
  NewClient String ParseAddr post grant keys network = Ret client →
  (∃ payload x, trace = [Sent c.(Control_httpClient)
     (controlRequest c "POST" (bindingPath resource bindingID +:+ "/invocations") key ∅ true payload) x])
  ∧ c.(Control_userToken) ≠ ""
  ∧ client.(Client_options).(Options_BindingID) = TrimSpace bindingID
  ∧ client.(Client_options).(Options_Audience) = TrimSpace bindingID
  ∧ client.(Client_options).(Options_BindingRevision)
    = input.(FunctionInvocationInput_ExpectedBindingRevision)
  ∧ client.(Client_options).(Options_Scope).(Scope_OwnerResource) = TrimSpace resource
  ∧ client.(Client_options).(Options_TrustedKeys) = keys.(Control_Keys)
  ∧ ∃ signer a raw canonical,
      keys.(Control_Keys)
        !! grant.(FunctionInvocationAuthorization_Authorization).(KeyID) = Some signer
      ∧ VerifyAuthorization grant.(FunctionInvocationAuthorization_Authorization) signer = Ret (a, raw)
      ∧ a.(Auth_Function) = Some input.(FunctionInvocationInput_Function)
      ∧ Compact input.(FunctionInvocationInput_Input) = Some canonical
      ∧ Digest a.(Auth_Input) = Digest canonical
      ∧ a.(Auth_PolicyDigest) = input.(FunctionInvocationInput_PolicyDigest).
Proof.
  intros Hr Hn. apply AuthorizeFunctionInvocation_Ret in Hr as (Hu & canonical & payload & x & Hc & -> & Hm).
  apply NewClient_Ret in Hn as (signer & a & raw & public & Hk & Hv & ->).
  pose proof Hv as Hsigned. unfold matchesFunctionGrant in Hm.
  unfold VerifyAuthorization, verifyInto in Hv.
  destruct (verify _ _ _) as [raw'| | |] eqn:Hver; [|done..].
  apply verify_Ret in Hver as (Hdec & _). rewrite Hdec in Hm.
  unfold strictJSON in Hv. destruct (Decode raw') as [[a' rest]|] eqn:Hd; [|done].
  destruct (atEOF rest) eqn:He; [|done]. injection Hv as <- <-.
  rewrite (Unmarshal_strict _ _ _ Hd He) in Hm. rewrite !andb_true_iff in Hm.
  destruct Hm as [[[[[[[[[[[[_ _] Hb%String.eqb_eq] Ha%String.eqb_eq] Ho%String.eqb_eq] Hrev%Z.eqb_eq]
    Hf%bool_decide_eq_true] _] Hi%String.eqb_eq] Hp%String.eqb_eq] _] _] _]. simpl in *.
  split; [by eauto|]. split_and!; try done. exists signer, a', raw', canonical.
  split_and!; done.
Qed.
End GrantTheorems.

(** * Samples *)
Module GrantSamples.
Import Protocol.Samples ClientSamples.

Definition seed1 : list byte := seed.
Definition input1 : FunctionInvocationInput :=
  mkFunctionInvocationInput (echo "1") (Digest (bytes_of "[1]")) "" (Some ["doc:1"]) None
    (bytes_of "[1]") 1.
Definition authorization1 : Authorization :=
  mkAuthorization (Some (echo "1")) scope "invocation" "control" "binding" "binding" "" digestA
    (Digest (bytes_of "[1]")) "invocation:1" "" "user:1" ["doc:1"] [] (bytes_of "[1]")
    1300 1000 1 1.
Definition signed1 : SignedMessage := Eval vm_compute in
  match SignAuthorization authorization1 "control:1" (NewKeyFromSeed seed) with
  | Ret m => m
  | _ => mkSignedMessage "" "" ""
  end.
Definition response1 : FunctionInvocationAuthorization :=
  mkFunctionInvocationAuthorization "https://functions.example" "signed_https" "runtime:1"
    (string_of (rawURLEncode seed)) signed1 1300.

#[local] Instance text3 : JsonText := {| Render _ := Some (bytes_of "{}") |}.
#[local] Instance problems3 : Problems := {| problemOf _ := ("", "") |}.
#[local] Instance urls3 : Urls :=
  {| Parse := url1; ParseRequestURI := url1; loopbackIP _ := false; newRequest _ _ := true |}.
#[local] Instance grants3 : GrantDecoders := {|
  decode_FunctionInvocationAuthorization := {| Unmarshal _ := Some response1 |};
  decode_Authorization := {| Unmarshal raw :=
    match Decode raw with Some (a, rest) => if atEOF rest then Some a else None | None => None end |}
|}.
#[local] Instance grants3_laws : LenientLaws.
Proof. split. simpl. intros raw a rest -> ->. done. Qed.

Definition keys1 : ControlKeys := mkControlKeys {["control:1" := Public (NewKeyFromSeed seed)]} "control".
Definition user1 : ControlClient :=
  mkControlClient (mkHttpClient false false) "https://control" "app" "secret" "token".
Definition serving1 : environment :=
  mkEnvironment (fun _ _ _ => Some (mkHttpResponse 200 ∅ (bytes_of "{}") false)) (fun _ => false)
    (fun _ _ => None).
Definition authorize1 : io FunctionInvocationAuthorization :=
  AuthorizeFunctionInvocation user1 "org:acme" " binding" input1 "k".
Definition caller1 : outcome bridge_error BridgeClient.Client :=
  NewClient URL_String (fun _ => None) (fun _ _ _ _ => Transport.DispatchFails) response1 keys1 None.

Example authorize1_ret : (exec serving1 [] authorize1).2 = Ret response1.
Proof. vm_compute. reflexivity. Qed.
Example caller1_ret : returns caller1 = true.
Proof. vm_compute. reflexivity. Qed.

Lemma authorize1_runs : ∃ trace, runs authorize1 trace (Ret response1).
Proof.
  eexists. rewrite <- authorize1_ret. apply exec_runs.
Qed.

Lemma grant_to_caller_witness :
  ∃ client, caller1 = Ret client
  ∧ client.(Client_options).(Options_BindingID) = TrimSpace " binding"
  ∧ client.(Client_options).(Options_BindingRevision) = 1.
Proof.
  destruct (proj1 (returns_Ret _) caller1_ret) as [client Hc]. exists client. split; [done|].
  destruct authorize1_runs as [trace Hr]. unfold authorize1 in Hr. unfold caller1 in Hc.
  pose proof (grant_to_caller URL_String (fun _ => None) (fun _ _ _ _ => Transport.DispatchFails)
    user1 "org:acme" " binding" input1 "k" trace response1 keys1 None client) as Hg.
  destruct (Hg Hr Hc)
    as (_ & _ & Hb & _ & Hn & _). split; [exact Hb|exact Hn].
Defined.
End GrantSamples.
