(* ===== verification/Directories.v ===== *)
(** Directories and function bindings of organizations: [lotorhttp/scim.go] and
    [lotorhttp/organization_relay.go].

    Both are managed by a delegated client, and both decode what Control answers with more care
    than its other responses: directories without unknown fields, statuses of bindings without
    credentials. *)
From S2P Require Import Prelude GoStd Interfaces Protocol Control ApiTypes Api ControlClient.
From S2P Require Import ResourceLinks.

#[local] Open Scope bool_scope.

(** The page of directories before its items are read; a nil slice is [None]. *)
Record DirectoryPage : Type := mkDirectoryPage {
  Page_NextCursor : option string;
  Page_Directories : option (list (list byte))
}.

(** The decoders at the types of this file. The members of an object are a map that keeps the
    text of each; it is nil, like the empty map, for null. *)
Class DirectoryDecoders : Type := {
  #[global] strict_SCIMDirectory :: JsonStrict SCIMDirectory;
  #[global] strict_DirectoryPage :: JsonStrict DirectoryPage;
  #[global] decode_fields :: JsonUnmarshal (gmap string (list byte));
  #[global] decode_ChallengeStatus :: JsonUnmarshal OrganizationFunctionBindingChallengeStatus;
  #[global] decode_BindingStatus :: JsonUnmarshal OrganizationFunctionBindingStatus;
  #[global] decode_Bootstrap :: JsonUnmarshal OrganizationFunctionBindingBootstrap;
  #[global] decode_rawItems :: JsonUnmarshal (option (list (list byte)));
}.

#[local] Instance rawItems_zero : Zero (option (list (list byte))) := None.

(** Reading every item of a list, up to the first error. *)
Fixpoint mapOutcome {A B} (f : A → outcome api_error B) (l : list A) : outcome api_error (list B) :=
  match l with
  | [] => Ret []
  | x :: l => y ← f x; ys ← mapOutcome f l; Ret (y :: ys)
  end.

Abbreviation ChallengeStatus := OrganizationFunctionBindingChallengeStatus.
Abbreviation BindingStatus := OrganizationFunctionBindingStatus.

Section Directories.
Context `{!JsonText} `{!Problems} `{!Urls} `{!RawJson} `{!DirectoryDecoders}.

(** * SCIM directories *)
Definition scimString (value : string) (maximum : Z) : bool :=
  negb (TrimSpace value =s "") && (slen value <=? maximum)
  && negb (ContainsAny value [x00; x0d; x0a]).

Definition scimPath (c : ControlClient) (organization : string) : outcome api_error string :=
  if c.(Control_userToken) =s ""
  then Throw (ErrorString "SCIM directory setup requires ForUser delegation")
  else if negb (scimString organization 256) then Throw (ErrorString "invalid SCIM organization")
  else Ret ("/resources/" +:+ PathEscape organization +:+ "/scim-directories").

Definition invalidDirectory : api_error := ErrorString "invalid SCIM directory response".

(** The address of a directory. *)
Definition directoryURL (raw : string) : bool :=
  match Parse raw with
  | None => false
  | Some u =>
      (u.(URL_Scheme) =s "https") && negb (u.(URL_Hostname) =s "") && negb u.(URL_User)
      && (u.(URL_RawQuery) =s "") && (u.(URL_Fragment) =s "")
  end.

Definition decodeSCIMDirectory (raw : list byte) : outcome api_error SCIMDirectory :=
  match strictDecode raw with
  | None => Throw invalidDirectory
  | Some (out, _) =>
      let status := out.(SCIMDirectory_Status) in
      if (out.(SCIMDirectory_Revision) <? 1) || negb (status =s "disabled") && negb (status =s "active")
      then Throw invalidDirectory
      else if negb (forallb (fun value => scimString value 256)
                [out.(SCIMDirectory_ID); out.(SCIMDirectory_Resource); out.(SCIMDirectory_Organization);
                 out.(SCIMDirectory_CredentialResource)])
      then Throw invalidDirectory
      else if negb (directoryURL out.(SCIMDirectory_BaseURL)) then Throw invalidDirectory
      else Ret out
  end.

(** A directory ID that is one segment of a path. *)
Definition badDirectoryID (directoryID : string) : bool :=
  negb (scimString directoryID 256) || (directoryID =s ".") || (directoryID =s "..")
  || ContainsAny directoryID [x2f; x5c].

(** The response about a directory has to be about that directory. *)
Definition directoryNamed (directoryID : string) (raw : list byte) : outcome api_error SCIMDirectory :=
  out ← decodeSCIMDirectory raw;
  if out.(SCIMDirectory_ID) =s directoryID then Ret out
  else Throw (ErrorString "SCIM directory response ID mismatch").

Section Methods.
Context (c : ControlClient).

Definition CreateSCIMDirectory (organization : string) (input : SCIMDirectoryCreateInput)
    (idempotencyKey : string) : io SCIMDirectory :=
  path ← lift (scimPath c organization);
  if negb (scimString input.(SCIMDirectoryCreateInput_DirectoryResource) 256)
     || negb (scimString input.(SCIMDirectoryCreateInput_CredentialResource) 256)
     || negb (scimString idempotencyKey 256)
     || (input.(SCIMDirectoryCreateInput_ExpectedResourceRevision) <? 1)
     || (input.(SCIMDirectoryCreateInput_ExpectedLifecycleGeneration) <? 1)
  then throw (ErrorString "invalid SCIM directory creation input")
  else
    raw ← request c "POST" path idempotencyKey (Some (toJson input)) intoRaw;
    lift (decodeSCIMDirectory raw).

Definition getSCIMDirectory (organization directoryID : string) : io SCIMDirectory :=
  path ← lift (scimPath c organization);
  if badDirectoryID directoryID then throw (ErrorString "invalid SCIM directory ID")
  else
    raw ← request c "GET" (path +:+ "/" +:+ PathEscape directoryID) "" None intoRaw;
    lift (directoryNamed directoryID raw).

Definition UpdateSCIMDirectory (organization directoryID : string) (input : SCIMDirectoryUpdateInput)
    (idempotencyKey : string) : io SCIMDirectory :=
  path ← lift (scimPath c organization);
  if badDirectoryID directoryID || negb (scimString idempotencyKey 256)
     || (input.(SCIMDirectoryUpdateInput_ExpectedRevision) <? 1)
  then throw (ErrorString "invalid SCIM directory update input")
  else
    raw ← request c "PUT" (path +:+ "/" +:+ PathEscape directoryID) idempotencyKey
            (Some (toJson input)) intoRaw;
    lift (directoryNamed directoryID raw).

(** The list: [next_cursor] has to be present, even if it is null. *)
Definition decodeDirectories (raw : list byte) : outcome api_error SCIMDirectoryList :=
  let invalid := ErrorString "invalid SCIM directory list response" in
  match Unmarshal (A := gmap string (list byte)) raw with
  | None => Throw invalid
  | Some fields =>
      if bool_decide (fields !! "next_cursor" = None) then Throw invalid
      else match strictDecode (A := DirectoryPage) raw with
      | Some (mkDirectoryPage cursor (Some items), _) =>
          if (100 <? len items)
             || match cursor with Some cursor => negb (scimString cursor 4096) | None => false end
          then Throw invalid
          else
            directories ← mapOutcome decodeSCIMDirectory items;
            Ret (mkSCIMDirectoryList cursor (Some directories))
      | _ => Throw invalid
      end
  end.

Definition SCIMDirectories (organization cursor : string) (limit : Z) : io SCIMDirectoryList :=
  path ← lift (scimPath c organization);
  if (limit <? 1) || (100 <? limit) || (4096 <? slen cursor)
  then throw (ErrorString "invalid SCIM page options")
  else
    let query : Values := Values_Set "limit" (string_of (Itoa limit)) ∅ in
    let query := if cursor =s "" then query else Values_Set "cursor" cursor query in
    raw ← request c "GET" (path +:+ "?" +:+ Encode query) "" None intoRaw;
    lift (decodeDirectories raw).
End Methods.

(** * Function bindings of organizations *)

(** The regular expression: [efb_] and letters, digits, underscores and hyphens. *)
Definition organizationBindingIDPattern (value : string) : bool :=
  HasPrefix value "efb_"
  && match bytes_of (TrimPrefix value "efb_") with [] => false | rest => forallb idByte rest end.

Definition challengeFields : list string := ["status"; "expires_at"; "challenged_at"].

Definition decodeOrganizationBindingChallenge (raw : list byte) : outcome api_error ChallengeStatus :=
  let invalid := ErrorString "invalid organization box challenge response" in
  match Unmarshal (A := gmap string (list byte)) raw, Unmarshal (A := ChallengeStatus) raw with
  | Some fields, Some out =>
      let status := out.(OrganizationFunctionBindingChallengeStatus_Status) in
      let expiresAt := out.(OrganizationFunctionBindingChallengeStatus_ExpiresAt) in
      let challengedAt := out.(OrganizationFunctionBindingChallengeStatus_ChallengedAt) in
      if negb (bool_decide (map_Forall (fun field _ => oneOf field challengeFields = true) fields))
      then Throw invalid
      else if (expiresAt <? 0) || (challengedAt <? 0) then Throw invalid
      else if oneOf status ["not_started"; "failed"; "unavailable"] then Ret out
      else if oneOf status ["pending"; "expired"]
      then if expiresAt =? 0 then Throw invalid else Ret out
      else if status =s "ready"
      then if challengedAt =? 0 then Throw invalid else Ret out
      else Throw invalid
  | _, _ => Throw invalid
  end.

Definition credentialFields : list string :=
  ["bootstrap_token"; "connector_token"; "bootstrap_token_hash"; "connector_token_hash"].

Definition withChallenge (s : BindingStatus) (challenge : ChallengeStatus) : BindingStatus :=
  mkOrganizationFunctionBindingStatus s.(OrganizationFunctionBindingStatus_BindingID)
    s.(OrganizationFunctionBindingStatus_Status) s.(OrganizationFunctionBindingStatus_BoxSubject)
    s.(OrganizationFunctionBindingStatus_SigningKeyID) challenge
    s.(OrganizationFunctionBindingStatus_BootstrapExpiresAt)
    s.(OrganizationFunctionBindingStatus_LastSeenAt).

Definition decodeOrganizationBinding (raw : list byte) : outcome api_error BindingStatus :=
  let invalid := ErrorString "invalid organization box status response" in
  match Unmarshal (A := gmap string (list byte)) raw, Unmarshal (A := BindingStatus) raw with
  | Some fields, Some out =>
      if existsb (fun field => isSome (fields !! field)) credentialFields
      then Throw (ErrorString "organization box status contains credentials")
      else if negb (organizationBindingIDPattern out.(OrganizationFunctionBindingStatus_BindingID))
              || (out.(OrganizationFunctionBindingStatus_BootstrapExpiresAt) <? 0)
              || (out.(OrganizationFunctionBindingStatus_LastSeenAt) <? 0)
      then Throw invalid
      else
        challenge ← decodeOrganizationBindingChallenge (default [] (fields !! "challenge"));
        if oneOf out.(OrganizationFunctionBindingStatus_Status) ["pending"; "expired"; "active"; "revoked"]
        then Ret (withChallenge out challenge) else Throw invalid
  | _, _ => Throw invalid
  end.

Definition organizationBindingPath (c : ControlClient) (organization bindingID : string)
    : outcome api_error string :=
  if c.(Control_userToken) =s ""
  then Throw (ErrorString "organization box operations require ForUser delegation")
  else if (TrimSpace organization =s "") || (512 <? slen organization) || (256 <? slen bindingID)
  then Throw (ErrorString "invalid organization binding input")
  else
    let path := "/resources/" +:+ PathEscape organization +:+ "/e2ee/function-bindings" in
    Ret (if bindingID =s "" then path else path +:+ "/" +:+ PathEscape bindingID).

(** The statuses of a list: at most one, and none revoked. *)
Definition currentBinding (value : list byte) : outcome api_error BindingStatus :=
  binding ← decodeOrganizationBinding value;
  if binding.(OrganizationFunctionBindingStatus_Status) =s "revoked"
  then Throw (ErrorString "invalid current organization binding state") else Ret binding.

Definition bootstrapToken : string := "e2ee_bootstrap_".

Section Bindings.
Context (c : ControlClient).

Definition StartOrganizationFunctionBindingChallenge (organization bindingID : string)
    : io ChallengeStatus :=
  if negb (organizationBindingIDPattern bindingID) then throw (ErrorString "invalid binding ID")
  else
    path ← lift (organizationBindingPath c organization bindingID);
    raw ← request c "POST" (path +:+ "/challenge") "" None intoRaw;
    lift (decodeOrganizationBindingChallenge raw).

Definition CreateOrganizationFunctionBinding (organization : string)
    : io OrganizationFunctionBindingBootstrap :=
  path ← lift (organizationBindingPath c organization "");
  out ← request c "POST" path "" None (into (A := OrganizationFunctionBindingBootstrap));
  if negb (out.(OrganizationFunctionBindingBootstrap_Status) =s "pending")
     || negb (organizationBindingIDPattern out.(OrganizationFunctionBindingBootstrap_BindingID))
     || negb (HasPrefix out.(OrganizationFunctionBindingBootstrap_BootstrapToken) bootstrapToken)
     || (slen out.(OrganizationFunctionBindingBootstrap_BootstrapToken) <=? slen bootstrapToken)
  then throw (ErrorString "invalid organization box bootstrap response")
  else mret out.

Definition ListOrganizationFunctionBindings (organization : string) : io (list BindingStatus) :=
  path ← lift (organizationBindingPath c organization "");
  raw ← request c "GET" path "" None (into (A := option (list (list byte))));
  match raw with
  | None => throw (ErrorString "invalid current organization bindings response")
  | Some values =>
      if 1 <? len values
      then throw (ErrorString "invalid current organization bindings response")
      else lift (mapOutcome currentBinding values)
  end.

Definition GetOrganizationFunctionBinding (organization bindingID : string) : io BindingStatus :=
  if TrimSpace bindingID =s "" then throw (ErrorString "binding ID is required")
  else
    path ← lift (organizationBindingPath c organization bindingID);
    raw ← request c "GET" path "" None intoRaw;
    out ← lift (decodeOrganizationBinding raw);
    if out.(OrganizationFunctionBindingStatus_BindingID) =s bindingID then mret out
    else throw (ErrorString "Lotor returned a different organization binding").

Definition RevokeOrganizationFunctionBinding (organization bindingID : string) : io unit :=
  if TrimSpace bindingID =s "" then throw (ErrorString "binding ID is required")
  else
    path ← lift (organizationBindingPath c organization bindingID);
    request c "DELETE" path "" None nowhere.
End Bindings.
End Directories.

(** * Theorems *)
Section DirectoryTheorems.
Context `{!JsonText} `{!Problems} `{!Urls} `{!RawJson} `{!DirectoryDecoders}.

Lemma mapOutcome_Ret {A B} (f : A → outcome api_error B) l ys :
  mapOutcome f l = Ret ys → Forall2 (fun x y => f x = Ret y) l ys.
Proof.
  revert ys. induction l as [|x l IH]; intros ys; simpl; [intros [= <-]; constructor|].
  destruct (f x) as [y| | |] eqn:Hx; [|done..]. simpl.
  destruct (mapOutcome f l) as [zs| | |]; [|done..]. intros [= <-]. constructor; auto.
Qed.

(** A successful request, and what is returned of its response. *)
Lemma request_Ret {A} c method path key body (out : target A) trace a :
  runs (request c method path key body out) trace (Ret a) →
  ∃ payload response h,
    trace = [Sent c.(Control_httpClient) (controlRequest c method path key ∅ (isSome body) payload)
               (Some response)]
    ∧ readResponse out (Z.shiftl 4 20) response = Ret (h, a).
Proof.
  intros [(_ & [?|?])|(payload & [response|] & _ & -> & Ha)]%runs_request; [done..| |done].
  simpl in Ha. destruct (readResponse _ _ _) as [[h a']| | |] eqn:Hr; [|done..].
  injection Ha as ->. by exists payload, response, h.
Qed.

Lemma scimPath_Ret c organization path :
  scimPath c organization = Ret path →
  c.(Control_userToken) ≠ "" ∧ scimString organization 256 = true
  ∧ path = "/resources/" +:+ PathEscape organization +:+ "/scim-directories".
Proof.
  unfold scimPath. destruct (_ =s "") eqn:Hu; [done|]. apply String.eqb_neq in Hu.
  destruct (scimString _ _); [|done]. intros [= <-]. done.
Qed.

(** What is known of a directory that was decoded. *)
Definition validDirectory (d : SCIMDirectory) : Prop :=
  1 <= d.(SCIMDirectory_Revision)
  ∧ d.(SCIMDirectory_Status) ∈ ["disabled"; "active"]
  ∧ Forall (fun value => scimString value 256 = true)
      [d.(SCIMDirectory_ID); d.(SCIMDirectory_Resource); d.(SCIMDirectory_Organization);
       d.(SCIMDirectory_CredentialResource)]
  ∧ ∃ u, Parse d.(SCIMDirectory_BaseURL) = Some u ∧ u.(URL_Scheme) = "https"
      ∧ u.(URL_Hostname) ≠ "" ∧ u.(URL_User) = false ∧ u.(URL_RawQuery) = "" ∧ u.(URL_Fragment) = "".

Lemma decodeSCIMDirectory_Ret raw d : decodeSCIMDirectory raw = Ret d → validDirectory d.
Proof.
  unfold decodeSCIMDirectory. destruct (strictDecode raw) as [[out rest]|]; [|done].
  destruct (_ || _) eqn:Hs; [done|]. destruct (forallb _ _) eqn:Hf; [|done].
  destruct (directoryURL _) eqn:Hu; [|done]. intros [= <-].
  apply orb_false_iff in Hs as [Hr%Z.ltb_ge Hs]. split_and!; [done|..].
  - destruct (_ =s "disabled") eqn:Hdis; [apply String.eqb_eq in Hdis as ->; left|].
    destruct (_ =s "active") eqn:Hact; [|done]. apply String.eqb_eq in Hact as ->. right; left.
  - apply Forall_forall. intros x Hx. rewrite forallb_forall in Hf. by apply Hf, list_elem_of_In.
  - unfold directoryURL in Hu. destruct (Parse _) as [u|]; [|done]. exists u.
    rewrite !andb_true_iff, !negb_true_iff, !String.eqb_eq, String.eqb_neq in Hu.
    by destruct Hu as ((((? & ?) & ?) & ?) & ?).
Qed.

Lemma directoryNamed_Ret directoryID raw d :
  directoryNamed directoryID raw = Ret d → d.(SCIMDirectory_ID) = directoryID ∧ validDirectory d.
Proof.
  unfold directoryNamed. destruct (decodeSCIMDirectory raw) as [out| | |] eqn:Hd; simpl; [|done..].
  destruct (_ =s _) eqn:He; [|done]. apply String.eqb_eq in He. intros [= <-]. split; [done|].
  by eapply decodeSCIMDirectory_Ret.
Qed.

(** The request about a directory: its path has four segments, the organization and the
    directory are two of them. *)
Definition directoryRequest (c : ControlClient) (method organization directoryID : string)
    (e : event) : Prop :=
  ∃ path key hasBody payload answer,
    e = Sent c.(Control_httpClient) (controlRequest c method path key ∅ hasBody payload) answer
    ∧ readPath path = [""; "resources"; organization; "scim-directories"; directoryID].

Lemma directory_runs c method path organization directoryID key body trace d :
  scimPath c organization = Ret path → badDirectoryID directoryID = false →
  runs (raw ← request c method (path +:+ "/" +:+ PathEscape directoryID) key body intoRaw;
        lift (directoryNamed directoryID raw)) trace (Ret d) →
  d.(SCIMDirectory_ID) = directoryID ∧ validDirectory d ∧ (directoryID ∉ ["."; ".."])
  ∧ ∃ e, trace = [e] ∧ directoryRequest c method organization directoryID e.
Proof.
  intros (_ & _ & ->)%scimPath_Ret Hb (t1 & t2 & raw & -> & Hq & [-> Hd])%runs_bind_Ret.
  apply request_Ret in Hq as (payload & response & h & -> & _).
  symmetry in Hd. apply directoryNamed_Ret in Hd as [Hid Hv]. split_and!; [done..| |].
  { unfold badDirectoryID in Hb. rewrite !orb_false_iff, !String.eqb_neq in Hb. set_solver. }
  eexists. split; [done|]. eexists _, _, _, _, _. split; [done|].
  rewrite <- readPath_pathOf. f_equal. unfold pathOf. apply bytes_of_inj.
  rewrite !bytes_of_app, bytes_of_string_of. csimpl. rewrite <- !app_assoc, app_nil_r. done.
Qed.

(** A directory that a delegated client reads or updates is the one it asked for, whatever
    characters its name has: the only request has the organization and the directory as two
    segments of its path, and the directory that is returned has the same ID, a positive revision,
    a known status and an https address without credentials, query or fragment. Without
    delegation nothing is sent. *)
Theorem directory_addressed c organization directoryID input key trace r :
  runs (getSCIMDirectory c organization directoryID) trace r
  ∨ runs (UpdateSCIMDirectory c organization directoryID input key) trace r →
  (c.(Control_userToken) = "" → trace = [] ∧ ∀ d, r ≠ Ret d)
  ∧ (∀ d, r = Ret d →
      d.(SCIMDirectory_ID) = directoryID ∧ validDirectory d
      ∧ (directoryID ∉ ["."; ".."])
      ∧ ∃ e, trace = [e] ∧ (directoryRequest c "GET" organization directoryID e
                            ∨ directoryRequest c "PUT" organization directoryID e)).
Proof.
  intros Hr. split.
  - intros Hu. unfold getSCIMDirectory, UpdateSCIMDirectory, scimPath in Hr. rewrite Hu in Hr.
    by destruct Hr as [[-> ->]|[-> ->]].
  - intros d ->. destruct Hr as [Hr|Hr];
      (apply runs_lift in Hr as [(path & Hp & Hr)|(_ & Hn & _)]; [|by destruct (Hn d)]);
      case_match; try (by destruct Hr).
    + apply (directory_runs _ _ _ _ _ _ _ _ _ Hp) in Hr as (? & ? & ? & e & -> & He); [|done].
      split_and!; [done..|]. exists e. by split; [|left].
    + apply (directory_runs _ _ _ _ _ _ _ _ _ Hp) in Hr as (? & ? & ? & e & -> & He);
        [|by destruct (badDirectoryID directoryID)].
      split_and!; [done..|]. exists e. by split; [|right].
Qed.

(** * Statuses of function bindings *)

(** What a challenge is, by its status: an outstanding or expired one has a deadline, a
    completed one its time. *)
Definition validChallenge (ch : ChallengeStatus) : Prop :=
  0 <= ch.(OrganizationFunctionBindingChallengeStatus_ExpiresAt)
  ∧ 0 <= ch.(OrganizationFunctionBindingChallengeStatus_ChallengedAt)
  ∧ (ch.(OrganizationFunctionBindingChallengeStatus_Status) ∈ ["not_started"; "failed"; "unavailable"]
     ∨ ch.(OrganizationFunctionBindingChallengeStatus_Status) ∈ ["pending"; "expired"]
       ∧ 0 < ch.(OrganizationFunctionBindingChallengeStatus_ExpiresAt)
     ∨ ch.(OrganizationFunctionBindingChallengeStatus_Status) = "ready"
       ∧ 0 < ch.(OrganizationFunctionBindingChallengeStatus_ChallengedAt)).

Definition validStatus (s : BindingStatus) : Prop :=
  organizationBindingIDPattern s.(OrganizationFunctionBindingStatus_BindingID) = true
  ∧ 0 <= s.(OrganizationFunctionBindingStatus_BootstrapExpiresAt)
  ∧ 0 <= s.(OrganizationFunctionBindingStatus_LastSeenAt)
  ∧ s.(OrganizationFunctionBindingStatus_Status) ∈ ["pending"; "expired"; "active"; "revoked"]
  ∧ validChallenge s.(OrganizationFunctionBindingStatus_Challenge).

(** A text whose object has none of the credentials of a connector, and whose challenge has
    no members but the three of a challenge. *)
Definition withoutCredentials (raw : list byte) : Prop :=
  ∃ fields challenge : gmap string (list byte),
    Unmarshal raw = Some fields ∧ (∀ field, field ∈ credentialFields → fields !! field = None)
    ∧ Unmarshal (default [] (fields !! "challenge")) = Some challenge
    ∧ ∀ field, is_Some (challenge !! field) → field ∈ challengeFields.

Lemma oneOf_elem value allowed : oneOf value allowed = true ↔ value ∈ allowed.
Proof.
  unfold oneOf. rewrite existsb_exists. split.
  - intros (x & Hx & ->%String.eqb_eq). by apply list_elem_of_In.
  - intros Hx%list_elem_of_In. exists value. by rewrite String.eqb_refl.
Qed.

Lemma decodeChallenge_Ret raw ch :
  decodeOrganizationBindingChallenge raw = Ret ch →
  validChallenge ch
  ∧ ∃ fields : gmap string (list byte),
      Unmarshal raw = Some fields ∧ ∀ field, is_Some (fields !! field) → field ∈ challengeFields.
Proof.
  unfold decodeOrganizationBindingChallenge. destruct (Unmarshal (A := gmap _ _) raw) as [fields|] eqn:Hf; [|done].
  destruct (Unmarshal (A := ChallengeStatus) raw) as [out|]; [|done]. cbv zeta.
  destruct (negb _) eqn:Hall; [done|]. apply negb_false_iff, bool_decide_eq_true in Hall.
  destruct (_ || _) eqn:Hneg; [done|]. apply orb_false_iff in Hneg as [He%Z.ltb_ge Hc%Z.ltb_ge].
  intros Hr. split.
  - assert (out = ch ∧ (oneOf out.(OrganizationFunctionBindingChallengeStatus_Status)
                          ["not_started"; "failed"; "unavailable"] = true
      ∨ oneOf out.(OrganizationFunctionBindingChallengeStatus_Status) ["pending"; "expired"] = true
        ∧ out.(OrganizationFunctionBindingChallengeStatus_ExpiresAt) ≠ 0
      ∨ out.(OrganizationFunctionBindingChallengeStatus_Status) = "ready"
        ∧ out.(OrganizationFunctionBindingChallengeStatus_ChallengedAt) ≠ 0)) as [<- Hs].
    { repeat case_match; simplify_eq; (split; [done|]);
        rewrite ?String.eqb_eq, ?Z.eqb_neq in *; auto. }
    rewrite !oneOf_elem in Hs. split; [exact He|]. split; [exact Hc|].
    destruct Hs as [Hs|[[Hs Hz]|[Hs Hz]]]; [by left|right; left|right; right]; (split; [done|lia]).
  - exists fields. split; [done|]. intros field [value Hv]. apply oneOf_elem. by apply Hall in Hv.
Qed.

Lemma decodeOrganizationBinding_Ret raw s :
  decodeOrganizationBinding raw = Ret s → validStatus s ∧ withoutCredentials raw.
Proof.
  unfold decodeOrganizationBinding. destruct (Unmarshal (A := gmap _ _) raw) as [fields|] eqn:Hf; [|done].
  destruct (Unmarshal (A := BindingStatus) raw) as [out|]; [|done]. cbv zeta.
  destruct (existsb _ _) eqn:Hcred; [done|]. destruct (_ || _) eqn:Hneg; [done|].
  rewrite !orb_false_iff, negb_false_iff, !Z.ltb_ge in Hneg. destruct Hneg as [[Hid He] Hl].
  destruct (decodeOrganizationBindingChallenge _) as [ch| | |] eqn:Hch; obind; [|done..].
  destruct (oneOf _ _) eqn:Hs; [|done]. intros [= <-].
  apply decodeChallenge_Ret in Hch as (Hv & challenge & Hcf & Hck). split.
  - unfold validStatus. simpl. by rewrite <- oneOf_elem.
  - exists fields, challenge. split_and!; [done| |done..]. intros field Hin.
    destruct (fields !! field) eqn:Hlook; [|done]. exfalso.
    assert (existsb (fun f => isSome (fields !! f)) credentialFields = true); [|congruence].
    apply existsb_exists. exists field. split; [by apply list_elem_of_In|by rewrite Hlook].
Qed.

(** C29: the status of an organization's binding never carries credentials. A status that is
    read was sent without a bootstrap or connector token or its hash and with no member in its
    challenge but the documented ones; it is the status of the binding that was asked for, and
    its times agree with its challenge. A list has at most one binding, and none that is
    revoked. Only a delegated client sends anything. *)
Theorem organization_status_sound c organization bindingID :
  (∀ trace s, runs (GetOrganizationFunctionBinding c organization bindingID) trace (Ret s) →
     c.(Control_userToken) ≠ "" ∧ s.(OrganizationFunctionBindingStatus_BindingID) = bindingID
     ∧ validStatus s
     ∧ ∃ request response h raw,
         trace = [Sent c.(Control_httpClient) request (Some response)]
         ∧ readResponse intoRaw (Z.shiftl 4 20) response = Ret (h, raw) ∧ withoutCredentials raw)
  ∧ (∀ trace l, runs (ListOrganizationFunctionBindings c organization) trace (Ret l) →
     c.(Control_userToken) ≠ "" ∧ len l <= 1
     ∧ Forall (fun s => validStatus s
                        ∧ s.(OrganizationFunctionBindingStatus_Status) ≠ "revoked") l).
Proof.
  assert (Hpath : ∀ id path, organizationBindingPath c organization id = Ret path →
    c.(Control_userToken) ≠ "").
  { intros id path. unfold organizationBindingPath. destruct (_ =s "") eqn:Hu; [done|].
    by apply String.eqb_neq in Hu. }
  split.
  - intros trace s Hr. unfold GetOrganizationFunctionBinding in Hr.
    destruct (_ =s ""); [by destruct Hr|].
    apply runs_lift in Hr as [(path & Hp & Hr)|(_ & Hn & _)]; [|by destruct (Hn s)].
    apply runs_bind_Ret in Hr as (t1 & t2 & raw & -> & Hq & Hr).
    apply request_Ret in Hq as (payload & response & h & -> & Hread).
    apply runs_lift in Hr as [(out & Hd & Hr)|(_ & Hn & _)]; [|by destruct (Hn s)].
    destruct (_ =s bindingID) eqn:Hid; [|by destruct Hr]. apply String.eqb_eq in Hid.
    destruct Hr as [-> [= ->]]. apply decodeOrganizationBinding_Ret in Hd as [Hv Hw].
    split_and!; [by eapply Hpath|done..|]. eexists _, response, h, raw. done.
  - intros trace l Hr. unfold ListOrganizationFunctionBindings in Hr.
    apply runs_lift in Hr as [(path & Hp & Hr)|(_ & Hn & _)]; [|by destruct (Hn l)].
    apply runs_bind_Ret in Hr as (t1 & t2 & [values|] & -> & _ & Hr); [|by destruct Hr].
    destruct (1 <? len values) eqn:Hlen; [by destruct Hr|]. apply Z.ltb_ge in Hlen.
    destruct Hr as [-> Hr]. symmetry in Hr. apply mapOutcome_Ret in Hr.
    split_and!; [by eapply Hpath| |].
    + unfold len in *. by rewrite <- (Forall2_length _ _ _ Hr).
    + eapply Forall2_Forall_r; [exact Hr|]. apply Forall_forall. intros value _ s Hc.
      unfold currentBinding in Hc. destruct (decodeOrganizationBinding value) as [out| | |] eqn:Hd;
        simpl in Hc; [|done..]. destruct (_ =s "revoked") eqn:Hs; [done|].
      apply String.eqb_neq in Hs. injection Hc as ->.
      by apply decodeOrganizationBinding_Ret in Hd as [Hv _].
Qed.
End DirectoryTheorems.

(** * Samples *)
Module DirectorySamples.
#[local] Existing Instance Interfaces.plainRaw.
#[local] Instance text4 : JsonText := {| Render _ := Some (bytes_of "{}") |}.
#[local] Instance problems4 : Problems := {| problemOf _ := ("", "") |}.
#[local] Instance urls4 : Urls := {|
  Parse s := Some (mkURL "https" false "scim" "scim" "" "" "" "" "" false "" s);
  ParseRequestURI _ := None; loopbackIP _ := false; newRequest _ _ := true
|}.
Definition challenge4 : OrganizationFunctionBindingChallengeStatus :=
  mkOrganizationFunctionBindingChallengeStatus "ready" 0 7.
Definition status4 : OrganizationFunctionBindingStatus :=
  mkOrganizationFunctionBindingStatus "efb_1" "active" "box" "key" challenge4 0 9.
#[local] Instance decoders4 : DirectoryDecoders := {|
  strict_SCIMDirectory := {| strictDecode raw := Some (mkSCIMDirectory (string_of raw) "directory:1"
    "org:1" "credential:1" "active" "https://scim" 1, []) |};
  strict_DirectoryPage := {| strictDecode _ := None |};
  decode_fields := {| Unmarshal raw := if bool_decide (raw = bytes_of "status") then
    Some {["challenge" := bytes_of "challenge"]} else Some {["status" := bytes_of "ready"]} |};
  decode_ChallengeStatus := {| Unmarshal _ := Some challenge4 |};
  decode_BindingStatus := {| Unmarshal _ := Some status4 |};
  decode_Bootstrap := {| Unmarshal _ := None |};
  decode_rawItems := {| Unmarshal raw := Some (Some [raw]) |}
|}.
Definition user4 : ControlClient :=
  mkControlClient (mkHttpClient false false) "https://control" "app" "secret" "user".
Definition serving4 (body : string) : environment :=
  mkEnvironment (fun _ _ _ => Some (mkHttpResponse 200 ∅ (bytes_of body) false))
    (fun _ => false) (fun _ _ => None).

Definition get4 : io SCIMDirectory := getSCIMDirectory user4 "org:1" "directory 1".
Lemma get4_runs : ∃ trace d, runs get4 trace (Ret d).
Proof.
  pose proof (exec_runs (serving4 "directory 1") [] get4) as Hr.
  assert (He : returns (exec (serving4 "directory 1") [] get4).2 = true) by (vm_compute; reflexivity).
  apply returns_Ret in He as [d Hd]. rewrite Hd in Hr. by eexists _, d.
Qed.

Lemma directory_addressed_witness :
  ∃ trace d, runs get4 trace (Ret d) ∧ d.(SCIMDirectory_ID) = "directory 1".
Proof.
  destruct get4_runs as (trace & d & Hr). exists trace, d. split; [exact Hr|]. unfold get4 in Hr.
  pose proof (directory_addressed user4 "org:1" "directory 1" (mkSCIMDirectoryUpdateInput true 1) ""
    trace (Ret d)) as Ht.
  destruct (Ht (or_introl Hr)) as [_ Hd]. exact (proj1 (Hd d eq_refl)).
Defined.

Definition status4_get : io OrganizationFunctionBindingStatus :=
  GetOrganizationFunctionBinding user4 "org:1" "efb_1".
Lemma status4_runs : ∃ trace s, runs status4_get trace (Ret s).
Proof.
  pose proof (exec_runs (serving4 "status") [] status4_get) as Hr.
  assert (He : returns (exec (serving4 "status") [] status4_get).2 = true) by (vm_compute; reflexivity).
  apply returns_Ret in He as [d Hd]. rewrite Hd in Hr. by eexists _, d.
Qed.

Lemma organization_status_sound_witness :
  ∃ trace s, runs status4_get trace (Ret s) ∧ validStatus s.
Proof.
  destruct status4_runs as (trace & s & Hr). exists trace, s. split; [exact Hr|].
  unfold status4_get in Hr.
  destruct (proj1 (organization_status_sound user4 "org:1" "efb_1") trace s Hr) as (_ & _ & Hv & _).
  exact Hv.
Defined.
End DirectorySamples.
