(* ===== verification/ApiAuthority.v ===== *)
(** Authority: where the credentials of a client go.

    The calls of a control client as a type, with the authority that its code asks for, and the
    theorem that every one of them sends the application's secret and the user's token to
    its own application at Control and nowhere else, while the calls that move objects to and
    from storage send neither. *)
From S2P Require Import Prelude GoStd Interfaces Protocol Control ApiTypes Api ControlClient.
From S2P Require Import ResourceClient ResourceLinks AccountApi FunctionBindings Directories.

#[local] Open Scope bool_scope.

(** * Rules *)

(** [confined P m]: every effect of [m] satisfies [P]. *)
Definition confined {A} (P : event → Prop) (m : io A) : Prop := triple P m (fun _ => True).

(** [denied m]: [m] has no effects and no result. *)
Definition denied {A} (m : io A) : Prop := triple (fun _ => False) m (fun _ => False).

Create HintDb api.

Section Rules.
Context (P : event → Prop).

Lemma confined_ret {A} (a : A) : confined P (mret a).
Proof. by apply triple_ret. Qed.

Lemma confined_throw {A} e : confined P (throw (A := A) e).
Proof. apply triple_throw. Qed.

Lemma confined_lift {A} (r : outcome api_error A) : confined P (lift r).
Proof. by apply triple_lift. Qed.

Lemma confined_bind {A B} (m : io A) (f : A → io B) :
  confined P m → (∀ a, confined P (f a)) → confined P (m ≫= f).
Proof. intros Hm Hf. eapply triple_bind; [exact Hm|]. intros a _. apply Hf. Qed.

Lemma confined_pause {A} interval (k : bool → io A) :
  (∀ x, P (Paused interval x)) → (∀ x, confined P (k x)) → confined P (Pause interval k).
Proof.
  intros Hp Hk trace r (x & rest & -> & Hr). destruct (Hk _ _ _ Hr) as [Hf Ha].
  split; [by constructor|done].
Qed.

Lemma confined_poll {A} (k : bool → io A) :
  (∀ x, P (Polled x)) → (∀ x, confined P (k x)) → confined P (ContextErr k).
Proof.
  intros Hp Hk trace r (x & rest & -> & Hr). destruct (Hk _ _ _ Hr) as [Hf Ha].
  split; [by constructor|done].
Qed.

Lemma confined_sendJSON `{!JsonText} `{!Urls} {A} client build body
    (read : HttpResponse → outcome api_error A) :
  (∀ payload x, P (Sent client (build payload) x)) → confined P (sendJSON client build body read).
Proof.
  intros Hp trace r [(-> & _)|(payload & x & _ & -> & _)]%runs_sendJSON; split; try done.
  by repeat constructor.
Qed.
End Rules.

Lemma denied_throw {A} e : denied (throw (A := A) e).
Proof. apply triple_throw. Qed.

Lemma denied_lift {A} (r : outcome api_error A) : (∀ a, r ≠ Ret a) → denied (lift r).
Proof. intros Hr. apply triple_lift. intros a Ha. by destruct (Hr a). Qed.

Lemma denied_bind {A B} (m : io A) (f : A → io B) : denied m → denied (m ≫= f).
Proof. intros Hm. eapply triple_bind; [exact Hm|]. done. Qed.

Lemma denied_bind_lift {A B} (r : outcome api_error A) (f : A → io B) :
  (∀ a, r = Ret a → denied (f a)) → denied (lift r ≫= f).
Proof. intros Hf. destruct r; simpl; [by apply Hf|apply triple_throw|..]; by intros trace x [-> ->]. Qed.

Lemma denied_spec {A} (m : io A) trace r : denied m → runs m trace r → trace = [] ∧ ∀ a, r ≠ Ret a.
Proof.
  intros Hm Hr. destruct (Hm _ _ Hr) as [Hf Ha]. split; [by destruct Hf|]. intros a ->. by apply (Ha a).
Qed.

(** * The calls *)
Section Authority.
Context `{!JsonText} `{!Problems} `{!Urls} `{!RawJson} `{!Decoders} `{!ResourceDecoders}.
Context `{!StrictDecoders} `{!EventDecoders} `{!DirectoryDecoders} `{!GrantDecoders}.

(** Whom the code of a call lets make it: any client, so that Control decides; only a client
    for a user; only one for the application itself. [Storage] calls use no authority. *)
Inductive authority : Type := Anyone | UserOnly | ApplicationOnly | Storage.

(** Every call of a control client. *)
Inductive controlCall (c : ControlClient) : authority → ∀ {A}, io A → Prop :=
| call_getResource resource : controlCall c Anyone (getResource c resource)
| call_PutResource resource input : controlCall c Anyone (PutResource c resource input)
| call_CreateSystemResource input key : controlCall c Anyone (CreateSystemResource c input key)
| call_MoveResource resource parent fence key :
    controlCall c Anyone (MoveResource c resource parent fence key)
| call_DisableResource resource fence key :
    controlCall c Anyone (DisableResource c resource fence key)
| call_RestoreResource resource fence key :
    controlCall c Anyone (RestoreResource c resource fence key)
| call_DeleteResource resource fence subtree key :
    controlCall c Anyone (DeleteResource c resource fence subtree key)
| call_Operation id : controlCall c Anyone (Operation c id)
| call_WaitForOperation id options : controlCall c Anyone (WaitForOperation c id options)
| call_PutResourceType resourceType definition :
    controlCall c Anyone (PutResourceType c resourceType definition)
| call_CreateCatalog input key : controlCall c Anyone (CreateCatalog c input key)
| call_getCatalog id : controlCall c Anyone (getCatalog c id)
| call_Catalogs cursor limit : controlCall c Anyone (Catalogs c cursor limit)
| call_ImportOpenAPI catalogID input key : controlCall c Anyone (ImportOpenAPI c catalogID input key)
| call_ImportDefinitions catalogID entries key :
    controlCall c Anyone (ImportDefinitions c catalogID entries key)
| call_CatalogSnapshots catalogID cursor limit :
    controlCall c Anyone (CatalogSnapshots c catalogID cursor limit)
| call_PublishCatalogSnapshot catalogID snapshotID key :
    controlCall c Anyone (PublishCatalogSnapshot c catalogID snapshotID key)
| call_CatalogEntries catalogID cursor limit :
    controlCall c Anyone (CatalogEntries c catalogID cursor limit)
| call_getCatalogEntry catalogID entryID : controlCall c Anyone (getCatalogEntry c catalogID entryID)
| call_BindResourceCatalog resource input key :
    controlCall c Anyone (BindResourceCatalog c resource input key)
| call_IssueResourceCredential resource input key :
    controlCall c Anyone (IssueResourceCredential c resource input key)
| call_ResourceCredentials resource : controlCall c Anyone (ResourceCredentials c resource)
| call_RotateResourceCredential resource credentialID input key :
    controlCall c Anyone (RotateResourceCredential c resource credentialID input key)
| call_RevokeResourceCredential resource credentialID key :
    controlCall c Anyone (RevokeResourceCredential c resource credentialID key)
| call_BeginResourcePayloadUpload resource slot input :
    controlCall c Anyone (BeginResourcePayloadUpload c resource slot input)
| call_CommitResourcePayload resource slot intent :
    controlCall c Anyone (CommitResourcePayload c resource slot intent)
| call_RewrapResourcePayload resource slot input :
    controlCall c Anyone (RewrapResourcePayload c resource slot input)
| call_DeleteResourcePayload resource slot key :
    controlCall c Anyone (DeleteResourcePayload c resource slot key)
| call_ResourcePayload resource slot : controlCall c Anyone (ResourcePayload c resource slot)
| call_AccessResourcePayload resource slot payloadVersion :
    controlCall c Anyone (AccessResourcePayload c resource slot payloadVersion)
| call_SearchResourceLinkCandidates resource input :
    controlCall c UserOnly (SearchResourceLinkCandidates c resource input)
| call_PreflightResourceLinks resource changes :
    controlCall c UserOnly (PreflightResourceLinks c resource changes)
| call_CommitResourceLinks resource preflight envelopes :
    controlCall c UserOnly (CommitResourceLinks c resource preflight envelopes)
| call_SendResourceLinks resource input : controlCall c UserOnly (SendResourceLinks c resource input)
| call_UnlinkResource resource linkID idempotencyKey :
    controlCall c UserOnly (UnlinkResource c resource linkID idempotencyKey)
| call_ResourceCollaborators resource options :
    controlCall c UserOnly (ResourceCollaborators c resource options)
| call_CheckResourceSubjectAccess resource subject :
    controlCall c ApplicationOnly (CheckResourceSubjectAccess c resource subject)
| call_SearchResources input : controlCall c UserOnly (SearchResources c input)
| call_getOrganizationE2EEPolicy organization :
    controlCall c UserOnly (getOrganizationE2EEPolicy c organization)
| call_ConfigureOrganizationE2EE organization input :
    controlCall c UserOnly (ConfigureOrganizationE2EE c organization input)
| call_SetResourceCollaborationPolicy resource input :
    controlCall c UserOnly (SetResourceCollaborationPolicy c resource input)
| call_AccountInvitations cursor limit : controlCall c Anyone (AccountInvitations c cursor limit)
| call_AcceptAccountInvitation invitationID :
    controlCall c Anyone (AcceptAccountInvitation c invitationID)
| call_DeclineAccountInvitation invitationID :
    controlCall c Anyone (DeclineAccountInvitation c invitationID)
| call_AccountResources options : controlCall c Anyone (AccountResources c options)
| call_CreatePortalSession input : controlCall c Anyone (CreatePortalSession c input)
| call_ResourceCatalogEntries resource catalogID cursor limit :
    controlCall c Anyone (ResourceCatalogEntries c resource catalogID cursor limit)
| call_ResourceCatalogEntry resource catalogID entryID :
    controlCall c Anyone (ResourceCatalogEntry c resource catalogID entryID)
| call_AvailableCatalogs cursor limit : controlCall c Anyone (AvailableCatalogs c cursor limit)
| call_AvailableCatalogEntries catalogID cursor limit :
    controlCall c Anyone (AvailableCatalogEntries c catalogID cursor limit)
| call_AvailableCatalogSnapshotDocument catalogID snapshotID :
    controlCall c Anyone (AvailableCatalogSnapshotDocument c catalogID snapshotID)
| call_CreateDevelopmentConnection resource key :
    controlCall c Anyone (CreateDevelopmentConnection c resource key)
| call_DevelopmentConnections resource cursor limit :
    controlCall c Anyone (DevelopmentConnections c resource cursor limit)
| call_getDevelopmentConnection resource connectionID :
    controlCall c Anyone (getDevelopmentConnection c resource connectionID)
| call_RevokeDevelopmentConnection resource connectionID :
    controlCall c Anyone (RevokeDevelopmentConnection c resource connectionID)
| call_CreateDevelopmentConnectionSession resource connectionID :
    controlCall c Anyone (CreateDevelopmentConnectionSession c resource connectionID)
| call_ConfigureResourceEventStream resource stream input :
    controlCall c UserOnly (ConfigureResourceEventStream c resource stream input)
| call_AppendResourceEvent resource stream input :
    controlCall c UserOnly (AppendResourceEvent c resource stream input)
| call_CreateResourceEventQuery resource stream input :
    controlCall c UserOnly (CreateResourceEventQuery c resource stream input)
| call_ResourceEvents resource stream queryID cursor limit :
    controlCall c UserOnly (ResourceEvents c resource stream queryID cursor limit)
| call_ResourceEventHistogram resource stream queryID groupBy interval :
    controlCall c UserOnly (ResourceEventHistogram c resource stream queryID groupBy interval)
| call_getResourceEvent resource stream eventID :
    controlCall c UserOnly (getResourceEvent c resource stream eventID)
| call_AuthorizeFunctionInvocation resource bindingID input key :
    controlCall c UserOnly (AuthorizeFunctionInvocation c resource bindingID input key)
| call_RegisterFunctionBinding resource input key :
    controlCall c Anyone (RegisterFunctionBinding c resource input key)
| call_FunctionBindings resource cursor limit :
    controlCall c Anyone (FunctionBindings c resource cursor limit)
| call_getFunctionBinding resource bindingID :
    controlCall c Anyone (getFunctionBinding c resource bindingID)
| call_UpdateFunctionBindingEndpoint resource bindingID endpoint expectedRevision :
    controlCall c Anyone (UpdateFunctionBindingEndpoint c resource bindingID endpoint expectedRevision)
| call_VerifyFunctionBinding resource bindingID :
    controlCall c Anyone (VerifyFunctionBinding c resource bindingID)
| call_RevokeFunctionBinding resource bindingID :
    controlCall c Anyone (RevokeFunctionBinding c resource bindingID)
| call_CreateSCIMDirectory organization input idempotencyKey :
    controlCall c UserOnly (CreateSCIMDirectory c organization input idempotencyKey)
| call_getSCIMDirectory organization directoryID :
    controlCall c UserOnly (getSCIMDirectory c organization directoryID)
| call_UpdateSCIMDirectory organization directoryID input idempotencyKey :
    controlCall c UserOnly (UpdateSCIMDirectory c organization directoryID input idempotencyKey)
| call_SCIMDirectories organization cursor limit :
    controlCall c UserOnly (SCIMDirectories c organization cursor limit)
| call_StartOrganizationFunctionBindingChallenge organization bindingID :
    controlCall c UserOnly (StartOrganizationFunctionBindingChallenge c organization bindingID)
| call_CreateOrganizationFunctionBinding organization :
    controlCall c UserOnly (CreateOrganizationFunctionBinding c organization)
| call_ListOrganizationFunctionBindings organization :
    controlCall c UserOnly (ListOrganizationFunctionBindings c organization)
| call_GetOrganizationFunctionBinding organization bindingID :
    controlCall c UserOnly (GetOrganizationFunctionBinding c organization bindingID)
| call_RevokeOrganizationFunctionBinding organization bindingID :
    controlCall c UserOnly (RevokeOrganizationFunctionBinding c organization bindingID)
| call_UploadResourcePayloadObject intent required object :
    controlCall c Storage (UploadResourcePayloadObject c intent required object)
| call_DownloadResourcePayload lease : controlCall c Storage (DownloadResourcePayload c lease).

(** An effect of a control client: a request to its application with its secret and, if it is
    delegated, the token of its user. *)
Definition controlEvent (c : ControlClient) (e : event) : Prop :=
  match e with
  | Sent client q _ =>
      client = c.(Control_httpClient)
      ∧ (∃ rest, q.(Http_URL) = apiURL c.(Control_baseURL) c.(Control_clientID) ("/" +:+ rest))
      ∧ q.(Http_Header) !! "X-Lotor-Secret-Key" = Some [c.(Control_secretKey)]
      ∧ q.(Http_Header) !! "Authorization"
        = if c.(Control_userToken) =s "" then None else Some ["Bearer " +:+ c.(Control_userToken)]
  | Paused _ _ | Polled _ => True
  | Drawn _ _ => False
  end.

(** The effects that a call may have. *)
Definition callEvent (c : ControlClient) (au : authority) (e : event) : Prop :=
  match au with Storage => storageEvent e | _ => controlEvent c e end.

Lemma controlHeader_authority c key hasBody extra :
  extra !! "X-Lotor-Secret-Key" = None → extra !! "Authorization" = None →
  Header_AddAll (controlHeader c key hasBody) extra !! "X-Lotor-Secret-Key"
  = Some [c.(Control_secretKey)]
  ∧ Header_AddAll (controlHeader c key hasBody) extra !! "Authorization"
    = if c.(Control_userToken) =s "" then None else Some ["Bearer " +:+ c.(Control_userToken)].
Proof.
  intros Hs Ha. unfold Header_AddAll. rewrite !lookup_union_with, Hs, Ha.
  unfold controlHeader, Header_Set. cbv zeta.
  destruct (key =s ""), hasBody, (_ =s ""); by simplify_map_eq.
Qed.

(** Every request goes through one function. *)
Definition rooted (path : string) : Prop := ∃ rest, path = "/" +:+ rest.

Lemma confined_requestHeadersLimit {A} c method path key extra body (out : target A) limit :
  rooted path → extra !! "X-Lotor-Secret-Key" = None → extra !! "Authorization" = None →
  confined (controlEvent c) (requestHeadersLimit c method path key extra body out limit).
Proof.
  intros [rest ->] Hs Ha. apply confined_sendJSON. intros payload x. simpl.
  split_and!; [done|by exists rest|apply controlHeader_authority; done..].
Qed.

Lemma confined_bind_lift {A B} P (r : outcome api_error A) (f : A → io B) :
  (∀ a, r = Ret a → confined P (f a)) → confined P (lift r ≫= f).
Proof. intros Hf. destruct r; simpl; [by apply Hf|apply triple_throw|..]; by intros trace x [-> ->]. Qed.

Lemma rooted_scimPath c organization path rest :
  scimPath c organization = Ret path → rooted (path +:+ rest).
Proof. intros (_ & _ & ->)%scimPath_Ret. by eexists. Qed.

Lemma rooted_bindingPath c organization bindingID path rest :
  organizationBindingPath c organization bindingID = Ret path → rooted (path +:+ rest).
Proof.
  unfold organizationBindingPath. destruct (_ =s ""); [done|]. destruct (_ || _); [done|].
  intros [= <-]. destruct (_ =s ""); by eexists.
Qed.

Lemma append_empty s : s = s +:+ "".
Proof. apply bytes_of_inj. by rewrite bytes_of_app, app_nil_r. Qed.
End Authority.

#[export] Hint Unfold
  getResource PutResource CreateSystemResource MoveResource DisableResource RestoreResource
  DeleteResource Operation WaitForOperation PutResourceType CreateCatalog getCatalog Catalogs
  ImportOpenAPI ImportDefinitions CatalogSnapshots PublishCatalogSnapshot CatalogEntries
  getCatalogEntry BindResourceCatalog IssueResourceCredential ResourceCredentials
  RotateResourceCredential RevokeResourceCredential BeginResourcePayloadUpload
  CommitResourcePayload RewrapResourcePayload DeleteResourcePayload ResourcePayload
  AccessResourcePayload SearchResourceLinkCandidates PreflightResourceLinks CommitResourceLinks
  SendResourceLinks UnlinkResource ResourceCollaborators CheckResourceSubjectAccess
  SearchResources getOrganizationE2EEPolicy ConfigureOrganizationE2EE
  SetResourceCollaborationPolicy AccountInvitations AcceptAccountInvitation
  DeclineAccountInvitation AccountResources CreatePortalSession ResourceCatalogEntries
  ResourceCatalogEntry AvailableCatalogs AvailableCatalogEntries AvailableCatalogSnapshotDocument
  CreateDevelopmentConnection DevelopmentConnections getDevelopmentConnection
  RevokeDevelopmentConnection CreateDevelopmentConnectionSession ConfigureResourceEventStream
  AppendResourceEvent CreateResourceEventQuery ResourceEvents ResourceEventHistogram
  getResourceEvent AuthorizeFunctionInvocation RegisterFunctionBinding FunctionBindings
  getFunctionBinding UpdateFunctionBindingEndpoint VerifyFunctionBinding RevokeFunctionBinding
  CreateSCIMDirectory getSCIMDirectory UpdateSCIMDirectory SCIMDirectories
  StartOrganizationFunctionBindingChallenge CreateOrganizationFunctionBinding
  ListOrganizationFunctionBindings GetOrganizationFunctionBinding
  RevokeOrganizationFunctionBinding
  request requestHeaders operationRequest lifecycle strictRequest strictRequestHeaders validated
  accountInvitationAction eventRequest : api.

#[local] Ltac rooted :=
  first [ by eexists | by eapply rooted_scimPath | by eapply rooted_bindingPath
        | erewrite append_empty; first [by eapply rooted_scimPath | by eapply rooted_bindingPath] ].

#[local] Ltac confine :=
  repeat first
    [ apply confined_requestHeadersLimit; [rooted|reflexivity..]
    | apply confined_bind_lift; intros | apply confined_bind; [|intros]
    | apply confined_ret | apply confined_throw | apply confined_lift | case_match ].

Section Theorems.
Context `{!JsonText} `{!Problems} `{!Urls} `{!RawJson} `{!Decoders} `{!ResourceDecoders}.
Context `{!StrictDecoders} `{!EventDecoders} `{!DirectoryDecoders} `{!GrantDecoders}.

Lemma confined_waitLoop c id interval attempts :
  confined (controlEvent c) (waitLoop c id interval attempts).
Proof.
  induction attempts as [|n IH]; simpl; [apply confined_throw|].
  apply confined_poll; [done|]. intros cancelled. autounfold with api. confine; try done.
  apply confined_pause; [done|]. intros stopped. by confine.
Qed.

Lemma controlCall_confined c au A (m : io A) : controlCall c au m → confined (callEvent c au) m.
Proof.
  intros []; simpl callEvent; autounfold with api; cbv zeta; confine.
  all: try apply confined_waitLoop.
  - intros trace r [Hr _]%upload_confined. by split.
  - intros trace r [Hr _]%download_confined. by split.
Qed.

(** Calls without the authority they need. *)
Lemma user_denied c : c.(Control_userToken) = "" →
  (∀ u, requireResourceGraphUser c ≠ Ret u) ∧ (∀ organization path, scimPath c organization ≠ Ret path)
  ∧ ∀ organization bindingID path, organizationBindingPath c organization bindingID ≠ Ret path.
Proof.
  intros Hu. unfold requireResourceGraphUser, scimPath, organizationBindingPath. rewrite Hu.
  split_and!; by intros.
Qed.

Lemma controlCall_user c au A (m : io A) :
  controlCall c au m → au = UserOnly → c.(Control_userToken) = "" → denied m.
Proof.
  intros Hcall Hau Hu. destruct (user_denied c Hu) as (Hg & Hs & Hb).
  destruct Hcall; try discriminate Hau; autounfold with api; cbv zeta; rewrite ?Hu;
    repeat first
      [ apply denied_throw
      | apply denied_bind_lift; intros ? Hr; exfalso; solve [by apply Hg in Hr|by apply Hs in Hr|by apply Hb in Hr]
      | apply denied_bind | case_match; try discriminate ].
Qed.

Lemma controlCall_application c au A (m : io A) :
  controlCall c au m → au = ApplicationOnly → c.(Control_userToken) ≠ "" → denied m.
Proof.
  intros Hcall Hau Hu. apply String.eqb_neq in Hu. destruct Hcall; try discriminate Hau.
  unfold CheckResourceSubjectAccess, requireApplicationAuthority. rewrite Hu. apply denied_throw.
Qed.

(** A client for the application or for one of its users. *)
Definition constructed (c : ControlClient) : Prop :=
  ∃ options c0, NewControlClient options = Ret c0 ∧ (c = c0 ∨ ∃ token, ForUser c0 token = Ret c).

(** An address of Control that is https, or plain http on this machine. *)
Definition safeBase (base : string) : Prop :=
  ∃ u, ParseRequestURI base = Some u ∧ u.(URL_User) = false ∧ u.(URL_RawQuery) = ""
       ∧ u.(URL_Fragment) = ""
       ∧ (u.(URL_Scheme) = "https" ∨ u.(URL_Scheme) = "http" ∧ loopback u.(URL_Hostname) = true).

Lemma validatedControlURL_Ret rawURL base : validatedControlURL rawURL = Ret base → safeBase base.
Proof.
  unfold validatedControlURL. cbv zeta. destruct (ParseRequestURI _) as [u|] eqn:Hp; [|done].
  match goal with |- (if ?b then _ else _) = _ → _ => destruct b eqn:Hu; [done|] end.
  match goal with |- (if ?b then _ else _) = _ → _ => destruct b eqn:Hl; [done|] end. intros [= <-].
  exists u. rewrite !orb_false_iff, !negb_false_iff, !String.eqb_eq in Hu.
  destruct Hu as [[[[_ Huser] Hq] Hf] Hs]. split_and!; [done..|].
  destruct (_ =s "http") eqn:Hh; simpl in Hs, Hl.
  - right. apply String.eqb_eq in Hh. by destruct (loopback _).
  - left. destruct (_ =s "https") eqn:Hhs; [by apply String.eqb_eq|done].
Qed.

Lemma constructed_spec c :
  constructed c →
  safeBase c.(Control_baseURL) ∧ c.(Control_httpClient).(Client_FollowsRedirects) = false
  ∧ c.(Control_secretKey) ≠ "".
Proof.
  intros (options & c0 & Hn & Hc). revert Hn. unfold NewControlClient.
  destruct (validatedControlURL _) as [base| | |] eqn:Hb; obind; [|done..].
  destruct (_ || _) eqn:He; [done|]. apply orb_false_iff in He as [_ He%String.eqb_neq].
  intros [= <-]. apply validatedControlURL_Ret in Hb.
  destruct Hc as [->|(token & Hf)]; [done|]. unfold ForUser in Hf. cbv zeta in Hf.
  destruct (_ || _); [done|]. by injection Hf as <-.
Qed.

(** C7: the application's secret and its users' tokens go to Control only. Whatever any call of
    a client does, in any environment, each of its requests goes to a path of its own application
    at the address it was made with, which is https or on this machine, through a client
    that follows no redirects, and carries the secret and exactly the token of its user; the
    two calls that move payload objects instead send requests to storage that carry no
    credentials at all. A call that asks for a user sends nothing without one, one that
    asks for the application's own authority nothing with one. *)
Theorem credentials_confined c au A (m : io A) trace r :
  constructed c → controlCall c au m → runs m trace r →
  Forall (callEvent c au) trace
  ∧ safeBase c.(Control_baseURL) ∧ c.(Control_httpClient).(Client_FollowsRedirects) = false
  ∧ (au = UserOnly → c.(Control_userToken) = "" → trace = [] ∧ ∀ a, r ≠ Ret a)
  ∧ (au = ApplicationOnly → c.(Control_userToken) ≠ "" → trace = [] ∧ ∀ a, r ≠ Ret a).
Proof.
  intros (Hbase & Hclient & _)%constructed_spec Hcall Hr.
  destruct (controlCall_confined _ _ _ _ Hcall _ _ Hr) as [Ht _]. split_and!; [done..| |].
  - intros Hau Hu. eapply denied_spec; [|exact Hr]. by eapply controlCall_user.
  - intros Hau Hu. eapply denied_spec; [|exact Hr]. by eapply controlCall_application.
Qed.
End Theorems.

(** * Samples *)
Module AuthoritySamples.
#[local] Existing Instance Interfaces.plainRaw.
#[local] Instance text6 : JsonText := {| Render _ := Some (bytes_of "{}") |}.
#[local] Instance problems6 : Problems := {| problemOf _ := ("", "") |}.
#[local] Instance urls6 : Urls := {|
  Parse _ := None;
  ParseRequestURI s := Some (mkURL "https" false "control" "control" "" "" "" "" "" false "" s);
  loopbackIP _ := false; newRequest _ _ := true
|}.
#[local] Instance nothing6 {A} : JsonUnmarshal A := {| Unmarshal _ := None |}.
#[local] Instance strictly6 {A} : JsonStrict A := {| strictDecode _ := None |}.
#[local] Instance decoders6 : Decoders.
Proof. split; apply _. Defined.
#[local] Instance strict6 : StrictDecoders.
Proof. split; apply _. Defined.
#[local] Instance events6 : EventDecoders.
Proof. split; apply _. Defined.
#[local] Instance directories6 : DirectoryDecoders.
Proof. split; apply _. Defined.
#[local] Instance grants6 : GrantDecoders.
Proof. split; apply _. Defined.

Definition options6 : ControlClientOptions :=
  mkControlClientOptions (Some (mkHttpClient false true)) "https://control" "app" "secret".
Definition client6 : ControlClient :=
  mkControlClient (mkHttpClient false false) "https://control" "app" "secret" "".
Definition user6 : ControlClient :=
  mkControlClient (mkHttpClient false false) "https://control" "app" "secret" "token".

Lemma user6_constructed : constructed user6.
Proof.
  exists options6, client6. split; [vm_compute; reflexivity|]. right. exists " token". vm_compute.
  reflexivity.
Qed.
Lemma client6_constructed : constructed client6.
Proof. exists options6, client6. split; [vm_compute; reflexivity|by left]. Qed.

Definition offline6 : environment :=
  mkEnvironment (fun _ _ _ => None) (fun _ => false) (fun _ _ => None).
Definition search6 (c : ControlClient) : io ResourceSearchList :=
  SearchResources c zero.

Example search6_sends : length (exec offline6 [] (search6 user6)).1 = 1%nat.
Proof. vm_compute. reflexivity. Qed.

(** A client without a user lists the resources of an account with the secret alone. *)
Example account_resources_application :
  (fun q => (q.2.(Http_Header) !! "Authorization", q.2.(Http_Header) !! "X-Lotor-Secret-Key"))
    <$> requests (exec offline6 [] (AccountResources client6 (mkAccountResourceListOptions "" "" [] [] 0))).1
  = [(None, Some ["secret"])].
Proof. vm_compute. reflexivity. Qed.

(** So does it register a function binding. *)
Example register_binding_application resource input key :
  (fun q => (q.2.(Http_Header) !! "Authorization", q.2.(Http_Header) !! "X-Lotor-Secret-Key"))
    <$> requests (exec offline6 [] (RegisterFunctionBinding client6 resource input key)).1
  = [(None, Some ["secret"])].
Proof.
  unfold RegisterFunctionBinding, request, requestHeaders. simpl.
  unfold controlRequest, Header_AddAll, controlHeader, Header_Set. simpl.
  rewrite !lookup_union_with, !lookup_empty. destruct (key =s ""); by simplify_map_eq.
Qed.

Lemma credentials_confined_witness :
  Forall (callEvent user6 UserOnly) (exec offline6 [] (search6 user6)).1
  ∧ (exec offline6 [] (search6 client6)).1 = [].
Proof.
  pose proof (credentials_confined user6 UserOnly _ (search6 user6) _ _ user6_constructed
    (call_SearchResources _ _) (exec_runs offline6 [] (search6 user6))) as [Ht _].
  pose proof (credentials_confined client6 UserOnly _ (search6 client6) _ _ client6_constructed
    (call_SearchResources _ _) (exec_runs offline6 [] (search6 client6))) as (_ & _ & _ & Hu & _).
  split; [exact Ht|]. exact (proj1 (Hu eq_refl eq_refl)).
Defined.
End AuthoritySamples.
