(* ===== verification/Lifecycle.v ===== *)
(** The lifecycle gateway: [lotorhttp/handler.go], [runtime.go] and the identity verifier of
    [control.go].

    [Handler] serves two commands of a browser, accepting and cancelling an invitation. It finds
    the bearer of the application's session, verifies it with Control for every command, and
    runs the command on the runtime that owns the environment. The store of sessions, the
    verifier and the runtime are the interfaces of the source; [controlIdentityVerifier] and
    [ownedRuntime] implement the last two. *)
From S2P Require Import Prelude Wire Connection Operations GoStd Sha256 Interfaces Protocol.
From S2P Require Import Ownership Control BrowserRoutes ApiTypes Api ControlClient.

#[local] Open Scope bool_scope.

(** * Data *)
Definition maxRequestBody : Z := Z.shiftl 16 10.

Record Identity : Type := mkIdentity {
  Identity_Subject : string;
  Identity_Email : string;
  Identity_TenantID : string;
  Identity_ApplicationID : string;
  Identity_EnvironmentID : string
}.

Record lifecycleResult : Type := mkLifecycle {
  Life_Reason : string;
  Life_InvitationID : string;
  Life_Active : Z;
  Life_Reserved : Z;
  Life_Used : Z;
  Life_Maximum : Z;
  Life_Remaining : Z;
  Life_Succeeded : bool
}.

(** The errors of the runtime. *)
Inductive life_error : Type :=
| errIdempotencyConflict
| errScopeMismatch
| RuntimeFailed (e : own_error).

(** A request of a browser: [Get] is [Header.Get], the body what can be read of it. *)
Record LifeRequest : Type := mkLifeRequest {
  Life_Method : string;
  Life_Path : string;
  Life_Host : string;
  Life_Get : string → string;
  Life_Cookies : list (string * string);
  Life_Body : option (list byte)
}.

Record LifeResponse : Type := mkLifeResponse {
  LifeResponse_Status : Z;
  LifeResponse_Header : gmap string string;
  LifeResponse_Body : json
}.

(** The bodies of the two commands. *)
Record acceptInput : Type := mkAcceptInput {
  Accept_Organization : string;
  Accept_Ticket : string;
  Accept_IdempotencyKey : string
}.
Record cancelInput : Type := mkCancelInput {
  Cancel_Organization : string;
  Cancel_InvitationID : string;
  Cancel_IdempotencyKey : string
}.

(** What Control says about a session. *)
Record controlSession : Type := mkControlSession {
  Session_Subject : string;
  Session_Email : string;
  Session_Account : list byte
}.
Record controlScope : Type := mkControlScope {
  ControlScope_TenantID : string;
  ControlScope_ApplicationID : string;
  ControlScope_EnvironmentID : string
}.

(** [strings.ToLower] and [strings.EqualFold], which use the tables of Unicode;
    [mime.ParseMediaType] and [mail.ParseAddress] with the address they find. *)
Class TextTables : Type := {
  lowerText : string → string;
  equalFold : string → string → bool;
  ParseMediaType : string → option string;
  ParseAddress : string → option string;
}.

(** On ASCII texts the tables say nothing that is not known. *)
Definition asciiText (s : string) : bool := forallb (fun b => byteZ b <? 128) (bytes_of s).
Class TextLaws `{!TextTables} : Prop := {
  lowerText_ascii s : asciiText s = true → lowerText s = ToLower s;
  equalFold_ascii s t : asciiText s = true → asciiText t = true →
    equalFold s t = (ToLower s =s ToLower t);
}.

Class LifeDecoders : Type := {
  #[global] decode_accept :: Json acceptInput;
  #[global] decode_cancel :: Json cancelInput;
  #[global] decode_session :: JsonUnmarshal controlSession;
  #[global] decode_scope :: JsonUnmarshal controlScope;
}.

(** * The interfaces of the handler *)

(** The store of sessions, over its states: the bearer of a session or an error, and deletion. *)
Record SessionStore (S : Type) : Type := mkSessionStore {
  Sessions_Bearer : S → string → option string * S;
  Sessions_Delete : S → string → S
}.
Arguments mkSessionStore {S}.
Arguments Sessions_Bearer {S}.
Arguments Sessions_Delete {S}.

(** The runtime, over its states. *)
Record lifecycleRuntime (R : Type) : Type := mkLifecycleRuntime {
  Runtime_Accept : R → Identity → string → string → outcome life_error lifecycleResult * R;
  Runtime_Cancel : R → Identity → string → string → string → outcome life_error lifecycleResult * R
}.
Arguments mkLifecycleRuntime {R}.
Arguments Runtime_Accept {R}.
Arguments Runtime_Cancel {R}.

Record Handler (S R : Type) : Type := mkHandler {
  Handler_cookieName : string;
  Handler_sessions : SessionStore S;
  Handler_identity : string → outcome api_error Identity;
  Handler_runtime : lifecycleRuntime R
}.
Arguments mkHandler {S R}.
Arguments Handler_cookieName {S R}.
Arguments Handler_sessions {S R}.
Arguments Handler_identity {S R}.
Arguments Handler_runtime {S R}.

(** The calls through the interfaces that a request makes, in order. *)
Inductive life_call : Type :=
| CallBearer (sessionID : string) (token : option string)
| CallVerify (token : string) (verdict : outcome api_error Identity)
| CallDelete (sessionID : string)
| CallAccept (who : Identity) (ticket key : string)
| CallCancel (who : Identity) (organization invitationID key : string).

(** * Checks *)
Definition bounded (value : string) (maximum : Z) : bool :=
  let value := TrimSpace value in negb (value =s "") && (slen value <=? maximum).

Definition suffixRune (c : Z) : bool :=
  (97 <=? c) && (c <=? 122) || (65 <=? c) && (c <=? 90) || (48 <=? c) && (c <=? 57)
  || (c =? 45) || (c =? 95) || (c =? 46).

Definition organizationSuffix (value : string) : bool :=
  if (value =s "") || (240 <? slen value) then false else forallb suffixRune (runes value).

Definition uuidRune (c : Z) : bool :=
  (97 <=? c) && (c <=? 102) || (65 <=? c) && (c <=? 70) || (48 <=? c) && (c <=? 57).

(** The loop over the runes: their ordinals are the indices of their bytes up to a rune of
    several bytes, which is refused. *)
Definition organizationUUID (value : string) : bool :=
  if negb (slen value =? 36) then false
  else forallb (fun ic : nat * Z =>
         if existsb (Nat.eqb ic.1) [8; 13; 18; 23]%nat then ic.2 =? 45 else uuidRune ic.2)
       (imap pair (runes value)).

Definition organization (value : string) : bool :=
  let value := TrimSpace value in
  if negb (bounded value 256) then false
  else if HasPrefix value "personal-" then organizationSuffix (TrimPrefix value "personal-")
  else if HasPrefix value "workspace-" then organizationSuffix (TrimPrefix value "workspace-")
  else if HasPrefix value "org_" then organizationSuffix (TrimPrefix value "org_")
  else organizationUUID value.

(** * Responses *)
Definition writeJSON (status : Z) (value : json) : LifeResponse :=
  mkLifeResponse status {["Content-Type" := "application/json"; "Cache-Control" := "no-store"]} value.

Definition writeError (status : Z) (code : string) : LifeResponse :=
  writeJSON status (JObject [("error", JObject [("code", JString code)])]).

(** The members of a Go map are written in the order of their names. *)
Definition lifecycleDocument (result : lifecycleResult) : json :=
  JObject
    [("capacity", JObject
        [("active", toJson result.(Life_Active)); ("maximum", toJson result.(Life_Maximum));
         ("remaining", toJson result.(Life_Remaining)); ("reserved", toJson result.(Life_Reserved));
         ("used", toJson result.(Life_Used))]);
     ("invitation_id", JString result.(Life_InvitationID));
     ("reason", JString result.(Life_Reason)); ("succeeded", toJson result.(Life_Succeeded))].

(** * Keys *)
Definition deriveKeyText (command subject callerKey : string) : list byte :=
  bytes_of "lotor-browser:" ++ bytes_of command ++ x00 :: bytes_of subject
  ++ x00 :: bytes_of (TrimSpace callerKey).
Definition deriveKey (command subject callerKey : string) : string :=
  "lotor-browser-v1:" +:+ EncodeToString (Sum256 (deriveKeyText command subject callerKey)).

(** * The handler *)
Section Handler.
Context `{!TextTables} `{!Urls} `{!LifeDecoders}.

Definition browserMutation (r : LifeRequest) : bool :=
  if negb (r.(Life_Get) "X-Lotor-Request" =s "browser-sdk-v1") then false
  else
    let site := lowerText (TrimSpace (r.(Life_Get) "Sec-Fetch-Site")) in
    if negb (site =s "") && negb (site =s "same-origin") then false
    else
      let rawOrigin := TrimSpace (r.(Life_Get) "Origin") in
      if negb (rawOrigin =s "")
         && match Parse rawOrigin with
            | None => true
            | Some origin => origin.(URL_User) || negb (equalFold origin.(URL_Host) r.(Life_Host))
            end
      then false
      else match ParseMediaType (r.(Life_Get) "Content-Type") with
      | None => false
      | Some mediaType => mediaType =s "application/json"
      end.

(** [decodeJSON]: one value of at most [maxRequestBody] bytes with nothing after it. The body is
    read through a [MaxBytesReader], whose error after the limit is no [io.EOF]. *)
Definition decodeJSON {A} `{!Json A} (r : LifeRequest) : option A :=
  match r.(Life_Body) with
  | None => None
  | Some body =>
      if maxRequestBody <? len body then None
      else match Decode body with
      | None => None
      | Some (value, rest) => if atEOF rest then Some value else None
      end
  end.

Section Serve.
Context {S R : Type}.
Variable h : Handler S R.

(** What a request leads to: the response, if the calls return, the states of the sessions
    and of the runtime, and the calls. *)
Record served : Type := mkServed {
  Served_Response : option LifeResponse;
  Served_Sessions : S;
  Served_Runtime : R;
  Served_Calls : list life_call
}.

(** [Request.Cookie]: the first cookie of a name. *)
Definition Cookie (r : LifeRequest) (name : string) : option string :=
  snd <$> List.find (fun kv => kv.1 =s name) r.(Life_Cookies).

Definition sessionOf (r : LifeRequest) : string :=
  let authorization := TrimSpace (r.(Life_Get) "Authorization") in
  if HasPrefix authorization "Bearer " then TrimSpace (TrimPrefix authorization "Bearer ")
  else default "" (Cookie r h.(Handler_cookieName)).

Definition errIdentityRejected : api_error := ErrorString "application session rejected".

(** [errors.Is(err, errIdentityRejected)]. *)
Definition identityRejected (e : api_error) : bool :=
  match e with ErrorString message => message =s "application session rejected" | _ => false end.

(** The verified identity with its session, or the response that was written. *)
Definition authenticate (r : LifeRequest) (sessions : S)
    : (Identity * string + option LifeResponse) * S * list life_call :=
  let sessionID := sessionOf r in
  if negb (bounded sessionID 512) then (inr (Some (writeError 401 "unauthenticated")), sessions, [])
  else
    let '(token, sessions) := h.(Handler_sessions).(Sessions_Bearer) sessions sessionID in
    let calls := [CallBearer sessionID token] in
    match token with
    | None => (inr (Some (writeError 401 "unauthenticated")), sessions, calls)
    | Some token =>
        if TrimSpace token =s "" then (inr (Some (writeError 401 "unauthenticated")), sessions, calls)
        else
          let verdict := h.(Handler_identity) token in
          let calls := calls ++ [CallVerify token verdict] in
          match verdict with
          | Ret who => (inl (who, sessionID), sessions, calls)
          | Throw e =>
              if identityRejected e
              then (inr (Some (writeError 401 "unauthenticated")),
                    h.(Handler_sessions).(Sessions_Delete) sessions sessionID,
                    calls ++ [CallDelete sessionID])
              else (inr (Some (writeError 503 "identity_unavailable")), sessions, calls)
          | Panic | Diverge => (inr None, sessions, calls)
          end
    end.

Definition respondLifecycle (sessionID : string) (result : outcome life_error lifecycleResult)
    (sessions : S) : option LifeResponse * S * list life_call :=
  match result with
  | Ret result => (Some (writeJSON 200 (lifecycleDocument result)), sessions, [])
  | Throw errIdempotencyConflict => (Some (writeError 409 "idempotency_conflict"), sessions, [])
  | Throw errScopeMismatch =>
      (Some (writeError 401 "unauthenticated"), h.(Handler_sessions).(Sessions_Delete) sessions sessionID,
       [CallDelete sessionID])
  | Throw (RuntimeFailed _) => (Some (writeError 503 "runtime_unavailable"), sessions, [])
  | Panic | Diverge => (None, sessions, [])
  end.

(** Authentication, the command on the runtime, and its response. *)
Definition runCommand (r : LifeRequest) (sessions : S) (runtime : R)
    (call : Identity → life_call)
    (run : Identity → outcome life_error lifecycleResult * R) : served :=
  match authenticate r sessions with
  | (inr response, sessions, calls) => mkServed response sessions runtime calls
  | (inl (who, sessionID), sessions, calls) =>
      let '(result, runtime) := run who in
      let '(response, sessions, more) := respondLifecycle sessionID result sessions in
      mkServed response sessions runtime (calls ++ call who :: more)
  end.

Definition acceptKey (input : acceptInput) (who : Identity) : string :=
  deriveKey "accept-v1" who.(Identity_Subject) input.(Accept_IdempotencyKey).

Definition accept (r : LifeRequest) (sessions : S) (runtime : R) : served :=
  match decodeJSON r with
  | None => mkServed (Some (writeError 400 "invalid_request")) sessions runtime []
  | Some input =>
      if negb (input.(Accept_Organization) =s "") && negb (organization input.(Accept_Organization))
         || negb (bounded input.(Accept_Ticket) 512)
         || negb (bounded input.(Accept_IdempotencyKey) 256)
      then mkServed (Some (writeError 400 "invalid_request")) sessions runtime []
      else
        let ticket := TrimSpace input.(Accept_Ticket) in
        runCommand r sessions runtime (fun who => CallAccept who ticket (acceptKey input who))
          (fun who =>
             h.(Handler_runtime).(Runtime_Accept) runtime who ticket (acceptKey input who))
  end.

Definition cancelKey (input : cancelInput) (who : Identity) : string :=
  deriveKey "cancel-v1" who.(Identity_Subject) input.(Cancel_IdempotencyKey).

Definition cancel (r : LifeRequest) (sessions : S) (runtime : R) : served :=
  match decodeJSON r with
  | None => mkServed (Some (writeError 400 "invalid_request")) sessions runtime []
  | Some input =>
      if negb (organization input.(Cancel_Organization))
         || negb (bounded input.(Cancel_InvitationID) 256)
         || negb (bounded input.(Cancel_IdempotencyKey) 256)
      then mkServed (Some (writeError 400 "invalid_request")) sessions runtime []
      else
        let scope := TrimSpace input.(Cancel_Organization) in
        let invitation := TrimSpace input.(Cancel_InvitationID) in
        runCommand r sessions runtime
          (fun who => CallCancel who scope invitation (cancelKey input who))
          (fun who =>
             h.(Handler_runtime).(Runtime_Cancel) runtime who scope invitation
               (cancelKey input who))
  end.

Definition LifecycleServeHTTP (r : LifeRequest) (sessions : S) (runtime : R) : served :=
  if negb (r.(Life_Method) =s "POST") || negb (browserMutation r)
  then mkServed (Some (writeError 403 "request_rejected")) sessions runtime []
  else if r.(Life_Path) =s "/api/lotor/invitations/accept" then accept r sessions runtime
  else if r.(Life_Path) =s "/api/lotor/invitations/cancel" then cancel r sessions runtime
  else mkServed (Some (writeError 404 "not_found")) sessions runtime [].
End Serve.
End Handler.

(** * The identity verifier *)
Section Verifier.
Context `{!TextTables} `{!Urls} `{!LifeDecoders}.

Record controlIdentityVerifier : Type := mkVerifier {
  Verifier_client : http_Client;
  Verifier_base : string
}.

Definition newControlIdentityVerifier (rawURL : string) : outcome api_error controlIdentityVerifier :=
  baseURL ← validatedControlURL rawURL; Ret (mkVerifier (mkHttpClient false false) baseURL).

Definition verifyRequest (v : controlIdentityVerifier) (bearer : string) : HttpRequest :=
  mkHttpRequest "GET" (v.(Verifier_base) +:+ "/v1/me")
    (Header_Set "Authorization" ("Bearer " +:+ bearer)
       (Header_Set "Accept" "application/json" ∅)) None.

Definition sessionLimit : Z := Z.shiftl 64 10.

(** The identity in a session of Control. *)
Definition identityOf (session : controlSession) (scope : controlScope) : outcome api_error Identity :=
  let email := lowerText (TrimSpace session.(Session_Email)) in
  let who := mkIdentity (TrimSpace session.(Session_Subject)) email
    (TrimSpace scope.(ControlScope_TenantID)) (TrimSpace scope.(ControlScope_ApplicationID))
    (TrimSpace scope.(ControlScope_EnvironmentID)) in
  if negb (bounded who.(Identity_Subject) 256)
     || negb (bool_decide (ParseAddress email = Some email))
     || (who.(Identity_TenantID) =s "") || (who.(Identity_ApplicationID) =s "")
     || (who.(Identity_EnvironmentID) =s "")
  then Throw (ErrorString "invalid application session") else Ret who.

Definition readSession (response : HttpResponse) : outcome api_error Identity :=
  let status := response.(Response_Status) in
  if negb (status =? 200)
  then if (status =? 401) || (status =? 403) then Throw errIdentityRejected
       else Throw (ErrorString "application session verification unavailable")
  else match readLimited response (sessionLimit + 1) with
  | None => Throw (ErrorString "invalid application session")
  | Some raw =>
      if sessionLimit <? len raw then Throw (ErrorString "invalid application session")
      else match Unmarshal (A := controlSession) raw with
      | None => Throw (ErrorString "invalid application session")
      | Some session =>
          match Unmarshal (A := controlScope) session.(Session_Account) with
          | None => Throw (ErrorString "invalid application session scope")
          | Some scope => identityOf session scope
          end
      end
  end.

Definition VerifySession (v : controlIdentityVerifier) (bearer : string) : io Identity :=
  let request := verifyRequest v bearer in
  if negb (newRequest request.(Http_Method) request.(Http_URL)) then throw ErrNewRequest
  else Do v.(Verifier_client) request (fun answer =>
         match answer with
         | None => throw ErrTransport
         | Some response => lift (readSession response)
         end).
End Verifier.

(** * The owned runtime *)
Section Owned.
Context `{!Ed25519} `{!Json Ownership} `{!JsonUnmarshal Ownership} `{!Json runtimeSigningKeySet}.
Context `{!TextTables} `{!Urls} `{!LifeDecoders}.

Record ownedRuntime : Type := mkOwnedRuntime {
  Owned_resolver : OwnershipResolver;
  Owned_tls : bool
}.

Definition newOwnedRuntime (controlURL apiKey : string) (tlsConfigured : bool)
    : outcome own_error ownedRuntime :=
  resolver ← NewOwnershipResolver ParseRequestURI loopbackIP (mkDiscoveryOptions controlURL apiKey);
  Ret (mkOwnedRuntime resolver tlsConfigured).

(** What the network does during one command: the clock and Control at the check of the scope
    (0), at the discovery of the owner (1) and at its move (2), and the clients that are dialed. *)
Record Network : Type := mkNetwork {
  Net_now : nat → Z;
  Net_control : nat → string → option Reply;
  Net_dial : nat → bool → string → outcome own_error unit;
  Net_auth : nat → string * bool → string → outcome own_error unit;
  Net_do : nat → string * bool → Z → list value → outcome do_error (list value)
}.

Definition verifyScope (net : Network) (r : OwnershipResolver) (who : Identity)
    : outcome life_error unit * OwnershipResolver :=
  match Resolve Parse r (net.(Net_now) 0%nat) (net.(Net_control) 0%nat) with
  | (Ret owner, r) =>
      if negb (owner.(Own_TenantID) =s who.(Identity_TenantID))
         || negb (owner.(Own_ApplicationID) =s who.(Identity_ApplicationID))
         || negb (owner.(Own_EnvironmentID) =s who.(Identity_EnvironmentID))
      then (Throw errScopeMismatch, r) else (Ret tt, r)
  | (Throw e, r) => (Throw (RuntimeFailed e), r)
  | (Panic, r) => (Panic, r)
  | (Diverge, r) => (Diverge, r)
  end.

(** The error of an operation of the client. *)
Definition ownedError {A} (m : outcome op_error A) : outcome own_error A :=
  match m with
  | Ret a => Ret a
  | Throw (DoError e) => Throw (OwnLWP e)
  | Throw (ErrMsg message) => Throw (OwnError message)
  | Panic => Panic
  | Diverge => Diverge
  end.

Definition ErrorCodeIdempotencyConflict : Z := 0x0013.

Definition publicLifecycle (result : outcome own_error LifecycleResult)
    : outcome life_error lifecycleResult :=
  match result with
  | Throw (OwnLWP err) =>
      if IsLWPError err ErrorCodeIdempotencyConflict then Throw errIdempotencyConflict
      else Throw (RuntimeFailed (OwnLWP err))
  | Throw e => Throw (RuntimeFailed e)
  | Ret r =>
      Ret (mkLifecycle r.(Lifecycle_Reason) r.(Lifecycle_InvitationID) r.(Lifecycle_Active)
        r.(Lifecycle_Reserved) r.(Lifecycle_Used) r.(Lifecycle_Maximum) r.(Lifecycle_Remaining)
        r.(Lifecycle_Accepted))
  | Panic => Panic
  | Diverge => Diverge
  end.

Definition emailAddress (email : string) : string :=
  "email:" +:+ string_of (rawURLEncode (bytes_of (lowerText (TrimSpace email)))).

(** The world of a command: each client performs it. *)
Definition worldOf (net : Network) (c : command LifecycleResult) : World LifecycleResult :=
  mkWorld (fun i => net.(Net_now) (S i)) (fun i => net.(Net_control) (S i)) net.(Net_dial)
    net.(Net_auth) (Some (fun i client => ownedError (perform (net.(Net_do) i client) c))).

(** Checking the scope and running a command on the owner; also the owners and clients that the
    command was run on. *)
Definition ownedCommand (net : Network) (runtime : ownedRuntime) (who : Identity)
    (c : command LifecycleResult)
    : outcome life_error lifecycleResult * ownedRuntime * list (Ownership * (string * bool)) :=
  match verifyScope net runtime.(Owned_resolver) who with
  | (Ret _, r) =>
      let '(result, resolver, runs) := WithOwnerRetry Parse (worldOf net c) (Some r) runtime.(Owned_tls) in
      (publicLifecycle result, mkOwnedRuntime (default r resolver) runtime.(Owned_tls), runs)
  | (Throw e, r) => (Throw e, mkOwnedRuntime r runtime.(Owned_tls), [])
  | (Panic, r) => (Panic, mkOwnedRuntime r runtime.(Owned_tls), [])
  | (Diverge, r) => (Diverge, mkOwnedRuntime r runtime.(Owned_tls), [])
  end.

Definition acceptCommand (who : Identity) (ticket key : string) : command LifecycleResult :=
  InvitationAccept ticket (emailAddress who.(Identity_Email)) who.(Identity_Subject) key.
Definition Accept (net : Network) (runtime : ownedRuntime) (who : Identity) (ticket key : string)
    : outcome life_error lifecycleResult * ownedRuntime :=
  (ownedCommand net runtime who (acceptCommand who ticket key)).1.

Definition cancelCommand (who : Identity) (scope invitationID key : string) : command LifecycleResult :=
  InvitationCancel scope who.(Identity_Subject) invitationID key.
Definition Cancel (net : Network) (runtime : ownedRuntime) (who : Identity)
    (scope invitationID key : string) : outcome life_error lifecycleResult * ownedRuntime :=
  (ownedCommand net runtime who (cancelCommand who scope invitationID key)).1.

Definition ownedLifecycle (net : Network) : lifecycleRuntime ownedRuntime :=
  mkLifecycleRuntime (Accept net) (Cancel net).

(** * Construction *)
Record LifeOptions (S : Type) : Type := mkLifeOptions {
  LifeOptions_TLSConfig : bool;
  LifeOptions_Sessions : option (SessionStore S);
  LifeOptions_ControlURL : string;
  LifeOptions_APIKey : string;
  LifeOptions_CookieName : string
}.
Arguments LifeOptions_TLSConfig {S}.
Arguments LifeOptions_Sessions {S}.
Arguments LifeOptions_ControlURL {S}.
Arguments LifeOptions_APIKey {S}.
Arguments LifeOptions_CookieName {S}.

Inductive life_new_error : Type :=
| LifeOptionsInvalid
| LifeVerifierInvalid (e : api_error)
| LifeRuntimeInvalid (e : own_error).

(** The parts of a new handler. *)
Definition NewLifecycle {S} (options : LifeOptions S)
    : outcome life_new_error (string * SessionStore S * controlIdentityVerifier * ownedRuntime) :=
  match options.(LifeOptions_Sessions) with
  | None => Throw LifeOptionsInvalid
  | Some sessions =>
      if TrimSpace options.(LifeOptions_CookieName) =s "" then Throw LifeOptionsInvalid
      else match newControlIdentityVerifier options.(LifeOptions_ControlURL) with
      | Ret verifier =>
          match newOwnedRuntime options.(LifeOptions_ControlURL) options.(LifeOptions_APIKey)
                  options.(LifeOptions_TLSConfig) with
          | Ret runtime => Ret (options.(LifeOptions_CookieName), sessions, verifier, runtime)
          | Throw e => Throw (LifeRuntimeInvalid e)
          | Panic => Panic
          | Diverge => Diverge
          end
      | Throw e => Throw (LifeVerifierInvalid e)
      | Panic => Panic
      | Diverge => Diverge
      end
  end.

(** A handler in an environment: Control answers the verifier, the network the runtime. *)
Definition newHandler {S} (cookieName : string) (sessions : SessionStore S)
    (verifier : controlIdentityVerifier) (w : environment) (net : Network) : Handler S ownedRuntime :=
  mkHandler cookieName sessions (fun token => (exec w [] (VerifySession verifier token)).2)
    (ownedLifecycle net).
End Owned.

(** * What a request may do *)
Section HandlerTheorems.
Context `{!TextTables} `{!Urls} `{!LifeDecoders}.
Context {S R : Type}.
Variable h : Handler S R.

(** The calls of the runtime, with the identity they are made for. *)
Definition onRuntime (c : life_call) : option Identity :=
  match c with
  | CallAccept who _ _ | CallCancel who _ _ _ => Some who
  | _ => None
  end.

(** A text with something besides blanks, of at most [n] bytes without them. *)
Definition textUpTo (n : Z) (value : string) : Prop := 1 <= slen (TrimSpace value) <= n.

(** The names of organizations: a known prefix with a short suffix of letters, digits, dashes,
    underscores and dots, or the hexadecimal text of a UUID, blanks around them aside. *)
Definition suffixAlphabet : list Z :=
  runes "abcdefghijklmnopqrstuvwxyzABCDEFGHIJKLMNOPQRSTUVWXYZ0123456789-_.".
Definition hexAlphabet : list Z := runes "0123456789abcdefABCDEF".

Definition prefixedName (name : string) : Prop :=
  ∃ prefix suffix, prefix ∈ ["personal-"; "workspace-"; "org_"] ∧ name = prefix +:+ suffix
    ∧ 1 <= slen suffix <= 240 ∧ ∀ c, c ∈ runes suffix → c ∈ suffixAlphabet.
Definition uuidName (name : string) : Prop :=
  slen name = 36
  ∧ ∀ i c, runes name !! i = Some c →
      (i ∈ [8; 13; 18; 23]%nat → c = 45) ∧ (i ∉ [8; 13; 18; 23]%nat → c ∈ hexAlphabet).
Definition organizationName (value : string) : Prop :=
  textUpTo 256 value ∧ (prefixedName (TrimSpace value) ∨ uuidName (TrimSpace value)).

(** A request of the application's own pages: it carries the header that only a script of the
    same origin can set, the browser reports no other site, the [Origin], when there is one, is
    a URL without credentials of the host that is addressed, and the body is JSON. *)
Definition fromOwnPage (r : LifeRequest) : Prop :=
  r.(Life_Get) "X-Lotor-Request" = "browser-sdk-v1"
  ∧ (lowerText (TrimSpace (r.(Life_Get) "Sec-Fetch-Site")) = ""
     ∨ lowerText (TrimSpace (r.(Life_Get) "Sec-Fetch-Site")) = "same-origin")
  ∧ (TrimSpace (r.(Life_Get) "Origin") = ""
     ∨ ∃ origin, Parse (TrimSpace (r.(Life_Get) "Origin")) = Some origin
         ∧ origin.(URL_User) = false ∧ equalFold origin.(URL_Host) r.(Life_Host) = true)
  ∧ ParseMediaType (r.(Life_Get) "Content-Type") = Some "application/json".

(** The body of a request is one JSON value of at most 16 KiB. *)
Definition bodyIs {A} `{!Json A} (r : LifeRequest) (input : A) : Prop :=
  ∃ body rest, r.(Life_Body) = Some body ∧ len body <= 16384
               ∧ Decode body = Some (input, rest) ∧ atEOF rest = true.

(** The command that a request asks for, on behalf of an identity. *)
Definition asked (r : LifeRequest) (who : Identity) (c : life_call) : Prop :=
  (∃ input : acceptInput, r.(Life_Path) = "/api/lotor/invitations/accept"
     ∧ bodyIs r input
     ∧ (input.(Accept_Organization) = "" ∨ organizationName input.(Accept_Organization))
     ∧ textUpTo 512 input.(Accept_Ticket) ∧ textUpTo 256 input.(Accept_IdempotencyKey)
     ∧ c = CallAccept who (TrimSpace input.(Accept_Ticket))
             (deriveKey "accept-v1" who.(Identity_Subject) input.(Accept_IdempotencyKey)))
  ∨ (∃ input : cancelInput, r.(Life_Path) = "/api/lotor/invitations/cancel"
     ∧ bodyIs r input
     ∧ organizationName input.(Cancel_Organization)
     ∧ textUpTo 256 input.(Cancel_InvitationID) ∧ textUpTo 256 input.(Cancel_IdempotencyKey)
     ∧ c = CallCancel who (TrimSpace input.(Cancel_Organization))
             (TrimSpace input.(Cancel_InvitationID))
             (deriveKey "cancel-v1" who.(Identity_Subject) input.(Cancel_IdempotencyKey))).

(** The result of a call of the runtime. *)
Definition resultOf (runtime : R) (c : life_call) : outcome life_error lifecycleResult :=
  match c with
  | CallAccept who ticket key => (h.(Handler_runtime).(Runtime_Accept) runtime who ticket key).1
  | CallCancel who scope invitationID key =>
      (h.(Handler_runtime).(Runtime_Cancel) runtime who scope invitationID key).1
  | _ => Panic
  end.

(** How a result of the runtime is answered, and the calls after it: success exactly for a
    result, deletion of the session exactly when it is out of scope. *)
Definition answeredWith (sessionID : string) (result : outcome life_error lifecycleResult)
    (more : list life_call) (response : option LifeResponse) : Prop :=
  (result = Throw errScopeMismatch ∧ more = [CallDelete sessionID]
   ∨ result ≠ Throw errScopeMismatch ∧ more = [])
  ∧ ∀ x, response = Some x →
      (∃ value, result = Ret value ∧ x = writeJSON 200 (lifecycleDocument value))
      ∨ returns result = false ∧ ∃ code, x = writeError 401 code ∨ x = writeError 409 code
                                         ∨ x = writeError 503 code.

(** The calls of one request. *)
Inductive callSequence (r : LifeRequest) (sessions : S) (runtime : R)
    : list life_call → option LifeResponse → Prop :=
| seq_none status code :
    status ∈ [400; 401; 403; 404] →
    callSequence r sessions runtime [] (Some (writeError status code))
| seq_bearer token :
    (h.(Handler_sessions).(Sessions_Bearer) sessions (sessionOf h r)).1 = token →
    callSequence r sessions runtime [CallBearer (sessionOf h r) token]
      (Some (writeError 401 "unauthenticated"))
| seq_verify token verdict response :
    (h.(Handler_sessions).(Sessions_Bearer) sessions (sessionOf h r)).1 = Some token →
    h.(Handler_identity) token = verdict → returns verdict = false →
    (∀ x, response = Some x → x = writeError 503 "identity_unavailable") →
    callSequence r sessions runtime [CallBearer (sessionOf h r) (Some token); CallVerify token verdict]
      response
| seq_rejected token :
    (h.(Handler_sessions).(Sessions_Bearer) sessions (sessionOf h r)).1 = Some token →
    h.(Handler_identity) token = Throw errIdentityRejected →
    callSequence r sessions runtime
      [CallBearer (sessionOf h r) (Some token); CallVerify token (Throw errIdentityRejected);
       CallDelete (sessionOf h r)] (Some (writeError 401 "unauthenticated"))
| seq_command token who c more response :
    r.(Life_Method) = "POST" → fromOwnPage r → textUpTo 512 (sessionOf h r) →
    (h.(Handler_sessions).(Sessions_Bearer) sessions (sessionOf h r)).1 = Some token →
    TrimSpace token ≠ "" → h.(Handler_identity) token = Ret who → asked r who c →
    answeredWith (sessionOf h r) (resultOf runtime c) more response →
    callSequence r sessions runtime
      (CallBearer (sessionOf h r) (Some token) :: CallVerify token (Ret who) :: c :: more) response.

Lemma bounded_spec value n : bounded value n = true → textUpTo n value.
Proof.
  unfold bounded, textUpTo. cbv zeta. rewrite andb_true_iff, negb_true_iff, String.eqb_neq, Z.leb_le.
  rewrite slen_empty. intros [? ?]. split; [|done]. unfold slen, len in *. lia.
Qed.

Lemma browserMutation_spec r : browserMutation r = true ↔ fromOwnPage r.
Proof.
  unfold browserMutation, fromOwnPage. cbv zeta.
  destruct (String.eqb_spec (Life_Get r "X-Lotor-Request") "browser-sdk-v1") as [->|?];
    [|split; [done|by intros [? _]]]. cbn [negb].
  generalize (lowerText (TrimSpace (Life_Get r "Sec-Fetch-Site"))) as site. intros site.
  generalize (TrimSpace (Life_Get r "Origin")) as origin. intros origin.
  destruct (String.eqb_spec site "") as [Hs|Hs], (String.eqb_spec site "same-origin") as [Hs'|Hs'];
    cbn [negb andb]; [..|split; [done|naive_solver]].
  all: destruct (String.eqb_spec origin "") as [->|Ho]; cbn [negb andb].
  2, 4, 6: destruct (Parse origin) as [u|]; [|naive_solver];
    destruct (URL_User u) eqn:Hu, (equalFold (URL_Host u) (Life_Host r)) eqn:He; cbn [negb orb];
    try (split; [done|]; intros (_ & _ & [?|(? & [= <-] & ? & ?)] & _); congruence).
  all: destruct (ParseMediaType _) as [m|]; [|naive_solver]; rewrite String.eqb_eq; naive_solver.
Qed.

Lemma decodeJSON_spec {A} `{!Json A} r (input : A) : decodeJSON r = Some input → bodyIs r input.
Proof.
  unfold decodeJSON, bodyIs. destruct (Life_Body r) as [body|]; [|done].
  destruct (maxRequestBody <? len body) eqn:Hl; [done|]. apply Z.ltb_ge in Hl.
  destruct (Decode body) as [[value rest]|] eqn:Hd; [|done].
  destruct (atEOF rest) eqn:He; [|done]. intros [= ->]. by exists body, rest.
Qed.

(** The alphabets of the loops, by enumeration of the ASCII characters. *)
Lemma alphabet_spec (test : Z → bool) (alphabet : list Z) :
  forallb (fun i => negb (test (Z.of_nat i)) || bool_decide (Z.of_nat i ∈ alphabet)) (seq 0 128) = true →
  ∀ c, 0 <= c < 128 → test c = true → c ∈ alphabet.
Proof.
  rewrite forallb_forall. intros Hall c Hc Ht. specialize (Hall (Z.to_nat c)).
  rewrite Z2Nat.id, Ht in Hall by lia. apply (bool_decide_unpack _).
  apply Is_true_true, Hall, in_seq. lia.
Qed.

Lemma suffixRune_spec c : suffixRune c = true → c ∈ suffixAlphabet.
Proof.
  intros Hc. apply (alphabet_spec suffixRune); [by vm_compute| |done].
  unfold suffixRune in Hc. breflect. lia.
Qed.
Lemma uuidRune_spec c : uuidRune c = true → c ∈ hexAlphabet.
Proof.
  intros Hc. apply (alphabet_spec uuidRune); [by vm_compute| |done].
  unfold uuidRune in Hc. breflect. lia.
Qed.

Lemma organizationSuffix_spec name prefix :
  prefix ∈ ["personal-"; "workspace-"; "org_"] → HasPrefix name prefix = true →
  organizationSuffix (TrimPrefix name prefix) = true → prefixedName name.
Proof.
  intros Hin Hp%TrimPrefix_eq. unfold organizationSuffix. destruct (_ || _) eqn:He; [done|].
  rewrite orb_false_iff, String.eqb_neq, Z.ltb_ge, slen_empty in He. destruct He as [Hne Hle].
  rewrite forallb_forall. intros Hall. exists prefix, (TrimPrefix name prefix). split_and!; [done..| |lia|].
  - unfold slen, len in *. lia.
  - intros c Hc. apply suffixRune_spec, Hall. by apply list_elem_of_In.
Qed.

Lemma organizationUUID_spec name : organizationUUID name = true → uuidName name.
Proof.
  unfold organizationUUID, uuidName. destruct (Z.eqb_spec (slen name) 36) as [->|]; [|done].
  cbn [negb]. rewrite forallb_forall. intros Hall. split; [done|]. intros i c Hi.
  specialize (Hall (i, c)). cbn [fst snd] in Hall.
  assert (Hin : In (i, c) (imap pair (runes name))).
  { apply list_elem_of_In, list_elem_of_lookup. exists i. by rewrite list_lookup_imap, Hi. }
  specialize (Hall Hin). destruct (existsb _ _) eqn:He.
  - apply Z.eqb_eq in Hall. apply existsb_exists in He as (j & Hj & <-%Nat.eqb_eq).
    apply list_elem_of_In in Hj. split; [done|]. intros Hni. by destruct Hni.
  - apply uuidRune_spec in Hall. split; [|done]. intros Hi'%list_elem_of_In.
    by rewrite (proj2 (existsb_exists _ _) (ex_intro _ i (conj Hi' (Nat.eqb_refl i)))) in He.
Qed.

Lemma organization_spec value : organization value = true → organizationName value.
Proof.
  unfold organization, organizationName. cbv zeta. destruct (bounded _ _) eqn:Hb; [|done].
  cbn [negb]. intros Ho. split.
  - apply bounded_spec in Hb. unfold textUpTo in *. by rewrite TrimSpace_idem in Hb.
  - repeat case_match; [left; by eapply organizationSuffix_spec; [|done..]; set_solver..|].
    right. by apply organizationUUID_spec.
Qed.

Lemma identityRejected_eq e : identityRejected e = true → e = errIdentityRejected.
Proof. destruct e; try done. simpl. by intros ->%String.eqb_eq. Qed.

Lemma respondLifecycle_answered sessionID result s response s' more :
  respondLifecycle h sessionID result s = (response, s', more) →
  answeredWith sessionID result more response.
Proof.
  unfold answeredWith.
  destruct result as [value|[| |e]| |]; simpl; intros [= <- <- <-]; (split; [by auto|]); [|..|done|done];
    intros x [= <-]; [left; by exists value|right; split; [done|]; eexists; auto..].
Qed.

Lemma runCommand_sequence r sessions runtime call run :
  r.(Life_Method) = "POST" → fromOwnPage r →
  (∀ who, asked r who (call who)) → (∀ who, (run who).1 = resultOf runtime (call who)) →
  let out := runCommand h r sessions runtime call run in
  callSequence r sessions runtime out.(Served_Calls) out.(Served_Response).
Proof.
  intros Hm Hb Hcall Hrun. unfold runCommand, authenticate. cbv zeta.
  destruct (bounded (sessionOf h r) 512) eqn:Hs; cbn [negb];
    [|by apply seq_none; do 1 right; left].
  destruct (Sessions_Bearer _ _ _) as [token s] eqn:Ht.
  assert (Htok : (h.(Handler_sessions).(Sessions_Bearer) sessions (sessionOf h r)).1 = token)
    by (by rewrite Ht).
  destruct token as [token|]; [|by apply seq_bearer].
  destruct (TrimSpace token =s "") eqn:He; [by apply seq_bearer|]. apply String.eqb_neq in He.
  destruct (Handler_identity h token) as [who|e| |] eqn:Hv.
  - destruct (run who) as [result rt] eqn:Hw.
    destruct (respondLifecycle h (sessionOf h r) result s) as [[response s'] more] eqn:Hresp.
    apply seq_command; try done; [by apply bounded_spec|].
    rewrite <- Hrun, Hw. by eapply respondLifecycle_answered.
  - destruct (identityRejected e) eqn:Hrej.
    + apply identityRejected_eq in Hrej as ->. by apply seq_rejected.
    + apply seq_verify; try done. by intros x [= <-].
  - apply seq_verify; done.
  - apply seq_verify; done.
Qed.

Lemma LifecycleServeHTTP_sequence r sessions runtime :
  let out := LifecycleServeHTTP h r sessions runtime in
  callSequence r sessions runtime out.(Served_Calls) out.(Served_Response).
Proof.
  unfold LifecycleServeHTTP.
  destruct (_ =s "POST") eqn:Hm; [|by apply seq_none; do 2 right; left].
  destruct (browserMutation r) eqn:Hb; [|by apply seq_none; do 2 right; left].
  apply String.eqb_eq in Hm. apply browserMutation_spec in Hb. cbn [negb orb].
  destruct (_ =s "/api/lotor/invitations/accept") eqn:Ha.
  - apply String.eqb_eq in Ha. unfold accept.
    destruct (decodeJSON (A := acceptInput) r) as [input|] eqn:Hj; [|by apply seq_none; left].
    destruct (_ || _) eqn:Hv; [by apply seq_none; left|].
    rewrite !orb_false_iff, !negb_false_iff in Hv. destruct Hv as [[Ho Ht] Hk].
    apply runCommand_sequence; try done. intros who. left. exists input.
    apply decodeJSON_spec in Hj. apply bounded_spec in Ht, Hk.
    apply andb_false_iff in Ho as [Ho%negb_false_iff%String.eqb_eq|Ho%negb_false_iff%organization_spec];
      eauto 10.
  - destruct (_ =s "/api/lotor/invitations/cancel") eqn:Hc; [|by apply seq_none; do 3 right; left].
    apply String.eqb_eq in Hc. unfold cancel.
    destruct (decodeJSON (A := cancelInput) r) as [input|] eqn:Hj; [|by apply seq_none; left].
    destruct (_ || _) eqn:Hv; [by apply seq_none; left|].
    rewrite !orb_false_iff, !negb_false_iff in Hv. destruct Hv as [[Ho Hi] Hk].
    apply runCommand_sequence; try done. intros who. right. exists input.
    apply decodeJSON_spec in Hj. apply organization_spec in Ho. by apply bounded_spec in Hi, Hk.
Qed.

(** C10: what a request can make the gateway do. The runtime is called at most once, and only for
    a POST with the SDK's header and a JSON content type that no other site sent: [Sec-Fetch-Site]
    says "same-origin" or is absent, and an [Origin] is a URL of the host itself without
    credentials. Its body is one JSON value of at most 16 KiB whose texts are within their bounds
    and whose organization, optional for accepting, has one of the known forms; the identity it
    is called for was verified by Control for the bearer of exactly this session in this request,
    and its idempotency key is derived from that identity. A session is deleted only when Control
    rejects its bearer or the runtime finds it out of scope. *)
Theorem lifecycle_authorized r sessions runtime :
  let out := LifecycleServeHTTP h r sessions runtime in
  callSequence r sessions runtime out.(Served_Calls) out.(Served_Response).
Proof. apply LifecycleServeHTTP_sequence. Qed.
End HandlerTheorems.

(** * Commands on the owner *)
Section OwnedTheorems.
Context `{!Ed25519} `{!Json Ownership} `{!JsonUnmarshal Ownership} `{!Json runtimeSigningKeySet}.
Context `{!TextTables} `{!Urls} `{!LifeDecoders}.
(** The public keys that Control publishes. *)
Context (published : list byte → Prop).

Definition inScope (o : Ownership) (who : Identity) : Prop :=
  o.(Own_TenantID) = who.(Identity_TenantID)
  ∧ o.(Own_ApplicationID) = who.(Identity_ApplicationID)
  ∧ o.(Own_EnvironmentID) = who.(Identity_EnvironmentID).

(** Control is honest and the clock is sane throughout a command. *)
Definition networkHonest (net : Network) : Prop :=
  ∀ i, instant (net.(Net_now) i) ∧ honest published (net.(Net_control) i).

Lemma verifyScope_Ret net r who u r1 :
  verifyScope net r who = (Ret u, r1) →
  ∃ owner, Resolve Parse r (net.(Net_now) 0%nat) (net.(Net_control) 0%nat) = (Ret owner, r1)
           ∧ inScope owner who.
Proof.
  unfold verifyScope. destruct (Resolve _ _ _ _) as [[owner|e| |] r2]; [|done..].
  destruct (_ || _) eqn:He; [done|]. intros [= <- <-]. exists owner. split; [done|].
  rewrite !orb_false_iff, !negb_false_iff, !String.eqb_eq in He. by destruct He as [[? ?] ?].
Qed.

Lemma verifyScope_inv net r who res r1 :
  networkHonest net → resolverInv Parse published r → verifyScope net r who = (res, r1) →
  resolverInv Parse published r1.
Proof.
  intros Hnet Hi. unfold verifyScope.
  destruct (Resolve _ _ _ _) as [x r2] eqn:Hr. destruct (Hnet 0%nat) as [Hn Hc].
  apply (Resolve_spec Parse published) in Hr as (Hi2 & _); [|done..].
  destruct x; [case_match|..]; by intros [= <- <-].
Qed.

Lemma ownedError_Ret {A} (m : outcome op_error A) a : ownedError m = Ret a → m = Ret a.
Proof. destruct m as [b|[e|msg]| |]; simpl; congruence. Qed.

(** The public form of a result. *)
Definition publicResult (r : LifecycleResult) : lifecycleResult :=
  mkLifecycle r.(Lifecycle_Reason) r.(Lifecycle_InvitationID) r.(Lifecycle_Active)
    r.(Lifecycle_Reserved) r.(Lifecycle_Used) r.(Lifecycle_Maximum) r.(Lifecycle_Remaining)
    r.(Lifecycle_Accepted).

Lemma publicLifecycle_Ret result value :
  publicLifecycle result = Ret value → ∃ r, result = Ret r ∧ value = publicResult r.
Proof.
  destruct result as [r|[m|err|]| |]; simpl; try done; [intros [= <-]; by exists r|by case_match].
Qed.

(** Where the clients of a command come from, and what it was checked against: the scope is that
    of the assertion resolved at the check; the command runs on the owner that is resolved next,
    and after a move on one of the same scope. The two are the same assertion while it is cached. *)
Definition commandSafe (net : Network) (runtime : ownedRuntime) (who : Identity)
    (runs : list (Ownership * (string * bool))) : Prop :=
  (∀ o client, (o, client) ∈ runs →
     Address Parse o = Ret client ∧ (runtime.(Owned_tls) = true → client.2 = true)
     ∧ ∃ t, instant t ∧ verified Parse published o t)
  ∧ (runs ≠ [] → ∃ owner r1 second r2,
       Resolve Parse runtime.(Owned_resolver) (net.(Net_now) 0%nat) (net.(Net_control) 0%nat)
       = (Ret owner, r1)
       ∧ inScope owner who
       ∧ Resolve Parse r1 (net.(Net_now) 1%nat) (net.(Net_control) 1%nat) = (Ret second, r2)
       ∧ (cacheUsable r1 (net.(Net_now) 1%nat) = true → second = owner)
       ∧ ∀ o client, (o, client) ∈ runs → inScope o who ↔ inScope second who).

Lemma sameOwnershipScope_inScope a b who :
  sameOwnershipScope a b = true → inScope a who ↔ inScope b who.
Proof.
  unfold sameOwnershipScope, inScope. rewrite !andb_true_iff, !bool_decide_eq_true.
  by intros [[-> ->] ->].
Qed.

Lemma ownedCommand_spec net runtime who c res runtime' runs :
  networkHonest net → resolverInv Parse published runtime.(Owned_resolver) →
  ownedCommand net runtime who c = (res, runtime', runs) →
  resolverInv Parse published runtime'.(Owned_resolver)
  ∧ runtime'.(Owned_tls) = runtime.(Owned_tls)
  ∧ (length runs <= 2)%nat ∧ commandSafe net runtime who runs
  ∧ ∀ value, res = Ret value →
      ∃ i o client r, runs !! i = Some (o, client) ∧ length runs = S i
                      ∧ perform (net.(Net_do) i client) c = Ret r ∧ value = publicResult r.
Proof.
  intros Hnet Hi. unfold ownedCommand.
  destruct (verifyScope net _ who) as [x r1] eqn:Hs.
  pose proof (verifyScope_inv _ _ _ _ _ Hnet Hi Hs) as Hi1.
  destruct x as [u|e| |]; [|intros [= <- <- <-]; split_and!;
    [done..|simpl; lia|by split; [intros ? ? ?%not_elem_of_nil|]|done]..].
  apply verifyScope_Ret in Hs as (owner & Hres & Hscope).
  destruct (WithOwnerRetry _ _ _ _) as [[result resolver] runs1] eqn:Hw.
  assert (Hn : ∀ i, instant (World_now (worldOf net c) i)) by (intros i; apply Hnet).
  assert (Hc : ∀ i, honest published (World_control (worldOf net c) i)) by (intros i; apply Hnet).
  destruct (WithOwnerRetry_inv Parse published _ _ _ _ _ _ Hi1 Hn Hc Hw) as (r2 & -> & Hi2).
  pose proof (WithOwnerRetry_spec Parse published _ _ _ _ _ _ _ Hi1 Hn Hc eq_refl Hw) as [Hruns Hcase].
  intros [= <- <- <-]. split_and!; [done|done|..].
  - destruct Hcase as [[-> _]|[(?&?&->&_)|(?&?&?&?&?&->&_)]]; simpl; lia.
  - split; [done|]. intros Hne.
    assert (Hsecond : ∃ second client more, runs1 = (second, client) :: more
      ∧ ∀ o cl, (o, cl) ∈ more → inScope o who ↔ inScope second who).
    { destruct Hcase as [[-> _]|[(first&client&->&_)|(first&client&message&moved&client2&->&_&_&_&Hsame&_)]];
        [done|exists first, client, []; split; [done|set_solver]|].
      exists first, client, [(moved, client2)]. split; [done|].
      intros o cl [= -> ->]%list_elem_of_singleton. by apply sameOwnershipScope_inScope. }
    destruct Hsecond as (second & client & more & -> & Hmore).
    apply WithOwnerRetry_first in Hw. simpl in Hw.
    destruct (Resolve Parse r1 (Net_now net 1) _) as [x r3] eqn:Hr1. simpl in Hw. subst x.
    exists owner, r1, second, r3. split_and!; [done..| |].
    + intros Hu. unfold Resolve in Hr1. rewrite Hu in Hr1. injection Hr1 as <- _.
      destruct (Hnet 0%nat) as [Hn0 Hc0].
      apply (Resolve_spec Parse published) in Hres as (_ & _ & Ho); [|done..].
      by destruct (Ho owner eq_refl).
    + intros o cl [[= -> ->]|Ho]%elem_of_cons; [done|by eapply Hmore].
  - intros value (r & -> & ->)%publicLifecycle_Ret.
    destruct Hcase as [[_ ?]|[(first&client&->&[Hop|[? _]])|
      (first&client&message&moved&client2&->&_&Hop&_)]]; try done; symmetry in Hop;
      apply ownedError_Ret in Hop.
    + by exists 0%nat, first, client, r.
    + by exists 1%nat, moved, client2, r.
Qed.

(** * The verified identity *)
Definition validIdentity (who : Identity) : Prop :=
  textUpTo 256 who.(Identity_Subject)
  ∧ ParseAddress who.(Identity_Email) = Some who.(Identity_Email)
  ∧ who.(Identity_TenantID) ≠ "" ∧ who.(Identity_ApplicationID) ≠ "" ∧ who.(Identity_EnvironmentID) ≠ "".

Lemma identityOf_Ret session scope who : identityOf session scope = Ret who → validIdentity who.
Proof.
  unfold identityOf. cbv zeta. destruct (_ || _) eqn:He; [done|]. intros [= <-].
  rewrite !orb_false_iff, !negb_false_iff, bool_decide_eq_true, !String.eqb_neq in He.
  destruct He as ((((?%bounded_spec & ?) & ?) & ?) & ?). done.
Qed.

Lemma VerifySession_Ret v token trace who :
  runs (VerifySession v token) trace (Ret who) →
  validIdentity who
  ∧ ∃ response, response.(Response_Status) = 200
      ∧ trace = [Sent v.(Verifier_client) (verifyRequest v token) (Some response)].
Proof.
  unfold VerifySession. cbv zeta. destruct (negb _); [by intros [_ ?]|].
  intros ([response|] & rest & -> & [-> Hr]); [|done]. unfold readSession in Hr. cbv zeta in Hr.
  destruct (negb _) eqn:Hs; [by destruct (_ || _)|]. apply negb_false_iff, Z.eqb_eq in Hs.
  destruct (readLimited _ _) as [raw|]; [|done]. destruct (_ <? _); [done|].
  destruct (Unmarshal raw) as [session|]; [|done].
  destruct (Unmarshal (Session_Account session)) as [scope|]; [|done].
  symmetry in Hr. apply identityOf_Ret in Hr. split; [done|]. by exists response.
Qed.

(** * The gateway as a whole *)

(** The command of a call. *)
Definition commandOf (c : life_call) : option (command LifecycleResult) :=
  match c with
  | CallAccept who ticket key => Some (acceptCommand who ticket key)
  | CallCancel who scope invitationID key => Some (cancelCommand who scope invitationID key)
  | _ => None
  end.

Lemma served_runtime {S} (h : Handler S ownedRuntime) net r sessions runtime :
  h.(Handler_runtime) = ownedLifecycle net →
  let out := LifecycleServeHTTP h r sessions runtime in
  out.(Served_Runtime) = runtime
  ∨ ∃ who c, out.(Served_Runtime) = (ownedCommand net runtime who c).1.2.
Proof.
  intros Hh. unfold LifecycleServeHTTP.
  assert (Hrun : ∀ call run, (∀ who, ∃ c, run who = (ownedCommand net runtime who c).1) →
    let out := runCommand h r sessions runtime call run in
    out.(Served_Runtime) = runtime
    ∨ ∃ who c, out.(Served_Runtime) = (ownedCommand net runtime who c).1.2).
  { intros call run Hr. unfold runCommand.
    destruct (authenticate h r sessions) as [[[[who sid]|x] s] calls]; [|by left].
    destruct (Hr who) as [c Hc]. rewrite Hc. destruct (ownedCommand net runtime who c) as [[res rt] l] eqn:Ho.
    simpl. destruct (respondLifecycle h sid res s) as [[? ?] ?]. right. exists who, c. by rewrite Ho. }
  destruct (_ || _); [by left|]. destruct (_ =s _); [|destruct (_ =s _); [|by left]].
  - unfold accept. destruct (decodeJSON r); [|by left]. destruct (_ || _); [by left|].
    apply Hrun. intros who. rewrite Hh. by eexists.
  - unfold cancel. destruct (decodeJSON r); [|by left]. destruct (_ || _); [by left|].
    apply Hrun. intros who. rewrite Hh. by eexists.
Qed.

(** A runtime in use: constructed, then any requests in any honest surroundings. *)
Inductive gatewayStep : ownedRuntime → ownedRuntime → Prop :=
| step_serve S cookieName (store : SessionStore S) verifier w net r sessions runtime :
    networkHonest net →
    gatewayStep runtime
      (LifecycleServeHTTP (newHandler cookieName store verifier w net) r sessions runtime).(Served_Runtime).

Definition gatewayReachable (runtime : ownedRuntime) : Prop :=
  ∃ controlURL apiKey tls rt0, newOwnedRuntime controlURL apiKey tls = Ret rt0
                               ∧ rtc gatewayStep rt0 runtime.

Lemma gatewayReachable_inv runtime :
  gatewayReachable runtime → resolverInv Parse published runtime.(Owned_resolver).
Proof.
  intros (controlURL & apiKey & tls & rt0 & Hnew & Hr).
  assert (Hi : resolverInv Parse published rt0.(Owned_resolver)).
  { revert Hnew. unfold newOwnedRuntime.
    destruct (NewOwnershipResolver _ _ _) as [r| | |] eqn:Hn; simpl; [|done..]. intros [= <-].
    by eapply NewOwnershipResolver_inv. }
  clear Hnew. induction Hr as [|rt1 rt2 rt3 Hs _ IH]; [done|]. apply IH.
  destruct Hs as [S cookieName store verifier w net r sessions runtime Hnet].
  destruct (served_runtime (newHandler cookieName store verifier w net) net r sessions runtime
    eq_refl) as [->|(who & c & ->)]; [done|].
  destruct (ownedCommand net runtime who c) as [[res rt] l] eqn:Ho.
  by apply ownedCommand_spec in Ho as (? & _).
Qed.

(** C9: end to end, a command that the gateway reports as done was done. Control answered 200 to
    a request that carried the bearer of the caller's session, and named a valid identity; the
    command was performed for that identity by the last of at most two runtimes, each found through
    an assertion that was verified under a published key and dialed with TLS if that is
    configured, and the body is what that runtime answered. The scope of the identity is compared
    with the assertion that was resolved at the check. The command runs in the scope of the
    assertion that is resolved after it, which is the same one unless it lapsed from the cache in
    between; a later one is not compared again. *)
Theorem gateway_end_to_end {S} cookieName (store : SessionStore S) verifier w net r sessions runtime
    response :
  networkHonest net → gatewayReachable runtime →
  (LifecycleServeHTTP (newHandler cookieName store verifier w net) r sessions runtime).(Served_Response)
  = Some response →
  response.(LifeResponse_Status) = 200 →
  ∃ token who answer c command clients i o client result,
    (store.(Sessions_Bearer) sessions (sessionOf (newHandler cookieName store verifier w net) r)).1
    = Some token
    ∧ runs (VerifySession verifier token)
        [Sent verifier.(Verifier_client) (verifyRequest verifier token) (Some answer)] (Ret who)
    ∧ answer.(Response_Status) = 200 ∧ validIdentity who
    ∧ asked r who c ∧ commandOf c = Some command
    ∧ commandSafe net runtime who clients ∧ (length clients <= 2)%nat
    ∧ clients !! i = Some (o, client) ∧ length clients = Datatypes.S i
    ∧ perform (net.(Net_do) i client) command = Ret result
    ∧ response = writeJSON 200 (lifecycleDocument (publicResult result)).
Proof.
  intros Hnet Hreach%gatewayReachable_inv Hresp Hstatus.
  set (h := newHandler cookieName store verifier w net) in *.
  pose proof (LifecycleServeHTTP_sequence h r sessions runtime) as Hseq. cbv zeta in Hseq.
  rewrite Hresp in Hseq. inversion Hseq as [status code Hin|token Hb|token verdict x Hb Hv Hf Hx|
    token Hb Hv|token who c more x Hm Hbm Hbd Hb Ht Hv Hask [_ Hans] Hcalls]; subst; simpl in Hstatus.
  1: { rewrite Hstatus in Hin. set_solver. }
  1, 3: done.
  1: { rewrite (Hx _ eq_refl) in Hstatus. done. }
  destruct (Hans _ eq_refl) as [(value & Hres & ->)|(_ & code & [->|[->| ->]])]; [|done..].
  pose proof (exec_runs w [] (VerifySession verifier token)) as Hrun. simpl in Hv. rewrite Hv in Hrun.
  destruct (VerifySession_Ret _ _ _ _ Hrun) as (Hwho & answer & Hanswer & Htrace).
  rewrite Htrace in Hrun.
  assert (∃ command, commandOf c = Some command
    ∧ resultOf h runtime c = (ownedCommand net runtime who command).1.1) as (command & Hcmd & Hrs).
  { destruct Hask as [(input & _ & _ & _ & _ & _ & ->)|(input & _ & _ & _ & _ & _ & ->)]; simpl; eauto. }
  destruct (ownedCommand net runtime who command) as [[res rt] clients] eqn:Ho.
  apply ownedCommand_spec in Ho as (_ & _ & Hlen & Hsafe & Hval); [|done..].
  simpl in Hrs. rewrite Hres in Hrs. symmetry in Hrs.
  destruct (Hval _ Hrs) as (i & o & client & result & Hoc & Hlast & Hperf & ->).
  by exists token, who, answer, c, command, clients, i, o, client, result.
Qed.
End OwnedTheorems.

(** * Idempotency keys *)
Definition noNul (s : string) : Prop := x00 ∉ bytes_of s.

Lemma app_nul_inj (a b a' b' : list byte) :
  x00 ∉ a → x00 ∉ a' → a ++ x00 :: b = a' ++ x00 :: b' → a = a' ∧ b = b'.
Proof.
  revert a'. induction a as [|c a IH]; intros [|c' a'] Ha Ha'; simpl; [by intros [= ->]|..].
  - intros [= <- _]. set_solver.
  - intros [= -> _]. set_solver.
  - intros [= <- Heq]. apply IH in Heq as [-> ->]; [done|set_solver..].
Qed.

(** The idempotency key of a command is bound to the command, the verified subject and the
    key of the caller: two commands whose texts have no NUL get the same key only if they agree on
    all three, or else a collision of SHA-256 is at hand. *)
Theorem derive_key_binds command subject key command' subject' key' :
  noNul command → noNul subject → noNul command' → noNul subject' →
  deriveKey command subject key = deriveKey command' subject' key' →
  command = command' ∧ subject = subject' ∧ TrimSpace key = TrimSpace key'
  ∨ deriveKeyText command subject key ≠ deriveKeyText command' subject' key'
    ∧ Sum256 (deriveKeyText command subject key) = Sum256 (deriveKeyText command' subject' key').
Proof.
  intros Hc Hs Hc' Hs' He. unfold deriveKey in He.
  apply (f_equal bytes_of) in He. rewrite !bytes_of_app in He. apply app_inv_head, bytes_of_inj in He.
  apply (Digest_inj (deriveKeyText _ _ _) (deriveKeyText _ _ _)) in He.
  destruct (decide (deriveKeyText command subject key = deriveKeyText command' subject' key')) as [Heq|Hne];
    [left|by right].
  unfold deriveKeyText in Heq. apply app_inv_head in Heq.
  apply app_nul_inj in Heq as [Hcmd Heq]; [|done..]. apply app_nul_inj in Heq as [Hsub Hkey]; [|done..].
  by apply bytes_of_inj in Hcmd, Hsub, Hkey.
Qed.

(** A NUL in a subject, which the checks on an identity let pass, makes keys of different users
    coincide. *)
Theorem derive_key_ambiguous command :
  let nul := string_of [x00] in
  deriveKey command ("user" +:+ nul +:+ "a") "b" = deriveKey command "user" ("a" +:+ nul +:+ "b")
  ∧ bounded ("user" +:+ nul +:+ "a") 256 = true ∧ bounded ("a" +:+ nul +:+ "b") 256 = true.
Proof. split; [|by vm_compute]. unfold deriveKey, deriveKeyText. by repeat f_equal. Qed.

(** * Samples *)
Module LifecycleSamples.
Import Protocol.Samples OwnershipSamples.

#[local] Instance tables5 : TextTables :=
  {| lowerText := ToLower; equalFold a b := ToLower a =s ToLower b; ParseMediaType := Some;
     ParseAddress := Some |}.
#[local] Instance urls5 : Urls :=
  {| Parse := parse; ParseRequestURI := parse; loopbackIP _ := false; newRequest _ _ := true |}.
Definition input5 : acceptInput := mkAcceptInput "" " ticket " "key".
Definition scope5 : controlScope := mkControlScope "tenant" "app" "env".
#[local] Instance decoders5 : LifeDecoders := {|
  decode_accept := {| Marshal _ := None; Decode _ := Some (input5, []) |};
  decode_cancel := {| Marshal _ := None; Decode _ := None |};
  decode_session := {| Unmarshal _ := Some (mkControlSession "user" " User@Example.com" []) |};
  decode_scope := {| Unmarshal _ := Some scope5 |}
|}.

Definition request5 : LifeRequest :=
  mkLifeRequest "POST" "/api/lotor/invitations/accept" "app.example"
    (fun name => if name =s "X-Lotor-Request" then "browser-sdk-v1"
                 else if name =s "Content-Type" then "application/json" else "")
    [("session", "s1")] (Some (bytes_of "{}")).
Definition store5 : SessionStore unit := mkSessionStore (fun s _ => (Some "bearer", s)) (fun s _ => s).
Definition verifier5 : controlIdentityVerifier := mkVerifier (mkHttpClient false false) "https://control".
Definition environment5 : environment :=
  mkEnvironment (fun _ _ _ => Some (mkHttpResponse 200 ∅ (bytes_of "{}") false)) (fun _ => false)
    (fun _ _ => None).
(** The owner answers with no values, which is read as the zero result. *)
Definition network5 : Network :=
  mkNetwork (fun _ => 2000000) (fun _ => controlPlane) (fun _ _ _ => Ret tt) (fun _ _ _ => Ret tt)
    (fun _ _ _ _ => Ret []).
Definition runtime5 : ownedRuntime := mkOwnedRuntime resolver1 true.
Definition served5 : served (S := unit) (R := ownedRuntime) :=
  LifecycleServeHTTP (newHandler "session" store5 verifier5 environment5 network5) request5 tt runtime5.

Definition status5 : option Z := LifeResponse_Status <$> served5.(Served_Response).
Lemma status5_ok : status5 = Some 200.
Proof. vm_compute. reflexivity. Qed.

Lemma network5_honest : networkHonest published1 network5.
Proof. intros i. split; [exact instant1|exact honest1]. Qed.

Lemma runtime5_reachable : gatewayReachable published1 runtime5.
Proof.
  exists " https://control/ ", "key", true, runtime5. split; [vm_compute; reflexivity|apply rtc_refl].
Qed.

Lemma gateway_end_to_end_witness :
  ∃ response who, served5.(Served_Response) = Some response ∧ validIdentity who
  ∧ response.(LifeResponse_Status) = 200.
Proof.
  destruct (served5.(Served_Response)) as [response|] eqn:Hr.
  2: { exfalso. pose proof status5_ok as Hs. unfold status5 in Hs. rewrite Hr in Hs. discriminate Hs. }
  assert (Hs : response.(LifeResponse_Status) = 200).
  { pose proof status5_ok as Hs. unfold status5 in Hs. rewrite Hr in Hs. by injection Hs. }
  pose proof (gateway_end_to_end published1 "session" store5 verifier5 environment5 network5 request5 tt
    runtime5 response network5_honest runtime5_reachable) as Ht.
  destruct (Ht Hr Hs) as (token & who & answer & c & command & clients & i & o & client & result
    & _ & _ & _ & Hwho & _).
  exists response, who. split; [exact eq_refl|]. split; [exact Hwho|exact Hs].
Defined.

(** A network on which the assertion lapses between the check of the scope and the discovery of
    the owner, and whose Control then names another tenant. *)
Definition other : Ownership :=
  signed (mkOwnership "other" "app" "env" "lwps://a:7443" "owner-a" 1 30000000 60000000 1
    (keyFingerprint pub) "").
Definition otherPlane (path : string) : option Reply :=
  if bool_decide (path = "/v1/runtime/ownership") then Some (mkReply 200 (Marshal other))
  else controlPlane path.
Definition network6 : Network :=
  mkNetwork (fun i => match i with O => 2000000 | _ => 31000000 end)
    (fun i => match i with O => controlPlane | _ => otherPlane end)
    (fun _ _ _ => Ret tt) (fun _ _ _ => Ret tt) (fun _ _ _ _ => Ret []).

Lemma network6_honest : networkHonest published1 network6.
Proof.
  intros [|i]; (split; [unfold instant; simpl; lia|]); [exact honest1|].
  intros keySet item key Hf. exact (honest1 keySet item key Hf).
Qed.

Definition who5 : Identity := mkIdentity "user" "user@example.com" "tenant" "app" "env".
Definition tenants6 : bool * list string :=
  let '(result, _, runs) := ownedCommand network6 runtime5 who5 (acceptCommand who5 "ticket" "key") in
  (returns result, (fun run => run.1.(Own_TenantID)) <$> runs).

(** The scope is not compared again with an assertion resolved after the check: with an honest
    Control and a fresh gateway, the command of a user of one tenant runs, and succeeds, on the
    runtime of another once the first assertion has lapsed. *)
Example scope_not_rechecked :
  networkHonest published1 network6 ∧ gatewayReachable published1 runtime5
  ∧ who5.(Identity_TenantID) = "tenant" ∧ tenants6 = (true, ["other"]).
Proof.
  split_and!; [exact network6_honest|exact runtime5_reachable|reflexivity|vm_compute; reflexivity].
Qed.

Lemma derive_key_binds_witness :
  deriveKey "accept-v1" "user" " k" = deriveKey "accept-v1" "user" "k "
  ∧ (TrimSpace " k" = TrimSpace "k "
     ∨ Sum256 (deriveKeyText "accept-v1" "user" " k") = Sum256 (deriveKeyText "accept-v1" "user" "k ")).
Proof.
  assert (He : deriveKey "accept-v1" "user" " k" = deriveKey "accept-v1" "user" "k ")
    by (vm_compute; reflexivity).
  assert (Hn : ∀ s, forallb (fun b => negb (Byte.eqb b x00)) (bytes_of s) = true → noNul s).
  { intros s Hs Hin. rewrite forallb_forall in Hs. by apply list_elem_of_In, Hs in Hin. }
  split; [exact He|].
  destruct (derive_key_binds "accept-v1" "user" " k" "accept-v1" "user" "k ") as [(_ & _ & H)|[_ H]];
    [apply Hn; reflexivity..|exact He|left; exact H|right; exact H].
Defined.
End LifecycleSamples.
